(** * OCP specification parser: segmentation, hierarchy, requirements

    Shallow embedding of the section/requirement extraction engine found in
    [OCP_parser_v3.py], [ocp_parser.py], [ocpparser3.py] and [OCP_parser.py],
    together with the properties its specification states about it.

    Text is modelled as [list ascii]; a character stands for the code point
    with the same number (0..255), so the character classes below follow
    Python's [str] predicates on that range.  Code points above 255 are not
    representable. *)

From Stdlib Require Import Ascii String ZArith Lia DecimalString.
From stdpp Require Import gmap strings list fin_maps sorting.

Local Open Scope nat_scope.

Abbreviation pystr := (list ascii).

(** A literal: [lit "3 Power"] is the text with those characters. *)
Definition lit (s : string) : pystr := list_ascii_of_string s.

(** ** Python runtime: exceptions *)

Inductive exn : Type :=
| IndexError
| KeyError
| AttributeError
| FileNotFoundError.

Inductive result (A : Type) : Type :=
| Ok (a : A)
| Raise (e : exn).
Arguments Ok {A} a.
Arguments Raise {A} e.

#[global] Instance result_ret : MRet result := λ A a, Ok a.
#[global] Instance result_bind : MBind result :=
  λ A B f r, match r with Ok a => f a | Raise e => Raise e end.
#[global] Instance result_fmap : FMap result :=
  λ A B f r, match r with Ok a => Ok (f a) | Raise e => Raise e end.

Definition returns {A} (r : result A) : Prop := ∃ a, r = Ok a.

(** [l[i]] with Python's negative indices; out of range raises. *)
Definition getitem {A} (l : list A) (i : Z) : result A :=
  let j := (if i <? 0 then i + Z.of_nat (length l) else i)%Z in
  if (j <? 0)%Z then Raise IndexError
  else match l !! Z.to_nat j with
       | Some x => Ok x
       | None => Raise IndexError
       end.

(** [d[k]]: a missing key raises. *)
Definition dict_getitem (d : gmap pystr pystr) (k : pystr) : result pystr :=
  match d !! k with
  | Some v => Ok v
  | None => Raise KeyError
  end.

(** ** Python runtime: characters and strings *)

Module Py.

Definition code (c : ascii) : nat := nat_of_ascii c.

Definition in_range (lo hi : nat) (c : ascii) : bool :=
  (lo <=? code c) && (code c <=? hi).

(** [\d]: decimal digits. *)
Definition is_digit (c : ascii) : bool := in_range 48 57 c.

(** [str.isspace] / [\s]: TAB..CR, FS..US, space, NEL, NBSP. *)
Definition is_space (c : ascii) : bool :=
  in_range 9 13 c || in_range 28 32 c
  || (code c =? 133) || (code c =? 160).

Definition is_upper (c : ascii) : bool := in_range 65 90 c.
Definition is_lower (c : ascii) : bool := in_range 97 122 c.

(** [\w]: alphanumeric code points and the underscore. *)
Definition is_word (c : ascii) : bool :=
  is_digit c || is_upper c || is_lower c || (code c =? 95)
  || (code c =? 170) || (code c =? 181) || (code c =? 186)
  || in_range 178 179 c || (code c =? 185) || in_range 188 190 c
  || in_range 192 214 c || in_range 216 246 c || in_range 248 255 c.

(** Lower-casing as used by [re.IGNORECASE] on the letters of the patterns
    (all of them ASCII letters). *)
Definition lower (c : ascii) : ascii :=
  if is_upper c then ascii_of_nat (code c + 32) else c.

Definition eqc (a b : ascii) : bool := bool_decide (a = b).

Definition newline : ascii := ascii_of_nat 10.
Definition dot : ascii := ascii_of_nat 46.

(** [s.split(sep)] for a one-character separator. *)
Fixpoint split (sep : ascii) (s : pystr) : list pystr :=
  match s with
  | [] => [[]]
  | c :: s' =>
      if eqc c sep then [] :: split sep s'
      else match split sep s' with
           | [] => [[c]]
           | p :: ps => (c :: p) :: ps
           end
  end.

(** [sep.join(parts)]. *)
Fixpoint join (sep : pystr) (parts : list pystr) : pystr :=
  match parts with
  | [] => []
  | [p] => p
  | p :: ps => p ++ sep ++ join sep ps
  end.

(** [s.lstrip()], [s.rstrip()], [s.strip()]. *)
Fixpoint lstrip (s : pystr) : pystr :=
  match s with
  | c :: s' => if is_space c then lstrip s' else s
  | [] => []
  end.

Definition rstrip (s : pystr) : pystr := reverse (lstrip (reverse s)).
Definition strip (s : pystr) : pystr := rstrip (lstrip s).

(** Truth value of a string: non-empty. *)
Definition truthy (s : pystr) : bool :=
  match s with [] => false | _ => true end.

(** [s.split()]: the maximal runs of non-whitespace characters. *)
Fixpoint words_aux (cur : pystr) (s : pystr) : list pystr :=
  match s with
  | [] => match cur with [] => [] | _ => [reverse cur] end
  | c :: s' =>
      if is_space c
      then match cur with
           | [] => words_aux [] s'
           | _ => reverse cur :: words_aux [] s'
           end
      else words_aux (c :: cur) s'
  end.

Definition words (s : pystr) : list pystr := words_aux [] s.

(** [s.splitlines()]: boundaries are LF, CR, CRLF, VT, FF, FS, GS, RS, NEL;
    no empty last line after a final boundary. *)
Definition is_linebreak (c : ascii) : bool :=
  in_range 10 13 c || in_range 28 30 c || (code c =? 133).

Fixpoint splitlines_aux (cur : pystr) (s : pystr) : list pystr :=
  match s with
  | [] => match cur with [] => [] | _ => [reverse cur] end
  | c :: s' =>
      if is_linebreak c then
        match s' with
        | c' :: s'' =>
            if (code c =? 13) && (code c' =? 10)
            then reverse cur :: splitlines_aux [] s''
            else reverse cur :: splitlines_aux [] s'
        | [] => [reverse cur]
        end
      else splitlines_aux (c :: cur) s'
  end.

Definition splitlines (s : pystr) : list pystr := splitlines_aux [] s.

(** [s.replace(a, b)] for one-character [a] and [b]. *)
Definition replace (a b : ascii) (s : pystr) : pystr :=
  (λ c, if eqc c a then b else c) <$> s.

(** [a in s] for a one-character [a]. *)
Definition contains (a : ascii) (s : pystr) : bool :=
  existsb (eqc a) s.

(** [str(n)] for a non-negative integer. *)
Definition str_of_nat (n : nat) : pystr :=
  lit (NilEmpty.string_of_uint (Nat.to_uint n)).

(** [s[a:b]] with [0 <= a <= b]. *)
Definition slice (a b : nat) (s : pystr) : pystr := take (b - a) (drop a s).

End Py.

(** ** Python runtime: the [re] module

    A backtracking matcher with Python's priorities: alternatives are tried
    left to right, [*] is greedy and gives characters back one iteration at a
    time, and the first complete match found is the result. *)

Module Re.
Import Py.

Inductive regex : Type :=
| Eps
| Chr (p : ascii → bool)        (* one character of a class *)
| Seq (a b : regex)
| Alt (a b : regex)
| Star (a : regex)              (* greedy repetition *)
| Group (n : nat) (a : regex)   (* capturing group number [n] *)
| Bol (multiline : bool)        (* ^ *)
| Eol (multiline : bool)        (* $ *)
| WordB.                        (* \b *)

(** Matcher state: position, previous character, remaining input and the
    spans of the groups closed so far. *)
Record mstate : Type := MState {
  m_pos : nat;
  m_prev : option ascii;
  m_rest : pystr;
  m_groups : list (nat * (nat * nat))
}.

Definition advance (st : mstate) (c : ascii) (rest : pystr) : mstate :=
  MState (S (m_pos st)) (Some c) rest (m_groups st).

Definition set_group (n start : nat) (st : mstate) : mstate :=
  MState (m_pos st) (m_prev st) (m_rest st)
         ((n, (start, m_pos st)) :: m_groups st).

Definition at_bol (multiline : bool) (st : mstate) : bool :=
  match m_prev st with
  | None => true
  | Some c => multiline && eqc c newline
  end.

Definition at_eol (multiline : bool) (st : mstate) : bool :=
  match m_rest st with
  | [] => true
  | c :: rest =>
      eqc c newline && (multiline || match rest with [] => true | _ => false end)
  end.

Definition word_opt (c : option ascii) : bool :=
  match c with Some x => is_word x | None => false end.

Definition at_wordb (st : mstate) : bool :=
  xorb (word_opt (m_prev st)) (word_opt (head (m_rest st))).

(** Greedy loop of [Star]: try one more iteration of [body], and only when
    that fails go on with [k].  An iteration must consume input (no
    repeated part of the parsers' patterns can match the empty string), so
    the length of the remaining input bounds the number of iterations; see
    [star_loop_fuel]. *)
Fixpoint star_loop (body : mstate → (mstate → option mstate) → option mstate)
    (k : mstate → option mstate) (n : nat) (st : mstate) : option mstate :=
  match n with
  | 0 => k st
  | S n' =>
      match body st (λ st',
              if length (m_rest st') <? length (m_rest st)
              then star_loop body k n' st' else None) with
      | Some x => Some x
      | None => k st
      end
  end.

(** [run r st k]: match [r] at [st], then continue with [k]; [None] asks the
    caller to backtrack. *)
Fixpoint run (r : regex) (st : mstate) (k : mstate → option mstate)
  : option mstate :=
  match r with
  | Eps => k st
  | Chr p =>
      match m_rest st with
      | c :: rest => if p c then k (advance st c rest) else None
      | [] => None
      end
  | Seq a b => run a st (λ st', run b st' k)
  | Alt a b =>
      match run a st k with
      | Some x => Some x
      | None => run b st k
      end
  | Star a => star_loop (run a) k (length (m_rest st)) st
  | Group n a => run a st (λ st', k (set_group n (m_pos st) st'))
  | Bol ml => if at_bol ml st then k st else None
  | Eol ml => if at_eol ml st then k st else None
  | WordB => if at_wordb st then k st else None
  end.

(** A match object: span and group spans over the subject string. *)
Record rmatch : Type := RMatch {
  r_subject : pystr;
  r_start : nat;
  r_end : nat;
  r_groups : list (nat * (nat * nat))
}.

(** [m.group(0)]. *)
Definition group0 (m : rmatch) : pystr :=
  slice (r_start m) (r_end m) (r_subject m).

Fixpoint assoc_span (n : nat) (gs : list (nat * (nat * nat)))
  : option (nat * nat) :=
  match gs with
  | [] => None
  | (i, sp) :: gs' => if i =? n then Some sp else assoc_span n gs'
  end.

(** [m.group(n)] for a group that took part in the match. *)
Definition group (n : nat) (m : rmatch) : pystr :=
  match assoc_span n (r_groups m) with
  | Some (a, b) => slice a b (r_subject m)
  | None => []
  end.

(** One match attempt at a given position.  [must_advance] refuses an empty
    match there (set by [finditer] after an empty match). *)
Definition attempt (r : regex) (subject : pystr) (must_advance : bool)
    (pos : nat) (prev : option ascii) (rest : pystr) : option rmatch :=
  match run r (MState pos prev rest [])
          (λ st, if must_advance && (m_pos st =? pos) then None
                 else Some st) with
  | Some st => Some (RMatch subject pos (m_pos st) (m_groups st))
  | None => None
  end.

(** [pattern.match(s)]: an attempt at position 0 only. *)
Definition rematch (r : regex) (s : pystr) : option rmatch :=
  attempt r s false 0 None s.

(** Scan for the first position with a match, from [pos] on. *)
Fixpoint scan (r : regex) (subject : pystr) (must_advance : bool)
    (pos : nat) (prev : option ascii) (rest : pystr) : option rmatch :=
  match attempt r subject must_advance pos prev rest with
  | Some m => Some m
  | None =>
      match rest with
      | [] => None
      | c :: rest' => scan r subject false (S pos) (Some c) rest'
      end
  end.

(** [pattern.search(s)]. *)
Definition search (r : regex) (s : pystr) : option rmatch :=
  scan r s false 0 None s.

(** [pattern.finditer(s)]: successive non-overlapping matches; after an
    empty match the next one must end further right.  The fuel bounds the
    number of matches (see [finditer_aux_fuel]). *)
Fixpoint finditer_aux (fuel : nat) (r : regex) (s : pystr)
    (must_advance : bool) (pos : nat) : list rmatch :=
  match fuel with
  | 0 => []
  | S fuel' =>
      match scan r s must_advance pos (last (take pos s)) (drop pos s) with
      | None => []
      | Some m =>
          m :: finditer_aux fuel' r s (r_end m =? r_start m) (r_end m)
      end
  end.

Definition finditer (r : regex) (s : pystr) : list rmatch :=
  finditer_aux (2 * length s + 2) r s false 0.

(** [pattern.findall(s)] for a pattern without groups. *)
Definition findall (r : regex) (s : pystr) : list pystr :=
  group0 <$> finditer r s.

(** The attempt that [search] makes at position [i] of [s]. *)
Definition attempt_at (r : regex) (s : pystr) (i : nat) : option rmatch :=
  attempt r s false i (last (take i s)) (drop i s).

(** [st'] lies ahead of [st] in the same input. *)
Definition reach (st st' : mstate) : Prop :=
  ∃ consumed, m_rest st = consumed ++ m_rest st'
              ∧ m_pos st' = m_pos st + length consumed.

(** A successful [body] got its result from its continuation, called on a
    state further ahead. *)
Definition answers (body : mstate → (mstate → option mstate) → option mstate)
  : Prop :=
  ∀ st k x, body st k = Some x → ∃ st', reach st st' ∧ k st' = Some x.

(** [body] looks at its continuation only on states further ahead. *)
Definition local (body : mstate → (mstate → option mstate) → option mstate)
  : Prop :=
  ∀ st k1 k2, (∀ st', reach st st' → k1 st' = k2 st') →
              body st k1 = body st k2.

(** *** Pattern combinators *)

Definition plus (a : regex) : regex := Seq a (Star a).
Definition chr (c : ascii) : regex := Chr (eqc c).
(** A literal character under [re.IGNORECASE]. *)
Definition chr_i (c : ascii) : regex := Chr (λ x, eqc (lower x) (lower c)).
Definition none_of (cs : pystr) : regex := Chr (λ x, negb (existsb (eqc x) cs)).
Definition one_of (cs : pystr) : regex := Chr (λ x, existsb (eqc x) cs).
Definition digit : regex := Chr is_digit.               (* \d *)
Definition space : regex := Chr is_space.               (* \s *)
Definition anychar : regex := Chr (λ x, negb (eqc x newline)).  (* . *)

Fixpoint seqs (rs : list regex) : regex :=
  match rs with
  | [] => Eps
  | [r] => r
  | r :: rs' => Seq r (seqs rs')
  end.

(** A literal word under [re.IGNORECASE]. *)
Definition word_i (s : string) : regex := seqs (chr_i <$> lit s).

End Re.

(** Truth values used by the source's [if] tests. *)
Definition is_some {A} (o : option A) : bool :=
  match o with Some _ => true | None => false end.

Definition nonempty {A} (l : list A) : bool :=
  match l with [] => false | _ => true end.

(** [key in d]. *)
Definition dict_contains (d : gmap pystr pystr) (k : pystr) : bool :=
  is_some (d !! k).

(** [m.group(0)] on the result of a search; on [None] it raises. *)
Definition match_group0 (m : option Re.rmatch) : result pystr :=
  match m with
  | Some m => Ok (Re.group0 m)
  | None => Raise AttributeError
  end.

(** Monadic left fold: the body of a [for] loop run over a list. *)
Fixpoint for_each {A S} (body : S → A → result S) (l : list A) (s : S)
  : result S :=
  match l with
  | [] => Ok s
  | x :: l' => s' ← body s x; for_each body l' s'
  end.

(** A page handed over by the text extraction. *)
Record Page : Type := { page_number : Z; text : pystr }.

(** * [OCP_parser_v3.py]: nested requirements, parenthetical anchors *)

Module V3.
Import Py Re.

Record HierarchyTree : Type := {
  current : pystr;
  parent : option pystr;
  grandparent : option pystr;
  ancestors : list pystr
}.

Record SectionMetadata : Type := {
  content_length : nat;
  requirement_count : nat;
  reference_count : nat;
  has_subsections : bool;
  depth : nat;
  word_count : nat
}.

Record Requirement : Type := {
  requirement_id : pystr;
  shall_text : pystr;
  context_before : list pystr;
  context_after : list pystr;
  anchor : option pystr;
  req_page_number : Z;
  req_hierarchy : pystr;
  parent_hierarchy : option pystr
}.

Record Section : Type := {
  id : pystr;
  hierarchy : pystr;
  hierarchy_tree : HierarchyTree;
  title : pystr;
  requirements : list Requirement;
  sec_page_number : Z;
  metadata : SectionMetadata;
  raw_content : pystr
}.

(** The section header pattern: start of string; group 1, a run of digits
    followed by any number of ".digits" repetitions; group 2, a whitespace
    run; group 3, one or more characters other than newline; end of
    string. *)
Definition SECTION_PATTERN : regex :=
  seqs [Bol false;
        Group 1 (Seq (plus digit) (Star (Seq (chr ".") (plus digit))));
        Group 2 (plus space);
        Group 3 (plus anychar);
        Eol false].

(** Pattern "\bshall\b" with IGNORECASE. *)
Definition SHALL_PATTERN : regex := seqs [WordB; word_i "shall"; WordB].

(** Pattern "\(see\b[^)]*\)" with IGNORECASE. *)
Definition ANCHOR_PATTERN : regex :=
  seqs [chr "("; word_i "see"; WordB; Star (none_of (lit ")")); chr ")"].

(** The section being accumulated ([current] in [parse]). *)
Record SectionData : Type := {
  d_number : pystr;
  d_title : pystr;
  d_full_name : pystr;
  d_page_number : Z;
  d_lines : list pystr
}.

(** [build_hierarchy_tree] ([OCP_parser_v3.py], lines 111-125). *)
Definition build_hierarchy_tree (section_title_map : gmap pystr pystr)
    (section_number : pystr) : result HierarchyTree :=
  let parts := split dot section_number in
  ancestors ← for_each
    (λ ancestors i,
       let key := join (lit ".") (take i parts) in
       if dict_contains section_title_map key
       then v ← dict_getitem section_title_map key; Ok (ancestors ++ [v])
       else Ok ancestors)
    (seq 1 (length parts - 1)) [];
  parent ← (if nonempty ancestors
            then Some <$> getitem ancestors (-1) else Ok None);
  grandparent ← (if 2 <=? length ancestors
                 then Some <$> getitem ancestors (-2) else Ok None);
  Ok {| current := default section_number (section_title_map !! section_number);
        parent := parent;
        grandparent := grandparent;
        ancestors := ancestors |}.

(** The loop for the context before (lines 146-153):
    [while i >= 0: ...; i -= 1], at most [fuel] iterations. *)
Fixpoint before_loop (lines : list pystr) (fuel : nat) (i : Z)
  : result (list pystr) :=
  match fuel with
  | 0 => Ok []
  | S fuel' =>
      if (0 <=? i)%Z then
        l ← getitem lines i;
        if truthy (strip l) then l' ← getitem lines i; Ok [l']
        else before_loop lines fuel' (i - 1)%Z
      else Ok []
  end.

(** The loop for the context after (lines 155-162):
    [while i < len(lines): ...; i += 1], at most [fuel] iterations. *)
Fixpoint after_loop (lines : list pystr) (fuel : nat) (i : Z)
  : result (list pystr) :=
  match fuel with
  | 0 => Ok []
  | S fuel' =>
      if (i <? Z.of_nat (length lines))%Z then
        l ← getitem lines i;
        if truthy (strip l) then l' ← getitem lines i; Ok [l']
        else after_loop lines fuel' (i + 1)%Z
      else Ok []
  end.

(** Body of the [for idx, line in enumerate(lines)] loop for a line that
    matched [SHALL_PATTERN] (lines 146-185); [count] is
    [len(requirements)]. *)
Definition make_requirement (lines : list pystr) (section_id hierarchy : pystr)
    (parent_hierarchy : option pystr) (page_number : Z)
    (count : nat) (idx : nat) (line : pystr) : result Requirement :=
  before ← before_loop lines (length lines) (Z.of_nat idx - 1)%Z;
  after ← after_loop lines (length lines) (Z.of_nat idx + 1)%Z;
  let anchor_match := search ANCHOR_PATTERN line in
  anchor_match ← (if negb (is_some anchor_match) && nonempty after
                  then a ← getitem after 0; Ok (search ANCHOR_PATTERN a)
                  else Ok anchor_match);
  anchor ← (if is_some anchor_match
            then Some <$> match_group0 anchor_match else Ok None);
  let req_id := section_id ++ lit "_req_" ++ str_of_nat (count + 1) in
  Ok {| requirement_id := req_id;
        shall_text := line;
        context_before := before;
        context_after := after;
        anchor := anchor;
        req_page_number := page_number;
        req_hierarchy := hierarchy;
        parent_hierarchy := parent_hierarchy |}.

(** The loop [for idx, line in enumerate(lines)] (lines 142-185), with
    [rest] the lines from index [idx] on. *)
Fixpoint requirements_loop (lines : list pystr) (section_id hierarchy : pystr)
    (parent_hierarchy : option pystr) (page_number : Z)
    (idx : nat) (rest : list pystr) (requirements : list Requirement)
  : result (list Requirement) :=
  match rest with
  | [] => Ok requirements
  | line :: rest' =>
      if negb (is_some (search SHALL_PATTERN line))
      then requirements_loop lines section_id hierarchy parent_hierarchy
             page_number (S idx) rest' requirements
      else
        r ← make_requirement lines section_id hierarchy parent_hierarchy
              page_number (length requirements) idx line;
        requirements_loop lines section_id hierarchy parent_hierarchy
          page_number (S idx) rest' (requirements ++ [r])
  end.

(** [extract_requirements_with_context] (lines 131-187). *)
Definition extract_requirements_with_context (lines : list pystr)
    (section_id hierarchy : pystr) (parent_hierarchy : option pystr)
    (page_number : Z) : result (list Requirement) :=
  requirements_loop lines section_id hierarchy parent_hierarchy page_number
    0 lines [].

(** [_finalize_section] (lines 233-266). *)
Definition _finalize_section (section_title_map : gmap pystr pystr)
    (data : SectionData) : result Section :=
  let lines := d_lines data in
  let content := join [newline] lines in
  hierarchy_tree ← build_hierarchy_tree section_title_map (d_number data);
  let section_id := lit "section_" ++ replace "." "_" (d_number data) in
  requirements ← extract_requirements_with_context lines section_id
                   (d_full_name data) (parent hierarchy_tree)
                   (d_page_number data);
  let metadata :=
    {| content_length := length content;
       requirement_count := length requirements;
       reference_count := length (findall ANCHOR_PATTERN content);
       has_subsections := contains "." (d_number data);
       depth := length (split dot (d_number data));
       word_count := length (words content) |} in
  Ok {| id := section_id;
        hierarchy := d_full_name data;
        hierarchy_tree := hierarchy_tree;
        title := d_title data;
        requirements := requirements;
        sec_page_number := d_page_number data;
        metadata := metadata;
        raw_content := content |}.

(** Loop state of [parse]: [sections], [current] and the parser's
    [section_title_map]. *)
Record PState : Type := {
  sections : list Section;
  cur : option SectionData;
  section_title_map : gmap pystr pystr
}.

(** [if current: sections.append(self._finalize_section(current))]. *)
Definition close_current (st : PState) : result (list Section) :=
  match cur st with
  | Some c =>
      s ← _finalize_section (section_title_map st) c;
      Ok (sections st ++ [s])
  | None => Ok (sections st)
  end.

(** Body of [for line in lines] (lines 202-222). *)
Definition parse_line (page_number : Z) (st : PState) (line : pystr)
  : result PState :=
  match rematch SECTION_PATTERN line with
  | Some m =>
      sections ← close_current st;
      let number := group 1 m in
      let title := group 3 m in
      let full_name := number ++ lit " " ++ title in
      Ok {| sections := sections;
            cur := Some {| d_number := number; d_title := title;
                           d_full_name := full_name;
                           d_page_number := page_number;
                           d_lines := [] |};
            section_title_map := <[number := full_name]> (section_title_map st) |}
  | None =>
      match cur st with
      | Some c =>
          Ok {| sections := sections st;
                cur := Some {| d_number := d_number c; d_title := d_title c;
                               d_full_name := d_full_name c;
                               d_page_number := d_page_number c;
                               d_lines := d_lines c ++ [line] |};
                section_title_map := section_title_map st |}
      | None => Ok st
      end
  end.

(** Body of [for page in pages]. *)
Definition parse_page (st : PState) (page : Page) : result PState :=
  for_each (parse_line (page_number page)) (splitlines (text page)) st.

(** State of a freshly constructed parser. *)
Definition init_state : PState :=
  {| sections := []; cur := None; section_title_map := ∅ |}.

(** [parse] (lines 193-227), given the pages returned by
    [extract_text_with_pages]; the final title map is returned along with
    the sections. *)
Definition parse_from (st : PState) (pages : list Page)
  : result (list Section * gmap pystr pystr) :=
  st ← for_each parse_page pages st;
  sections ← close_current st;
  Ok (sections, section_title_map st).

Definition parse (pages : list Page)
  : result (list Section * gmap pystr pystr) :=
  parse_from init_state pages.

(** [OCPSpecificationParser(pdf_path)] followed by [parse()]:
    [path_exists] is the outcome of [self.pdf_path.exists()]. *)
Definition run_parser (path_exists : bool) (pages : list Page)
  : result (list Section * gmap pystr pystr) :=
  if negb path_exists then Raise FileNotFoundError
  else parse pages.

End V3.

(** [range(start, stop)] and [range(start, stop, -1)]. *)
Definition range (start stop : Z) : list Z :=
  (λ k, start + Z.of_nat k)%Z <$> seq 0 (Z.to_nat (stop - start)).

Definition range_down (start stop : Z) : list Z :=
  (λ k, start - Z.of_nat k)%Z <$> seq 0 (Z.to_nat (start - stop)).

(** [list(dict.fromkeys(l))]: the keys of an insertion-ordered dict filled
    from [l]; a key that is already present keeps its place. *)
Fixpoint fromkeys_aux (keys : list pystr) (l : list pystr) : list pystr :=
  match l with
  | [] => keys
  | x :: l' =>
      fromkeys_aux (if bool_decide (x ∈ keys) then keys else keys ++ [x]) l'
  end.

Definition fromkeys (l : list pystr) : list pystr := fromkeys_aux [] l.

(** * [ocp_parser.py]: flat records, one per requirement *)

Module Flat.
Import Py Re.

Record HierarchyTree : Type := {
  parent : option pystr;
  grandparent : option pystr;
  ancestors : list pystr
}.

Record SectionMetadata : Type := {
  content_length : nat;
  requirement_count : nat;
  reference_count : nat;
  has_subsections : bool;
  depth : nat;
  word_count_in_section : nat
}.

(** The metadata object is shared: every record of a section holds the same
    [metadata.__dict__], and [_finalize_section] assigns to
    [metadata.requirement_count] after the records are built.  Records hold
    a reference into a store of metadata objects. *)
Abbreviation heap := (list SectionMetadata).

Record FlatRecord : Type := {
  hierarchy : pystr;
  hierarchy_tree : HierarchyTree;
  rec_page_number : Z;
  shall_sentence : option pystr;
  before_shall : option pystr;
  after_shall : option pystr;
  anchor : option pystr;
  key_phrases : list pystr;
  metadata : nat
}.

Definition SECTION_PATTERN : regex := V3.SECTION_PATTERN.
Definition SHALL_PATTERN : regex := V3.SHALL_PATTERN.
Definition ANCHOR_PATTERN : regex := V3.ANCHOR_PATTERN.

Record SectionData : Type := {
  d_number : pystr;
  d_hierarchy : pystr;
  d_page_number : Z;
  d_lines : list pystr
}.

(** [build_hierarchy_tree] ([ocp_parser.py], lines 86-97). *)
Definition build_hierarchy_tree (section_title_map : gmap pystr pystr)
    (section_number : pystr) : result HierarchyTree :=
  let parts := split dot section_number in
  ancestors ← for_each
    (λ ancestors i,
       let key := join (lit ".") (take i parts) in
       if dict_contains section_title_map key
       then v ← dict_getitem section_title_map key; Ok (ancestors ++ [v])
       else Ok ancestors)
    (seq 1 (length parts - 1)) [];
  parent ← (if nonempty ancestors
            then Some <$> getitem ancestors (-1) else Ok None);
  grandparent ← (if 1 <? length ancestors
                 then Some <$> getitem ancestors (-2) else Ok None);
  Ok {| parent := parent; grandparent := grandparent;
        ancestors := ancestors |}.

(** [next((lines[i] for i in indices if lines[i].strip()), None)]. *)
Fixpoint next_nonblank (lines : list pystr) (indices : list Z)
  : result (option pystr) :=
  match indices with
  | [] => Ok None
  | i :: rest =>
      l ← getitem lines i;
      if truthy (strip l) then l' ← getitem lines i; Ok (Some l')
      else next_nonblank lines rest
  end.

Section WithKeyPhrases.

(** [extract_key_phrases] collects [re.findall] results in a set and sorts
    them; it is taken as a given function of the line. *)
Variable extract_key_phrases : pystr → list pystr.

(** Body of the [for idx, line in enumerate(lines)] loop for a line that
    matched [SHALL_PATTERN] (lines 171-188); [metadata] is the reference to
    the section's metadata object. *)
Definition make_record (lines : list pystr) (data : SectionData)
    (hierarchy_tree : HierarchyTree) (metadata : nat)
    (idx : nat) (line : pystr) : result FlatRecord :=
  before ← next_nonblank lines (range_down (Z.of_nat idx - 1) (-1));
  after ← next_nonblank lines
            (range (Z.of_nat idx + 1) (Z.of_nat (length lines)));
  let anchor_match := search ANCHOR_PATTERN line in
  let anchor_match :=
    match after with
    | Some a =>
        if negb (is_some anchor_match) && truthy a
        then search ANCHOR_PATTERN a else anchor_match
    | None => anchor_match
    end in
  anchor ← (if is_some anchor_match
            then Some <$> match_group0 anchor_match else Ok None);
  Ok {| hierarchy := d_hierarchy data;
        hierarchy_tree := hierarchy_tree;
        rec_page_number := d_page_number data;
        shall_sentence := Some (strip line);
        before_shall := before;
        after_shall := after;
        anchor := anchor;
        key_phrases := extract_key_phrases line;
        metadata := metadata |}.

(** The loop [for idx, line in enumerate(lines)] (lines 167-188). *)
Fixpoint records_loop (lines : list pystr) (data : SectionData)
    (hierarchy_tree : HierarchyTree) (metadata : nat)
    (idx : nat) (rest : list pystr) (records : list FlatRecord)
  : result (list FlatRecord) :=
  match rest with
  | [] => Ok records
  | line :: rest' =>
      if negb (is_some (search SHALL_PATTERN line))
      then records_loop lines data hierarchy_tree metadata (S idx) rest' records
      else
        r ← make_record lines data hierarchy_tree metadata idx line;
        records_loop lines data hierarchy_tree metadata (S idx) rest'
          (records ++ [r])
  end.

(** [metadata.requirement_count = n]. *)
Definition set_requirement_count (n : nat) (md : SectionMetadata)
  : SectionMetadata :=
  {| content_length := content_length md;
     requirement_count := n;
     reference_count := reference_count md;
     has_subsections := has_subsections md;
     depth := depth md;
     word_count_in_section := word_count_in_section md |}.

(** [_finalize_section] (lines 151-205): the metadata object is allocated
    in the store, the records refer to it, and its [requirement_count] is
    assigned last. *)
Definition _finalize_section (section_title_map : gmap pystr pystr)
    (data : SectionData) (h : heap) : result (list FlatRecord * heap) :=
  let lines := d_lines data in
  let content := join [newline] lines in
  hierarchy_tree ← build_hierarchy_tree section_title_map (d_number data);
  let metadata := length h in
  let h :=
    h ++ [ {| content_length := length content;
              requirement_count := 0;
              reference_count := length (findall ANCHOR_PATTERN content);
              has_subsections := contains "." (d_number data);
              depth := length (split dot (d_number data));
              word_count_in_section := length (words content) |} ] in
  records ← records_loop lines data hierarchy_tree metadata 0 lines [];
  let records :=
    if negb (nonempty records)
    then records ++ [ {| hierarchy := d_hierarchy data;
                         hierarchy_tree := hierarchy_tree;
                         rec_page_number := d_page_number data;
                         shall_sentence := None;
                         before_shall := None;
                         after_shall := None;
                         anchor := None;
                         key_phrases := [];
                         metadata := metadata |} ]
    else records in
  let h := alter (set_requirement_count (length records)) metadata h in
  Ok (records, h).

Record PState : Type := {
  output : list FlatRecord;
  cur : option SectionData;
  section_title_map : gmap pystr pystr;
  store : heap
}.

(** [if current: output.extend(self._finalize_section(current))]. *)
Definition close_current (st : PState) : result (list FlatRecord * heap) :=
  match cur st with
  | Some c =>
      '(records, h) ← _finalize_section (section_title_map st) c (store st);
      Ok (output st ++ records, h)
  | None => Ok (output st, store st)
  end.

(** Body of [for idx, line in enumerate(lines)] in [parse]
    (lines 121-140). *)
Definition parse_line (page_number : Z) (st : PState) (line : pystr)
  : result PState :=
  match rematch SECTION_PATTERN line with
  | Some m =>
      '(output, h) ← close_current st;
      let number := group 1 m in
      let title := group 3 m in
      let full_name := number ++ lit " " ++ title in
      Ok {| output := output;
            cur := Some {| d_number := number; d_hierarchy := full_name;
                           d_page_number := page_number; d_lines := [] |};
            section_title_map := <[number := full_name]> (section_title_map st);
            store := h |}
  | None =>
      match cur st with
      | Some c =>
          Ok {| output := output st;
                cur := Some {| d_number := d_number c;
                               d_hierarchy := d_hierarchy c;
                               d_page_number := d_page_number c;
                               d_lines := d_lines c ++ [line] |};
                section_title_map := section_title_map st;
                store := store st |}
      | None => Ok st
      end
  end.

Definition parse_page (st : PState) (page : Page) : result PState :=
  for_each (parse_line (page_number page)) (splitlines (text page)) st.

Definition init_state : PState :=
  {| output := []; cur := None; section_title_map := ∅; store := [] |}.

(** [parse] (lines 114-145): the records, the final store of metadata
    objects and the final title map. *)
Definition parse (pages : list Page)
  : result (list FlatRecord * heap * gmap pystr pystr) :=
  st ← for_each parse_page pages init_state;
  '(output, h) ← close_current st;
  Ok (output, h, section_title_map st).

End WithKeyPhrases.

(** What a reader of the output sees in a record's [metadata]. *)
Definition metadata_of (h : heap) (r : FlatRecord) : option SectionMetadata :=
  h !! metadata r.

End Flat.

(** * [ocpparser3.py]: section-level anchors, loose anchor pattern *)

Module P3.
Import Py Re.

Record HierarchyTree : Type := {
  current : pystr;
  parent : option pystr;
  grandparent : option pystr;
  ancestors : list pystr
}.

Record SectionMetadata : Type := {
  content_length : nat;
  requirement_count : nat;
  reference_count : nat;
  has_subsections : bool;
  depth : nat;
  word_count : nat
}.

Record Section : Type := {
  id : pystr;
  hierarchy : pystr;
  hierarchy_tree : HierarchyTree;
  title : pystr;
  anchors : list pystr;
  shall_sentences : list pystr;
  sec_page_number : Z;
  key_phrases : list pystr;
  metadata : SectionMetadata;
  raw_content : pystr
}.

(** The header pattern of [OCP_parser_v3.py], compiled with MULTILINE. *)
Definition SECTION_PATTERN : regex :=
  seqs [Bol true;
        Group 1 (Seq (plus digit) (Star (Seq (chr ".") (plus digit))));
        Group 2 (plus space);
        Group 3 (plus anychar);
        Eol true].

Definition SHALL_PATTERN : regex := seqs [WordB; word_i "shall"; WordB].

(** Pattern "\bsee\s+[^\n.,;]+" with IGNORECASE. *)
Definition ANCHOR_PATTERN : regex :=
  seqs [WordB; word_i "see"; plus space;
        plus (none_of (newline :: lit ".,;"))].

Record SectionData : Type := {
  d_number : pystr;
  d_title : pystr;
  d_full_name : pystr;
  d_page_number : Z;
  d_content : pystr
}.

(** [build_hierarchy_tree] ([ocpparser3.py], lines 117-135). *)
Definition build_hierarchy_tree (section_title_map : gmap pystr pystr)
    (section_number : pystr) : result HierarchyTree :=
  let parts := split dot section_number in
  ancestors ← for_each
    (λ ancestors i,
       let key := join (lit ".") (take i parts) in
       if dict_contains section_title_map key
       then v ← dict_getitem section_title_map key; Ok (ancestors ++ [v])
       else Ok ancestors)
    (seq 1 (length parts - 1)) [];
  let current := default section_number (section_title_map !! section_number) in
  parent ← (if nonempty ancestors
            then Some <$> getitem ancestors (-1) else Ok None);
  grandparent ← (if 2 <=? length ancestors
                 then Some <$> getitem ancestors (-2) else Ok None);
  Ok {| current := current; parent := parent; grandparent := grandparent;
        ancestors := ancestors |}.

(** [extract_anchors] and [extract_shall_sentences] (lines 141-145). *)
Definition extract_anchors (text : pystr) : list pystr :=
  group0 <$> finditer ANCHOR_PATTERN text.

Definition extract_shall_sentences (text : pystr) : list pystr :=
  filter (λ line, is_some (search SHALL_PATTERN line) = true) (splitlines text).

(** [_finalize_section] (lines 194-222). *)
Definition _finalize_section (section_title_map : gmap pystr pystr)
    (data : SectionData) : result Section :=
  let content := d_content data in
  hierarchy_tree ← build_hierarchy_tree section_title_map (d_number data);
  let anchors := extract_anchors content in
  let shall_sentences := extract_shall_sentences content in
  let metadata :=
    {| content_length := length content;
       requirement_count := length shall_sentences;
       reference_count := length anchors;
       has_subsections := contains "." (d_number data);
       depth := length (split dot (d_number data));
       word_count := length (words content) |} in
  Ok {| id := lit "section_" ++ replace "." "_" (d_number data);
        hierarchy := d_full_name data;
        hierarchy_tree := hierarchy_tree;
        title := d_title data;
        anchors := anchors;
        shall_sentences := shall_sentences;
        sec_page_number := d_page_number data;
        key_phrases := [];
        metadata := metadata;
        raw_content := content |}.

Record PState : Type := {
  sections : list Section;
  cur : option SectionData;
  section_title_map : gmap pystr pystr
}.

(** [if current_section: sections.append(...)]. *)
Definition close_current (st : PState) : result (list Section) :=
  match cur st with
  | Some c =>
      s ← _finalize_section (section_title_map st) c;
      Ok (sections st ++ [s])
  | None => Ok (sections st)
  end.

(** Body of [for line in lines] in [parse_sections] (lines 162-183). *)
Definition parse_line (page_number : Z) (st : PState) (line : pystr)
  : result PState :=
  match rematch SECTION_PATTERN line with
  | Some m =>
      sections ← close_current st;
      let section_number := group 1 m in
      let title := group 3 m in
      let full_name := section_number ++ lit " " ++ title in
      Ok {| sections := sections;
            cur := Some {| d_number := section_number; d_title := title;
                           d_full_name := full_name;
                           d_page_number := page_number;
                           d_content := [] |};
            section_title_map :=
              <[section_number := full_name]> (section_title_map st) |}
  | None =>
      match cur st with
      | Some c =>
          Ok {| sections := sections st;
                cur := Some {| d_number := d_number c; d_title := d_title c;
                               d_full_name := d_full_name c;
                               d_page_number := d_page_number c;
                               d_content := d_content c ++ line ++ [newline] |};
                section_title_map := section_title_map st |}
      | None => Ok st
      end
  end.

Definition parse_page (st : PState) (page : Page) : result PState :=
  for_each (parse_line (page_number page)) (splitlines (text page)) st.

Definition init_state : PState :=
  {| sections := []; cur := None; section_title_map := ∅ |}.

(** [parse_sections] (lines 154-188), with the final title map. *)
Definition parse_sections (pages : list Page)
  : result (list Section * gmap pystr pystr) :=
  st ← for_each parse_page pages init_state;
  sections ← close_current st;
  Ok (sections, section_title_map st).

End P3.

(** * [OCP_parser.py]: numeric hierarchy, sentence-level requirements *)

Module V1.
Import Py Re.

Record HierarchyTree : Type := {
  current : pystr;
  parent : option pystr;
  grandparent : option pystr;
  ancestors : list pystr
}.

Record SectionMetadata : Type := {
  content_length : nat;
  requirement_count : nat;
  reference_count : nat;
  has_subsections : bool;
  depth : nat;
  word_count : nat
}.

(** Pattern "[^.!?]*\bshall\b[^.!?]*[.!?]" with IGNORECASE. *)
Definition SHALL_PATTERN : regex :=
  seqs [Star (none_of (lit ".!?")); WordB; word_i "shall"; WordB;
        Star (none_of (lit ".!?")); one_of (lit ".!?")].

Definition digit_or_dot : regex := Chr (λ x, is_digit x || eqc x ".").

(** The five anchor patterns; all but the fourth are compiled with
    IGNORECASE. *)
Definition ANCHOR_PATTERNS : list regex :=
  [ seqs [word_i "see"; plus space; word_i "section"; plus space;
          plus digit_or_dot];
    seqs [word_i "refer"; plus space; word_i "to"; plus space;
          word_i "section"; plus space; plus digit_or_dot];
    seqs [word_i "defined"; plus space; word_i "in"; plus space;
          word_i "section"; plus space; plus digit_or_dot];
    seqs [one_of (lit "Ss"); seqs (chr <$> lit "ection"); plus space;
          plus digit_or_dot];
    seqs [word_i "see"; plus space; plus digit_or_dot] ].

(** [parts[:-k]]. *)
Definition drop_last (k : nat) (parts : list pystr) : list pystr :=
  take (length parts - k) parts.

(** [build_hierarchy_tree] ([OCP_parser.py], lines 116-126): no title map,
    the ancestors are the numeric prefixes. *)
Definition build_hierarchy_tree (hierarchy : pystr) : HierarchyTree :=
  let parts := split dot hierarchy in
  let ancestors :=
    (λ i, join (lit ".") (take (i + 1) parts)) <$> seq 0 (length parts - 1) in
  {| current := hierarchy;
     parent := if 1 <? length parts
               then Some (join (lit ".") (drop_last 1 parts)) else None;
     grandparent := if 2 <? length parts
                    then Some (join (lit ".") (drop_last 2 parts)) else None;
     ancestors := ancestors |}.

(** [extract_anchors] (lines 128-136). *)
Definition extract_anchors (text : pystr) : list pystr :=
  fromkeys (concat ((λ pattern, findall pattern text) <$> ANCHOR_PATTERNS)).

(** [extract_shall_sentences] (lines 138-143). *)
Definition extract_shall_sentences (text : pystr) : list pystr :=
  let matches := findall SHALL_PATTERN text in
  let shall_sentences :=
    strip <$> filter (λ s, 15 < length (strip s)) matches in
  fromkeys shall_sentences.

(** The section object, without its key phrases. *)
Record Section : Type := {
  id : pystr;
  hierarchy : pystr;
  title : pystr;
  hierarchy_tree : HierarchyTree;
  anchors : list pystr;
  shall_sentences : list pystr;
  sec_page_number : Z;
  metadata : SectionMetadata;
  raw_content : pystr
}.

Record SectionData : Type := {
  d_hierarchy : pystr;
  d_title : pystr;
  d_page_number : Z;
  d_content : pystr
}.

(** [_finalize_section] (lines 207-244). *)
Definition _finalize_section (section_data : SectionData) : Section :=
  let hierarchy := d_hierarchy section_data in
  let content := strip (d_content section_data) in
  let hierarchy_tree := build_hierarchy_tree hierarchy in
  let anchors := extract_anchors content in
  let shall_sentences := extract_shall_sentences content in
  let metadata :=
    {| content_length := length content;
       requirement_count := length shall_sentences;
       reference_count := length anchors;
       has_subsections := contains "." hierarchy;
       depth := length (split dot hierarchy);
       word_count := length (words content) |} in
  {| id := lit "section_" ++ replace "." "_" hierarchy;
     hierarchy := hierarchy;
     title := d_title section_data;
     hierarchy_tree := hierarchy_tree;
     anchors := anchors;
     shall_sentences := shall_sentences;
     sec_page_number := d_page_number section_data;
     metadata := metadata;
     raw_content := take 1000 content
                    ++ (if 1000 <? length content then lit "..." else []) |}.

End V1.

(** * Vocabulary of the specification *)

Module Spec.
Import Py.

(** [p] is a strict dot-separated prefix of [id]: [id] is [p], a dot and
    some remainder. *)
Definition strict_prefix_key (p id : pystr) : Prop :=
  ∃ rest, id = p ++ dot :: rest.

Definition shorter (a b : pystr) : Prop := length a < length b.

(** [keys] lists, shortest first, the strict prefixes of [id] that have an
    entry in the title map [m]. *)
Definition present_prefixes (m : gmap pystr pystr) (id : pystr)
    (keys : list pystr) : Prop :=
  (∀ p, p ∈ keys ↔ strict_prefix_key p id ∧ is_Some (m !! p))
  ∧ StronglySorted shorter keys.

(** [keys] lists, shortest first, all strict prefixes of [id]. *)
Definition all_prefixes (id : pystr) (keys : list pystr) : Prop :=
  (∀ p, p ∈ keys ↔ strict_prefix_key p id)
  ∧ StronglySorted shorter keys.

(** [names] are the title-map entries of the present prefixes, in order. *)
Definition resolved_from_map (m : gmap pystr pystr) (id : pystr)
    (names : list pystr) : Prop :=
  ∃ keys, present_prefixes m id keys
          ∧ Forall2 (λ k name, m !! k = Some name) keys names.

(** The element [k] places before the end: [from_end 0 l] is the last
    element, [from_end 1 l] the second-to-last. *)
Definition from_end {A} (k : nat) (l : list A) : option A := reverse l !! k.

(** A blank line: nothing but whitespace. *)
Definition blank (l : pystr) : Prop := Forall (λ c, is_space c = true) l.

Definition blank_at (lines : list pystr) (j : nat) : Prop :=
  ∀ l, lines !! j = Some l → blank l.

(** [ctx] is the nearest non-blank line before index [i], or absent when
    every earlier line is blank. *)
Definition nearest_before (lines : list pystr) (i : nat)
    (ctx : option pystr) : Prop :=
  match ctx with
  | Some l =>
      ∃ j, j < i ∧ lines !! j = Some l ∧ ¬ blank l
           ∧ ∀ j', j < j' → j' < i → blank_at lines j'
  | None => ∀ j, j < i → blank_at lines j
  end.

(** [ctx] is the nearest non-blank line after index [i], or absent. *)
Definition nearest_after (lines : list pystr) (i : nat)
    (ctx : option pystr) : Prop :=
  match ctx with
  | Some l =>
      ∃ j, i < j ∧ lines !! j = Some l ∧ ¬ blank l
           ∧ ∀ j', i < j' → j' < j → blank_at lines j'
  | None => ∀ j, i < j → blank_at lines j
  end.

(** The indices of the lines that contain a match of [pattern]. *)
Definition matching_indices (pattern : Re.regex) (lines : list pystr)
  : list nat :=
  filter (λ i, from_option (λ l, is_some (Re.search pattern l)) false
                 (lines !! i) = true)
         (seq 0 (length lines)).

(** [found] is the text of the leftmost match of [pattern] in [s], or
    absent when no position of [s] matches. *)
Definition leftmost (pattern : Re.regex) (s : pystr)
    (found : option pystr) : Prop :=
  match found with
  | Some x =>
      ∃ m, Re.attempt_at pattern s (Re.r_start m) = Some m
           ∧ x = Re.group0 m
           ∧ ∀ i, i < Re.r_start m → Re.attempt_at pattern s i = None
  | None => ∀ i, i ≤ length s → Re.attempt_at pattern s i = None
  end.

(** The anchor of a requirement: the leftmost match in the shall-line, and
    only when that line has none, the leftmost match in the line kept as
    context after it. *)
Definition anchor_resolved (pattern : Re.regex) (shall_line : pystr)
    (after : option pystr) (anchor : option pystr) : Prop :=
  (is_Some anchor ∧ leftmost pattern shall_line anchor)
  ∨ (leftmost pattern shall_line None
     ∧ match after with
       | Some l => leftmost pattern l anchor
       | None => anchor = None
       end).

(** The anchor as the extraction computes it. *)
Definition anchor_of (pattern : Re.regex) (shall_line : pystr)
    (after : option pystr) : option pystr :=
  match Re.search pattern shall_line with
  | Some m => Some (Re.group0 m)
  | None =>
      match after with
      | Some l => Re.group0 <$> Re.search pattern l
      | None => None
      end
  end.

(** The requirement that [OCP_parser_v3.py] builds for the shall-line at
    index [i] of a section's content lines. *)
Definition V3_requirement_at (lines : list pystr) (page : Z)
    (hierarchy : pystr) (parent_hierarchy : option pystr)
    (i : nat) (r : V3.Requirement) : Prop :=
  ∃ l b a,
    lines !! i = Some l
    ∧ V3.shall_text r = l
    ∧ V3.context_before r = option_list b
    ∧ V3.context_after r = option_list a
    ∧ nearest_before lines i b
    ∧ nearest_after lines i a
    ∧ V3.anchor r = anchor_of V3.ANCHOR_PATTERN l a
    ∧ V3.req_page_number r = page
    ∧ V3.req_hierarchy r = hierarchy
    ∧ V3.parent_hierarchy r = parent_hierarchy.

(** The record that [ocp_parser.py] builds for the shall-line at index
    [i]; [ref] is the reference to the section's metadata object. *)
Definition Flat_record_at (lines : list pystr) (data : Flat.SectionData)
    (tree : Flat.HierarchyTree) (ref : nat)
    (i : nat) (r : Flat.FlatRecord) : Prop :=
  ∃ l,
    lines !! i = Some l
    ∧ Flat.shall_sentence r = Some (strip l)
    ∧ nearest_before lines i (Flat.before_shall r)
    ∧ nearest_after lines i (Flat.after_shall r)
    ∧ Flat.anchor r = anchor_of Flat.ANCHOR_PATTERN l (Flat.after_shall r)
    ∧ Flat.hierarchy r = Flat.d_hierarchy data
    ∧ Flat.hierarchy_tree r = tree
    ∧ Flat.rec_page_number r = Flat.d_page_number data
    ∧ Flat.metadata r = ref.

(** The identifiers [<section_id>_req_<k>] for [k] from [first] on. *)
Definition requirement_ids (section_id : pystr) (first n : nat)
  : list pystr :=
  (λ k, section_id ++ lit "_req_" ++ str_of_nat k) <$> seq first n.

(** *** The line stream and its segmentation *)

(** The lines of all pages in stream order, each with its page number. *)
Definition stream (pages : list Page) : list (Z * pystr) :=
  pages ≫= λ p, (λ line, (page_number p, line)) <$> splitlines (text p).

(** Numeric id and title of a header line. *)
Definition header_of (pattern : Re.regex) (line : pystr)
  : option (pystr * pystr) :=
  match Re.rematch pattern line with
  | Some m => Some (Re.group 1 m, Re.group 3 m)
  | None => None
  end.

Definition is_header (pattern : Re.regex) (line : pystr) : bool :=
  is_some (Re.rematch pattern line).

Definition full_name (number title : pystr) : pystr :=
  number ++ lit " " ++ title.

(** Id and full name of every header line of a stream, in order. *)
Definition headers (pattern : Re.regex) (lines : list (Z * pystr))
  : list (pystr * pystr) :=
  omap (λ pl, (λ nt, (nt.1, full_name nt.1 nt.2)) <$> header_of pattern pl.2)
       lines.

(** The full name recorded by the last header with id [k], if any. *)
Definition last_header (k : pystr) (hs : list (pystr * pystr))
  : option pystr :=
  snd <$> last (filter (λ h, h.1 = k) hs).

(** The full name recorded by the first header with id [k], if any. *)
Definition first_header (k : pystr) (hs : list (pystr * pystr))
  : option pystr :=
  snd <$> head (filter (λ h, h.1 = k) hs).

(** A header line with the lines that follow it up to the next header. *)
Record segment : Type := {
  seg_page : Z;
  seg_header : pystr;
  seg_content : list (Z * pystr)
}.

Definition seg_lines (sg : segment) : list (Z * pystr) :=
  (seg_page sg, seg_header sg) :: seg_content sg.

Definition no_header (pattern : Re.regex) (lines : list (Z * pystr)) : Prop :=
  Forall (λ pl, is_header pattern pl.2 = false) lines.

(** The stream is a preamble without headers followed by the segments. *)
Definition segmentation (pattern : Re.regex) (lines : list (Z * pystr))
    (preamble : list (Z * pystr)) (segs : list segment) : Prop :=
  lines = preamble ++ concat (seg_lines <$> segs)
  ∧ no_header pattern preamble
  ∧ Forall (λ sg, is_header pattern (seg_header sg) = true
                  ∧ no_header pattern (seg_content sg)) segs.

(** The section of [OCP_parser_v3.py] that belongs to a segment. *)
Definition V3_section_of (sg : segment) (s : V3.Section) : Prop :=
  ∃ number title,
    header_of V3.SECTION_PATTERN (seg_header sg) = Some (number, title)
    ∧ V3.id s = lit "section_" ++ replace "." "_" number
    ∧ V3.hierarchy s = full_name number title
    ∧ V3.title s = title
    ∧ V3.sec_page_number s = seg_page sg
    ∧ V3.raw_content s = join [newline] (snd <$> seg_content sg)
    ∧ V3.content_length (V3.metadata s) = length (V3.raw_content s).

(** The records of [ocp_parser.py] that belong to a segment: at least one,
    all naming the section and its page. *)
Definition Flat_records_of (sg : segment) (rs : list Flat.FlatRecord) : Prop :=
  ∃ number title,
    header_of Flat.SECTION_PATTERN (seg_header sg) = Some (number, title)
    ∧ rs ≠ []
    ∧ Forall (λ r, Flat.hierarchy r = full_name number title
                   ∧ Flat.rec_page_number r = seg_page sg) rs.

(** The section of [ocpparser3.py] that belongs to a segment; its content
    is every content line followed by a newline. *)
Definition P3_section_of (sg : segment) (s : P3.Section) : Prop :=
  ∃ number title,
    header_of P3.SECTION_PATTERN (seg_header sg) = Some (number, title)
    ∧ P3.id s = lit "section_" ++ replace "." "_" number
    ∧ P3.hierarchy s = full_name number title
    ∧ P3.title s = title
    ∧ P3.sec_page_number s = seg_page sg
    ∧ P3.raw_content s
      = concat ((λ pl, pl.2 ++ [newline]) <$> seg_content sg)
    ∧ P3.content_length (P3.metadata s) = length (P3.raw_content s).

(** The record emitted for a section without requirements. *)
Definition Flat_empty_record (data : Flat.SectionData)
    (tree : Flat.HierarchyTree) (ref : nat) : Flat.FlatRecord :=
  {| Flat.hierarchy := Flat.d_hierarchy data;
     Flat.hierarchy_tree := tree;
     Flat.rec_page_number := Flat.d_page_number data;
     Flat.shall_sentence := None;
     Flat.before_shall := None;
     Flat.after_shall := None;
     Flat.anchor := None;
     Flat.key_phrases := [];
     Flat.metadata := ref |}.

(** The metadata object of a section of [ocp_parser.py] once
    [_finalize_section] has returned [n] records for it. *)
Definition Flat_metadata (data : Flat.SectionData) (n : nat)
  : Flat.SectionMetadata :=
  let content := join [newline] (Flat.d_lines data) in
  {| Flat.content_length := length content;
     Flat.requirement_count := n;
     Flat.reference_count := length (Re.findall Flat.ANCHOR_PATTERN content);
     Flat.has_subsections := contains "." (Flat.d_number data);
     Flat.depth := length (split dot (Flat.d_number data));
     Flat.word_count_in_section := length (words content) |}.

(** *** Tokens and duplicates *)

(** [ws] are the whitespace-delimited tokens of [s]: [s] is whitespace,
    a token of non-whitespace characters, and so on, each token ending at
    the end of [s] or at a whitespace character. *)
Inductive tokens : pystr → list pystr → Prop :=
| tokens_blank s : blank s → tokens s []
| tokens_word sp w rest ws :
    blank sp →
    w ≠ [] →
    Forall (λ c, is_space c = false) w →
    match rest with [] => True | c :: _ => is_space c = true end →
    tokens rest ws →
    tokens (sp ++ w ++ rest) (w :: ws).

(** The list without its duplicates, every element at the place of its
    first occurrence. *)
Fixpoint first_occurrences (l : list pystr) : list pystr :=
  match l with
  | [] => []
  | x :: l' => x :: filter (λ y, y ≠ x) (first_occurrences l')
  end.

End Spec.


(** * The texts a pattern can match *)

Module Lang.
Import Py Re.

(** [lang r w]: the text [w] has the shape of the pattern [r], the
    zero-width assertions left aside. *)
Inductive lang : regex → pystr → Prop :=
| lang_eps : lang Eps []
| lang_chr p c : p c = true → lang (Chr p) [c]
| lang_seq a b u v : lang a u → lang b v → lang (Seq a b) (u ++ v)
| lang_alt_l a b u : lang a u → lang (Alt a b) u
| lang_alt_r a b u : lang b u → lang (Alt a b) u
| lang_star_nil a : lang (Star a) []
| lang_star_cons a u v : lang a u → lang (Star a) v → lang (Star a) (u ++ v)
| lang_group n a u : lang a u → lang (Group n a) u
| lang_bol ml : lang (Bol ml) []
| lang_eol ml : lang (Eol ml) []
| lang_wordb : lang WordB [].

(** A pattern without capturing groups. *)
Fixpoint groupless (r : regex) : bool :=
  match r with
  | Seq a b | Alt a b => groupless a && groupless b
  | Star a => groupless a
  | Group _ _ => false
  | _ => true
  end.

Definition digits (s : pystr) : Prop := Forall (λ c, is_digit c = true) s.

(** [s] occurs in [t]. *)
Definition occurs_in (s t : pystr) : Prop := ∃ pre post, t = pre ++ s ++ post.

(** The number of a header: digit runs separated by single dots. *)
Definition number_pattern : regex :=
  Seq (plus digit) (Star (Seq (chr ".") (plus digit))).

(** Every dot-separated component is a non-empty run of digits. *)
Definition number_shape (number : pystr) : Prop :=
  Forall (λ p, p ≠ [] ∧ digits p) (split dot number).

(** No character of the line is a line boundary of [splitlines]. *)
Definition one_line (l : pystr) : Prop :=
  Forall (λ c, is_linebreak c = false) l.

(** A successful run consumed a text of the pattern's shape before it
    handed over to its continuation. *)
Definition shaped (r : regex)
    (body : mstate → (mstate → option mstate) → option mstate) : Prop :=
  ∀ st k x, body st k = Some x →
    ∃ w st', lang r w
             ∧ m_rest st = w ++ m_rest st'
             ∧ m_pos st' = m_pos st + length w
             ∧ (groupless r = true → m_groups st' = m_groups st)
             ∧ k st' = Some x.

End Lang.

(** * Sections by segment *)

Module Seg.
Import Py Spec.

(** The title map after the given headers: a later header overwrites an
    earlier one with the same number. *)
Definition title_map_of (hs : list (pystr * pystr)) : gmap pystr pystr :=
  foldl (λ m h, <[h.1 := h.2]> m) ∅ hs.

(** The stream up to the end of segment [i]. *)
Definition lines_through (preamble : list (Z * pystr)) (segs : list segment)
    (i : nat) : list (Z * pystr) :=
  preamble ++ concat (seg_lines <$> take (S i) segs).

(** What [parse] of [OCP_parser_v3.py] has collected for a segment when it
    closes it. *)
Definition V3_data (number title : pystr) (sg : segment) : V3.SectionData :=
  {| V3.d_number := number;
     V3.d_title := title;
     V3.d_full_name := full_name number title;
     V3.d_page_number := seg_page sg;
     V3.d_lines := snd <$> seg_content sg |}.

(** The sections of a run of segments, started with the title map [m]:
    each header enters the map, then the segment is finalized. *)
Inductive V3_sections_from
  : gmap pystr pystr → list segment → list V3.Section → Prop :=
| V3_from_nil m : V3_sections_from m [] []
| V3_from_cons m sg segs number title s secs :
    header_of V3.SECTION_PATTERN (seg_header sg) = Some (number, title) →
    V3._finalize_section (<[number := full_name number title]> m)
      (V3_data number title sg) = Ok s →
    V3_sections_from (<[number := full_name number title]> m) segs secs →
    V3_sections_from m (sg :: segs) (s :: secs).

(** What [parse] of [ocp_parser.py] has collected for a segment when it
    closes it. *)
Definition Flat_data (number title : pystr) (sg : segment)
  : Flat.SectionData :=
  {| Flat.d_number := number;
     Flat.d_hierarchy := full_name number title;
     Flat.d_page_number := seg_page sg;
     Flat.d_lines := snd <$> seg_content sg |}.

(** The record groups of a run of segments, started with the title map
    [m] and the store [h]; the last index is the store at the end. *)
Inductive Flat_groups_from (kp : pystr → list pystr)
  : gmap pystr pystr → Flat.heap → list segment →
    list (list Flat.FlatRecord) → Flat.heap → Prop :=
| Flat_from_nil m h : Flat_groups_from kp m h [] [] h
| Flat_from_cons m h sg segs number title recs h1 groups h' :
    header_of Flat.SECTION_PATTERN (seg_header sg) = Some (number, title) →
    Flat._finalize_section kp (<[number := full_name number title]> m)
      (Flat_data number title sg) h = Ok (recs, h1) →
    Flat_groups_from kp (<[number := full_name number title]> m) h1
      segs groups h' →
    Flat_groups_from kp m h (sg :: segs) (recs :: groups) h'.

(** A requirement of [OCP_parser_v3.py] and a record of [ocp_parser.py]
    that say the same. *)
Definition same_requirement (r : V3.Requirement) (f : Flat.FlatRecord)
  : Prop :=
  Flat.shall_sentence f = Some (strip (V3.shall_text r))
  ∧ Flat.before_shall f = head (V3.context_before r)
  ∧ Flat.after_shall f = head (V3.context_after r)
  ∧ V3.context_before r = option_list (Flat.before_shall f)
  ∧ V3.context_after r = option_list (Flat.after_shall f)
  ∧ Flat.anchor f = V3.anchor r
  ∧ Flat.hierarchy f = V3.req_hierarchy r
  ∧ Flat.rec_page_number f = V3.req_page_number r
  ∧ Flat.parent (Flat.hierarchy_tree f) = V3.parent_hierarchy r.

(** The record of a section without requirements. *)
Definition placeholder (f : Flat.FlatRecord) : Prop :=
  Flat.shall_sentence f = None ∧ Flat.before_shall f = None
  ∧ Flat.after_shall f = None ∧ Flat.anchor f = None
  ∧ Flat.key_phrases f = [].

(** A section of [OCP_parser_v3.py] and the records of [ocp_parser.py] for
    the same segment. *)
Definition same_section (s : V3.Section) (recs : list Flat.FlatRecord)
  : Prop :=
  Forall (λ f, Flat.hierarchy f = V3.hierarchy s
               ∧ Flat.rec_page_number f = V3.sec_page_number s
               ∧ Flat.parent (Flat.hierarchy_tree f)
                 = V3.parent (V3.hierarchy_tree s)
               ∧ Flat.grandparent (Flat.hierarchy_tree f)
                 = V3.grandparent (V3.hierarchy_tree s)
               ∧ Flat.ancestors (Flat.hierarchy_tree f)
                 = V3.ancestors (V3.hierarchy_tree s)) recs
  ∧ match V3.requirements s with
    | [] => ∃ f, recs = [f] ∧ placeholder f
    | reqs => Forall2 same_requirement reqs recs
    end.

(** A line in which [SHALL_PATTERN] finds a match. *)
Definition has_shall (l : pystr) : Prop :=
  is_some (Re.search V3.SHALL_PATTERN l) = true.

(** The lines of a segment hold no line boundary. *)
Definition seg_one_line (sg : segment) : Prop :=
  Lang.one_line (seg_header sg)
  ∧ Forall Lang.one_line (snd <$> seg_content sg).

#[global] Instance has_shall_dec l : Decision (has_shall l) :=
  decide (is_some (Re.search V3.SHALL_PATTERN l) = true).

(** The records of [ocp_parser.py] for a segment, read against the content
    lines of the segment, [h] being the store of metadata objects at the
    end of [parse].  There is one record per content line in which
    [SHALL_PATTERN] finds a match, in the order of the lines and with the
    line stripped as sentence, or a single record without sentence when
    there is no such line; the context lines of a record are content
    lines of the segment; and the metadata object of the records measures
    the content lines joined by line feeds. *)
Definition Flat_content_of (h : Flat.heap) (sg : segment)
    (recs : list Flat.FlatRecord) : Prop :=
  let lines := snd <$> seg_content sg in
  Flat.shall_sentence <$> recs
  = match filter has_shall lines with
    | [] => [None]
    | ls => (λ l, Some (strip l)) <$> ls
    end
  ∧ Forall
      (λ r, (∀ l, Flat.before_shall r = Some l → l ∈ lines)
            ∧ (∀ l, Flat.after_shall r = Some l → l ∈ lines)
            ∧ ∃ md, Flat.metadata_of h r = Some md
                    ∧ Flat.content_length md
                      = length (join [newline] lines)
                    ∧ Flat.word_count_in_section md
                      = length (words (join [newline] lines)))
      recs.

End Seg.

(** * [ocp_parser.py]: key phrases *)

Module FlatKP.
Import Py Re.

(** A pattern that matches no text. *)
Definition never : regex := Chr (λ _, false).

(** Alternatives, tried from left to right. *)
Fixpoint alts (rs : list regex) : regex :=
  match rs with
  | [] => never
  | [r] => r
  | r :: rs' => Alt r (alts rs')
  end.

(** The classes "[0-9A-Fa-f]", "[A-Z]" and "[A-Za-z0-9_]" under
    IGNORECASE. *)
Definition hexdigit : regex :=
  Chr (λ x, is_digit x || in_range 97 102 (lower x)).
Definition letter : regex := Chr (λ x, is_lower (lower x)).
Definition ident_char : regex :=
  Chr (λ x, is_lower (lower x) || is_digit x || eqc x "_").

(** [KEY_PHRASE_PATTERNS] (lines 47-55), each searched with IGNORECASE;
    the flag tells whether the pattern has a capturing group, in which
    case [re.findall] returns the text of that group. *)
Definition KEY_PHRASE_PATTERNS : list (regex * bool) :=
  [ (seqs [WordB; word_i "shall not"; WordB], false);
    (seqs [WordB; word_i "shall"; WordB], false);
    (seqs [WordB; word_i "must"; WordB], false);
    (seqs [WordB; plus digit; Star space;
           Group 1 (alts [word_i "ms"; word_i "us"; word_i "ns"; word_i "s";
                          word_i "V"; word_i "A"; word_i "W"; word_i "%"]);
           WordB], true);
    (seqs [WordB; word_i "0x"; plus hexdigit; WordB], false);
    (seqs [WordB;
           Group 1 (alts [word_i "enable"; word_i "disable";
                          word_i "supported"; word_i "unsupported"]);
           WordB], true);
    (seqs [WordB; letter; plus ident_char; WordB], false) ].

(** [re.findall] for a pattern with one group or with none. *)
Definition findall_of (pattern : regex * bool) (text : pystr) : list pystr :=
  if pattern.2 then group 1 <$> finditer pattern.1 text
  else findall pattern.1 text.

(** Everything the loops of [extract_key_phrases] add to [phrases]. *)
Definition key_phrase_matches (text : pystr) : list pystr :=
  concat ((λ pattern, findall_of pattern text) <$> KEY_PHRASE_PATTERNS).

(** [a < b] on strings: the order of the code points, a proper prefix
    first. *)
Fixpoint str_ltb (a b : pystr) : bool :=
  match a, b with
  | _, [] => false
  | [], _ :: _ => true
  | x :: a', y :: b' =>
      (code x <? code y) || ((code x =? code y) && str_ltb a' b')
  end.

Definition str_lt (a b : pystr) : Prop := str_ltb a b = true.

(** [sorted(set(l))]: the distinct elements in ascending order. *)
Fixpoint insert_sorted (x : pystr) (l : list pystr) : list pystr :=
  match l with
  | [] => [x]
  | y :: l' =>
      if str_ltb x y then x :: y :: l'
      else if str_ltb y x then y :: insert_sorted x l'
      else y :: l'
  end.

Definition sorted_set (l : list pystr) : list pystr :=
  foldr insert_sorted [] l.

(** [extract_key_phrases] (lines 103-108). *)
Definition extract_key_phrases (text : pystr) : list pystr :=
  sorted_set (key_phrase_matches text).

End FlatKP.

(** * [OCP_parser_2.py]: sections with numeric hierarchy *)

Module V2.
Import Py Re.

Record HierarchyTree : Type := {
  current : pystr;
  parent : option pystr;
  grandparent : option pystr;
  ancestors : list pystr
}.

Record SectionMetadata : Type := {
  content_length : nat;
  requirement_count : nat;
  reference_count : nat;
  has_subsections : bool;
  depth : nat;
  word_count : nat
}.

Record Section : Type := {
  id : pystr;
  hierarchy : pystr;
  title : pystr;
  hierarchy_tree : HierarchyTree;
  anchors : list pystr;
  shall_sentences : list pystr;
  sec_page_number : Z;
  key_phrases : list pystr;
  metadata : SectionMetadata;
  raw_content : pystr
}.

(** The patterns are those of [ocpparser3.py]. *)
Definition SECTION_PATTERN : regex := P3.SECTION_PATTERN.
Definition SHALL_PATTERN : regex := P3.SHALL_PATTERN.
Definition ANCHOR_PATTERN : regex := P3.ANCHOR_PATTERN.

(** [build_hierarchy_tree] (lines 119-128). *)
Definition build_hierarchy_tree (hierarchy : pystr) : HierarchyTree :=
  let parts := split dot hierarchy in
  let ancestors :=
    (λ i, join (lit ".") (take (i + 1) parts)) <$> seq 0 (length parts - 1) in
  {| current := hierarchy;
     parent := if 1 <? length parts
               then Some (join (lit ".") (take (length parts - 1) parts))
               else None;
     grandparent := if 2 <? length parts
                    then Some (join (lit ".") (take (length parts - 2) parts))
                    else None;
     ancestors := ancestors |}.

(** [extract_anchors] (lines 134-135). *)
Definition extract_anchors (text : pystr) : list pystr :=
  group0 <$> finditer ANCHOR_PATTERN text.

(** [extract_shall_sentences] (lines 137-142): the loop appends the lines
    with a match. *)
Definition extract_shall_sentences (text : pystr) : list pystr :=
  foldl (λ results line,
           if is_some (search SHALL_PATTERN line) then results ++ [line]
           else results)
        [] (splitlines text).

Record SectionData : Type := {
  d_hierarchy : pystr;
  d_title : pystr;
  d_page_number : Z;
  d_content : pystr
}.

(** [_finalize_section] (lines 185-213). *)
Definition _finalize_section (section_data : SectionData) : Section :=
  let content := d_content section_data in
  let hierarchy_tree := build_hierarchy_tree (d_hierarchy section_data) in
  let anchors := extract_anchors content in
  let shall_sentences := extract_shall_sentences content in
  let key_phrases := [] in
  let metadata :=
    {| content_length := length content;
       requirement_count := length shall_sentences;
       reference_count := length anchors;
       has_subsections := contains "." (d_hierarchy section_data);
       depth := length (split dot (d_hierarchy section_data));
       word_count := length (words content) |} in
  {| id := lit "section_" ++ replace "." "_" (d_hierarchy section_data);
     hierarchy := d_hierarchy section_data;
     title := d_title section_data;
     hierarchy_tree := hierarchy_tree;
     anchors := anchors;
     shall_sentences := shall_sentences;
     sec_page_number := d_page_number section_data;
     key_phrases := key_phrases;
     metadata := metadata;
     raw_content := content |}.

Record PState : Type := {
  sections : list Section;
  cur : option SectionData
}.

(** [if current_section: sections.append(...)]. *)
Definition close_current (st : PState) : list Section :=
  match cur st with
  | Some c => sections st ++ [_finalize_section c]
  | None => sections st
  end.

(** Body of [for line in lines] in [parse_sections] (lines 160-176). *)
Definition parse_line (page_number : Z) (st : PState) (line : pystr)
  : PState :=
  match rematch SECTION_PATTERN line with
  | Some m =>
      {| sections := close_current st;
         cur := Some {| d_hierarchy := group 1 m; d_title := group 3 m;
                        d_page_number := page_number; d_content := [] |} |}
  | None =>
      match cur st with
      | Some c =>
          {| sections := sections st;
             cur := Some {| d_hierarchy := d_hierarchy c;
                            d_title := d_title c;
                            d_page_number := d_page_number c;
                            d_content := d_content c ++ line ++ [newline] |} |}
      | None => st
      end
  end.

Definition parse_page (st : PState) (page : Page) : PState :=
  foldl (parse_line (page_number page)) st (splitlines (text page)).

(** [parse_sections] (lines 152-181). *)
Definition parse_sections (pages_data : list Page) : list Section :=
  close_current
    (foldl parse_page {| sections := []; cur := None |} pages_data).

Record Statistics : Type := {
  total_sections : nat;
  total_requirements : nat;
  total_references : nat;
  max_hierarchy_depth : nat;
  total_words : nat
}.

(** [generate_statistics] (lines 259-266); the maximum of no depths is the
    default 0. *)
Definition generate_statistics (sections : list Section) : Statistics :=
  {| total_sections := length sections;
     total_requirements :=
       sum_list ((λ s, length (shall_sentences s)) <$> sections);
     total_references := sum_list ((λ s, length (anchors s)) <$> sections);
     max_hierarchy_depth := max_list ((λ s, depth (metadata s)) <$> sections);
     total_words := sum_list ((λ s, word_count (metadata s)) <$> sections) |}.

End V2.

(** * [OCP_parser.py]: the section loop *)

Module V1P.
Import Py Re.

(** Pattern "^(\d+(?:\.\d+)*\.?)\s+([A-Z][^\n]+)" with MULTILINE:
    group 1 is the number with an optional final dot, group 2 a title that
    starts with an upper-case ASCII letter. *)
Definition SECTION_PATTERN : regex :=
  seqs [Bol true;
        Group 1 (seqs [plus digit; Star (Seq (chr ".") (plus digit));
                       Alt (chr ".") Eps]);
        plus space;
        Group 2 (Seq (Chr is_upper) (plus anychar))].

(** [s.rstrip(c)] for a one-character [c]. *)
Fixpoint lstrip_char (c : ascii) (s : pystr) : pystr :=
  match s with
  | x :: s' => if eqc x c then lstrip_char c s' else s
  | [] => []
  end.

Definition rstrip_char (c : ascii) (s : pystr) : pystr :=
  reverse (lstrip_char c (reverse s)).

Record PState : Type := {
  sections : list V1.Section;
  cur : option V1.SectionData
}.

(** [if current_section: sections.append(...)]. *)
Definition close_current (st : PState) : list V1.Section :=
  match cur st with
  | Some c => sections st ++ [V1._finalize_section c]
  | None => sections st
  end.

(** Body of the [while] loop of [parse_sections] (lines 174-197) for the
    raw line [lines[i]]. *)
Definition parse_line (page_num : Z) (st : PState) (raw : pystr) : PState :=
  let line := strip raw in
  match rematch SECTION_PATTERN line with
  | Some m =>
      {| sections := close_current st;
         cur := Some {| V1.d_hierarchy := rstrip_char "." (group 1 m);
                        V1.d_title := strip (group 2 m);
                        V1.d_page_number := page_num;
                        V1.d_content := [] |} |}
  | None =>
      match cur st with
      | Some c =>
          {| sections := sections st;
             cur := Some {| V1.d_hierarchy := V1.d_hierarchy c;
                            V1.d_title := V1.d_title c;
                            V1.d_page_number := V1.d_page_number c;
                            V1.d_content :=
                              V1.d_content c ++ line ++ [newline] |} |}
      | None => st
      end
  end.

(** [while i < len(lines): ...; i += 1] (lines 172-199), at most [fuel]
    iterations. *)
Fixpoint while_loop (fuel : nat) (lines : list pystr) (page_num : Z)
    (i : Z) (st : PState) : result PState :=
  match fuel with
  | 0 => Ok st
  | S fuel' =>
      if (i <? Z.of_nat (length lines))%Z then
        raw ← getitem lines i;
        while_loop fuel' lines page_num (i + 1)%Z (parse_line page_num st raw)
      else Ok st
  end.

(** Body of [for page_data in pages_data]. *)
Definition parse_page (st : PState) (page : Page) : result PState :=
  let lines := split newline (text page) in
  while_loop (length lines) lines (page_number page) 0 st.

(** [parse_sections] (lines 162-205). *)
Definition parse_sections (pages_data : list Page)
  : result (list V1.Section) :=
  st ← for_each parse_page pages_data {| sections := []; cur := None |};
  Ok (close_current st).

End V1P.

(** * [test.py]: table of contents and sentences *)

Module Toc.
Import Py Re.

(** An entry of the list returned by [doc.get_toc()]. *)
Record TocItem : Type := { level : Z; toc_title : pystr; toc_page : Z }.

Record TocEntry : Type := {
  page : Z;
  hierarchy : pystr;
  hierarchy_tree : list pystr
}.

(** [d[k] = v] on a dict kept in insertion order: a present key keeps its
    place, a new key goes to the end. *)
Fixpoint dict_set (k : Z) (v : pystr) (d : list (Z * pystr))
  : list (Z * pystr) :=
  match d with
  | [] => [(k, v)]
  | (k', v') :: d' =>
      if (k' =? k)%Z then (k, v) :: d' else (k', v') :: dict_set k v d'
  end.

(** Body of the loop of [build_toc_index] (lines 61-73). *)
Definition toc_step (state : list (Z * pystr) * list TocEntry)
    (item : TocItem) : list (Z * pystr) * list TocEntry :=
  let active_levels := dict_set (level item) (toc_title item) state.1 in
  let active_levels :=
    filter (λ kv, ¬ (level item < kv.1)%Z) active_levels in
  (active_levels,
   state.2 ++ [ {| page := toc_page item;
                   hierarchy := toc_title item;
                   hierarchy_tree := snd <$> active_levels |} ]).

(** [build_toc_index] (lines 55-75), given the table of contents. *)
Definition build_toc_index (toc : list TocItem) : list TocEntry :=
  (foldl toc_step ([], []) toc).2.

(** The loop of [resolve_section] (lines 87-91), with its [break]. *)
Fixpoint resolve_loop (toc_index : list TocEntry) (page_number : Z)
    (current : pystr * list pystr) : pystr * list pystr :=
  match toc_index with
  | [] => current
  | entry :: rest =>
      if (page entry <=? page_number)%Z
      then resolve_loop rest page_number
             (hierarchy entry, hierarchy_tree entry)
      else current
  end.

(** [resolve_section] (lines 81-93). *)
Definition resolve_section (toc_index : list TocEntry) (page_number : Z)
  : pystr * list pystr :=
  resolve_loop toc_index page_number (lit "General", [lit "General"]).

(** [re.split] at the whitespace runs that follow ".", "!" or "?"
    (line 100): [skipping] holds inside such a run, [prev] is the character
    before the current one and [cur] the sentence read so far, reversed. *)
Fixpoint sentences_aux (skipping : bool) (prev : option ascii)
    (cur : pystr) (s : pystr) : list pystr :=
  match s with
  | [] => [reverse cur]
  | c :: s' =>
      if is_space c
         && (skipping
             || match prev with
                | Some p => existsb (eqc p) (lit ".!?")
                | None => false
                end)
      then if skipping then sentences_aux true (Some c) [] s'
           else reverse cur :: sentences_aux true (Some c) [] s'
      else sentences_aux false (Some c) (c :: cur) s'
  end.

Definition sentences (paragraph : pystr) : list pystr :=
  sentences_aux false None [] paragraph.

Record ShallItem : Type := {
  shall_sentence : pystr;
  before_shall : option pystr;
  after_shall : option pystr
}.

Definition SHALL_PATTERN : regex := seqs [WordB; word_i "shall"; WordB].

(** Body of the loop of [extract_shall_sentences] (lines 104-110). *)
Definition shall_step (sentences : list pystr) (results : list ShallItem)
    (i : nat) (sentence : pystr) : result (list ShallItem) :=
  if is_some (search SHALL_PATTERN sentence) then
    before ← (if 0 <? i
              then (λ s, Some (strip s)) <$> getitem sentences (Z.of_nat i - 1)
              else Ok None);
    after ← (if (Z.of_nat i <? Z.of_nat (length sentences) - 1)%Z
             then (λ s, Some (strip s)) <$> getitem sentences (Z.of_nat i + 1)
             else Ok None);
    Ok (results ++ [ {| shall_sentence := strip sentence;
                        before_shall := before;
                        after_shall := after |} ])
  else Ok results.

(** [extract_shall_sentences] (lines 99-112). *)
Definition extract_shall_sentences (paragraph : pystr)
  : result (list ShallItem) :=
  let sentences := sentences paragraph in
  for_each (λ results ix, shall_step sentences results ix.1 ix.2)
    (imap (λ i s, (i, s)) sentences) [].

End Toc.

(** * The variants side by side *)

Module Agree.
Import Py Spec.

(** Lines written out, each followed by a line feed. *)
Definition lines_text (lines : list pystr) : pystr :=
  concat ((λ l, l ++ [newline]) <$> lines).

(** A section of [OCP_parser_v3.py] and a section of [ocpparser3.py] that
    say the same. *)
Definition P3_same_section (s : V3.Section) (p : P3.Section) : Prop :=
  P3.id p = V3.id s
  ∧ P3.hierarchy p = V3.hierarchy s
  ∧ P3.title p = V3.title s
  ∧ P3.sec_page_number p = V3.sec_page_number s
  ∧ P3.current (P3.hierarchy_tree p) = V3.current (V3.hierarchy_tree s)
  ∧ P3.parent (P3.hierarchy_tree p) = V3.parent (V3.hierarchy_tree s)
  ∧ P3.grandparent (P3.hierarchy_tree p)
    = V3.grandparent (V3.hierarchy_tree s)
  ∧ P3.ancestors (P3.hierarchy_tree p) = V3.ancestors (V3.hierarchy_tree s)
  ∧ P3.shall_sentences p = V3.shall_text <$> V3.requirements s
  ∧ P3.requirement_count (P3.metadata p)
    = V3.requirement_count (V3.metadata s)
  ∧ P3.depth (P3.metadata p) = V3.depth (V3.metadata s)
  ∧ P3.has_subsections (P3.metadata p) = V3.has_subsections (V3.metadata s)
  ∧ P3.word_count (P3.metadata p) = V3.word_count (V3.metadata s)
  ∧ ∃ lines, V3.raw_content s = join [newline] lines
             ∧ P3.raw_content p = lines_text lines.

(** The open sections of the two parsers hold the same lines. *)
Definition P3_same_open (c : V3.SectionData) (cp : P3.SectionData) : Prop :=
  P3.d_number cp = V3.d_number c
  ∧ P3.d_title cp = V3.d_title c
  ∧ P3.d_full_name cp = V3.d_full_name c
  ∧ P3.d_page_number cp = V3.d_page_number c
  ∧ P3.d_content cp = lines_text (V3.d_lines c)
  ∧ Forall Lang.one_line (V3.d_lines c).

Definition P3_sim (st : V3.PState) (stp : P3.PState) : Prop :=
  Forall2 P3_same_section (V3.sections st) (P3.sections stp)
  ∧ P3.section_title_map stp = V3.section_title_map st
  ∧ option_Forall2 P3_same_open (V3.cur st) (P3.cur stp).

(** A section of [ocpparser3.py] and a section of [OCP_parser_2.py] that
    say the same in everything but the hierarchy tree, the second with the
    bare number where the first has the full name. *)
Definition V2_same_section (p : P3.Section) (s : V2.Section) : Prop :=
  V2.id s = P3.id p
  ∧ P3.hierarchy p = full_name (V2.hierarchy s) (V2.title s)
  ∧ V2.title s = P3.title p
  ∧ V2.sec_page_number s = P3.sec_page_number p
  ∧ V2.anchors s = P3.anchors p
  ∧ V2.shall_sentences s = P3.shall_sentences p
  ∧ V2.key_phrases s = P3.key_phrases p
  ∧ V2.raw_content s = P3.raw_content p
  ∧ V2.content_length (V2.metadata s) = P3.content_length (P3.metadata p)
  ∧ V2.requirement_count (V2.metadata s)
    = P3.requirement_count (P3.metadata p)
  ∧ V2.reference_count (V2.metadata s) = P3.reference_count (P3.metadata p)
  ∧ V2.has_subsections (V2.metadata s) = P3.has_subsections (P3.metadata p)
  ∧ V2.depth (V2.metadata s) = P3.depth (P3.metadata p)
  ∧ V2.word_count (V2.metadata s) = P3.word_count (P3.metadata p)
  ∧ V2.current (V2.hierarchy_tree s) = V2.hierarchy s.

(** The hierarchy trees of the two parsers for the section [number],
    [m] being the title map of [ocpparser3.py] when the section is closed.
    The tree of [OCP_parser_2.py] lists the numbers of all strict prefixes
    of [number], whether a section of that number exists or not; the tree
    of [ocpparser3.py] lists the full names of those of them that have an
    entry in [m].  In both the parent is the last ancestor and the
    grandparent the one before it. *)
Definition V2_tree_names (m : gmap pystr pystr) (number : pystr)
    (tp : P3.HierarchyTree) (t : V2.HierarchyTree) : Prop :=
  V2.current t = number
  ∧ all_prefixes number (V2.ancestors t)
  ∧ V2.parent t = from_end 0 (V2.ancestors t)
  ∧ V2.grandparent t = from_end 1 (V2.ancestors t)
  ∧ P3.ancestors tp = omap (m !!.) (V2.ancestors t)
  ∧ P3.parent tp = from_end 0 (P3.ancestors tp)
  ∧ P3.grandparent tp = from_end 1 (P3.ancestors tp).

Definition V2_same_open (cp : P3.SectionData) (c : V2.SectionData) : Prop :=
  V2.d_hierarchy c = P3.d_number cp
  ∧ V2.d_title c = P3.d_title cp
  ∧ P3.d_full_name cp = full_name (P3.d_number cp) (P3.d_title cp)
  ∧ V2.d_page_number c = P3.d_page_number cp
  ∧ V2.d_content c = P3.d_content cp.

Definition V2_sim (stp : P3.PState) (st : V2.PState) : Prop :=
  Forall2 V2_same_section (P3.sections stp) (V2.sections st)
  ∧ option_Forall2 V2_same_open (P3.cur stp) (V2.cur st).

(** The raw lines that [parse_sections] of [OCP_parser.py] walks through,
    each with its page number. *)
Definition V1_stream (pages : list Page) : list (Z * pystr) :=
  pages ≫= λ p, (λ line, (page_number p, line)) <$> split newline (text p).

End Agree.

(** * Reading the table of contents of [test.py] *)

Module TocSpec.
Import Toc.

(** Keys in ascending order. *)
Definition key_lt (a b : Z * pystr) : Prop := (a.1 < b.1)%Z.

(** Level, title and page of the item at place [j]. *)
Definition level_at (toc : list TocItem) (j : nat) : Z :=
  from_option level 0%Z (toc !! j).
Definition title_at (toc : list TocItem) (j : nat) : pystr :=
  from_option toc_title [] (toc !! j).
Definition page_at (toc : list TocItem) (j : nat) : Z :=
  from_option toc_page 0%Z (toc !! j).

(** The items still open after the first [n] items: the places [j] below
    [n] such that every later item below [n] has a deeper level. *)
Definition open_idx (toc : list TocItem) (n : nat) : list nat :=
  filter (λ j, forallb (λ k, (level_at toc j <? level_at toc k)%Z)
                 (seq (S j) (n - S j)) = true)
         (seq 0 n).

(** The entry that belongs to the item at place [i]. *)
Definition entry_at (toc : list TocItem) (i : nat) : TocEntry :=
  {| page := page_at toc i;
     hierarchy := title_at toc i;
     hierarchy_tree := title_at toc <$> open_idx toc (S i) |}.

End TocSpec.


(** * Properties of the runtime model *)

Section result_facts.
Context {A B : Type}.

Lemma bind_Ok (a : A) (f : A → result B) : (Ok a ≫= f) = f a.
Proof. reflexivity. Qed.

Lemma fmap_Ok (f : A → B) (a : A) : f <$> Ok a = Ok (f a).
Proof. reflexivity. Qed.

Lemma returns_Ok (a : A) : returns (Ok a).
Proof. by exists a. Qed.

Lemma not_returns_Raise (e : exn) : ¬ returns (@Raise A e).
Proof. by intros [a Ha]. Qed.
End result_facts.

Lemma getitem_nat {A} (l : list A) (i : nat) (x : A) :
  l !! i = Some x → getitem l (Z.of_nat i) = Ok x.
Proof.
  intros Hx. unfold getitem.
  destruct (Z.ltb_spec (Z.of_nat i) 0) as [?|_]; [lia|].
  destruct (Z.ltb_spec (Z.of_nat i) 0) as [?|_]; [lia|].
  by rewrite Nat2Z.id, Hx.
Qed.

Lemma getitem_from_end {A} (l : list A) (k : nat) (x : A) :
  Spec.from_end k l = Some x → getitem l (- Z.of_nat (S k)) = Ok x.
Proof.
  unfold Spec.from_end. intros Hx.
  assert (Hk : k < length l).
  { apply lookup_lt_Some in Hx. by rewrite length_reverse in Hx. }
  rewrite reverse_lookup in Hx by done.
  unfold getitem.
  destruct (Z.ltb_spec (- Z.of_nat (S k)) 0) as [_|?]; [|lia].
  destruct (Z.ltb_spec (- Z.of_nat (S k) + Z.of_nat (length l)) 0) as [?|_];
    [lia|].
  replace (Z.to_nat (- Z.of_nat (S k) + Z.of_nat (length l)))
    with (length l - S k) by lia.
  by rewrite Hx.
Qed.

Lemma from_end_is_Some {A} (l : list A) (k : nat) :
  k < length l → is_Some (Spec.from_end k l).
Proof.
  intros Hk. apply lookup_lt_is_Some. by rewrite length_reverse.
Qed.

Lemma from_end_None {A} (l : list A) (k : nat) :
  length l ≤ k → Spec.from_end k l = None.
Proof.
  intros Hk. apply lookup_ge_None. by rewrite length_reverse.
Qed.

(** ** [split] and [join] *)

Section split_join.
Import Py.
Variable sep : ascii.

Lemma split_nonnil s : split sep s ≠ [].
Proof.
  destruct s as [|c s]; simpl; [done|].
  destruct (eqc c sep); [done|]. by destruct (split sep s).
Qed.

Lemma split_length_pos s : 0 < length (split sep s).
Proof. pose proof (split_nonnil s). destruct (split sep s); simpl; [done|lia]. Qed.

Lemma join_cons p ps :
  ps ≠ [] → join [sep] (p :: ps) = p ++ sep :: join [sep] ps.
Proof. by destruct ps. Qed.

Lemma join_split s : join [sep] (split sep s) = s.
Proof.
  induction s as [|c s IH]; simpl; [done|].
  unfold eqc. case_bool_decide as Hc.
  - subst c. rewrite join_cons by apply split_nonnil. by rewrite IH.
  - pose proof (split_nonnil s) as Hne.
    destruct (split sep s) as [|p ps] eqn:Hs; [done|].
    destruct ps as [|q ps].
    + simpl in *. by rewrite IH.
    + change (join [sep] ((c :: p) :: q :: ps))
        with (c :: join [sep] (p :: q :: ps)).
      by rewrite IH.
Qed.

Lemma split_app p rest :
  split sep (p ++ sep :: rest) = split sep p ++ split sep rest.
Proof.
  induction p as [|c p IH]; simpl.
  - unfold eqc. by rewrite bool_decide_eq_true_2.
  - destruct (eqc c sep); [by rewrite IH|].
    rewrite IH. pose proof (split_nonnil p).
    by destruct (split sep p).
Qed.

Lemma join_app l1 l2 :
  l1 ≠ [] → l2 ≠ [] →
  join [sep] (l1 ++ l2) = join [sep] l1 ++ sep :: join [sep] l2.
Proof.
  intros H1 H2. induction l1 as [|p l1 IH]; [done|].
  destruct l1 as [|q l1].
  - destruct l2; [done|reflexivity].
  - change ((p :: q :: l1) ++ l2) with (p :: (q :: l1) ++ l2).
    rewrite (join_cons p ((q :: l1) ++ l2)) by done.
    rewrite IH by done. rewrite (join_cons p (q :: l1)) by done.
    by rewrite <- app_assoc.
Qed.

Lemma split_count s :
  length (split sep s) = S (length (filter (λ c, c = sep) s)).
Proof.
  induction s as [|c s IH]; simpl; [done|].
  unfold eqc. rewrite filter_cons. case_bool_decide as Hc.
  - rewrite decide_True by done. simpl. by rewrite IH.
  - rewrite decide_False by done. pose proof (split_nonnil s).
    destruct (split sep s); [done|]. simpl in *. lia.
Qed.

Lemma contains_elem_of s : contains sep s = true ↔ sep ∈ s.
Proof.
  unfold contains. rewrite existsb_exists. split.
  - intros (c & Hin & Hc). unfold eqc in Hc.
    apply bool_decide_eq_true in Hc. subst c. by apply list_elem_of_In.
  - intros Hin. exists sep. split; [by apply list_elem_of_In|].
    unfold eqc. by apply bool_decide_eq_true.
Qed.
End split_join.


(** ** The matcher *)

Section matcher.
Import Py Re.

Lemma reach_refl st : reach st st.
Proof. exists []. simpl. split; [done|lia]. Qed.

Lemma reach_trans st1 st2 st3 : reach st1 st2 → reach st2 st3 → reach st1 st3.
Proof.
  intros (c1 & Hr1 & Hp1) (c2 & Hr2 & Hp2). exists (c1 ++ c2).
  rewrite Hr1, Hr2, Hp2, Hp1, length_app, <- app_assoc. split; [done|lia].
Qed.

Lemma reach_length st st' :
  reach st st' → length (m_rest st') ≤ length (m_rest st).
Proof. intros (c & -> & _). rewrite length_app. lia. Qed.

Lemma reach_pos st st' :
  reach st st' →
  m_pos st' + length (m_rest st') = m_pos st + length (m_rest st).
Proof. intros (c & -> & ->). rewrite length_app. lia. Qed.

Lemma reach_pos_le st st' : reach st st' → m_pos st ≤ m_pos st'.
Proof. intros (c & _ & ->). lia. Qed.

Lemma reach_set_group st st' n p :
  reach st st' → reach st (set_group n p st').
Proof. intros (c & H1 & H2). by exists c. Qed.


Lemma star_loop_answers body k n :
  answers body →
  ∀ st x, star_loop body k n st = Some x →
          ∃ st', reach st st' ∧ k st' = Some x.
Proof.
  intros Hbody. induction n as [|n IH]; intros st x; simpl.
  - intros Hk. exists st. split; [apply reach_refl|done].
  - destruct (body st _) as [y|] eqn:Hb.
    + intros [= ->]. apply Hbody in Hb as (st1 & Hr1 & Hk1).
      destruct (length (m_rest st1) <? length (m_rest st)); [|done].
      apply IH in Hk1 as (st2 & Hr2 & Hk2).
      exists st2. split; [by eapply reach_trans|done].
    + intros Hk. exists st. split; [apply reach_refl|done].
Qed.

Lemma run_answers r : answers (run r).
Proof.
  induction r as [|p|a IHa b IHb|a IHa b IHb|a IHa|n a IHa|ml|ml|];
    intros st k x; simpl.
  - intros Hk. exists st. split; [apply reach_refl|done].
  - destruct (m_rest st) as [|c rest] eqn:Hrest; [done|].
    destruct (p c); [|done]. intros Hk. eexists. split; [|done].
    exists [c]. simpl. rewrite Hrest. split; [done|lia].
  - intros H. apply IHa in H as (st1 & Hr1 & H).
    apply IHb in H as (st2 & Hr2 & H).
    exists st2. split; [by eapply reach_trans|done].
  - destruct (run a st k) as [y|] eqn:Ha.
    + intros [= ->]. by apply IHa.
    + apply IHb.
  - by apply star_loop_answers.
  - intros H. apply IHa in H as (st1 & Hr1 & H).
    eexists. split; [|exact H]. by apply reach_set_group.
  - destruct (at_bol ml st); [|done]. intros Hk. exists st.
    split; [apply reach_refl|done].
  - destruct (at_eol ml st); [|done]. intros Hk. exists st.
    split; [apply reach_refl|done].
  - destruct (at_wordb st); [|done]. intros Hk. exists st.
    split; [apply reach_refl|done].
Qed.

Lemma star_loop_local body k1 k2 n st :
  local body →
  (∀ st', reach st st' → k1 st' = k2 st') →
  star_loop body k1 n st = star_loop body k2 n st.
Proof.
  intros Hbody. revert st. induction n as [|n IH]; intros st Hk; simpl.
  - apply Hk, reach_refl.
  - rewrite (Hk st (reach_refl st)).
    erewrite (Hbody st); [done|]. intros st' Hr. simpl.
    destruct (length (m_rest st') <? length (m_rest st)); [|done].
    apply IH. intros st'' Hr'. apply Hk. by eapply reach_trans.
Qed.

Lemma run_local r : local (run r).
Proof.
  induction r as [|p|a IHa b IHb|a IHa b IHb|a IHa|n a IHa|ml|ml|];
    intros st k1 k2 Hk; simpl.
  - apply Hk, reach_refl.
  - destruct (m_rest st) as [|c rest] eqn:Hrest; [done|].
    destruct (p c); [|done]. apply Hk.
    exists [c]. simpl. rewrite Hrest. split; [done|lia].
  - apply IHa. intros st1 Hr1. apply IHb. intros st2 Hr2.
    apply Hk. by eapply reach_trans.
  - rewrite (IHa st k1 k2 Hk), (IHb st k1 k2 Hk). done.
  - by apply star_loop_local.
  - apply IHa. intros st1 Hr1. apply Hk. by apply reach_set_group.
  - destruct (at_bol ml st); [|done]. apply Hk, reach_refl.
  - destruct (at_eol ml st); [|done]. apply Hk, reach_refl.
  - destruct (at_wordb st); [|done]. apply Hk, reach_refl.
Qed.

(** The iteration bound of [Star] is never the reason a loop stops: any
    bound at least the length of the remaining input gives the same
    result. *)
Lemma star_loop_fuel body k :
  answers body → local body →
  ∀ n n' st,
    length (m_rest st) ≤ n → length (m_rest st) ≤ n' →
    star_loop body k n st = star_loop body k n' st.
Proof.
  intros Hans Hloc.
  assert (Hzero : ∀ n st, length (m_rest st) = 0 →
                    star_loop body k n st = k st).
  { intros [|n] st Hlen; simpl; [done|].
    destruct (body st _) as [y|] eqn:Hb; [|done].
    apply Hans in Hb as (st' & Hr & Hb).
    destruct (Nat.ltb_spec (length (m_rest st')) (length (m_rest st)));
      [lia|done]. }
  induction n as [|n IH]; intros n' st Hn Hn'.
  - rewrite !Hzero by lia. done.
  - destruct n' as [|n'].
    { rewrite !Hzero by lia. done. }
    simpl. erewrite (Hloc st); [done|]. intros st' Hr. simpl.
    destruct (Nat.ltb_spec (length (m_rest st')) (length (m_rest st)));
      [|done].
    apply IH; lia.
Qed.

Lemma run_star_fuel a st k n :
  length (m_rest st) ≤ n →
  run (Star a) st k = star_loop (run a) k n st.
Proof.
  intros Hn. simpl.
  apply star_loop_fuel; [apply run_answers|apply run_local|done|done].
Qed.

(** *** Attempts, [search] and [finditer] *)

Lemma attempt_bounds r s ma pos prev rest m :
  attempt r s ma pos prev rest = Some m →
  r_subject m = s ∧ r_start m = pos
  ∧ pos ≤ r_end m ∧ r_end m ≤ pos + length rest
  ∧ (ma = true → pos < r_end m).
Proof.
  unfold attempt. destruct (run r _ _) as [st|] eqn:Hrun; [|done].
  intros [= <-]. simpl.
  apply run_answers in Hrun as (st' & Hr & Hk).
  pose proof (reach_pos _ _ Hr) as Hpos. simpl in Hpos.
  pose proof (reach_pos_le _ _ Hr) as Hle. simpl in Hle.
  destruct ma; simpl in Hk.
  - destruct (Nat.eqb_spec (m_pos st') pos); [done|].
    injection Hk as <-. split_and!; try done; try lia.
  - injection Hk as <-. split_and!; try done; lia.
Qed.

Lemma scan_bounds r s ma pos prev rest m :
  scan r s ma pos prev rest = Some m →
  r_subject m = s
  ∧ pos ≤ r_start m ∧ r_start m ≤ r_end m
  ∧ r_end m ≤ pos + length rest
  ∧ (ma = true → pos < r_end m).
Proof.
  revert ma pos prev. induction rest as [|c rest IH]; intros ma pos prev;
    simpl.
  - destruct (attempt r s ma pos prev []) as [m'|] eqn:Ha; [|done].
    intros [= ->]. apply attempt_bounds in Ha. simpl in Ha.
    destruct Ha as (? & ? & ? & ? & ?). split_and!; try done; lia.
  - destruct (attempt r s ma pos prev (c :: rest)) as [m'|] eqn:Ha.
    + intros [= ->]. apply attempt_bounds in Ha. simpl in Ha.
      destruct Ha as (? & ? & ? & ? & ?). split_and!; try done; lia.
    + intros H. apply IH in H as (? & ? & ? & ? & _).
      split_and!; try done; try lia.
Qed.

(** [search] returns the match of the leftmost position at which an
    attempt succeeds. *)
Lemma scan_leftmost r s pre rest m :
  s = pre ++ rest →
  scan r s false (length pre) (last pre) rest = Some m →
  attempt_at r s (r_start m) = Some m
  ∧ ∀ i, length pre ≤ i → i < r_start m → attempt_at r s i = None.
Proof.
  revert pre. induction rest as [|c rest IH]; intros pre Hs.
  - simpl. unfold attempt_at.
    assert (Ht : take (length pre) s = pre) by (by rewrite Hs, take_app_length).
    assert (Hd : drop (length pre) s = []) by (by rewrite Hs, drop_app_length).
    destruct (attempt r s false (length pre) (last pre) []) as [m'|] eqn:Ha;
      [|done].
    intros [= ->]. pose proof (attempt_bounds _ _ _ _ _ _ _ Ha) as (_ & Hst & _).
    rewrite Hst, Ht, Hd. split; [done|]. intros; lia.
  - cbn [scan].
    assert (Ht : take (length pre) s = pre) by (by rewrite Hs, take_app_length).
    assert (Hd : drop (length pre) s = c :: rest)
      by (by rewrite Hs, drop_app_length).
    destruct (attempt r s false (length pre) (last pre) (c :: rest))
      as [m'|] eqn:Ha.
    + intros [= ->].
      pose proof (attempt_bounds _ _ _ _ _ _ _ Ha) as (_ & Hst & _).
      unfold attempt_at. rewrite Hst, Ht, Hd. split; [done|]. intros; lia.
    + intros Hscan.
      specialize (IH (pre ++ [c])).
      rewrite length_app, last_snoc in IH. simpl in IH.
      rewrite Nat.add_1_r in IH.
      destruct IH as [Hm Hbefore]; [by rewrite <- app_assoc|done|].
      split; [done|]. intros i Hi1 Hi2.
      destruct (decide (i = length pre)) as [->|].
      * unfold attempt_at. by rewrite Ht, Hd.
      * apply Hbefore; lia.
Qed.

Lemma search_leftmost r s m :
  search r s = Some m →
  attempt_at r s (r_start m) = Some m
  ∧ ∀ i, i < r_start m → attempt_at r s i = None.
Proof.
  intros H. destruct (scan_leftmost r s [] s m eq_refl H) as [Hm Hb].
  split; [done|]. intros i Hi. apply Hb; simpl; lia.
Qed.

Lemma scan_none r s pre rest :
  s = pre ++ rest →
  scan r s false (length pre) (last pre) rest = None →
  ∀ i, length pre ≤ i → i ≤ length s → attempt_at r s i = None.
Proof.
  revert pre. induction rest as [|c rest IH]; intros pre Hs.
  - simpl. intros Ha i Hi1 Hi2.
    assert (i = length pre) as ->.
    { rewrite Hs, length_app in Hi2. simpl in Hi2. lia. }
    assert (Ht : take (length pre) s = pre) by (by rewrite Hs, take_app_length).
    assert (Hd : drop (length pre) s = []) by (by rewrite Hs, drop_app_length).
    unfold attempt_at. rewrite Ht, Hd.
    by destruct (attempt r s false (length pre) (last pre) []).
  - cbn [scan]. intros Ha i Hi1 Hi2.
    assert (Ht : take (length pre) s = pre) by (by rewrite Hs, take_app_length).
    assert (Hd : drop (length pre) s = c :: rest)
      by (by rewrite Hs, drop_app_length).
    destruct (attempt r s false (length pre) (last pre) (c :: rest))
      as [m'|] eqn:Hatt; [done|].
    destruct (decide (i = length pre)) as [->|].
    + unfold attempt_at. by rewrite Ht, Hd.
    + apply (IH (pre ++ [c])).
      * by rewrite <- app_assoc.
      * rewrite length_app, last_snoc. simpl. by rewrite Nat.add_1_r.
      * rewrite length_app. simpl. lia.
      * done.
Qed.

Lemma search_none r s :
  search r s = None → ∀ i, i ≤ length s → attempt_at r s i = None.
Proof.
  intros H i Hi. apply (scan_none r s [] s eq_refl H); simpl; [lia|done].
Qed.

(** The fuel of [finditer] never cuts the list of matches short. *)
Lemma finditer_aux_fuel r s :
  ∀ fuel fuel' ma pos,
    pos ≤ length s →
    2 * (length s - pos) + (if ma : bool then 0 else 1) < fuel →
    2 * (length s - pos) + (if ma : bool then 0 else 1) < fuel' →
    finditer_aux fuel r s ma pos = finditer_aux fuel' r s ma pos.
Proof.
  induction fuel as [|fuel IH]; intros fuel' ma pos Hpos Hf Hf'; [lia|].
  destruct fuel' as [|fuel']; [lia|]. simpl.
  destruct (scan r s ma pos _ _) as [m|] eqn:Hscan; [|done].
  f_equal. apply scan_bounds in Hscan as (_ & H1 & H2 & H3 & H4).
  rewrite length_drop in H3.
  destruct (Nat.eqb_spec (r_end m) (r_start m)) as [Heq|Hne].
  - apply IH; [lia| |].
    + destruct ma; [specialize (H4 eq_refl)|]; lia.
    + destruct ma; [specialize (H4 eq_refl)|]; lia.
  - apply IH; [lia| |].
    + destruct ma; [specialize (H4 eq_refl)|]; lia.
    + destruct ma; [specialize (H4 eq_refl)|]; lia.
Qed.

Lemma finditer_fuel r s fuel :
  2 * length s + 1 < fuel →
  finditer r s = finditer_aux fuel r s false 0.
Proof.
  intros Hf. unfold finditer. apply finditer_aux_fuel; lia.
Qed.
End matcher.


(** ** Blank lines and [strip] *)

Section strip_facts.
Import Py.

Lemma lstrip_nil_iff s : lstrip s = [] ↔ Spec.blank s.
Proof.
  unfold Spec.blank. induction s as [|c s IH]; simpl.
  - split; [constructor|done].
  - destruct (is_space c) eqn:Hc.
    + rewrite IH. split; [by constructor|]. by inversion 1.
    + split; [done|]. inversion 1; congruence.
Qed.

Lemma blank_lstrip s : Spec.blank (lstrip s) → Spec.blank s.
Proof.
  unfold Spec.blank. induction s as [|c s IH]; simpl; [done|].
  destruct (is_space c) eqn:Hc; [|done].
  intros H. constructor; [done|]. by apply IH.
Qed.

Lemma strip_nil_iff s : strip s = [] ↔ Spec.blank s.
Proof.
  unfold strip, rstrip. split.
  - intros H. apply (f_equal reverse) in H.
    rewrite reverse_involutive in H.
    change (reverse []) with (@nil ascii) in H.
    apply lstrip_nil_iff in H. unfold Spec.blank in H.
    rewrite Forall_reverse in H. by apply blank_lstrip.
  - intros H. apply lstrip_nil_iff in H. by rewrite H.
Qed.

Lemma truthy_strip_false s : truthy (strip s) = false ↔ Spec.blank s.
Proof.
  rewrite <- strip_nil_iff. by destruct (strip s).
Qed.

Lemma truthy_strip_true s : truthy (strip s) = true ↔ ¬ Spec.blank s.
Proof.
  rewrite <- strip_nil_iff. destruct (strip s); simpl; split; done.
Qed.
End strip_facts.

(** ** Context lines *)

Section context_loops.
Import Py.
Variable lines : list pystr.

Lemma blank_at_ge j : length lines ≤ j → Spec.blank_at lines j.
Proof. intros Hj l Hl. apply lookup_lt_Some in Hl. lia. Qed.

(** The backward loop of [OCP_parser_v3.py], entered at [i - 1] with every
    line between [i] and [idx] already seen to be blank. *)
Lemma V3_before_loop_spec idx :
  ∀ i fuel,
    i ≤ idx → idx ≤ length lines → i ≤ fuel →
    (∀ j, i ≤ j → j < idx → Spec.blank_at lines j) →
    ∃ b, V3.before_loop lines fuel (Z.of_nat i - 1) = Ok (option_list b)
         ∧ Spec.nearest_before lines idx b.
Proof.
  induction i as [|i IH]; intros fuel Hi Hidx Hfuel Hblank.
  - exists None. split.
    + destruct fuel; [done|]. simpl.
      by destruct (Z.leb_spec 0 (0 - 1)); [lia|].
    + intros j Hj. apply Hblank; lia.
  - destruct fuel as [|fuel]; [lia|]. simpl.
    replace (Z.of_nat (S i) - 1)%Z with (Z.of_nat i) by lia.
    destruct (Z.leb_spec 0 (Z.of_nat i)); [|lia].
    destruct (lookup_lt_is_Some_2 lines i) as [l Hl]; [lia|].
    rewrite (getitem_nat _ _ _ Hl), bind_Ok.
    destruct (truthy (strip l)) eqn:Ht.
    + exists (Some l). split; [done|].
      exists i. split_and!; [lia|done|by apply truthy_strip_true|].
      intros j ??. apply Hblank; lia.
    + apply IH; [lia|lia|lia|].
      intros j Hj1 Hj2. destruct (decide (j = i)) as [->|].
      * intros l' Hl'. rewrite Hl in Hl'. injection Hl' as <-.
        by apply truthy_strip_false.
      * apply Hblank; lia.
Qed.

(** The forward loop, entered at [i] with every line between [idx] and
    [i] already seen to be blank. *)
Lemma V3_after_loop_spec idx :
  ∀ fuel i,
    idx < i → length lines - i ≤ fuel →
    (∀ j, idx < j → j < i → Spec.blank_at lines j) →
    ∃ a, V3.after_loop lines fuel (Z.of_nat i) = Ok (option_list a)
         ∧ Spec.nearest_after lines idx a.
Proof.
  induction fuel as [|fuel IH]; intros i Hi Hfuel Hblank.
  - exists None. split; [done|]. intros j Hj.
    destruct (decide (j < i)); [by apply Hblank|].
    apply blank_at_ge. lia.
  - simpl. destruct (Z.ltb_spec (Z.of_nat i) (Z.of_nat (length lines))).
    + destruct (lookup_lt_is_Some_2 lines i) as [l Hl]; [lia|].
      rewrite (getitem_nat _ _ _ Hl), bind_Ok.
      destruct (truthy (strip l)) eqn:Ht.
      * exists (Some l). split; [done|].
        exists i. split_and!; [lia|done|by apply truthy_strip_true|].
        intros j ??. apply Hblank; lia.
      * replace (Z.of_nat i + 1)%Z with (Z.of_nat (S i)) by lia.
        apply IH; [lia|lia|].
        intros j Hj1 Hj2. destruct (decide (j = i)) as [->|].
        -- intros l' Hl'. rewrite Hl in Hl'. injection Hl' as <-.
           by apply truthy_strip_false.
        -- apply Hblank; lia.
    + exists None. split; [done|]. intros j Hj.
      destruct (decide (j < i)); [by apply Hblank|].
      apply blank_at_ge. lia.
Qed.

Lemma V3_before_spec idx :
  idx ≤ length lines →
  ∃ b, V3.before_loop lines (length lines) (Z.of_nat idx - 1)
       = Ok (option_list b)
       ∧ Spec.nearest_before lines idx b.
Proof.
  intros Hidx. apply V3_before_loop_spec; [lia|lia|lia|]. intros; lia.
Qed.

Lemma V3_after_spec idx :
  ∃ a, V3.after_loop lines (length lines) (Z.of_nat idx + 1)
       = Ok (option_list a)
       ∧ Spec.nearest_after lines idx a.
Proof.
  replace (Z.of_nat idx + 1)%Z with (Z.of_nat (S idx)) by lia.
  apply V3_after_loop_spec; [lia|lia|]. intros; lia.
Qed.

(** More iterations than lines change nothing. *)
Lemma V3_after_loop_fuel idx fuel :
  length lines ≤ fuel →
  V3.after_loop lines fuel (Z.of_nat idx + 1)
  = V3.after_loop lines (length lines) (Z.of_nat idx + 1).
Proof.
  intros Hfuel.
  replace (Z.of_nat idx + 1)%Z with (Z.of_nat (S idx)) by lia.
  assert (Hgen : ∀ f1 f2 i, length lines - i ≤ f1 → length lines - i ≤ f2 →
            V3.after_loop lines f1 (Z.of_nat i)
            = V3.after_loop lines f2 (Z.of_nat i)).
  { induction f1 as [|f1 IH]; intros f2 i H1 H2.
    - destruct f2 as [|f2]; [done|]. simpl.
      by destruct (Z.ltb_spec (Z.of_nat i) (Z.of_nat (length lines))); [lia|].
    - simpl. destruct (Z.ltb_spec (Z.of_nat i) (Z.of_nat (length lines))).
      + destruct f2 as [|f2]; [lia|]. simpl.
        destruct (Z.ltb_spec (Z.of_nat i) (Z.of_nat (length lines))); [|lia].
        destruct (getitem lines (Z.of_nat i)) as [l|e]; [|done]. simpl.
        destruct (truthy (strip l)); [done|].
        replace (Z.of_nat i + 1)%Z with (Z.of_nat (S i)) by lia.
        apply IH; lia.
      + destruct f2 as [|f2]; [done|]. simpl.
        by destruct (Z.ltb_spec (Z.of_nat i) (Z.of_nat (length lines)));
          [lia|]. }
  apply Hgen; lia.
Qed.

Lemma V3_before_loop_fuel idx fuel :
  idx ≤ length lines → length lines ≤ fuel →
  V3.before_loop lines fuel (Z.of_nat idx - 1)
  = V3.before_loop lines (length lines) (Z.of_nat idx - 1).
Proof.
  intros Hidx Hfuel.
  assert (Hgen : ∀ i f1 f2, i ≤ f1 → i ≤ f2 →
            V3.before_loop lines f1 (Z.of_nat i - 1)
            = V3.before_loop lines f2 (Z.of_nat i - 1)).
  { induction i as [|i IH]; intros f1 f2 H1 H2.
    - destruct f1, f2; simpl; try done;
        by destruct (Z.leb_spec 0 (0 - 1)); [lia|].
    - destruct f1 as [|f1]; [lia|]. destruct f2 as [|f2]; [lia|]. simpl.
      destruct (Z.leb_spec 0 (Z.of_nat (S i) - 1)); [|done].
      destruct (getitem lines _) as [l|e]; [|done]. simpl.
      destruct (truthy (strip l)); [done|].
      replace (Z.of_nat (S i) - 1 - 1)%Z with (Z.of_nat i - 1)%Z by lia.
      apply IH; lia. }
  apply Hgen; lia.
Qed.

(** [next] over the indices below [idx], downwards ([ocp_parser.py]). *)
Lemma Flat_next_before_spec idx :
  ∀ i,
    i ≤ idx → idx ≤ length lines →
    (∀ j, i ≤ j → j < idx → Spec.blank_at lines j) →
    ∃ b, Flat.next_nonblank lines (range_down (Z.of_nat i - 1) (-1)) = Ok b
         ∧ Spec.nearest_before lines idx b.
Proof.
  induction i as [|i IH]; intros Hi Hidx Hblank.
  - exists None. split; [done|]. intros j Hj. apply Hblank; lia.
  - unfold range_down.
    replace (Z.to_nat (Z.of_nat (S i) - 1 - -1)) with (S i) by lia.
    rewrite <- cons_seq, fmap_cons. cbn [Flat.next_nonblank].
    replace (Z.of_nat (S i) - 1 - Z.of_nat 0)%Z with (Z.of_nat i) by lia.
    destruct (lookup_lt_is_Some_2 lines i) as [l Hl]; [lia|].
    rewrite (getitem_nat _ _ _ Hl), !bind_Ok.
    destruct (truthy (strip l)) eqn:Ht.
    + exists (Some l). split; [done|].
      exists i. split_and!; [lia|done|by apply truthy_strip_true|].
      intros j ??. apply Hblank; lia.
    + destruct IH as (b & Hb & Hnear); [lia|lia| |].
      { intros j Hj1 Hj2. destruct (decide (j = i)) as [->|].
        - intros l' Hl'. rewrite Hl in Hl'. injection Hl' as <-.
          by apply truthy_strip_false.
        - apply Hblank; lia. }
      exists b. split; [|done]. rewrite <- Hb. f_equal.
      unfold range_down.
      replace (Z.to_nat (Z.of_nat i - 1 - -1)) with i by lia.
      rewrite <- fmap_S_seq, <- list_fmap_compose.
      apply list_fmap_ext. intros _ k _. simpl. lia.
Qed.

(** [next] over the indices above [idx], upwards. *)
Lemma Flat_next_after_spec idx :
  ∀ n i,
    idx < i → i + n = length lines ∨ (n = 0 ∧ length lines ≤ i) →
    (∀ j, idx < j → j < i → Spec.blank_at lines j) →
    ∃ a, Flat.next_nonblank lines
           (range (Z.of_nat i) (Z.of_nat (length lines))) = Ok a
         ∧ Spec.nearest_after lines idx a.
Proof.
  induction n as [|n IH]; intros i Hi Hn Hblank.
  - exists None. split.
    + unfold range.
      by replace (Z.to_nat (Z.of_nat (length lines) - Z.of_nat i)) with 0
        by lia.
    + intros j Hj. destruct (decide (j < i)); [by apply Hblank|].
      apply blank_at_ge. lia.
  - destruct Hn as [Hn|[? _]]; [|done]. unfold range.
    replace (Z.to_nat (Z.of_nat (length lines) - Z.of_nat i)) with (S n)
      by lia.
    rewrite <- cons_seq, fmap_cons. cbn [Flat.next_nonblank].
    replace (Z.of_nat i + Z.of_nat 0)%Z with (Z.of_nat i) by lia.
    destruct (lookup_lt_is_Some_2 lines i) as [l Hl]; [lia|].
    rewrite (getitem_nat _ _ _ Hl), !bind_Ok.
    destruct (truthy (strip l)) eqn:Ht.
    + exists (Some l). split; [done|].
      exists i. split_and!; [lia|done|by apply truthy_strip_true|].
      intros j ??. apply Hblank; lia.
    + destruct (IH (S i)) as (a & Ha & Hnear); [lia|lia| |].
      { intros j Hj1 Hj2. destruct (decide (j = i)) as [->|].
        - intros l' Hl'. rewrite Hl in Hl'. injection Hl' as <-.
          by apply truthy_strip_false.
        - apply Hblank; lia. }
      exists a. split; [|done]. rewrite <- Ha. f_equal.
      unfold range.
      replace (Z.to_nat (Z.of_nat (length lines) - Z.of_nat (S i))) with n
        by lia.
      rewrite <- fmap_S_seq, <- list_fmap_compose.
      apply list_fmap_ext. intros _ k _. simpl. lia.
Qed.
End context_loops.


(** ** Requirement extraction *)

Section extraction.
Import Py Re.

Lemma anchor_of_resolved pattern line after :
  Spec.anchor_resolved pattern line after (Spec.anchor_of pattern line after).
Proof.
  unfold Spec.anchor_resolved, Spec.anchor_of.
  destruct (search pattern line) as [m|] eqn:Hline.
  - left. split; [by eexists|].
    destruct (search_leftmost _ _ _ Hline) as [Hm Hbefore].
    by exists m.
  - right. split; [exact (search_none _ _ Hline)|].
    destruct after as [l|]; [|done].
    destruct (search pattern l) as [m|] eqn:Hl; simpl.
    + destruct (search_leftmost _ _ _ Hl) as [Hm Hbefore]. by exists m.
    + exact (search_none _ _ Hl).
Qed.

Lemma matching_indices_step pattern (lines pre : list pystr) line rest :
  lines = pre ++ line :: rest →
  filter (λ i, from_option (λ l, is_some (search pattern l)) false
                 (lines !! i) = true)
         (seq (length pre) (length (line :: rest)))
  = (if is_some (search pattern line) then [length pre] else [])
    ++ filter (λ i, from_option (λ l, is_some (search pattern l)) false
                      (lines !! i) = true)
              (seq (S (length pre)) (length rest)).
Proof.
  intros Hlines. cbn [length seq]. rewrite filter_cons.
  assert (Hl : lines !! length pre = Some line).
  { rewrite Hlines. by apply list_lookup_middle. }
  rewrite Hl. cbn [from_option].
  destruct (is_some (search pattern line)).
  - by rewrite decide_True by done.
  - by rewrite decide_False by done.
Qed.

Lemma V3_make_requirement_spec lines section_id hierarchy parent_hierarchy
    page count idx line :
  lines !! idx = Some line →
  ∃ r, V3.make_requirement lines section_id hierarchy parent_hierarchy
         page count idx line = Ok r
       ∧ V3.requirement_id r
         = section_id ++ lit "_req_" ++ str_of_nat (count + 1)
       ∧ Spec.V3_requirement_at lines page hierarchy parent_hierarchy idx r.
Proof.
  intros Hline. unfold V3.make_requirement.
  destruct (V3_before_spec lines idx) as (b & -> & Hb).
  { apply lookup_lt_Some in Hline. lia. }
  destruct (V3_after_spec lines idx) as (a & -> & Ha).
  rewrite !bind_Ok.
  destruct (search V3.ANCHOR_PATTERN line) as [m|] eqn:Hs.
  - cbn [is_some negb andb]. rewrite bind_Ok. cbn [is_some match_group0].
    rewrite fmap_Ok, bind_Ok.
    eexists. split; [reflexivity|]. split; [done|].
    exists line, b, a. split_and!; try done.
    cbn [V3.anchor]. unfold Spec.anchor_of. by rewrite Hs.
  - destruct a as [l|].
    + change (option_list (Some l)) with [l].
      cbn [is_some negb andb nonempty].
      change (getitem [l] 0) with (Ok l). rewrite !bind_Ok.
      destruct (search V3.ANCHOR_PATTERN l) as [m|] eqn:Hl.
      * cbn [is_some match_group0]. rewrite fmap_Ok, bind_Ok.
        eexists. split; [reflexivity|]. split; [done|].
        exists line, b, (Some l). split_and!; try done.
        cbn [V3.anchor]. unfold Spec.anchor_of. by rewrite Hs, Hl.
      * cbn [is_some]. rewrite bind_Ok.
        eexists. split; [reflexivity|]. split; [done|].
        exists line, b, (Some l). split_and!; try done.
        cbn [V3.anchor]. unfold Spec.anchor_of. by rewrite Hs, Hl.
    + change (option_list None) with (@nil pystr).
      cbn [is_some negb andb nonempty]. rewrite !bind_Ok.
      eexists. split; [reflexivity|]. split; [done|].
      exists line, b, None. split_and!; try done.
      cbn [V3.anchor]. unfold Spec.anchor_of. by rewrite Hs.
Qed.

Lemma V3_requirements_loop_spec lines section_id hierarchy parent_hierarchy
    page :
  ∀ rest pre acc,
    lines = pre ++ rest →
    ∃ reqs,
      V3.requirements_loop lines section_id hierarchy parent_hierarchy page
        (length pre) rest acc = Ok (acc ++ reqs)
      ∧ Forall2 (Spec.V3_requirement_at lines page hierarchy parent_hierarchy)
          (filter (λ i, from_option
                          (λ l, is_some (search V3.SHALL_PATTERN l)) false
                          (lines !! i) = true)
                  (seq (length pre) (length rest)))
          reqs
      ∧ V3.requirement_id <$> reqs
        = Spec.requirement_ids section_id (length acc + 1) (length reqs).
Proof.
  induction rest as [|line rest IH]; intros pre acc Hlines.
  - exists []. rewrite app_nil_r. split; [done|]. split; [constructor|done].
  - rewrite (matching_indices_step _ _ _ _ _ Hlines).
    cbn [V3.requirements_loop].
    assert (Hpre : lines = (pre ++ [line]) ++ rest)
      by (by rewrite <- app_assoc).
    assert (Hlen : S (length pre) = length (pre ++ [line])).
    { rewrite length_app. simpl. lia. }
    destruct (is_some (search V3.SHALL_PATTERN line)) eqn:Hshall;
      cbn [negb].
    + destruct (V3_make_requirement_spec lines section_id hierarchy
                  parent_hierarchy page (length acc) (length pre) line)
        as (r & -> & Hid & Hr).
      { rewrite Hlines. by apply list_lookup_middle. }
      rewrite bind_Ok, Hlen.
      destruct (IH (pre ++ [line]) (acc ++ [r]) Hpre)
        as (reqs & -> & Hreqs & Hids).
      exists (r :: reqs). rewrite <- app_assoc. split; [done|].
      split.
      * cbn [app].
        constructor; [exact Hr|exact Hreqs].
      * rewrite fmap_cons, Hids, Hid, length_app. simpl.
        unfold Spec.requirement_ids. simpl. do 3 f_equal. lia.
    + rewrite Hlen.
      destruct (IH (pre ++ [line]) acc Hpre) as (reqs & -> & Hreqs & Hids).
      exists reqs. by split_and!.
Qed.

Lemma V3_extract_requirements_spec lines section_id hierarchy
    parent_hierarchy page :
  ∃ reqs,
    V3.extract_requirements_with_context lines section_id hierarchy
      parent_hierarchy page = Ok reqs
    ∧ Forall2 (Spec.V3_requirement_at lines page hierarchy parent_hierarchy)
        (Spec.matching_indices V3.SHALL_PATTERN lines) reqs
    ∧ V3.requirement_id <$> reqs
      = Spec.requirement_ids section_id 1 (length reqs).
Proof.
  destruct (V3_requirements_loop_spec lines section_id hierarchy
              parent_hierarchy page lines [] [] eq_refl)
    as (reqs & Hloop & Hreqs & Hids).
  exists reqs. by split_and!.
Qed.

Lemma Flat_make_record_spec kp lines data tree ref idx line :
  lines !! idx = Some line →
  ∃ r, Flat.make_record kp lines data tree ref idx line = Ok r
       ∧ Spec.Flat_record_at lines data tree ref idx r.
Proof.
  intros Hline. unfold Flat.make_record.
  destruct (Flat_next_before_spec lines idx idx) as (b & -> & Hb).
  { lia. } { apply lookup_lt_Some in Hline. lia. } { intros; lia. }
  destruct (Flat_next_after_spec lines idx (length lines - S idx) (S idx))
    as (a & Ha & Hafter).
  { lia. } { apply lookup_lt_Some in Hline. lia. } { intros; lia. }
  replace (Z.of_nat idx + 1)%Z with (Z.of_nat (S idx)) by lia.
  rewrite Ha, !bind_Ok.
  assert (Hanchor :
    match a with
    | Some a0 =>
        if negb (is_some (search Flat.ANCHOR_PATTERN line)) && truthy a0
        then search Flat.ANCHOR_PATTERN a0
        else search Flat.ANCHOR_PATTERN line
    | None => search Flat.ANCHOR_PATTERN line
    end
    = match search Flat.ANCHOR_PATTERN line with
      | Some m => Some m
      | None => match a with
                | Some l => search Flat.ANCHOR_PATTERN l
                | None => None
                end
      end).
  { destruct (search Flat.ANCHOR_PATTERN line) as [m|]; [by destruct a|].
    destruct a as [l|]; [|done]. cbn [is_some negb andb].
    destruct Hafter as (j & _ & _ & Hnb & _).
    destruct l; [|done]. exfalso. apply Hnb. constructor. }
  rewrite Hanchor.
  assert (Hgroup : ∀ o : option rmatch,
            (if is_some o then Some <$> match_group0 o else Ok None)
            = Ok (group0 <$> o)).
  { by intros [m|]. }
  rewrite Hgroup, bind_Ok.
  eexists. split; [reflexivity|].
  exists line. split_and!; try done.
  cbn [Flat.anchor Flat.after_shall]. unfold Spec.anchor_of.
  destruct (search Flat.ANCHOR_PATTERN line) as [m|]; [done|].
  by destruct a.
Qed.

Lemma Flat_records_loop_spec kp lines data tree ref :
  ∀ rest pre acc,
    lines = pre ++ rest →
    ∃ recs,
      Flat.records_loop kp lines data tree ref (length pre) rest acc
      = Ok (acc ++ recs)
      ∧ Forall2 (Spec.Flat_record_at lines data tree ref)
          (filter (λ i, from_option
                          (λ l, is_some (search Flat.SHALL_PATTERN l)) false
                          (lines !! i) = true)
                  (seq (length pre) (length rest)))
          recs.
Proof.
  induction rest as [|line rest IH]; intros pre acc Hlines.
  - exists []. rewrite app_nil_r. split; [done|constructor].
  - rewrite (matching_indices_step _ _ _ _ _ Hlines).
    cbn [Flat.records_loop].
    assert (Hpre : lines = (pre ++ [line]) ++ rest)
      by (by rewrite <- app_assoc).
    assert (Hlen : S (length pre) = length (pre ++ [line])).
    { rewrite length_app. simpl. lia. }
    destruct (is_some (search Flat.SHALL_PATTERN line)) eqn:Hshall;
      cbn [negb].
    + destruct (Flat_make_record_spec kp lines data tree ref
                  (length pre) line) as (r & -> & Hr).
      { rewrite Hlines. by apply list_lookup_middle. }
      rewrite bind_Ok, Hlen.
      destruct (IH (pre ++ [line]) (acc ++ [r]) Hpre) as (recs & -> & Hrecs).
      exists (r :: recs). rewrite <- app_assoc. split; [done|].
      cbn [app].
      constructor; [exact Hr|exact Hrecs].
    + rewrite Hlen.
      destruct (IH (pre ++ [line]) acc Hpre) as (recs & -> & Hrecs).
      exists recs. by split.
Qed.
End extraction.


(** ** Strict prefixes of a section number *)

Section prefixes.
Import Py.

Lemma strict_prefix_key_iff (id p : pystr) :
  Spec.strict_prefix_key p id ↔
  ∃ i, 1 ≤ i < length (split dot id) ∧ p = join [dot] (take i (split dot id)).
Proof.
  split.
  - intros [rest ->]. exists (length (split dot p)).
    rewrite split_app, length_app.
    pose proof (split_length_pos dot p). pose proof (split_length_pos dot rest).
    split; [lia|]. by rewrite take_app_length, join_split.
  - intros (i & [Hi1 Hi2] & ->).
    exists (join [dot] (drop i (split dot id))).
    rewrite <- join_app.
    + by rewrite take_drop, join_split.
    + intros Hnil. apply (f_equal length) in Hnil.
      rewrite length_take in Hnil. simpl in Hnil. lia.
    + intros Hnil. apply (f_equal length) in Hnil.
      rewrite length_drop in Hnil. simpl in Hnil. lia.
Qed.

Lemma prefix_key_shorter (parts : list pystr) (i j : nat) :
  1 ≤ i → i < j → j ≤ length parts →
  Spec.shorter (join [dot] (take i parts)) (join [dot] (take j parts)).
Proof.
  intros Hi Hij Hj. unfold Spec.shorter.
  replace (take j parts) with (take i parts ++ take (j - i) (drop i parts)).
  - rewrite join_app.
    + rewrite length_app. simpl. lia.
    + intros Hnil. apply (f_equal length) in Hnil.
      rewrite length_take in Hnil. simpl in Hnil. lia.
    + intros Hnil. apply (f_equal length) in Hnil.
      rewrite length_take, length_drop in Hnil. simpl in Hnil. lia.
  - rewrite take_take_drop. f_equal. lia.
Qed.

Lemma StronglySorted_fmap_seq {A} (R : relation A) (f : nat → A) (a n : nat) :
  (∀ i j, a ≤ i → i < j → j < a + n → R (f i) (f j)) →
  StronglySorted R (f <$> seq a n).
Proof.
  revert a. induction n as [|n IH]; intros a Hf; simpl; [constructor|].
  constructor.
  - apply IH. intros i j ???. apply Hf; lia.
  - apply Forall_forall. intros x Hx.
    apply list_elem_of_fmap in Hx as (j & -> & Hj).
    apply elem_of_seq in Hj. apply Hf; lia.
Qed.

Lemma StronglySorted_filter {A} (R : relation A) (P : A → Prop)
    `{!∀ x, Decision (P x)} (l : list A) :
  StronglySorted R l → StronglySorted R (filter P l).
Proof.
  induction 1 as [|x l Hl IH Hx]; [constructor|].
  rewrite filter_cons. case_decide; [|done].
  constructor; [done|]. apply Forall_forall. intros y Hy.
  apply list_elem_of_filter in Hy as [_ Hy].
  by eapply Forall_forall in Hx.
Qed.

(** The keys tried by the loop of [build_hierarchy_tree] are all strict
    prefixes, shortest first. *)
Lemma loop_keys_all_prefixes (id : pystr) :
  Spec.all_prefixes id
    ((λ i, join [dot] (take i (split dot id)))
       <$> seq 1 (length (split dot id) - 1)).
Proof.
  split.
  - intros p. rewrite strict_prefix_key_iff, list_elem_of_fmap.
    split.
    + intros (i & -> & Hi). apply elem_of_seq in Hi. exists i. split; [lia|done].
    + intros (i & Hi & ->). exists i. split; [done|]. apply elem_of_seq. lia.
  - apply StronglySorted_fmap_seq. intros i j ???.
    apply prefix_key_shorter; lia.
Qed.

Lemma present_prefixes_filter (m : gmap pystr pystr) (id : pystr)
    (keys : list pystr) :
  Spec.all_prefixes id keys →
  Spec.present_prefixes m id (filter (λ k, is_Some (m !! k)) keys).
Proof.
  intros [Hall Hsorted]. split.
  - intros p. rewrite list_elem_of_filter, Hall. tauto.
  - by apply StronglySorted_filter.
Qed.

Lemma lookup_filter_omap (m : gmap pystr pystr) (keys : list pystr) :
  Forall2 (λ k name, m !! k = Some name)
    (filter (λ k, is_Some (m !! k)) keys) (omap (m !!.) keys).
Proof.
  induction keys as [|k keys IH]; simpl; [constructor|].
  rewrite filter_cons. destruct (m !! k) as [v|] eqn:Hk.
  - rewrite decide_True by eauto. by constructor.
  - rewrite decide_False by (by intros [??]). done.
Qed.

(** The loop of [build_hierarchy_tree]: no exception, and the result is
    the list of entries found. *)
Lemma ancestors_loop (m : gmap pystr pystr) (f : nat → pystr)
    (l : list nat) (acc : list pystr) :
  for_each
    (λ ancestors i,
       let key := f i in
       if dict_contains m key
       then v ← dict_getitem m key; Ok (ancestors ++ [v])
       else Ok ancestors) l acc
  = Ok (acc ++ omap (λ i, m !! f i) l).
Proof.
  revert acc. induction l as [|i l IH]; intros acc; simpl.
  - by rewrite app_nil_r.
  - unfold dict_contains, dict_getitem. destruct (m !! f i) as [v|]; simpl.
    + rewrite IH. by rewrite <- app_assoc.
    + apply IH.
Qed.

Lemma omap_fmap_lookup (m : gmap pystr pystr) (f : nat → pystr) (l : list nat) :
  omap (λ i, m !! f i) l = omap (m !!.) (f <$> l).
Proof.
  induction l as [|i l IH]; simpl; [done|].
  destruct (m !! f i); simpl; by f_equal.
Qed.

(** What the tail of [build_hierarchy_tree] computes from [ancestors]. *)
Lemma parent_of_ancestors (ancestors : list pystr) :
  (if nonempty ancestors then Some <$> getitem ancestors (-1) else Ok None)
  = Ok (Spec.from_end 0 ancestors).
Proof.
  destruct ancestors as [|a l]; cbn [nonempty].
  - by rewrite from_end_None by (simpl; lia).
  - destruct (from_end_is_Some (a :: l) 0) as [x Hx]; [simpl; lia|].
    pose proof (getitem_from_end _ 0 x Hx) as Hg.
    change (- Z.of_nat 1)%Z with (-1)%Z in Hg. by rewrite Hx, Hg.
Qed.

Lemma grandparent_of_ancestors (ancestors : list pystr) :
  (if 2 <=? length ancestors
   then Some <$> getitem ancestors (-2) else Ok None)
  = Ok (Spec.from_end 1 ancestors).
Proof.
  destruct (Nat.leb_spec 2 (length ancestors)) as [Hl|Hl].
  - destruct (from_end_is_Some ancestors 1) as [x Hx]; [lia|].
    pose proof (getitem_from_end _ 1 x Hx) as Hg.
    change (- Z.of_nat 2)%Z with (-2)%Z in Hg. by rewrite Hx, Hg.
  - by rewrite from_end_None by lia.
Qed.
End prefixes.

(** ** [build_hierarchy_tree] *)

Lemma V3_build_hierarchy_tree_eq (m : gmap pystr pystr) (id : pystr) :
  let keys := (λ i, Py.join [Py.dot] (take i (Py.split Py.dot id)))
                <$> seq 1 (length (Py.split Py.dot id) - 1) in
  let names := omap (m !!.) keys in
  V3.build_hierarchy_tree m id
  = Ok {| V3.current := default id (m !! id);
          V3.parent := Spec.from_end 0 names;
          V3.grandparent := Spec.from_end 1 names;
          V3.ancestors := names |}.
Proof.
  intros keys names. unfold V3.build_hierarchy_tree.
  change (lit ".") with [Py.dot].
  rewrite (ancestors_loop m (λ i, Py.join [Py.dot] (take i (Py.split Py.dot id)))).
  rewrite bind_Ok. simpl app. rewrite omap_fmap_lookup. fold keys. fold names.
  rewrite parent_of_ancestors, bind_Ok.
  by rewrite grandparent_of_ancestors, bind_Ok.
Qed.

Lemma V1_build_hierarchy_tree_eq (id : pystr) :
  let keys := (λ i, Py.join [Py.dot] (take i (Py.split Py.dot id)))
                <$> seq 1 (length (Py.split Py.dot id) - 1) in
  V1.ancestors (V1.build_hierarchy_tree id) = keys
  ∧ V1.parent (V1.build_hierarchy_tree id) = Spec.from_end 0 keys
  ∧ V1.grandparent (V1.build_hierarchy_tree id) = Spec.from_end 1 keys.
Proof.
  intros keys. unfold V1.build_hierarchy_tree.
  cbn [V1.ancestors V1.parent V1.grandparent].
  change (lit ".") with [Py.dot].
  set (parts := Py.split Py.dot id) in *.
  assert (Hkeys : (λ i, Py.join [Py.dot] (take (i + 1) parts))
                    <$> seq 0 (length parts - 1) = keys).
  { unfold keys. fold parts. rewrite <- (fmap_S_seq 0).
    rewrite <- list_fmap_compose. apply list_fmap_ext. intros _ i _. simpl.
    by rewrite Nat.add_1_r. }
  rewrite Hkeys. split; [done|].
  assert (Hlen : length keys = length parts - 1).
  { unfold keys. fold parts. by rewrite length_fmap, length_seq. }
  assert (Hend : ∀ k, k < length parts - 1 →
            Spec.from_end k keys
            = Some (Py.join [Py.dot] (V1.drop_last (S k) parts))).
  { intros k Hk. unfold Spec.from_end.
    rewrite reverse_lookup by lia. unfold keys. fold parts.
    rewrite list_lookup_fmap, length_fmap, length_seq.
    rewrite lookup_seq_lt by lia. simpl. unfold V1.drop_last.
    do 3 f_equal. lia. }
  split.
  - destruct (Nat.ltb_spec 1 (length parts)) as [Hl|Hl].
    + by rewrite Hend by lia.
    + by rewrite from_end_None by lia.
  - destruct (Nat.ltb_spec 2 (length parts)) as [Hl|Hl].
    + by rewrite Hend by lia.
    + by rewrite from_end_None by lia.
Qed.


Lemma P3_build_hierarchy_tree_eq (m : gmap pystr pystr) (id : pystr) :
  let keys := (λ i, Py.join [Py.dot] (take i (Py.split Py.dot id)))
                <$> seq 1 (length (Py.split Py.dot id) - 1) in
  let names := omap (m !!.) keys in
  P3.build_hierarchy_tree m id
  = Ok {| P3.current := default id (m !! id);
          P3.parent := Spec.from_end 0 names;
          P3.grandparent := Spec.from_end 1 names;
          P3.ancestors := names |}.
Proof.
  intros keys names. unfold P3.build_hierarchy_tree.
  change (lit ".") with [Py.dot].
  rewrite (ancestors_loop m (λ i, Py.join [Py.dot] (take i (Py.split Py.dot id)))).
  rewrite bind_Ok. simpl app. rewrite omap_fmap_lookup. fold keys. fold names.
  rewrite parent_of_ancestors, bind_Ok.
  by rewrite grandparent_of_ancestors, bind_Ok.
Qed.

Lemma Flat_build_hierarchy_tree_eq (m : gmap pystr pystr) (id : pystr) :
  let keys := (λ i, Py.join [Py.dot] (take i (Py.split Py.dot id)))
                <$> seq 1 (length (Py.split Py.dot id) - 1) in
  let names := omap (m !!.) keys in
  Flat.build_hierarchy_tree m id
  = Ok {| Flat.parent := Spec.from_end 0 names;
          Flat.grandparent := Spec.from_end 1 names;
          Flat.ancestors := names |}.
Proof.
  intros keys names. unfold Flat.build_hierarchy_tree.
  change (lit ".") with [Py.dot].
  rewrite (ancestors_loop m (λ i, Py.join [Py.dot] (take i (Py.split Py.dot id)))).
  rewrite bind_Ok. simpl app. rewrite omap_fmap_lookup. fold keys. fold names.
  rewrite parent_of_ancestors, bind_Ok.
  change (1 <? length names) with (2 <=? length names).
  by rewrite grandparent_of_ancestors, bind_Ok.
Qed.

Lemma resolved_from_map_loop (m : gmap pystr pystr) (id : pystr) :
  Spec.resolved_from_map m id
    (omap (m !!.) ((λ i, Py.join [Py.dot] (take i (Py.split Py.dot id)))
                     <$> seq 1 (length (Py.split Py.dot id) - 1))).
Proof.
  eexists. split; [|apply lookup_filter_omap].
  apply present_prefixes_filter, loop_keys_all_prefixes.
Qed.

(** The example of the specification: with "3" and "3.2" in the title map,
    "3.2.1" resolves to both names. *)
Example V3_resolve_example :
  V3.build_hierarchy_tree
    (<[lit "3" := lit "3 Intro"]> (<[lit "3.2" := lit "3.2 Power"]> ∅))
    (lit "3.2.1")
  = Ok {| V3.current := lit "3.2.1";
          V3.parent := Some (lit "3.2 Power");
          V3.grandparent := Some (lit "3 Intro");
          V3.ancestors := [lit "3 Intro"; lit "3.2 Power"] |}.
Proof. vm_compute. reflexivity. Qed.

(** A prefix missing from the title map is left out. *)
Example V3_resolve_missing_prefix :
  V3.build_hierarchy_tree (<[lit "3" := lit "3 Intro"]> ∅) (lit "3.2.1")
  = Ok {| V3.current := lit "3.2.1";
          V3.parent := Some (lit "3 Intro");
          V3.grandparent := None;
          V3.ancestors := [lit "3 Intro"] |}.
Proof. vm_compute. reflexivity. Qed.

(** C1 (as amended).  In the variants that keep a title map
    ([OCP_parser_v3.py], [ocpparser3.py], [ocp_parser.py]),
    [build_hierarchy_tree] never raises and returns as ancestors the
    title-map entries of exactly those strict dot-separated prefixes of the
    id that are present in the map, shortest prefix first, with parent the
    last and grandparent the second-to-last ancestor (absent when there is
    none).  [OCP_parser.py] keeps no title map: there the ancestors are all
    strict prefixes of the id themselves, again shortest first, with the same
    parent and grandparent rule. *)
Theorem C1_hierarchy_resolution (m : gmap pystr pystr) (id : pystr) :
  (∃ t, V3.build_hierarchy_tree m id = Ok t
        ∧ Spec.resolved_from_map m id (V3.ancestors t)
        ∧ V3.parent t = Spec.from_end 0 (V3.ancestors t)
        ∧ V3.grandparent t = Spec.from_end 1 (V3.ancestors t))
  ∧ (∃ t, P3.build_hierarchy_tree m id = Ok t
        ∧ Spec.resolved_from_map m id (P3.ancestors t)
        ∧ P3.parent t = Spec.from_end 0 (P3.ancestors t)
        ∧ P3.grandparent t = Spec.from_end 1 (P3.ancestors t))
  ∧ (∃ t, Flat.build_hierarchy_tree m id = Ok t
        ∧ Spec.resolved_from_map m id (Flat.ancestors t)
        ∧ Flat.parent t = Spec.from_end 0 (Flat.ancestors t)
        ∧ Flat.grandparent t = Spec.from_end 1 (Flat.ancestors t))
  ∧ (Spec.all_prefixes id (V1.ancestors (V1.build_hierarchy_tree id))
     ∧ V1.parent (V1.build_hierarchy_tree id)
       = Spec.from_end 0 (V1.ancestors (V1.build_hierarchy_tree id))
     ∧ V1.grandparent (V1.build_hierarchy_tree id)
       = Spec.from_end 1 (V1.ancestors (V1.build_hierarchy_tree id))).
Proof.
  split; [|split; [|split]].
  - eexists. split; [apply V3_build_hierarchy_tree_eq|]. simpl.
    split; [apply resolved_from_map_loop|done].
  - eexists. split; [apply P3_build_hierarchy_tree_eq|]. simpl.
    split; [apply resolved_from_map_loop|done].
  - eexists. split; [apply Flat_build_hierarchy_tree_eq|]. simpl.
    split; [apply resolved_from_map_loop|done].
  - destruct (V1_build_hierarchy_tree_eq id) as (Ha & Hp & Hg).
    rewrite Hp, Hg, Ha. split; [apply loop_keys_all_prefixes|done].
Qed.

(** C1 as stated fails on [OCP_parser.py]: with "3" and "3.2" named in a
    title map, the ancestors of "3.2.1" are the raw numbers "3" and "3.2",
    not the names found in the map. *)
Lemma C1_counterexample :
  let m : gmap pystr pystr :=
    <[lit "3" := lit "3 Intro"]> (<[lit "3.2" := lit "3.2 Power"]> ∅) in
  V1.ancestors (V1.build_hierarchy_tree (lit "3.2.1")) = [lit "3"; lit "3.2"]
  ∧ ¬ Spec.resolved_from_map m (lit "3.2.1")
        (V1.ancestors (V1.build_hierarchy_tree (lit "3.2.1"))).
Proof.
  intros m. split; [by vm_compute|].
  replace (V1.ancestors (V1.build_hierarchy_tree (lit "3.2.1")))
    with [lit "3"; lit "3.2"] by (by vm_compute).
  intros (keys & _ & Hnames).
  apply Forall2_cons_inv_r in Hnames as (k & keys' & Hk & _ & _).
  unfold m in Hk.
  rewrite lookup_insert in Hk. case_decide.
  - by vm_compute in Hk.
  - rewrite lookup_insert in Hk. case_decide.
    + by vm_compute in Hk.
    + by rewrite lookup_empty in Hk.
Qed.


(** ** Loops *)

Section for_each_facts.
Context {A S : Type}.
Implicit Types (body : S → A → result S) (l : list A).

Lemma for_each_app body l1 l2 s :
  for_each body (l1 ++ l2) s = s' ← for_each body l1 s; for_each body l2 s'.
Proof.
  revert s. induction l1 as [|x l1 IH]; intros s; simpl; [done|].
  destruct (body s x) as [s'|e]; simpl; [apply IH|done].
Qed.

Lemma for_each_fmap {B} (f : B → A) body (l : list B) s :
  for_each body (f <$> l) s = for_each (λ s x, body s (f x)) l s.
Proof.
  revert s. induction l as [|x l IH]; intros s; simpl; [done|].
  destruct (body s (f x)) as [s'|e]; simpl; [apply IH|done].
Qed.

Lemma for_each_returns body l s :
  (∀ s x, returns (body s x)) → returns (for_each body l s).
Proof.
  intros Hbody. revert s. induction l as [|x l IH]; intros s; simpl.
  - apply returns_Ok.
  - destruct (Hbody s x) as [s' ->]. apply IH.
Qed.
End for_each_facts.

(** ** [_finalize_section] of [OCP_parser_v3.py] *)

Section V3_sections.
Import Py Re.

Lemma V3_finalize_section_spec (m : gmap pystr pystr) (d : V3.SectionData) :
  ∃ tree reqs,
    V3.build_hierarchy_tree m (V3.d_number d) = Ok tree
    ∧ V3.extract_requirements_with_context (V3.d_lines d)
        (lit "section_" ++ replace "." "_" (V3.d_number d))
        (V3.d_full_name d) (V3.parent tree) (V3.d_page_number d) = Ok reqs
    ∧ V3._finalize_section m d
      = Ok {| V3.id := lit "section_" ++ replace "." "_" (V3.d_number d);
              V3.hierarchy := V3.d_full_name d;
              V3.hierarchy_tree := tree;
              V3.title := V3.d_title d;
              V3.requirements := reqs;
              V3.sec_page_number := V3.d_page_number d;
              V3.metadata :=
                {| V3.content_length :=
                     length (join [newline] (V3.d_lines d));
                   V3.requirement_count := length reqs;
                   V3.reference_count :=
                     length (findall V3.ANCHOR_PATTERN
                               (join [newline] (V3.d_lines d)));
                   V3.has_subsections := contains "." (V3.d_number d);
                   V3.depth := length (split dot (V3.d_number d));
                   V3.word_count :=
                     length (words (join [newline] (V3.d_lines d))) |};
              V3.raw_content := join [newline] (V3.d_lines d) |}.
Proof.
  pose proof (V3_build_hierarchy_tree_eq m (V3.d_number d)) as Htree.
  cbv zeta in Htree. eexists. 
  destruct (V3_extract_requirements_spec (V3.d_lines d)
              (lit "section_" ++ replace "." "_" (V3.d_number d))
              (V3.d_full_name d)
              (Spec.from_end 0
                 (omap (m !!.)
                    ((λ i, join [dot] (take i (split dot (V3.d_number d))))
                       <$> seq 1 (length (split dot (V3.d_number d)) - 1))))
              (V3.d_page_number d)) as (reqs & Hreqs & _).
  exists reqs. split; [exact Htree|]. split; [exact Hreqs|].
  unfold V3._finalize_section. rewrite Htree, bind_Ok.
  cbn [V3.parent]. by rewrite Hreqs, bind_Ok.
Qed.

Lemma V3_finalize_section_returns m d : returns (V3._finalize_section m d).
Proof.
  destruct (V3_finalize_section_spec m d) as (? & ? & _ & _ & ->).
  apply returns_Ok.
Qed.

Lemma V3_close_current_returns st : returns (V3.close_current st).
Proof.
  unfold V3.close_current. destruct (V3.cur st) as [c|]; [|apply returns_Ok].
  destruct (V3_finalize_section_returns (V3.section_title_map st) c)
    as [s ->].
  apply returns_Ok.
Qed.

Lemma V3_parse_line_returns pn st line : returns (V3.parse_line pn st line).
Proof.
  unfold V3.parse_line. destruct (rematch V3.SECTION_PATTERN line) as [m|].
  - destruct (V3_close_current_returns st) as [secs ->]. apply returns_Ok.
  - destruct (V3.cur st); apply returns_Ok.
Qed.

Lemma V3_parse_page_returns st page : returns (V3.parse_page st page).
Proof. apply for_each_returns. intros. apply V3_parse_line_returns. Qed.

Lemma V3_parse_from_returns st pages : returns (V3.parse_from st pages).
Proof.
  unfold V3.parse_from.
  destruct (for_each_returns V3.parse_page pages st V3_parse_page_returns)
    as [st' ->].
  rewrite bind_Ok. destruct (V3_close_current_returns st') as [secs ->].
  apply returns_Ok.
Qed.

(** The page loop is one loop over the line stream. *)
Lemma V3_pages_as_stream pages st :
  for_each V3.parse_page pages st
  = for_each (λ st pl, V3.parse_line pl.1 st pl.2) (Spec.stream pages) st.
Proof.
  revert st. induction pages as [|p pages IH]; intros st; [done|].
  unfold Spec.stream. rewrite bind_cons. fold (Spec.stream pages).
  rewrite for_each_app, for_each_fmap.
  change (for_each _ (splitlines (text p)) st) with (V3.parse_page st p).
  cbn [for_each].
  destruct (V3.parse_page st p) as [st'|e]; simpl; [apply IH|done].
Qed.

(** *** One line at a time *)

Lemma V3_parse_line_header pn st line number title secs :
  Spec.header_of V3.SECTION_PATTERN line = Some (number, title) →
  V3.close_current st = Ok secs →
  V3.parse_line pn st line
  = Ok {| V3.sections := secs;
          V3.cur := Some {| V3.d_number := number; V3.d_title := title;
                            V3.d_full_name := Spec.full_name number title;
                            V3.d_page_number := pn;
                            V3.d_lines := [] |};
          V3.section_title_map :=
            <[number := Spec.full_name number title]>
              (V3.section_title_map st) |}.
Proof.
  unfold Spec.header_of, V3.parse_line. intros Hh Hclose.
  destruct (rematch V3.SECTION_PATTERN line) as [m|]; [|done].
  injection Hh as <- <-. by rewrite Hclose.
Qed.

Lemma V3_parse_line_content pn st line c :
  Spec.is_header V3.SECTION_PATTERN line = false →
  V3.cur st = Some c →
  V3.parse_line pn st line
  = Ok {| V3.sections := V3.sections st;
          V3.cur := Some {| V3.d_number := V3.d_number c;
                            V3.d_title := V3.d_title c;
                            V3.d_full_name := V3.d_full_name c;
                            V3.d_page_number := V3.d_page_number c;
                            V3.d_lines := V3.d_lines c ++ [line] |};
          V3.section_title_map := V3.section_title_map st |}.
Proof.
  unfold Spec.is_header, V3.parse_line. intros Hh Hcur.
  destruct (rematch V3.SECTION_PATTERN line) as [m|]; [done|].
  by rewrite Hcur.
Qed.

Lemma V3_parse_line_preamble pn st line :
  Spec.is_header V3.SECTION_PATTERN line = false →
  V3.cur st = None →
  V3.parse_line pn st line = Ok st.
Proof.
  unfold Spec.is_header, V3.parse_line. intros Hh Hcur.
  destruct (rematch V3.SECTION_PATTERN line) as [m|]; [done|].
  by rewrite Hcur.
Qed.

(** *** Runs of lines *)

Lemma V3_run_preamble ls st :
  Spec.no_header V3.SECTION_PATTERN ls →
  V3.cur st = None →
  for_each (λ st pl, V3.parse_line pl.1 st pl.2) ls st = Ok st.
Proof.
  intros Hls Hcur. induction Hls as [|pl ls Hpl _ IH]; simpl; [done|].
  by rewrite (V3_parse_line_preamble _ _ _ Hpl Hcur), bind_Ok.
Qed.

Lemma V3_run_content ls :
  Spec.no_header V3.SECTION_PATTERN ls →
  ∀ secs number title full page lines m,
    for_each (λ st pl, V3.parse_line pl.1 st pl.2) ls
      {| V3.sections := secs;
         V3.cur := Some {| V3.d_number := number; V3.d_title := title;
                           V3.d_full_name := full;
                           V3.d_page_number := page;
                           V3.d_lines := lines |};
         V3.section_title_map := m |}
    = Ok {| V3.sections := secs;
            V3.cur := Some {| V3.d_number := number; V3.d_title := title;
                              V3.d_full_name := full;
                              V3.d_page_number := page;
                              V3.d_lines := lines ++ (snd <$> ls) |};
            V3.section_title_map := m |}.
Proof.
  induction 1 as [|pl ls Hpl _ IH]; intros secs number title full page lines m.
  - simpl. by rewrite app_nil_r.
  - cbn [for_each].
    erewrite V3_parse_line_content; [|done|reflexivity].
    rewrite bind_Ok. cbn [V3.sections V3.section_title_map V3.d_number
      V3.d_title V3.d_full_name V3.d_page_number V3.d_lines].
    rewrite IH. by rewrite fmap_cons, <- app_assoc.
Qed.

Lemma V3_run_segments segs :
  Forall (λ sg, Spec.is_header V3.SECTION_PATTERN (Spec.seg_header sg) = true
                ∧ Spec.no_header V3.SECTION_PATTERN (Spec.seg_content sg))
         segs →
  ∀ st secs0,
    V3.close_current st = Ok secs0 →
    ∃ st' new,
      for_each (λ st pl, V3.parse_line pl.1 st pl.2)
        (concat (Spec.seg_lines <$> segs)) st = Ok st'
      ∧ V3.close_current st' = Ok (secs0 ++ new)
      ∧ Forall2 Spec.V3_section_of segs new.
Proof.
  induction 1 as [|sg segs [Hhead Hcontent] _ IH]; intros st secs0 Hclose.
  - exists st, []. rewrite app_nil_r. by split_and!; [..|constructor].
  - rewrite fmap_cons. cbn [concat]. unfold Spec.seg_lines at 1.
    rewrite <- app_comm_cons. cbn [for_each fst snd].
    destruct (Spec.header_of V3.SECTION_PATTERN (Spec.seg_header sg))
      as [[number title]|] eqn:Hh.
    2:{ unfold Spec.is_header in Hhead. unfold Spec.header_of in Hh.
        by destruct (rematch _ _). }
    rewrite (V3_parse_line_header _ _ _ _ _ _ Hh Hclose), bind_Ok.
    rewrite for_each_app, (V3_run_content _ Hcontent), bind_Ok.
    cbn [app].
    set (st2 := {| V3.sections := secs0; V3.cur := Some _;
                   V3.section_title_map := _ |}).
    destruct (V3_finalize_section_spec
                (<[number := Spec.full_name number title]>
                   (V3.section_title_map st))
                {| V3.d_number := number; V3.d_title := title;
                   V3.d_full_name := Spec.full_name number title;
                   V3.d_page_number := Spec.seg_page sg;
                   V3.d_lines := snd <$> Spec.seg_content sg |})
      as (tree & reqs & _ & _ & Hfin).
    cbn [V3.d_number V3.d_title V3.d_full_name V3.d_page_number
           V3.d_lines] in Hfin.
    match type of Hfin with _ = Ok ?x => set (s := x) in * end.
    assert (Hclose2 : V3.close_current st2 = Ok (secs0 ++ [s])).
    { unfold V3.close_current, st2. cbn [V3.cur V3.section_title_map
        V3.sections]. by rewrite Hfin. }
    destruct (IH st2 (secs0 ++ [s]) Hclose2) as (st' & new & Hrun & Hcl & Hsecs).
    exists st', (s :: new). split; [exact Hrun|].
    split; [by rewrite <- app_assoc in Hcl|].
    constructor; [|done]. by exists number, title.
Qed.

Lemma V3_parse_segmentation pages preamble segs :
  Spec.segmentation V3.SECTION_PATTERN (Spec.stream pages) preamble segs →
  ∃ secs m, V3.parse pages = Ok (secs, m)
            ∧ Forall2 Spec.V3_section_of segs secs.
Proof.
  intros (Hstream & Hpre & Hsegs).
  unfold V3.parse, V3.parse_from.
  rewrite V3_pages_as_stream, Hstream, for_each_app.
  rewrite (V3_run_preamble _ V3.init_state Hpre eq_refl), bind_Ok.
  destruct (V3_run_segments _ Hsegs V3.init_state [] eq_refl)
    as (st' & new & -> & Hcl & Hsecs).
  rewrite bind_Ok, Hcl, bind_Ok. by eauto.
Qed.
End V3_sections.

(** ** Segmenting a stream *)

Section segmentation_facts.
Variable pattern : Re.regex.

(** Every stream has a segmentation. *)
Lemma segmentation_exists (lines : list (Z * pystr)) :
  ∃ preamble segs, Spec.segmentation pattern lines preamble segs.
Proof.
  induction lines as [|[pg l] lines (pre & segs & Hl & Hpre & Hsegs)].
  - exists [], []. by split_and!; constructor.
  - destruct (Spec.is_header pattern l) eqn:Hh.
    + exists [], ({| Spec.seg_page := pg; Spec.seg_header := l;
                     Spec.seg_content := pre |} :: segs).
      split_and!; [|constructor|by constructor].
      simpl. unfold Spec.seg_lines at 1. simpl. by rewrite Hl.
    + exists ((pg, l) :: pre), segs.
      split_and!; [by rewrite Hl|by constructor|done].
Qed.

(** The segments are as many as the header lines. *)
Lemma segmentation_count lines preamble segs :
  Spec.segmentation pattern lines preamble segs →
  length segs
  = length (filter (λ pl, Spec.is_header pattern pl.2 = true) lines).
Proof.
  assert (Hnone : ∀ ls, Spec.no_header pattern ls →
            filter (λ pl, Spec.is_header pattern pl.2 = true) ls = []).
  { induction 1 as [|pl ls Hpl _ IH]; [done|].
    rewrite filter_cons, decide_False by congruence. done. }
  intros (-> & Hpre & Hsegs). rewrite filter_app, (Hnone _ Hpre).
  simpl. induction Hsegs as [|sg segs [Hh Hc] _ IH]; [done|].
  rewrite fmap_cons. cbn [concat]. unfold Spec.seg_lines at 1.
  rewrite <- app_comm_cons, filter_cons, decide_True by done.
  rewrite filter_app, (Hnone _ Hc). simpl. by rewrite IH.
Qed.

Lemma header_free_prefix_unique (l l' r r' : list (Z * pystr)) :
  Spec.no_header pattern l → Spec.no_header pattern l' →
  match r with [] => True | pl :: _ => Spec.is_header pattern pl.2 = true end →
  match r' with [] => True | pl :: _ => Spec.is_header pattern pl.2 = true end →
  l ++ r = l' ++ r' → l = l' ∧ r = r'.
Proof.
  unfold Spec.no_header. revert l'.
  induction l as [|x l IH]; intros l' Hl Hl' Hr Hr' Heq.
  - destruct l' as [|x' l']; [done|]. simpl in *.
    destruct r as [|y r]; [done|]. injection Heq as -> _.
    apply Forall_cons in Hl' as [Hx _]. congruence.
  - destruct l' as [|x' l'].
    + simpl in *. destruct r' as [|y r']; [done|]. injection Heq as <- _.
      apply Forall_cons in Hl as [Hx _]. congruence.
    + simpl in Heq. injection Heq as -> Heq.
      apply Forall_cons in Hl as [_ Hl]. apply Forall_cons in Hl' as [_ Hl'].
      destruct (IH l' Hl Hl' Hr Hr' Heq) as [-> ->]. done.
Qed.

Lemma segments_start_with_header (segs : list Spec.segment) :
  Forall (λ sg, Spec.is_header pattern (Spec.seg_header sg) = true
                ∧ Spec.no_header pattern (Spec.seg_content sg)) segs →
  match concat (Spec.seg_lines <$> segs) with
  | [] => True
  | pl :: _ => Spec.is_header pattern pl.2 = true
  end.
Proof. intros Hsegs. by destruct Hsegs as [|sg segs [Hh _] _]. Qed.

(** A stream has only one segmentation. *)
Lemma segmentation_unique lines preamble segs preamble' segs' :
  Spec.segmentation pattern lines preamble segs →
  Spec.segmentation pattern lines preamble' segs' →
  preamble = preamble' ∧ segs = segs'.
Proof.
  intros (-> & Hpre & Hsegs) (Heq & Hpre' & Hsegs').
  destruct (header_free_prefix_unique _ _ _ _ Hpre Hpre'
              (segments_start_with_header _ Hsegs)
              (segments_start_with_header _ Hsegs') Heq) as [-> Hrest].
  split; [done|]. clear Heq Hpre Hpre'. revert segs' Hsegs' Hrest.
  induction Hsegs as [|sg segs [Hh Hc] Hsegs IH]; intros segs' Hsegs' Hrest.
  - by destruct Hsegs' as [|sg' segs' _ _].
  - destruct Hsegs' as [|sg' segs' [Hh' Hc'] Hsegs']; [done|].
    rewrite !fmap_cons in Hrest. cbn [concat] in Hrest.
    unfold Spec.seg_lines at 1 3 in Hrest.
    rewrite <- !app_comm_cons in Hrest. injection Hrest as Hpg Hhd Hrest.
    destruct (header_free_prefix_unique _ _ _ _ Hc Hc'
                (segments_start_with_header _ Hsegs)
                (segments_start_with_header _ Hsegs') Hrest) as [Hcont Hrest'].
    rewrite (IH segs' Hsegs' Hrest'). f_equal.
    destruct sg, sg'; simpl in *. by subst.
Qed.
End segmentation_facts.


(** ** The title map *)

Section title_map.
Import Py Re.

Lemma headers_cons_header pattern pg line number title ls :
  Spec.header_of pattern line = Some (number, title) →
  Spec.headers pattern ((pg, line) :: ls)
  = (number, Spec.full_name number title) :: Spec.headers pattern ls.
Proof. intros Hh. unfold Spec.headers. simpl. by rewrite Hh. Qed.

Lemma headers_cons_other pattern pg line ls :
  Spec.header_of pattern line = None →
  Spec.headers pattern ((pg, line) :: ls) = Spec.headers pattern ls.
Proof. intros Hh. unfold Spec.headers. simpl. by rewrite Hh. Qed.

(** Inserting the headers one after the other leaves, for each id, the
    full name of the last header that carries it. *)
Lemma lookup_foldl_insert (hs : list (pystr * pystr))
    (m0 : gmap pystr pystr) (k : pystr) :
  foldl (λ m h, <[h.1 := h.2]> m) m0 hs !! k
  = match Spec.last_header k hs with
    | Some v => Some v
    | None => m0 !! k
    end.
Proof.
  unfold Spec.last_header.
  induction hs as [|h hs IH] using rev_ind; [done|].
  rewrite foldl_app, filter_app. cbn [foldl].
  rewrite filter_cons, filter_nil.
  destruct (decide (h.1 = k)) as [Hk|Hk].
  - rewrite Hk, lookup_insert_eq, last_snoc. done.
  - rewrite lookup_insert_ne by done. by rewrite app_nil_r.
Qed.

Lemma V3_title_map_after ls :
  ∀ st, ∃ st',
    for_each (λ st pl, V3.parse_line pl.1 st pl.2) ls st = Ok st'
    ∧ V3.section_title_map st'
      = foldl (λ m h, <[h.1 := h.2]> m) (V3.section_title_map st)
          (Spec.headers V3.SECTION_PATTERN ls).
Proof.
  induction ls as [|[pg line] ls IH]; intros st.
  - by exists st.
  - cbn [for_each fst snd].
    destruct (Spec.header_of V3.SECTION_PATTERN line)
      as [[number title]|] eqn:Hh.
    + destruct (V3_close_current_returns st) as [secs Hsecs].
      rewrite (V3_parse_line_header _ _ _ _ _ _ Hh Hsecs), bind_Ok.
      rewrite (headers_cons_header _ _ _ _ _ _ Hh).
      edestruct IH as (st' & -> & Hm). exists st'. split; [done|].
      by rewrite Hm.
    + rewrite (headers_cons_other _ _ _ _ Hh).
      assert (Hnh : Spec.is_header V3.SECTION_PATTERN line = false).
      { unfold Spec.is_header. unfold Spec.header_of in Hh.
        by destruct (rematch _ _). }
      destruct (V3.cur st) as [c|] eqn:Hcur.
      * rewrite (V3_parse_line_content _ _ _ _ Hnh Hcur), bind_Ok.
        edestruct IH as (st' & -> & Hm). exists st'. split; [done|].
        by rewrite Hm.
      * rewrite (V3_parse_line_preamble _ _ _ Hnh Hcur), bind_Ok.
        apply IH.
Qed.

Lemma V3_parse_title_map pages :
  ∃ secs m,
    V3.parse pages = Ok (secs, m)
    ∧ ∀ k, m !! k
           = Spec.last_header k
               (Spec.headers V3.SECTION_PATTERN (Spec.stream pages)).
Proof.
  unfold V3.parse, V3.parse_from. rewrite V3_pages_as_stream.
  destruct (V3_title_map_after (Spec.stream pages) V3.init_state)
    as (st' & -> & Hmap).
  rewrite bind_Ok. destruct (V3_close_current_returns st') as [secs ->].
  rewrite bind_Ok. exists secs, (V3.section_title_map st').
  split; [done|]. intros k. rewrite Hmap, lookup_foldl_insert.
  cbn [V3.init_state V3.section_title_map]. rewrite lookup_empty.
  by destruct (Spec.last_header _ _).
Qed.
End title_map.


(** ** [ocp_parser.py] *)

Section Flat_sections.
Import Py Re.
Variable kp : pystr → list pystr.

Lemma Flat_finalize_section_spec (m : gmap pystr pystr)
    (d : Flat.SectionData) (h : Flat.heap) :
  ∃ tree recs,
    Flat.build_hierarchy_tree m (Flat.d_number d) = Ok tree
    ∧ Forall2 (Spec.Flat_record_at (Flat.d_lines d) d tree (length h))
        (Spec.matching_indices Flat.SHALL_PATTERN (Flat.d_lines d)) recs
    ∧ let out := if nonempty recs then recs
                 else [Spec.Flat_empty_record d tree (length h)] in
      Flat._finalize_section kp m d h
      = Ok (out, h ++ [Spec.Flat_metadata d (length out)]).
Proof.
  pose proof (Flat_build_hierarchy_tree_eq m (Flat.d_number d)) as Htree.
  cbv zeta in Htree.
  match type of Htree with _ = Ok ?t => set (tree := t) in * end.
  destruct (Flat_records_loop_spec kp (Flat.d_lines d) d tree (length h)
              (Flat.d_lines d) [] [] eq_refl) as (recs & Hloop & Hrecs).
  exists tree, recs. split; [done|]. split; [exact Hrecs|].
  intros out. unfold Flat._finalize_section.
  rewrite Htree, bind_Ok.
  cbn [length] in Hloop. rewrite Hloop, bind_Ok. cbn [app].
  replace (if negb (nonempty recs)
           then recs ++ [_] else recs) with out.
  2:{ unfold out. by destruct recs. }
  do 2 f_equal.
  by rewrite alter_app_r_alt, Nat.sub_diag by lia.
Qed.

Lemma Flat_finalize_section_returns m d h :
  returns (Flat._finalize_section kp m d h).
Proof.
  destruct (Flat_finalize_section_spec m d h) as (? & ? & _ & _ & ->).
  apply returns_Ok.
Qed.

Lemma Flat_close_current_returns st : returns (Flat.close_current kp st).
Proof.
  unfold Flat.close_current. destruct (Flat.cur st) as [c|];
    [|apply returns_Ok].
  destruct (Flat_finalize_section_returns (Flat.section_title_map st) c
              (Flat.store st)) as [[recs h] ->].
  apply returns_Ok.
Qed.

Lemma Flat_parse_line_header pn st line number title out h :
  Spec.header_of Flat.SECTION_PATTERN line = Some (number, title) →
  Flat.close_current kp st = Ok (out, h) →
  Flat.parse_line kp pn st line
  = Ok {| Flat.output := out;
          Flat.cur := Some {| Flat.d_number := number;
                              Flat.d_hierarchy := Spec.full_name number title;
                              Flat.d_page_number := pn;
                              Flat.d_lines := [] |};
          Flat.section_title_map :=
            <[number := Spec.full_name number title]>
              (Flat.section_title_map st);
          Flat.store := h |}.
Proof.
  unfold Spec.header_of, Flat.parse_line. intros Hh Hclose.
  destruct (rematch Flat.SECTION_PATTERN line) as [m|]; [|done].
  injection Hh as <- <-. by rewrite Hclose.
Qed.

Lemma Flat_parse_line_content pn st line c :
  Spec.is_header Flat.SECTION_PATTERN line = false →
  Flat.cur st = Some c →
  Flat.parse_line kp pn st line
  = Ok {| Flat.output := Flat.output st;
          Flat.cur := Some {| Flat.d_number := Flat.d_number c;
                              Flat.d_hierarchy := Flat.d_hierarchy c;
                              Flat.d_page_number := Flat.d_page_number c;
                              Flat.d_lines := Flat.d_lines c ++ [line] |};
          Flat.section_title_map := Flat.section_title_map st;
          Flat.store := Flat.store st |}.
Proof.
  unfold Spec.is_header, Flat.parse_line. intros Hh Hcur.
  destruct (rematch Flat.SECTION_PATTERN line) as [m|]; [done|].
  by rewrite Hcur.
Qed.

Lemma Flat_parse_line_preamble pn st line :
  Spec.is_header Flat.SECTION_PATTERN line = false →
  Flat.cur st = None →
  Flat.parse_line kp pn st line = Ok st.
Proof.
  unfold Spec.is_header, Flat.parse_line. intros Hh Hcur.
  destruct (rematch Flat.SECTION_PATTERN line) as [m|]; [done|].
  by rewrite Hcur.
Qed.

Lemma Flat_parse_line_returns pn st line :
  returns (Flat.parse_line kp pn st line).
Proof.
  unfold Flat.parse_line. destruct (rematch Flat.SECTION_PATTERN line) as [m|].
  - destruct (Flat_close_current_returns st) as [[out h] ->]. apply returns_Ok.
  - destruct (Flat.cur st); apply returns_Ok.
Qed.

Lemma Flat_pages_as_stream pages st :
  for_each (Flat.parse_page kp) pages st
  = for_each (λ st pl, Flat.parse_line kp pl.1 st pl.2) (Spec.stream pages) st.
Proof.
  revert st. induction pages as [|p pages IH]; intros st; [done|].
  unfold Spec.stream. rewrite bind_cons. fold (Spec.stream pages).
  rewrite for_each_app, for_each_fmap.
  change (for_each _ (splitlines (text p)) st) with (Flat.parse_page kp st p).
  cbn [for_each].
  destruct (Flat.parse_page kp st p) as [st'|e]; simpl; [apply IH|done].
Qed.

Lemma Flat_run_preamble ls st :
  Spec.no_header Flat.SECTION_PATTERN ls →
  Flat.cur st = None →
  for_each (λ st pl, Flat.parse_line kp pl.1 st pl.2) ls st = Ok st.
Proof.
  intros Hls Hcur. induction Hls as [|pl ls Hpl _ IH]; simpl; [done|].
  by rewrite (Flat_parse_line_preamble _ _ _ Hpl Hcur), bind_Ok.
Qed.

Lemma Flat_run_content ls :
  Spec.no_header Flat.SECTION_PATTERN ls →
  ∀ out number full page lines m h,
    for_each (λ st pl, Flat.parse_line kp pl.1 st pl.2) ls
      {| Flat.output := out;
         Flat.cur := Some {| Flat.d_number := number;
                             Flat.d_hierarchy := full;
                             Flat.d_page_number := page;
                             Flat.d_lines := lines |};
         Flat.section_title_map := m;
         Flat.store := h |}
    = Ok {| Flat.output := out;
            Flat.cur := Some {| Flat.d_number := number;
                                Flat.d_hierarchy := full;
                                Flat.d_page_number := page;
                                Flat.d_lines := lines ++ (snd <$> ls) |};
            Flat.section_title_map := m;
            Flat.store := h |}.
Proof.
  induction 1 as [|pl ls Hpl _ IH]; intros out number full page lines m h.
  - simpl. by rewrite app_nil_r.
  - cbn [for_each].
    erewrite Flat_parse_line_content; [|done|reflexivity].
    rewrite bind_Ok. cbn [Flat.output Flat.section_title_map Flat.store
      Flat.d_number Flat.d_hierarchy Flat.d_page_number Flat.d_lines].
    rewrite IH. by rewrite fmap_cons, <- app_assoc.
Qed.

Lemma Flat_records_of_finalized sg number title m h :
  Spec.header_of Flat.SECTION_PATTERN (Spec.seg_header sg)
  = Some (number, title) →
  ∃ recs h',
    Flat._finalize_section kp m
      {| Flat.d_number := number;
         Flat.d_hierarchy := Spec.full_name number title;
         Flat.d_page_number := Spec.seg_page sg;
         Flat.d_lines := snd <$> Spec.seg_content sg |} h = Ok (recs, h')
    ∧ Spec.Flat_records_of sg recs.
Proof.
  intros Hh.
  destruct (Flat_finalize_section_spec m
              {| Flat.d_number := number;
                 Flat.d_hierarchy := Spec.full_name number title;
                 Flat.d_page_number := Spec.seg_page sg;
                 Flat.d_lines := snd <$> Spec.seg_content sg |} h)
    as (tree & recs & _ & Hrecs & Hfin).
  cbv zeta in Hfin. eexists _, _. split; [exact Hfin|].
  exists number, title. split; [done|].
  destruct recs as [|r recs]; cbn [nonempty].
  - split; [done|]. by repeat constructor.
  - split; [done|].
    eapply Forall2_Forall_r; [exact Hrecs|].
    apply Forall_forall. intros i _ r' (l & _ & _ & _ & _ & _ & Hhier & _ & Hpg & _).
    by rewrite Hhier, Hpg.
Qed.

Lemma Flat_run_segments segs :
  Forall (λ sg, Spec.is_header Flat.SECTION_PATTERN (Spec.seg_header sg) = true
                ∧ Spec.no_header Flat.SECTION_PATTERN (Spec.seg_content sg))
         segs →
  ∀ st out0 h0,
    Flat.close_current kp st = Ok (out0, h0) →
    ∃ st' groups h',
      for_each (λ st pl, Flat.parse_line kp pl.1 st pl.2)
        (concat (Spec.seg_lines <$> segs)) st = Ok st'
      ∧ Flat.close_current kp st' = Ok (out0 ++ concat groups, h')
      ∧ Forall2 Spec.Flat_records_of segs groups.
Proof.
  induction 1 as [|sg segs [Hhead Hcontent] _ IH]; intros st out0 h0 Hclose.
  - exists st, [], h0. simpl. rewrite app_nil_r. by split_and!; [..|constructor].
  - rewrite fmap_cons. cbn [concat]. unfold Spec.seg_lines at 1.
    rewrite <- app_comm_cons. cbn [for_each fst snd].
    destruct (Spec.header_of Flat.SECTION_PATTERN (Spec.seg_header sg))
      as [[number title]|] eqn:Hh.
    2:{ unfold Spec.is_header in Hhead. unfold Spec.header_of in Hh.
        by destruct (rematch _ _). }
    rewrite (Flat_parse_line_header _ _ _ _ _ _ _ Hh Hclose), bind_Ok.
    rewrite for_each_app, (Flat_run_content _ Hcontent), bind_Ok.
    cbn [app].
    set (st2 := {| Flat.output := out0; Flat.cur := Some _;
                   Flat.section_title_map := _; Flat.store := h0 |}).
    destruct (Flat_records_of_finalized sg number title
                (<[number := Spec.full_name number title]>
                   (Flat.section_title_map st)) h0 Hh)
      as (recs & h1 & Hfin & Hrecs).
    assert (Hclose2 : Flat.close_current kp st2 = Ok (out0 ++ recs, h1)).
    { unfold Flat.close_current, st2. cbn [Flat.cur Flat.section_title_map
        Flat.output Flat.store]. by rewrite Hfin. }
    destruct (IH st2 (out0 ++ recs) h1 Hclose2)
      as (st' & groups & h' & Hrun & Hcl & Hgroups).
    exists st', (recs :: groups), h'. split; [exact Hrun|].
    split; [by rewrite <- app_assoc in Hcl|].
    by constructor.
Qed.

Lemma Flat_parse_segmentation pages preamble segs :
  Spec.segmentation Flat.SECTION_PATTERN (Spec.stream pages) preamble segs →
  ∃ groups h m,
    Flat.parse kp pages = Ok (concat groups, h, m)
    ∧ Forall2 Spec.Flat_records_of segs groups.
Proof.
  intros (Hstream & Hpre & Hsegs).
  unfold Flat.parse.
  rewrite Flat_pages_as_stream, Hstream, for_each_app.
  rewrite (Flat_run_preamble _ Flat.init_state Hpre eq_refl), bind_Ok.
  destruct (Flat_run_segments _ Hsegs Flat.init_state [] [] eq_refl)
    as (st' & groups & h' & -> & Hcl & Hgroups).
  rewrite bind_Ok, Hcl, bind_Ok. by eauto.
Qed.

Lemma Flat_title_map_after ls :
  ∀ st, ∃ st',
    for_each (λ st pl, Flat.parse_line kp pl.1 st pl.2) ls st = Ok st'
    ∧ Flat.section_title_map st'
      = foldl (λ m h, <[h.1 := h.2]> m) (Flat.section_title_map st)
          (Spec.headers Flat.SECTION_PATTERN ls).
Proof.
  induction ls as [|[pg line] ls IH]; intros st.
  - by exists st.
  - cbn [for_each fst snd].
    destruct (Spec.header_of Flat.SECTION_PATTERN line)
      as [[number title]|] eqn:Hh.
    + destruct (Flat_close_current_returns st) as [[out h] Hsecs].
      rewrite (Flat_parse_line_header _ _ _ _ _ _ _ Hh Hsecs), bind_Ok.
      rewrite (headers_cons_header _ _ _ _ _ _ Hh).
      edestruct IH as (st' & -> & Hm). exists st'. split; [done|].
      by rewrite Hm.
    + rewrite (headers_cons_other _ _ _ _ Hh).
      assert (Hnh : Spec.is_header Flat.SECTION_PATTERN line = false).
      { unfold Spec.is_header. unfold Spec.header_of in Hh.
        by destruct (rematch _ _). }
      destruct (Flat.cur st) as [c|] eqn:Hcur.
      * rewrite (Flat_parse_line_content _ _ _ _ Hnh Hcur), bind_Ok.
        edestruct IH as (st' & -> & Hm). exists st'. split; [done|].
        by rewrite Hm.
      * rewrite (Flat_parse_line_preamble _ _ _ Hnh Hcur), bind_Ok.
        apply IH.
Qed.

Lemma Flat_parse_title_map pages :
  ∃ out h m,
    Flat.parse kp pages = Ok (out, h, m)
    ∧ ∀ k, m !! k
           = Spec.last_header k
               (Spec.headers Flat.SECTION_PATTERN (Spec.stream pages)).
Proof.
  unfold Flat.parse. rewrite Flat_pages_as_stream.
  destruct (Flat_title_map_after (Spec.stream pages) Flat.init_state)
    as (st' & -> & Hmap).
  rewrite bind_Ok. destruct (Flat_close_current_returns st') as [[out h] ->].
  rewrite bind_Ok. exists out, h, (Flat.section_title_map st').
  split; [done|]. intros k. rewrite Hmap, lookup_foldl_insert.
  cbn [Flat.init_state Flat.section_title_map]. rewrite lookup_empty.
  by destruct (Spec.last_header _ _).
Qed.
End Flat_sections.


(** ** [ocpparser3.py] *)

Section P3_sections.
Import Py Re.

Lemma P3_finalize_section_spec (m : gmap pystr pystr) (d : P3.SectionData) :
  ∃ tree,
    P3.build_hierarchy_tree m (P3.d_number d) = Ok tree
    ∧ P3._finalize_section m d
      = Ok {| P3.id := lit "section_" ++ replace "." "_" (P3.d_number d);
              P3.hierarchy := P3.d_full_name d;
              P3.hierarchy_tree := tree;
              P3.title := P3.d_title d;
              P3.anchors := P3.extract_anchors (P3.d_content d);
              P3.shall_sentences :=
                P3.extract_shall_sentences (P3.d_content d);
              P3.sec_page_number := P3.d_page_number d;
              P3.key_phrases := [];
              P3.metadata :=
                {| P3.content_length := length (P3.d_content d);
                   P3.requirement_count :=
                     length (P3.extract_shall_sentences (P3.d_content d));
                   P3.reference_count :=
                     length (P3.extract_anchors (P3.d_content d));
                   P3.has_subsections := contains "." (P3.d_number d);
                   P3.depth := length (split dot (P3.d_number d));
                   P3.word_count := length (words (P3.d_content d)) |};
              P3.raw_content := P3.d_content d |}.
Proof.
  pose proof (P3_build_hierarchy_tree_eq m (P3.d_number d)) as Htree.
  cbv zeta in Htree. eexists. split; [exact Htree|].
  unfold P3._finalize_section. by rewrite Htree, bind_Ok.
Qed.

Lemma P3_finalize_section_returns m d : returns (P3._finalize_section m d).
Proof.
  destruct (P3_finalize_section_spec m d) as (? & _ & ->).
  apply returns_Ok.
Qed.

Lemma P3_close_current_returns st : returns (P3.close_current st).
Proof.
  unfold P3.close_current. destruct (P3.cur st) as [c|]; [|apply returns_Ok].
  destruct (P3_finalize_section_returns (P3.section_title_map st) c)
    as [s ->].
  apply returns_Ok.
Qed.

Lemma P3_parse_line_header pn st line number title secs :
  Spec.header_of P3.SECTION_PATTERN line = Some (number, title) →
  P3.close_current st = Ok secs →
  P3.parse_line pn st line
  = Ok {| P3.sections := secs;
          P3.cur := Some {| P3.d_number := number; P3.d_title := title;
                            P3.d_full_name := Spec.full_name number title;
                            P3.d_page_number := pn;
                            P3.d_content := [] |};
          P3.section_title_map :=
            <[number := Spec.full_name number title]>
              (P3.section_title_map st) |}.
Proof.
  unfold Spec.header_of, P3.parse_line. intros Hh Hclose.
  destruct (rematch P3.SECTION_PATTERN line) as [m|]; [|done].
  injection Hh as <- <-. by rewrite Hclose.
Qed.

Lemma P3_parse_line_content pn st line c :
  Spec.is_header P3.SECTION_PATTERN line = false →
  P3.cur st = Some c →
  P3.parse_line pn st line
  = Ok {| P3.sections := P3.sections st;
          P3.cur := Some {| P3.d_number := P3.d_number c;
                            P3.d_title := P3.d_title c;
                            P3.d_full_name := P3.d_full_name c;
                            P3.d_page_number := P3.d_page_number c;
                            P3.d_content :=
                              P3.d_content c ++ line ++ [newline] |};
          P3.section_title_map := P3.section_title_map st |}.
Proof.
  unfold Spec.is_header, P3.parse_line. intros Hh Hcur.
  destruct (rematch P3.SECTION_PATTERN line) as [m|]; [done|].
  by rewrite Hcur.
Qed.

Lemma P3_parse_line_preamble pn st line :
  Spec.is_header P3.SECTION_PATTERN line = false →
  P3.cur st = None →
  P3.parse_line pn st line = Ok st.
Proof.
  unfold Spec.is_header, P3.parse_line. intros Hh Hcur.
  destruct (rematch P3.SECTION_PATTERN line) as [m|]; [done|].
  by rewrite Hcur.
Qed.

Lemma P3_pages_as_stream pages st :
  for_each P3.parse_page pages st
  = for_each (λ st pl, P3.parse_line pl.1 st pl.2) (Spec.stream pages) st.
Proof.
  revert st. induction pages as [|p pages IH]; intros st; [done|].
  unfold Spec.stream. rewrite bind_cons. fold (Spec.stream pages).
  rewrite for_each_app, for_each_fmap.
  change (for_each _ (splitlines (text p)) st) with (P3.parse_page st p).
  cbn [for_each].
  destruct (P3.parse_page st p) as [st'|e]; simpl; [apply IH|done].
Qed.

Lemma P3_run_preamble ls st :
  Spec.no_header P3.SECTION_PATTERN ls →
  P3.cur st = None →
  for_each (λ st pl, P3.parse_line pl.1 st pl.2) ls st = Ok st.
Proof.
  intros Hls Hcur. induction Hls as [|pl ls Hpl _ IH]; simpl; [done|].
  by rewrite (P3_parse_line_preamble _ _ _ Hpl Hcur), bind_Ok.
Qed.

Lemma P3_run_content ls :
  Spec.no_header P3.SECTION_PATTERN ls →
  ∀ secs number title full page content m,
    for_each (λ st pl, P3.parse_line pl.1 st pl.2) ls
      {| P3.sections := secs;
         P3.cur := Some {| P3.d_number := number; P3.d_title := title;
                           P3.d_full_name := full;
                           P3.d_page_number := page;
                           P3.d_content := content |};
         P3.section_title_map := m |}
    = Ok {| P3.sections := secs;
            P3.cur := Some {| P3.d_number := number; P3.d_title := title;
                              P3.d_full_name := full;
                              P3.d_page_number := page;
                              P3.d_content :=
                                content
                                ++ concat ((λ pl, pl.2 ++ [newline]) <$> ls) |};
            P3.section_title_map := m |}.
Proof.
  induction 1 as [|pl ls Hpl _ IH];
    intros secs number title full page content m.
  - simpl. by rewrite app_nil_r.
  - cbn [for_each].
    erewrite P3_parse_line_content; [|done|reflexivity].
    rewrite bind_Ok. cbn [P3.sections P3.section_title_map P3.d_number
      P3.d_title P3.d_full_name P3.d_page_number P3.d_content].
    rewrite IH. rewrite fmap_cons. cbn [concat]. by rewrite <- !app_assoc.
Qed.

Lemma P3_run_segments segs :
  Forall (λ sg, Spec.is_header P3.SECTION_PATTERN (Spec.seg_header sg) = true
                ∧ Spec.no_header P3.SECTION_PATTERN (Spec.seg_content sg))
         segs →
  ∀ st secs0,
    P3.close_current st = Ok secs0 →
    ∃ st' new,
      for_each (λ st pl, P3.parse_line pl.1 st pl.2)
        (concat (Spec.seg_lines <$> segs)) st = Ok st'
      ∧ P3.close_current st' = Ok (secs0 ++ new)
      ∧ Forall2 Spec.P3_section_of segs new.
Proof.
  induction 1 as [|sg segs [Hhead Hcontent] _ IH]; intros st secs0 Hclose.
  - exists st, []. rewrite app_nil_r. by split_and!; [..|constructor].
  - rewrite fmap_cons. cbn [concat]. unfold Spec.seg_lines at 1.
    rewrite <- app_comm_cons. cbn [for_each fst snd].
    destruct (Spec.header_of P3.SECTION_PATTERN (Spec.seg_header sg))
      as [[number title]|] eqn:Hh.
    2:{ unfold Spec.is_header in Hhead. unfold Spec.header_of in Hh.
        by destruct (rematch _ _). }
    rewrite (P3_parse_line_header _ _ _ _ _ _ Hh Hclose), bind_Ok.
    rewrite for_each_app, (P3_run_content _ Hcontent), bind_Ok.
    cbn [app].
    set (st2 := {| P3.sections := secs0; P3.cur := Some _;
                   P3.section_title_map := _ |}).
    destruct (P3_finalize_section_spec
                (<[number := Spec.full_name number title]>
                   (P3.section_title_map st))
                {| P3.d_number := number; P3.d_title := title;
                   P3.d_full_name := Spec.full_name number title;
                   P3.d_page_number := Spec.seg_page sg;
                   P3.d_content :=
                     concat ((λ pl, pl.2 ++ [newline])
                               <$> Spec.seg_content sg) |})
      as (tree & _ & Hfin).
    cbn [P3.d_number P3.d_title P3.d_full_name P3.d_page_number
           P3.d_content] in Hfin.
    match type of Hfin with _ = Ok ?x => set (s := x) in * end.
    assert (Hclose2 : P3.close_current st2 = Ok (secs0 ++ [s])).
    { unfold P3.close_current, st2. cbn [P3.cur P3.section_title_map
        P3.sections]. by rewrite Hfin. }
    destruct (IH st2 (secs0 ++ [s]) Hclose2) as (st' & new & Hrun & Hcl & Hsecs).
    exists st', (s :: new). split; [exact Hrun|].
    split; [by rewrite <- app_assoc in Hcl|].
    constructor; [|done]. by exists number, title.
Qed.

Lemma P3_parse_segmentation pages preamble segs :
  Spec.segmentation P3.SECTION_PATTERN (Spec.stream pages) preamble segs →
  ∃ secs m, P3.parse_sections pages = Ok (secs, m)
            ∧ Forall2 Spec.P3_section_of segs secs.
Proof.
  intros (Hstream & Hpre & Hsegs).
  unfold P3.parse_sections.
  rewrite P3_pages_as_stream, Hstream, for_each_app.
  rewrite (P3_run_preamble _ P3.init_state Hpre eq_refl), bind_Ok.
  destruct (P3_run_segments _ Hsegs P3.init_state [] eq_refl)
    as (st' & new & -> & Hcl & Hsecs).
  rewrite bind_Ok, Hcl, bind_Ok. by eauto.
Qed.

Lemma P3_title_map_after ls :
  ∀ st, ∃ st',
    for_each (λ st pl, P3.parse_line pl.1 st pl.2) ls st = Ok st'
    ∧ P3.section_title_map st'
      = foldl (λ m h, <[h.1 := h.2]> m) (P3.section_title_map st)
          (Spec.headers P3.SECTION_PATTERN ls).
Proof.
  induction ls as [|[pg line] ls IH]; intros st.
  - by exists st.
  - cbn [for_each fst snd].
    destruct (Spec.header_of P3.SECTION_PATTERN line)
      as [[number title]|] eqn:Hh.
    + destruct (P3_close_current_returns st) as [secs Hsecs].
      rewrite (P3_parse_line_header _ _ _ _ _ _ Hh Hsecs), bind_Ok.
      rewrite (headers_cons_header _ _ _ _ _ _ Hh).
      edestruct IH as (st' & -> & Hm). exists st'. split; [done|].
      by rewrite Hm.
    + rewrite (headers_cons_other _ _ _ _ Hh).
      assert (Hnh : Spec.is_header P3.SECTION_PATTERN line = false).
      { unfold Spec.is_header. unfold Spec.header_of in Hh.
        by destruct (rematch _ _). }
      destruct (P3.cur st) as [c|] eqn:Hcur.
      * rewrite (P3_parse_line_content _ _ _ _ Hnh Hcur), bind_Ok.
        edestruct IH as (st' & -> & Hm). exists st'. split; [done|].
        by rewrite Hm.
      * rewrite (P3_parse_line_preamble _ _ _ Hnh Hcur), bind_Ok.
        apply IH.
Qed.

Lemma P3_parse_title_map pages :
  ∃ secs m,
    P3.parse_sections pages = Ok (secs, m)
    ∧ ∀ k, m !! k
           = Spec.last_header k
               (Spec.headers P3.SECTION_PATTERN (Spec.stream pages)).
Proof.
  unfold P3.parse_sections. rewrite P3_pages_as_stream.
  destruct (P3_title_map_after (Spec.stream pages) P3.init_state)
    as (st' & -> & Hmap).
  rewrite bind_Ok. destruct (P3_close_current_returns st') as [secs ->].
  rewrite bind_Ok. exists secs, (P3.section_title_map st').
  split; [done|]. intros k. rewrite Hmap, lookup_foldl_insert.
  cbn [P3.init_state P3.section_title_map]. rewrite lookup_empty.
  by destruct (Spec.last_header _ _).
Qed.
End P3_sections.


(** ** Tokens of [split()] *)

Section tokens_facts.
Import Py.

Lemma tokens_space_cons c s ws :
  is_space c = true → Spec.tokens s ws → Spec.tokens (c :: s) ws.
Proof.
  intros Hc Hs. destruct Hs as [s Hs|sp w rest ws Hsp Hw Hns Hrest Hws].
  - apply Spec.tokens_blank. by constructor.
  - apply (Spec.tokens_word (c :: sp) w rest ws); try done. by constructor.
Qed.

Lemma words_aux_tokens s :
  Spec.tokens s (words_aux [] s)
  ∧ ∀ cur, cur ≠ [] →
      ∃ w rest ws,
        s = w ++ rest
        ∧ Forall (λ c, is_space c = false) w
        ∧ match rest with [] => True | c :: _ => is_space c = true end
        ∧ Spec.tokens rest ws
        ∧ words_aux cur s = (reverse cur ++ w) :: ws.
Proof.
  induction s as [|c s [IH1 IH2]].
  - split.
    + apply Spec.tokens_blank. constructor.
    + intros cur Hcur. exists [], [], []. rewrite app_nil_r.
      split; [done|]. split; [constructor|]. split; [done|].
      split; [apply Spec.tokens_blank; constructor|].
      rewrite app_nil_r. simpl. by destruct cur.
  - destruct (is_space c) eqn:Hc.
    + split.
      * simpl. rewrite Hc. by apply tokens_space_cons.
      * intros cur Hcur. exists [], (c :: s), (words_aux [] s).
        rewrite app_nil_r.
        split; [done|]. split; [constructor|]. split; [done|].
        split; [by apply tokens_space_cons|].
        simpl. rewrite Hc. by destruct cur.
    + split.
      * simpl. rewrite Hc.
        destruct (IH2 [c]) as (w & rest & ws & -> & Hw & Hrest & Hws & ->);
          [done|].
        apply (Spec.tokens_word [] (c :: w) rest ws); try done.
        -- constructor.
        -- by constructor.
      * intros cur Hcur. simpl. rewrite Hc.
        destruct (IH2 (c :: cur)) as (w & rest & ws & -> & Hw & Hrest & Hws & ->);
          [done|].
        exists (c :: w), rest, ws.
        split; [done|]. split; [by constructor|]. split; [done|].
        split; [done|]. by rewrite reverse_cons, <- app_assoc.
Qed.

Lemma words_tokens s : Spec.tokens s (words s).
Proof. apply words_aux_tokens. Qed.

Lemma blank_prefix_unique (sp sp' x x' : pystr) :
  Spec.blank sp → Spec.blank sp' →
  match x with [] => False | c :: _ => is_space c = false end →
  match x' with [] => False | c :: _ => is_space c = false end →
  sp ++ x = sp' ++ x' → sp = sp' ∧ x = x'.
Proof.
  unfold Spec.blank. revert sp'.
  induction sp as [|c sp IH]; intros sp' Hsp Hsp' Hx Hx' Heq.
  - destruct sp' as [|c' sp']; [done|]. simpl in *.
    destruct x as [|d x]; [done|]. injection Heq as -> _.
    apply Forall_cons in Hsp' as [Hc _]. congruence.
  - destruct sp' as [|c' sp'].
    + simpl in *. destruct x' as [|d x']; [done|]. injection Heq as <- _.
      apply Forall_cons in Hsp as [Hc _]. congruence.
    + simpl in Heq. injection Heq as -> Heq.
      apply Forall_cons in Hsp as [_ Hsp].
      apply Forall_cons in Hsp' as [_ Hsp'].
      destruct (IH sp' Hsp Hsp' Hx Hx' Heq) as [-> ->]. done.
Qed.

Lemma word_prefix_unique (w w' rest rest' : pystr) :
  Forall (λ c, is_space c = false) w →
  Forall (λ c, is_space c = false) w' →
  match rest with [] => True | c :: _ => is_space c = true end →
  match rest' with [] => True | c :: _ => is_space c = true end →
  w ++ rest = w' ++ rest' → w = w' ∧ rest = rest'.
Proof.
  revert w'. induction w as [|c w IH]; intros w' Hw Hw' Hr Hr' Heq.
  - destruct w' as [|c' w']; [done|]. simpl in *.
    destruct rest as [|d rest]; [done|]. injection Heq as -> _.
    apply Forall_cons in Hw' as [Hc _]. congruence.
  - destruct w' as [|c' w'].
    + simpl in *. destruct rest' as [|d rest']; [done|].
      injection Heq as <- _.
      apply Forall_cons in Hw as [Hc _]. congruence.
    + simpl in Heq. injection Heq as -> Heq.
      apply Forall_cons in Hw as [_ Hw].
      apply Forall_cons in Hw' as [_ Hw'].
      destruct (IH w' Hw Hw' Hr Hr' Heq) as [-> ->]. done.
Qed.

(** A string has one list of tokens. *)
Lemma tokens_unique s ws ws' :
  Spec.tokens s ws → Spec.tokens s ws' → ws = ws'.
Proof.
  intros Hs. revert ws'.
  induction Hs as [s Hs|sp w rest ws Hsp Hw Hns Hrest Hws IH]; intros ws' Hs'.
  - inversion Hs' as [|sp w rest ws0 Hsp Hw Hns Hrest Hws Heq]; [done|].
    subst. exfalso. unfold Spec.blank in Hs.
    rewrite !Forall_app in Hs. destruct Hs as (_ & Hwb & _).
    destruct w as [|c w]; [done|].
    apply Forall_cons in Hwb as [Hc _]. apply Forall_cons in Hns as [Hc' _].
    congruence.
  - inversion Hs' as [s0 Hb|sp' w' rest' ws0 Hsp' Hw' Hns' Hrest' Hws' Heq].
    + subst. exfalso. unfold Spec.blank in Hb.
      rewrite !Forall_app in Hb. destruct Hb as (_ & Hwb & _).
      destruct w as [|c w]; [done|].
      apply Forall_cons in Hwb as [Hc _]. apply Forall_cons in Hns as [Hc' _].
      congruence.
    + subst.
      destruct (blank_prefix_unique sp sp' (w ++ rest) (w' ++ rest'))
        as [-> Heq']; try done.
      { destruct w as [|c w]; [done|]. simpl.
        by apply Forall_cons in Hns as [Hc _]. }
      { destruct w' as [|c w']; [done|]. simpl.
        by apply Forall_cons in Hns' as [Hc _]. }
      destruct (word_prefix_unique w w' rest rest') as [-> ->]; try done.
      f_equal. by apply IH.
Qed.
End tokens_facts.

(** ** [dict.fromkeys] *)

Section fromkeys_facts.

Lemma fromkeys_aux_first_occurrences (l keys : list pystr) :
  fromkeys_aux keys l
  = keys ++ filter (λ y, y ∉ keys) (Spec.first_occurrences l).
Proof.
  revert keys. induction l as [|x l IH]; intros keys; simpl.
  - by rewrite app_nil_r.
  - rewrite IH, filter_cons. case_bool_decide as Hx.
    + rewrite decide_False by (by intros ?). f_equal.
      rewrite list_filter_filter. apply list_filter_iff.
      intros y. split; [|by intros []]. intros Hy. split; [done|].
      by intros ->.
    + rewrite decide_True by done. rewrite <- app_assoc. simpl. do 2 f_equal.
      rewrite list_filter_filter. apply list_filter_iff.
      intros y. rewrite elem_of_app, list_elem_of_singleton. tauto.
Qed.

Lemma fromkeys_first_occurrences (l : list pystr) :
  fromkeys l = Spec.first_occurrences l.
Proof.
  unfold fromkeys. rewrite fromkeys_aux_first_occurrences. simpl.
  induction (Spec.first_occurrences l) as [|y k IH]; [done|].
  rewrite filter_cons, decide_True by apply not_elem_of_nil.
  by rewrite IH.
Qed.

Lemma elem_of_first_occurrences (l : list pystr) (x : pystr) :
  x ∈ Spec.first_occurrences l ↔ x ∈ l.
Proof.
  induction l as [|y l IH]; simpl; [done|].
  rewrite !elem_of_cons, list_elem_of_filter, IH.
  destruct (decide (x = y)); tauto.
Qed.

Lemma NoDup_first_occurrences (l : list pystr) :
  NoDup (Spec.first_occurrences l).
Proof.
  induction l as [|y l IH]; simpl; [constructor|].
  constructor.
  - rewrite list_elem_of_filter. by intros [? _].
  - by apply NoDup_filter.
Qed.
End fromkeys_facts.


(** * The title map is overwritten by a repeated id *)

(** C2 (as amended).  In [OCP_parser_v3.py], [ocpparser3.py] and
    [ocp_parser.py] the title map entry of a section id is assigned each
    time a header line with that id is recognized, and a later header with
    the same id overwrites it: after the whole stream the map holds, for
    every id, the full name given by the last header line that carries it,
    and no entry for an id that heads no line. *)
Theorem C2_title_map_last_header_wins (kp : pystr → list pystr)
    (pages : list Page) :
  (∀ pn st line number title,
     Spec.header_of V3.SECTION_PATTERN line = Some (number, title) →
     ∃ st', V3.parse_line pn st line = Ok st'
            ∧ V3.section_title_map st'
              = <[number := Spec.full_name number title]>
                  (V3.section_title_map st))
  ∧ (∀ pn st line,
       Spec.is_header V3.SECTION_PATTERN line = false →
       ∃ st', V3.parse_line pn st line = Ok st'
              ∧ V3.section_title_map st' = V3.section_title_map st)
  ∧ (∃ secs m,
     V3.parse pages = Ok (secs, m)
     ∧ ∀ k, m !! k
            = Spec.last_header k
                (Spec.headers V3.SECTION_PATTERN (Spec.stream pages)))
  ∧ (∃ secs m,
       P3.parse_sections pages = Ok (secs, m)
       ∧ ∀ k, m !! k
              = Spec.last_header k
                  (Spec.headers P3.SECTION_PATTERN (Spec.stream pages)))
  ∧ (∃ out h m,
       Flat.parse kp pages = Ok (out, h, m)
       ∧ ∀ k, m !! k
              = Spec.last_header k
                  (Spec.headers Flat.SECTION_PATTERN (Spec.stream pages))).
Proof.
  split_and!.
  - intros pn st line number title Hh.
    destruct (V3_close_current_returns st) as [secs Hsecs].
    rewrite (V3_parse_line_header _ _ _ _ _ _ Hh Hsecs). by eexists.
  - intros pn st line Hh. destruct (V3.cur st) as [c|] eqn:Hcur.
    + rewrite (V3_parse_line_content _ _ _ _ Hh Hcur). by eexists.
    + rewrite (V3_parse_line_preamble _ _ _ Hh Hcur). by eexists.
  - apply V3_parse_title_map.
  - apply P3_parse_title_map.
  - apply Flat_parse_title_map.
Qed.

(** C2 as stated fails: after the header lines "1 Alpha" and "1 Beta" the
    title map gives "1 Beta" for the id "1", not the full name of the first
    occurrence. *)
Lemma C2_counterexample :
  let pages := [ {| page_number := 1; text := lit "1 Alpha" |};
                 {| page_number := 2; text := lit "1 Beta" |} ] in
  ∃ secs m,
    V3.parse pages = Ok (secs, m)
    ∧ Spec.first_header (lit "1")
        (Spec.headers V3.SECTION_PATTERN (Spec.stream pages))
      = Some (lit "1 Alpha")
    ∧ m !! lit "1" = Some (lit "1 Beta")
    ∧ m !! lit "1"
      ≠ Spec.first_header (lit "1")
          (Spec.headers V3.SECTION_PATTERN (Spec.stream pages)).
Proof.
  intros pages.
  destruct (V3_parse_title_map pages) as (secs & m & Hparse & Hm).
  exists secs, m. split; [exact Hparse|].
  assert (Hfirst : Spec.first_header (lit "1")
            (Spec.headers V3.SECTION_PATTERN (Spec.stream pages))
          = Some (lit "1 Alpha")) by (by vm_compute).
  assert (Hlast : m !! lit "1" = Some (lit "1 Beta")).
  { rewrite Hm. by vm_compute. }
  split; [exact Hfirst|]. split; [exact Hlast|].
  rewrite Hfirst, Hlast. by vm_compute.
Qed.

(** * No exception in the core *)

(** A line that starts with a measurement is taken for a header and opens a
    section of its own; the run goes on. *)
Example V3_measurement_line_opens_section :
  ∃ s1 s2 m,
    V3.parse [ {| page_number := 1;
                  text := Py.join [Py.newline]
                            [lit "2 Limits"; lit "The supply is rated at";
                             lit "12.5 V max"; lit "and shall hold it."] |} ]
    = Ok ([s1; s2], m)
    ∧ V3.hierarchy s1 = lit "2 Limits"
    ∧ V3.raw_content s1 = lit "The supply is rated at"
    ∧ V3.hierarchy s2 = lit "12.5 V max"
    ∧ V3.raw_content s2 = lit "and shall hold it.".
Proof. eexists _, _, _. split; [vm_compute; reflexivity|]. by vm_compute. Qed.

(** C9.  Whatever pages the text extraction hands over, [parse] runs to the
    end and returns its output list: none of the list indexings, dictionary
    lookups and [group] calls of the pipeline raises.  The only exception of
    a run is the one of the constructor for a missing input path. *)
Theorem C9_pipeline_never_raises (kp : pystr → list pystr)
    (pages : list Page) :
  returns (V3.parse pages)
  ∧ returns (Flat.parse kp pages)
  ∧ returns (P3.parse_sections pages)
  ∧ (∀ m id, returns (V3.build_hierarchy_tree m id))
  ∧ (∀ lines section_id hierarchy parent_hierarchy page,
       returns (V3.extract_requirements_with_context lines section_id
                  hierarchy parent_hierarchy page))
  ∧ (∀ m d, returns (V3._finalize_section m d))
  ∧ (∀ m d h, returns (Flat._finalize_section kp m d h))
  ∧ returns (V3.run_parser true pages)
  ∧ V3.run_parser false pages = Raise FileNotFoundError.
Proof.
  split_and!.
  - apply V3_parse_from_returns.
  - destruct (Flat_parse_title_map kp pages) as (? & ? & ? & -> & _).
    apply returns_Ok.
  - destruct (P3_parse_title_map pages) as (? & ? & -> & _).
    apply returns_Ok.
  - intros m id. rewrite V3_build_hierarchy_tree_eq. apply returns_Ok.
  - intros lines section_id hierarchy parent_hierarchy page.
    destruct (V3_extract_requirements_spec lines section_id hierarchy
                parent_hierarchy page) as (reqs & -> & _).
    apply returns_Ok.
  - apply V3_finalize_section_returns.
  - apply Flat_finalize_section_returns.
  - apply V3_parse_from_returns.
  - reflexivity.
Qed.


(** * Requirements: context lines and anchors *)

Section requirement_lemmas.
Import Py Re.

Lemma filter_none {A} (P : A → Prop) `{!∀ x, Decision (P x)} (l : list A) :
  (∀ x, x ∈ l → ¬ P x) → filter P l = [].
Proof.
  induction l as [|x l IH]; intros Hl; [done|].
  rewrite filter_cons, decide_False by (apply Hl; left).
  apply IH. intros y Hy. apply Hl. by right.
Qed.

Lemma no_match_indices pattern (lines : list pystr) :
  Forall (λ l, search pattern l = None) lines →
  Spec.matching_indices pattern lines = [].
Proof.
  intros Hnone. apply filter_none. intros i _.
  destruct (lines !! i) as [l|] eqn:Hl; simpl; [|done].
  eapply Forall_lookup_1 in Hnone; [|done]. by rewrite Hnone.
Qed.

(** The result of [_finalize_section] in [ocp_parser.py]: one record per
    shall-line, or the single record of a section without one, and the
    metadata object with the final record count. *)
Lemma Flat_finalize_records (kp : pystr → list pystr)
    (m : gmap pystr pystr)
    (d : Flat.SectionData) (h : Flat.heap) :
  ∃ tree out,
    Flat.build_hierarchy_tree m (Flat.d_number d) = Ok tree
    ∧ Flat._finalize_section kp m d h
      = Ok (out, h ++ [Spec.Flat_metadata d (length out)])
    ∧ match Spec.matching_indices Flat.SHALL_PATTERN (Flat.d_lines d) with
      | [] => out = [Spec.Flat_empty_record d tree (length h)]
      | idxs => Forall2 (Spec.Flat_record_at (Flat.d_lines d) d tree
                           (length h)) idxs out
      end.
Proof.
  destruct (Flat_finalize_section_spec kp m d h)
    as (tree & recs & Htree & Hrecs & Hfin).
  cbv zeta in Hfin. eexists tree, _. split; [done|]. split; [exact Hfin|].
  destruct Hrecs as [|i r idxs recs Hr Hrecs]; [done|].
  cbn [nonempty]. by constructor.
Qed.

(** An attached anchor is always the leftmost match of one of the section's
    content lines. *)
Lemma anchor_resolved_leftmost pattern (lines : list pystr) i l a anchor x :
  lines !! i = Some l →
  Spec.nearest_after lines i a →
  Spec.anchor_resolved pattern l a anchor →
  anchor = Some x →
  ∃ l', l' ∈ lines ∧ Spec.leftmost pattern l' (Some x).
Proof.
  intros Hl Ha [[_ Hleft]|[_ Hafter]] ->.
  - exists l. split; [|done]. by eapply list_elem_of_lookup_2.
  - destruct a as [l'|]; [|done].
    destruct Ha as (j & _ & Hj & _). exists l'.
    split; [|done]. by eapply list_elem_of_lookup_2.
Qed.
End requirement_lemmas.

(** The example of the specification for [OCP_parser_v3.py]. *)
Example V3_context_example :
  ∃ r,
    V3.extract_requirements_with_context
      [lit "A."; lit "The system shall log events."; lit "B."]
      (lit "section_1") (lit "1 Logging") None 1 = Ok [r]
    ∧ V3.shall_text r = lit "The system shall log events."
    ∧ V3.context_before r = [lit "A."]
    ∧ V3.context_after r = [lit "B."].
Proof. eexists. split; [vm_compute; reflexivity|]. by vm_compute. Qed.

(** The same lines in [ocp_parser.py]. *)
Example Flat_context_example :
  ∃ r h,
    Flat._finalize_section (λ _, []) ∅
      {| Flat.d_number := lit "1"; Flat.d_hierarchy := lit "1 Logging";
         Flat.d_page_number := 1;
         Flat.d_lines := [lit "A."; lit "The system shall log events.";
                          lit "B."] |} [] = Ok ([r], h)
    ∧ Flat.shall_sentence r = Some (lit "The system shall log events.")
    ∧ Flat.before_shall r = Some (lit "A.")
    ∧ Flat.after_shall r = Some (lit "B.").
Proof. eexists _, _. split; [vm_compute; reflexivity|]. by vm_compute. Qed.

(** Blank lines are skipped on both sides, and only the section's own
    lines are looked at. *)
Example V3_context_skips_blank_lines :
  ∃ r,
    V3.extract_requirements_with_context
      [lit "Intro."; lit "  "; lit "The unit shall start."; lit ""; lit "";
       lit "Done."]
      (lit "section_2") (lit "2 Start") None 4 = Ok [r]
    ∧ V3.context_before r = [lit "Intro."]
    ∧ V3.context_after r = [lit "Done."].
Proof. eexists. split; [vm_compute; reflexivity|]. by vm_compute. Qed.

(** C5.  For every shall-line, at index [i] of a section's content lines,
    the requirement built for it has as [context_before] the nearest line
    at a smaller index that is not blank, and as [context_after] the
    nearest line at a larger index that is not blank; each is absent when
    there is no such line, and otherwise one line of the same section,
    verbatim.  The requirements are in the order of their shall-lines.  For
    the lines "A.", "The system shall log events.", "B." the context is "A."
    before and "B." after. *)
Theorem C5_context_lines (kp : pystr → list pystr)
    (lines : list pystr) (section_id hierarchy : pystr)
    (parent_hierarchy : option pystr) (page : Z)
    (m : gmap pystr pystr) (d : Flat.SectionData) (h : Flat.heap) :
  (∃ reqs,
     V3.extract_requirements_with_context lines section_id hierarchy
       parent_hierarchy page = Ok reqs
     ∧ Forall2
         (λ i r, ∃ b a,
            lines !! i = Some (V3.shall_text r)
            ∧ V3.context_before r = option_list b
            ∧ V3.context_after r = option_list a
            ∧ Spec.nearest_before lines i b
            ∧ Spec.nearest_after lines i a)
         (Spec.matching_indices V3.SHALL_PATTERN lines) reqs)
  ∧ (∃ out h',
       Flat._finalize_section kp m d h = Ok (out, h')
       ∧ match Spec.matching_indices Flat.SHALL_PATTERN (Flat.d_lines d) with
         | [] => True
         | idxs =>
             Forall2
               (λ i r, ∃ l,
                  Flat.d_lines d !! i = Some l
                  ∧ Flat.shall_sentence r = Some (Py.strip l)
                  ∧ Spec.nearest_before (Flat.d_lines d) i (Flat.before_shall r)
                  ∧ Spec.nearest_after (Flat.d_lines d) i (Flat.after_shall r))
               idxs out
         end)
  ∧ (∃ r,
       V3.extract_requirements_with_context
         [lit "A."; lit "The system shall log events."; lit "B."]
         (lit "section_1") (lit "1 Logging") None 1 = Ok [r]
       ∧ V3.context_before r = [lit "A."]
       ∧ V3.context_after r = [lit "B."]).
Proof.
  split_and!.
  - destruct (V3_extract_requirements_spec lines section_id hierarchy
                parent_hierarchy page) as (reqs & Hreqs & Hall & _).
    exists reqs. split; [done|].
    eapply Forall2_impl; [exact Hall|].
    intros i r (l & b & a & Hl & Ht & Hb & Ha & Hnb & Hna & _).
    exists b, a. rewrite Ht. by split_and!.
  - destruct (Flat_finalize_records kp m d h)
      as (tree & out & _ & Hfin & Hout).
    eexists _, _. split; [exact Hfin|].
    destruct (Spec.matching_indices _ _) as [|i idxs]; [done|].
    eapply Forall2_impl; [exact Hout|].
    intros j r (l & Hl & Hs & Hnb & Hna & _). exists l. by split_and!.
  - destruct V3_context_example as (r & Hr & _ & Hb & Ha). by exists r.
Qed.

(** Two anchors on one shall-line: only the first is attached. *)
Example V3_two_anchors_on_a_line :
  ∃ r,
    V3.extract_requirements_with_context
      [lit "The unit shall comply (see A) and (see B)."]
      (lit "section_1") (lit "1 Rules") None 1 = Ok [r]
    ∧ V3.anchor r = Some (lit "(see A)").
Proof. eexists. split; [vm_compute; reflexivity|]. by vm_compute. Qed.

(** The second anchor of a line is attached to no requirement, also not to
    the one of the shall-line before it, which takes the first. *)
Example V3_second_anchor_never_attached :
  ∃ reqs,
    V3.extract_requirements_with_context
      [lit "X shall start."; lit "Y shall stop (see A) (see B).";
       lit "Z shall end."]
      (lit "section_1") (lit "1 Rules") None 1 = Ok reqs
    ∧ V3.anchor <$> reqs
      = [Some (lit "(see A)"); Some (lit "(see A)"); None].
Proof. eexists. split; [vm_compute; reflexivity|]. by vm_compute. Qed.

Example Flat_two_anchors_on_a_line :
  ∃ r h,
    Flat._finalize_section (λ _, []) ∅
      {| Flat.d_number := lit "1"; Flat.d_hierarchy := lit "1 Rules";
         Flat.d_page_number := 1;
         Flat.d_lines := [lit "The unit shall comply (see A) and (see B)."] |}
      [] = Ok ([r], h)
    ∧ Flat.anchor r = Some (lit "(see A)").
Proof. eexists _, _. split; [vm_compute; reflexivity|]. by vm_compute. Qed.

(** C4.  The anchor of a requirement is the leftmost match of the anchor
    pattern in the shall-line; only when the shall-line has no match at any
    position is the single [context_after] line searched, again for its
    leftmost match; without a match in either, the anchor is absent.  A
    second match on a line is therefore never what is attached: on a
    shall-line with "(see A)" and "(see B)" the anchor is "(see A)", and
    "(see B)" is the anchor of no requirement of the section. *)
Theorem C4_anchor_resolution (kp : pystr → list pystr)
    (lines : list pystr) (section_id hierarchy : pystr)
    (parent_hierarchy : option pystr) (page : Z)
    (m : gmap pystr pystr) (d : Flat.SectionData) (h : Flat.heap) :
  (∃ reqs,
     V3.extract_requirements_with_context lines section_id hierarchy
       parent_hierarchy page = Ok reqs
     ∧ Forall
         (λ r, ∃ a,
            V3.context_after r = option_list a
            ∧ Spec.anchor_resolved V3.ANCHOR_PATTERN (V3.shall_text r) a
                (V3.anchor r))
         reqs
     ∧ Forall
         (λ r, ∀ x, V3.anchor r = Some x →
                    ∃ l, l ∈ lines
                         ∧ Spec.leftmost V3.ANCHOR_PATTERN l (Some x))
         reqs)
  ∧ (∃ out h',
       Flat._finalize_section kp m d h = Ok (out, h')
       ∧ match Spec.matching_indices Flat.SHALL_PATTERN (Flat.d_lines d) with
         | [] => Forall (λ r, Flat.anchor r = None) out
         | idxs =>
             Forall2
               (λ i r, ∃ l,
                  Flat.d_lines d !! i = Some l
                  ∧ Spec.anchor_resolved Flat.ANCHOR_PATTERN l
                      (Flat.after_shall r) (Flat.anchor r))
               idxs out
         end
       ∧ Forall
           (λ r, ∀ x, Flat.anchor r = Some x →
                      ∃ l, l ∈ Flat.d_lines d
                           ∧ Spec.leftmost Flat.ANCHOR_PATTERN l (Some x))
           out)
  ∧ (∃ r,
       V3.extract_requirements_with_context
         [lit "The unit shall comply (see A) and (see B)."]
         (lit "section_1") (lit "1 Rules") None 1 = Ok [r]
       ∧ V3.anchor r = Some (lit "(see A)"))
  ∧ (∃ reqs,
       V3.extract_requirements_with_context
         [lit "X shall start."; lit "Y shall stop (see A) (see B).";
          lit "Z shall end."]
         (lit "section_1") (lit "1 Rules") None 1 = Ok reqs
       ∧ V3.anchor <$> reqs
         = [Some (lit "(see A)"); Some (lit "(see A)"); None]).
Proof.
  split_and!.
  - destruct (V3_extract_requirements_spec lines section_id hierarchy
                parent_hierarchy page) as (reqs & Hreqs & Hall & _).
    exists reqs. split; [done|]. split.
    + eapply Forall2_Forall_r; [exact Hall|].
      apply Forall_forall.
      intros i _ r (l & b & a & _ & Ht & _ & Ha & _ & _ & Hanchor & _).
      exists a. split; [done|]. rewrite Ht, Hanchor.
      apply anchor_of_resolved.
    + eapply Forall2_Forall_r; [exact Hall|].
      apply Forall_forall.
      intros i _ r (l & b & a & Hl & Ht & _ & Ha & _ & Hna & Hanchor & _) x Hx.
      eapply anchor_resolved_leftmost; [exact Hl|exact Hna| |exact Hx].
      rewrite Hanchor. apply anchor_of_resolved.
  - destruct (Flat_finalize_records kp m d h)
      as (tree & out & _ & Hfin & Hout).
    eexists _, _. split; [exact Hfin|].
    destruct (Spec.matching_indices _ _) as [|i idxs].
    + subst out. split; by repeat constructor.
    + split.
      * eapply Forall2_impl; [exact Hout|].
        intros j r (l & Hl & _ & _ & _ & Hanchor & _). exists l.
        split; [done|]. rewrite Hanchor. apply anchor_of_resolved.
      * eapply Forall2_Forall_r; [exact Hout|].
        apply Forall_forall.
        intros j _ r (l & Hl & _ & _ & Hna & Hanchor & _) x Hx.
        eapply anchor_resolved_leftmost; [exact Hl|exact Hna| |exact Hx].
        rewrite Hanchor. apply anchor_of_resolved.
  - exact V3_two_anchors_on_a_line.
  - exact V3_second_anchor_never_attached.
Qed.


(** * Sections without requirements *)

(** C6.  A finalized section none of whose content lines contains the word
    "shall": in [ocp_parser.py] (flattened shape) it yields exactly one
    record, whose shall sentence, context lines and anchor are absent and
    whose metadata, as the output shows it, has requirement_count 1; in
    [OCP_parser_v3.py] (nested shape) its requirements list is empty. *)
Theorem C6_section_without_shall (kp : pystr → list pystr)
    (m : gmap pystr pystr) (d : Flat.SectionData) (h : Flat.heap)
    (d3 : V3.SectionData)
    (Hflat : Forall (λ l, Re.search Flat.SHALL_PATTERN l = None)
               (Flat.d_lines d))
    (Hnested : Forall (λ l, Re.search V3.SHALL_PATTERN l = None)
                 (V3.d_lines d3)) :
  (∃ r h' md,
     Flat._finalize_section kp m d h = Ok ([r], h')
     ∧ Flat.shall_sentence r = None
     ∧ Flat.before_shall r = None
     ∧ Flat.after_shall r = None
     ∧ Flat.anchor r = None
     ∧ Flat.metadata_of h' r = Some md
     ∧ Flat.requirement_count md = 1)
  ∧ (∃ s,
       V3._finalize_section m d3 = Ok s
       ∧ V3.requirements s = []
       ∧ V3.requirement_count (V3.metadata s) = 0).
Proof.
  split.
  - destruct (Flat_finalize_records kp m d h)
      as (tree & out & _ & Hfin & Hout).
    rewrite (no_match_indices _ _ Hflat) in Hout. subst out.
    exists (Spec.Flat_empty_record d tree (length h)),
           (h ++ [Spec.Flat_metadata d 1]), (Spec.Flat_metadata d 1).
    split; [exact Hfin|]. split_and!; try done.
    unfold Flat.metadata_of. cbn [Spec.Flat_empty_record Flat.metadata].
    by rewrite list_lookup_middle.
  - destruct (V3_finalize_section_spec m d3)
      as (tree & reqs & _ & Hreqs & Hfin).
    destruct (V3_extract_requirements_spec (V3.d_lines d3)
                (lit "section_" ++ Py.replace "." "_" (V3.d_number d3))
                (V3.d_full_name d3) (V3.parent tree) (V3.d_page_number d3))
      as (reqs' & Hreqs' & Hall & _).
    rewrite Hreqs in Hreqs'. injection Hreqs' as <-.
    rewrite (no_match_indices _ _ Hnested) in Hall.
    apply Forall2_nil_inv_l in Hall. subst reqs.
    eexists. split; [exact Hfin|]. done.
Qed.

Lemma C6_section_without_shall_witness :
  let d := {| Flat.d_number := lit "3"; Flat.d_hierarchy := lit "3 Power";
              Flat.d_page_number := 1;
              Flat.d_lines := [lit "Overview text."] |} in
  let d3 := {| V3.d_number := lit "3"; V3.d_title := lit "Power";
               V3.d_full_name := lit "3 Power"; V3.d_page_number := 1;
               V3.d_lines := [lit "Overview text."] |} in
  Forall (λ l, Re.search Flat.SHALL_PATTERN l = None) (Flat.d_lines d)
  ∧ Forall (λ l, Re.search V3.SHALL_PATTERN l = None) (V3.d_lines d3)
  ∧ (∃ r h' md,
       Flat._finalize_section (λ _, []) ∅ d [] = Ok ([r], h')
       ∧ Flat.shall_sentence r = None
       ∧ Flat.before_shall r = None
       ∧ Flat.after_shall r = None
       ∧ Flat.anchor r = None
       ∧ Flat.metadata_of h' r = Some md
       ∧ Flat.requirement_count md = 1)
  ∧ (∃ s,
       V3._finalize_section ∅ d3 = Ok s
       ∧ V3.requirements s = []
       ∧ V3.requirement_count (V3.metadata s) = 0).
Proof.
  intros d d3.
  assert (H1 : Forall (λ l, Re.search Flat.SHALL_PATTERN l = None)
                 (Flat.d_lines d)).
  { constructor; [vm_compute; reflexivity|constructor]. }
  assert (H2 : Forall (λ l, Re.search V3.SHALL_PATTERN l = None)
                 (V3.d_lines d3)).
  { constructor; [vm_compute; reflexivity|constructor]. }
  split; [exact H1|]. split; [exact H2|].
  exact (C6_section_without_shall (λ _, []) ∅ d [] d3 H1 H2).
Defined.

(** * End to end *)

(** C7 (as amended).  The lines "3 Power", "Overview text.", "3.1 Power
    Budget", "The controller shall report power budget. (see Section 3.2)",
    "End text." on page 1 give two sections, "3" and "3.1"; the parent of
    "3.1" is "3 Power"; "3.1" has exactly one requirement, whose text
    contains "shall report power budget", whose context before is absent
    and whose context after is "End text.".  Its anchor is "(see Section
    3.2)" under the parenthetical anchor pattern of [OCP_parser_v3.py] and
    [ocp_parser.py]; the loose pattern of [ocpparser3.py] matches "see
    Section 3" on that line. *)
Theorem C7_end_to_end :
  let pages :=
    [ {| page_number := 1;
         text := Py.join [Py.newline]
                   [lit "3 Power"; lit "Overview text.";
                    lit "3.1 Power Budget";
                    lit "The controller shall report power budget. (see Section 3.2)";
                    lit "End text."] |} ] in
  Spec.headers V3.SECTION_PATTERN (Spec.stream pages)
  = [(lit "3", lit "3 Power"); (lit "3.1", lit "3.1 Power Budget")]
  ∧ (∃ s1 s2 r m,
     V3.parse pages = Ok ([s1; s2], m)
     ∧ V3.id s1 = lit "section_3" ∧ V3.hierarchy s1 = lit "3 Power"
     ∧ V3.id s2 = lit "section_3_1" ∧ V3.hierarchy s2 = lit "3.1 Power Budget"
     ∧ m !! lit "3" = Some (lit "3 Power")
     ∧ m !! lit "3.1" = Some (lit "3.1 Power Budget")
     ∧ V3.parent (V3.hierarchy_tree s2) = Some (lit "3 Power")
     ∧ V3.requirements s1 = []
     ∧ V3.requirements s2 = [r]
     ∧ (∃ pre post,
          V3.shall_text r = pre ++ lit "shall report power budget" ++ post)
     ∧ V3.anchor r = Some (lit "(see Section 3.2)")
     ∧ V3.context_before r = []
     ∧ V3.context_after r = [lit "End text."])
  ∧ (∃ r1 r2 h m,
       Flat.parse (λ _, []) pages = Ok ([r1; r2], h, m)
       ∧ Flat.hierarchy r1 = lit "3 Power"
       ∧ Flat.shall_sentence r1 = None
       ∧ Flat.hierarchy r2 = lit "3.1 Power Budget"
       ∧ Flat.parent (Flat.hierarchy_tree r2) = Some (lit "3 Power")
       ∧ Flat.shall_sentence r2
         = Some (lit "The controller shall report power budget. (see Section 3.2)")
       ∧ Flat.anchor r2 = Some (lit "(see Section 3.2)")
       ∧ Flat.before_shall r2 = None
       ∧ Flat.after_shall r2 = Some (lit "End text."))
  ∧ (∃ p1 p2 m,
       P3.parse_sections pages = Ok ([p1; p2], m)
       ∧ P3.hierarchy p1 = lit "3 Power"
       ∧ P3.hierarchy p2 = lit "3.1 Power Budget"
       ∧ P3.parent (P3.hierarchy_tree p2) = Some (lit "3 Power")
       ∧ P3.shall_sentences p2
         = [lit "The controller shall report power budget. (see Section 3.2)"]
       ∧ P3.anchors p2 = [lit "see Section 3"]).
Proof.
  intros pages. split_and!.
  - by vm_compute.
  - eexists _, _, _, _. split; [vm_compute; reflexivity|].
    split_and!; try (by vm_compute).
    exists (lit "The controller "), (lit ". (see Section 3.2)").
    by vm_compute.
  - eexists _, _, _, _. split; [vm_compute; reflexivity|].
    split_and!; by vm_compute.
  - eexists _, _, _. split; [vm_compute; reflexivity|].
    split_and!; by vm_compute.
Qed.

(** C7 as stated fails for the loose pattern: on the shall-line of the
    example it matches "see Section 3", and the patterns of
    [OCP_parser.py] give "see Section 3.2" and "Section 3.2"; none of them
    gives the parenthesized "(see Section 3.2)". *)
Lemma C7_counterexample :
  let line :=
    lit "The controller shall report power budget. (see Section 3.2)" in
  Re.group0 <$> Re.search P3.ANCHOR_PATTERN line = Some (lit "see Section 3")
  ∧ Re.group0 <$> Re.search P3.ANCHOR_PATTERN line
    ≠ Some (lit "(see Section 3.2)")
  ∧ V1.extract_anchors line = [lit "see Section 3.2"; lit "Section 3.2"]
  ∧ lit "(see Section 3.2)" ∉ V1.extract_anchors line.
Proof.
  intros line.
  assert (H1 : Re.group0 <$> Re.search P3.ANCHOR_PATTERN line
               = Some (lit "see Section 3")) by (by vm_compute).
  assert (H2 : V1.extract_anchors line
               = [lit "see Section 3.2"; lit "Section 3.2"]) by (by vm_compute).
  split; [exact H1|]. split; [rewrite H1; by vm_compute|].
  split; [exact H2|]. rewrite H2.
  intros Hin. apply elem_of_cons in Hin as [Hin|Hin]; [by vm_compute in Hin|].
  apply elem_of_cons in Hin as [Hin|Hin]; [by vm_compute in Hin|].
  by apply elem_of_nil in Hin.
Qed.


(** * Section metadata *)

(** More anchor matches in the content than anchors attached: the two
    anchors stand on a line without "shall". *)
Example V3_reference_count_exceeds :
  ∃ s,
    V3._finalize_section ∅
      {| V3.d_number := lit "4"; V3.d_title := lit "Notes";
         V3.d_full_name := lit "4 Notes"; V3.d_page_number := 2;
         V3.d_lines := [lit "Background (see A) and (see B)."] |} = Ok s
    ∧ V3.reference_count (V3.metadata s) = 2
    ∧ V3.requirement_count (V3.metadata s) = 0
    ∧ length (omap V3.anchor (V3.requirements s)) = 0.
Proof. eexists. split; [vm_compute; reflexivity|]. by vm_compute. Qed.

(** Fewer anchor matches than anchors attached: one anchor serves the
    shall-line before it and its own. *)
Example V3_reference_count_below :
  ∃ s,
    V3._finalize_section ∅
      {| V3.d_number := lit "4"; V3.d_title := lit "Notes";
         V3.d_full_name := lit "4 Notes"; V3.d_page_number := 2;
         V3.d_lines := [lit "X shall start."; lit "Y shall stop (see A)."] |}
    = Ok s
    ∧ V3.reference_count (V3.metadata s) = 1
    ∧ length (omap V3.anchor (V3.requirements s)) = 2.
Proof. eexists. split; [vm_compute; reflexivity|]. by vm_compute. Qed.

(** C8.  For every finalized section the metadata is computed from the
    content and the id: content_length is the number of characters of the
    content (the content lines joined by newlines in [OCP_parser_v3.py],
    each followed by a newline in [ocpparser3.py]); word_count is the
    number of whitespace-delimited tokens of the content; depth is the
    number of dot-separated components of the id, one more than its dots;
    has_subsections holds exactly when the id contains a dot;
    reference_count is the number of matches of the anchor pattern over
    the whole content.  That number is independent of the anchors attached
    to requirements: it can be larger and it can be smaller. *)
Theorem C8_section_metadata (m : gmap pystr pystr)
    (d3 : V3.SectionData) (dp : P3.SectionData) :
  (∃ s ws,
     V3._finalize_section m d3 = Ok s
     ∧ V3.raw_content s = Py.join [Py.newline] (V3.d_lines d3)
     ∧ V3.content_length (V3.metadata s) = length (V3.raw_content s)
     ∧ Spec.tokens (V3.raw_content s) ws
     ∧ V3.word_count (V3.metadata s) = length ws
     ∧ V3.depth (V3.metadata s) = length (Py.split Py.dot (V3.d_number d3))
     ∧ V3.depth (V3.metadata s)
       = S (length (filter (λ c, c = Py.dot) (V3.d_number d3)))
     ∧ (V3.has_subsections (V3.metadata s) = true ↔ Py.dot ∈ V3.d_number d3)
     ∧ V3.reference_count (V3.metadata s)
       = length (Re.findall V3.ANCHOR_PATTERN (V3.raw_content s))
     ∧ V3.requirement_count (V3.metadata s) = length (V3.requirements s))
  ∧ (∃ s ws,
       P3._finalize_section m dp = Ok s
       ∧ P3.raw_content s = P3.d_content dp
       ∧ P3.content_length (P3.metadata s) = length (P3.raw_content s)
       ∧ Spec.tokens (P3.raw_content s) ws
       ∧ P3.word_count (P3.metadata s) = length ws
       ∧ P3.depth (P3.metadata s) = length (Py.split Py.dot (P3.d_number dp))
       ∧ P3.depth (P3.metadata s)
         = S (length (filter (λ c, c = Py.dot) (P3.d_number dp)))
       ∧ (P3.has_subsections (P3.metadata s) = true ↔ Py.dot ∈ P3.d_number dp)
       ∧ P3.reference_count (P3.metadata s)
         = length (Re.findall P3.ANCHOR_PATTERN (P3.raw_content s))
       ∧ P3.requirement_count (P3.metadata s)
         = length (P3.shall_sentences s))
  ∧ (∀ pages,
       ∃ preamble segs secs t,
         Spec.segmentation V3.SECTION_PATTERN (Spec.stream pages) preamble segs
         ∧ V3.parse pages = Ok (secs, t)
         ∧ Forall2
             (λ sg s,
                V3.raw_content s
                = Py.join [Py.newline] (snd <$> Spec.seg_content sg)
                ∧ V3.content_length (V3.metadata s) = length (V3.raw_content s))
             segs secs)
  ∧ (∀ pages,
       ∃ preamble segs secs t,
         Spec.segmentation P3.SECTION_PATTERN (Spec.stream pages) preamble segs
         ∧ P3.parse_sections pages = Ok (secs, t)
         ∧ Forall2
             (λ sg s,
                P3.raw_content s
                = concat ((λ pl, pl.2 ++ [Py.newline]) <$> Spec.seg_content sg)
                ∧ P3.content_length (P3.metadata s) = length (P3.raw_content s))
             segs secs)
  ∧ (∃ s,
       V3._finalize_section ∅
         {| V3.d_number := lit "4"; V3.d_title := lit "Notes";
            V3.d_full_name := lit "4 Notes"; V3.d_page_number := 2;
            V3.d_lines := [lit "Background (see A) and (see B)."] |} = Ok s
       ∧ V3.reference_count (V3.metadata s) = 2
       ∧ length (omap V3.anchor (V3.requirements s)) = 0)
  ∧ (∃ s,
       V3._finalize_section ∅
         {| V3.d_number := lit "4"; V3.d_title := lit "Notes";
            V3.d_full_name := lit "4 Notes"; V3.d_page_number := 2;
            V3.d_lines := [lit "X shall start.";
                           lit "Y shall stop (see A)."] |} = Ok s
       ∧ V3.reference_count (V3.metadata s) = 1
       ∧ length (omap V3.anchor (V3.requirements s)) = 2).
Proof.
  split_and!.
  - destruct (V3_finalize_section_spec m d3) as (tree & reqs & _ & _ & Hfin).
    eexists _, (Py.words (Py.join [Py.newline] (V3.d_lines d3))).
    split; [exact Hfin|].
    cbn [V3.raw_content V3.metadata V3.content_length V3.word_count V3.depth
           V3.has_subsections V3.reference_count V3.requirement_count
           V3.requirements].
    split_and!; try done.
    + apply words_tokens.
    + apply split_count.
    + apply (contains_elem_of Py.dot).
  - destruct (P3_finalize_section_spec m dp) as (tree & _ & Hfin).
    eexists _, (Py.words (P3.d_content dp)).
    split; [exact Hfin|].
    cbn [P3.raw_content P3.metadata P3.content_length P3.word_count P3.depth
           P3.has_subsections P3.reference_count P3.requirement_count
           P3.shall_sentences].
    split_and!; try done.
    + apply words_tokens.
    + apply split_count.
    + apply (contains_elem_of Py.dot).
  - intros pages.
    destruct (segmentation_exists V3.SECTION_PATTERN (Spec.stream pages))
      as (preamble & segs & Hseg).
    destruct (V3_parse_segmentation _ _ _ Hseg) as (secs & t & Hparse & Hsecs).
    exists preamble, segs, secs, t. split_and!; try done.
    eapply Forall2_impl; [exact Hsecs|].
    by intros sg s (number & title & _ & _ & _ & _ & _ & Hraw & Hlen).
  - intros pages.
    destruct (segmentation_exists P3.SECTION_PATTERN (Spec.stream pages))
      as (preamble & segs & Hseg).
    destruct (P3_parse_segmentation _ _ _ Hseg) as (secs & t & Hparse & Hsecs).
    exists preamble, segs, secs, t. split_and!; try done.
    eapply Forall2_impl; [exact Hsecs|].
    by intros sg s (number & title & _ & _ & _ & _ & _ & Hraw & Hlen).
  - destruct V3_reference_count_exceeds as (s & Hs & Hr & _ & Ha). by exists s.
  - exact V3_reference_count_below.
Qed.

(** * Sentence-level requirements of [OCP_parser.py] *)

Example V1_short_statement_not_counted :
  V1.requirement_count
    (V1.metadata
       (V1._finalize_section
          {| V1.d_hierarchy := lit "2"; V1.d_title := lit "Scope";
             V1.d_page_number := 1; V1.d_content := lit "It shall go." |}))
  = 0.
Proof. by vm_compute. Qed.

Example V1_repeated_sentence_counted_once :
  Re.findall V1.SHALL_PATTERN
    (lit "The device shall power on. The device shall power on.")
  = [lit "The device shall power on."; lit " The device shall power on."]
  ∧ V1.extract_shall_sentences
      (lit "The device shall power on. The device shall power on.")
    = [lit "The device shall power on."]
  ∧ V1.requirement_count
      (V1.metadata
         (V1._finalize_section
            {| V1.d_hierarchy := lit "2"; V1.d_title := lit "Scope";
               V1.d_page_number := 1;
               V1.d_content :=
                 lit "The device shall power on. The device shall power on." |}))
    = 1.
Proof. split_and!; by vm_compute. Qed.

(** C10.  In [OCP_parser.py], [extract_shall_sentences] returns the
    stripped sentence-level matches that are longer than 15 characters,
    without duplicates and in the order of their first occurrence; the
    requirement_count of a section is the length of that list for its
    stripped content.  So a section all of whose shall statements have at
    most 15 characters has requirement_count 0, and a sentence that occurs
    several times is counted once. *)
Theorem C10_shall_sentences (text : pystr) (d : V1.SectionData) :
  let matches := Re.findall V1.SHALL_PATTERN text in
  let qualifying :=
    Py.strip <$> filter (λ s, 15 < length (Py.strip s)) matches in
  V1.extract_shall_sentences text = Spec.first_occurrences qualifying
  ∧ NoDup (V1.extract_shall_sentences text)
  ∧ (∀ x, x ∈ V1.extract_shall_sentences text
          ↔ ∃ s, s ∈ matches ∧ x = Py.strip s ∧ 15 < length x)
  ∧ V1.requirement_count (V1.metadata (V1._finalize_section d))
    = length (V1.extract_shall_sentences (Py.strip (V1.d_content d)))
  ∧ ((∀ s, s ∈ Re.findall V1.SHALL_PATTERN (Py.strip (V1.d_content d)) →
           length (Py.strip s) ≤ 15) →
     V1.requirement_count (V1.metadata (V1._finalize_section d)) = 0)
  ∧ V1.requirement_count
      (V1.metadata
         (V1._finalize_section
            {| V1.d_hierarchy := lit "2"; V1.d_title := lit "Scope";
               V1.d_page_number := 1; V1.d_content := lit "It shall go." |}))
    = 0
  ∧ V1.requirement_count
      (V1.metadata
         (V1._finalize_section
            {| V1.d_hierarchy := lit "2"; V1.d_title := lit "Scope";
               V1.d_page_number := 1;
               V1.d_content :=
                 lit "The device shall power on. The device shall power on." |}))
    = 1.
Proof.
  intros matches qualifying.
  assert (Heq : V1.extract_shall_sentences text
                = Spec.first_occurrences qualifying).
  { unfold V1.extract_shall_sentences. apply fromkeys_first_occurrences. }
  split_and!.
  - exact Heq.
  - rewrite Heq. apply NoDup_first_occurrences.
  - intros x. rewrite Heq, elem_of_first_occurrences. unfold qualifying.
    rewrite list_elem_of_fmap. split.
    + intros (s & -> & Hs). apply list_elem_of_filter in Hs as [Hlen Hs].
      by exists s.
    + intros (s & Hs & -> & Hlen). exists s. split; [done|].
      by apply list_elem_of_filter.
  - reflexivity.
  - intros Hshort. cbn [V1._finalize_section V1.metadata V1.requirement_count].
    unfold V1.extract_shall_sentences.
    rewrite (filter_none (λ s, 15 < length (Py.strip s))); [done|].
    intros s Hs. apply Hshort in Hs. lia.
  - exact V1_short_statement_not_counted.
  - apply V1_repeated_sentence_counted_once.
Qed.


From Stdlib Require Import DecimalNat.

(** * Matches have the shape of their pattern *)

Section shapes.
Import Py Re Lang.

Lemma star_loop_shaped a k n :
  shaped a (run a) →
  ∀ st x, star_loop (run a) k n st = Some x →
    ∃ w st', lang (Star a) w
             ∧ m_rest st = w ++ m_rest st'
             ∧ m_pos st' = m_pos st + length w
             ∧ (groupless a = true → m_groups st' = m_groups st)
             ∧ k st' = Some x.
Proof.
  intros Ha. induction n as [|n IH]; intros st x; simpl.
  - intros Hk. exists [], st. split_and!; [constructor|done|simpl; lia|done|done].
  - destruct (run a st _) as [y|] eqn:Hbody.
    + intros [= ->]. apply Ha in Hbody as (u & st1 & Hu & Hrest & Hpos & Hg & Hk).
      destruct (_ <? _); [|done].
      apply IH in Hk as (v & st2 & Hv & Hrest2 & Hpos2 & Hg2 & Hk).
      exists (u ++ v), st2. split_and!.
      * by constructor.
      * by rewrite Hrest, Hrest2, app_assoc.
      * rewrite Hpos2, Hpos, length_app. lia.
      * intros G. by rewrite Hg2, Hg.
      * done.
    + intros Hk. exists [], st.
      split_and!; [constructor|done|simpl; lia|done|done].
Qed.

Lemma run_shaped r : shaped r (run r).
Proof.
  induction r as [|p|a IHa b IHb|a IHa b IHb|a IHa|n a IHa|ml|ml|];
    intros st k x; simpl.
  - intros Hk. exists [], st. split_and!; [constructor|done|simpl; lia|done|done].
  - destruct (m_rest st) as [|c rest] eqn:Hrest; [done|].
    destruct (p c) eqn:Hp; [|done]. intros Hk.
    exists [c], (advance st c rest).
    split_and!; [by constructor|done|simpl; lia|done|done].
  - intros H. apply IHa in H as (u & st1 & Hu & Hrest & Hpos & Hg & H).
    apply IHb in H as (v & st2 & Hv & Hrest2 & Hpos2 & Hg2 & H).
    exists (u ++ v), st2. split_and!.
    + by constructor.
    + by rewrite Hrest, Hrest2, app_assoc.
    + rewrite Hpos2, Hpos, length_app. lia.
    + intros [G1 G2]%andb_true_iff. by rewrite Hg2, Hg.
    + done.
  - destruct (run a st k) as [y|] eqn:Hleft.
    + intros [= ->]. apply IHa in Hleft as (u & st1 & Hu & ? & ? & Hg & ?).
      exists u, st1. split_and!; [by apply lang_alt_l|done|done| |done].
      intros [G1 G2]%andb_true_iff. auto.
    + intros H. apply IHb in H as (u & st1 & Hu & ? & ? & Hg & ?).
      exists u, st1. split_and!; [by apply lang_alt_r|done|done| |done].
      intros [G1 G2]%andb_true_iff. auto.
  - intros H. by apply star_loop_shaped in H.
  - intros H. apply IHa in H as (u & st1 & Hu & ? & ? & Hg & ?).
    exists u, (set_group n (m_pos st) st1).
    split_and!; [by constructor|done|done|done|done].
  - destruct (at_bol ml st); [|done]. intros Hk. exists [], st.
    split_and!; [constructor|done|simpl; lia|done|done].
  - destruct (at_eol ml st); [|done]. intros Hk. exists [], st.
    split_and!; [constructor|done|simpl; lia|done|done].
  - destruct (at_wordb st); [|done]. intros Hk. exists [], st.
    split_and!; [constructor|done|simpl; lia|done|done].
Qed.

Lemma attempt_shape r s ma pos prev rest m :
  attempt r s ma pos prev rest = Some m →
  ∃ w rest', lang r w ∧ rest = w ++ rest'
             ∧ r_subject m = s ∧ r_start m = pos
             ∧ r_end m = pos + length w.
Proof.
  unfold attempt. destruct (run r _ _) as [st|] eqn:Hrun; [|done].
  intros [= <-]. apply run_shaped in Hrun as (w & st' & Hw & Hrest & Hpos & _ & Hk).
  simpl in *. destruct (_ && _); [done|]. injection Hk as <-.
  by exists w, (m_rest st').
Qed.

Lemma scan_shape r s ma pos prev rest m :
  scan r s ma pos prev rest = Some m →
  ∃ skipped w rest', lang r w ∧ rest = skipped ++ w ++ rest'
                     ∧ r_subject m = s
                     ∧ r_start m = pos + length skipped
                     ∧ r_end m = r_start m + length w.
Proof.
  revert ma pos prev. induction rest as [|c rest IH]; intros ma pos prev; simpl.
  - destruct (attempt r s ma pos prev []) as [m'|] eqn:Ha; [|done].
    intros [= ->]. apply attempt_shape in Ha as (w & rest' & ? & ? & ? & ? & ?).
    exists [], w, rest'. simpl. split_and!; [done..|lia|lia].
  - destruct (attempt r s ma pos prev (c :: rest)) as [m'|] eqn:Ha.
    + intros [= ->]. apply attempt_shape in Ha as (w & rest' & ? & ? & ? & ? & ?).
      exists [], w, rest'. simpl. split_and!; [done..|lia|lia].
    + intros H. apply IH in H as (sk & w & rest' & ? & -> & ? & ? & ?).
      exists (c :: sk), w, rest'. simpl. split_and!; [done..|lia|lia].
Qed.

Lemma slice_middle (pre w post : pystr) :
  slice (length pre) (length pre + length w) (pre ++ w ++ post) = w.
Proof.
  unfold slice. rewrite drop_app_length.
  replace (length pre + length w - length pre) with (length w) by lia.
  by rewrite take_app_length.
Qed.

(** The text of a match found from position [length pre] on. *)
Lemma scan_group0 r s pos pre rest ma prev m :
  s = pre ++ rest → pos = length pre →
  scan r s ma pos prev rest = Some m →
  lang r (group0 m) ∧ occurs_in (group0 m) rest
  ∧ ∃ skipped post, rest = skipped ++ group0 m ++ post
                    ∧ r_start m = length pre + length skipped
                    ∧ r_end m = r_start m + length (group0 m).
Proof.
  intros -> -> H.
  apply scan_shape in H as (sk & w & rest' & Hw & -> & Hs & Hst & He).
  assert (group0 m = w) as ->.
  { unfold group0. rewrite Hs, He, Hst, app_assoc, <- length_app.
    apply slice_middle. }
  split; [done|]. split; [by exists sk, rest'|]. by exists sk, rest'.
Qed.

Lemma search_shape r s m :
  search r s = Some m →
  lang r (group0 m) ∧ occurs_in (group0 m) s.
Proof.
  intros H.
  by apply (scan_group0 r s 0 [] s false None m eq_refl eq_refl) in H
    as (? & ? & _).
Qed.

Lemma rematch_shape r s m :
  rematch r s = Some m →
  ∃ rest', lang r (group0 m) ∧ s = group0 m ++ rest' ∧ r_start m = 0.
Proof.
  intros H. apply attempt_shape in H as (w & rest' & Hw & -> & Hs & Hst & He).
  exists rest'. unfold group0. rewrite Hs, Hst, He.
  pose proof (slice_middle [] w rest') as Hm. simpl in Hm.
  simpl. by rewrite Hm.
Qed.

Lemma finditer_aux_shape r s fuel :
  ∀ ma pos, pos ≤ length s →
    Forall (λ m, lang r (group0 m) ∧ occurs_in (group0 m) s)
      (finditer_aux fuel r s ma pos).
Proof.
  induction fuel as [|fuel IH]; intros ma pos Hpos; simpl; [constructor|].
  destruct (scan r s ma pos _ _) as [m|] eqn:Hscan; [|constructor].
  pose proof Hscan as Hb. apply scan_bounds in Hb as (_ & _ & _ & Hend & _).
  rewrite length_drop in Hend.
  pose proof (take_drop pos s) as Hs.
  assert (Hlen : length (take pos s) = pos) by (rewrite length_take; lia).
  apply (scan_group0 r s pos (take pos s) (drop pos s)) in Hscan
    as (Hl & (pre & post & Ho) & _); [|done..].
  constructor.
  - split; [done|]. exists (take pos s ++ pre), post.
    rewrite <- Hs at 1. rewrite Ho. by rewrite <- app_assoc.
  - apply IH. lia.
Qed.

(** Every match reported by [finditer] has the shape of the pattern and
    occurs in the subject. *)
Lemma finditer_shape r s :
  Forall (λ m, lang r (group0 m) ∧ occurs_in (group0 m) s) (finditer r s).
Proof. apply finditer_aux_shape. lia. Qed.

Lemma findall_shape r s :
  Forall (λ x, lang r x ∧ occurs_in x s) (findall r s).
Proof.
  unfold findall. apply Forall_fmap. apply finditer_shape.
Qed.

(** *** Reading a shape off a pattern *)

Lemma lang_seqs_cons r rs w :
  lang (seqs (r :: rs)) w →
  ∃ u v, w = u ++ v ∧ lang r u ∧ lang (seqs rs) v.
Proof.
  destruct rs as [|r' rs]; cbn [seqs].
  - intros H. exists w, []. rewrite app_nil_r. by split_and!; [..|constructor].
  - intros H. inversion H; subst. by eauto.
Qed.

Lemma lang_chr_inv p w :
  lang (Chr p) w → ∃ c, w = [c] ∧ p c = true.
Proof. intros H. inversion H; subst. by eauto. Qed.

Lemma lang_star_chr p w :
  lang (Star (Chr p)) w → Forall (λ c, p c = true) w.
Proof.
  intros H. remember (Star (Chr p)) as r eqn:Hr.
  induction H as [| | | | | |a u v Hu _ Hv IH| | | |]; try discriminate.
  - constructor.
  - injection Hr as ->. apply lang_chr_inv in Hu as (c & -> & Hc).
    constructor; [done|]. by apply IH.
Qed.

Lemma lang_plus_chr p w :
  lang (plus (Chr p)) w → w ≠ [] ∧ Forall (λ c, p c = true) w.
Proof.
  intros H. inversion H as [| |a b u v Hu Hv| | | | | | | |]; subst.
  apply lang_chr_inv in Hu as (c & -> & Hc). apply lang_star_chr in Hv.
  split; [done|]. by constructor.
Qed.

Lemma lang_eps_inv w : lang Eps w → w = [].
Proof. intros H. by inversion H. Qed.

Lemma lang_wordb_inv w : lang WordB w → w = [].
Proof. intros H. by inversion H. Qed.

(** A literal word matched without regard to case. *)
Lemma lang_chars_i (cs w : pystr) :
  lang (seqs (chr_i <$> cs)) w → lower <$> w = lower <$> cs.
Proof.
  revert w. induction cs as [|c cs IH]; intros w.
  - intros ->%lang_eps_inv. done.
  - rewrite fmap_cons. intros (u & v & -> & Hu & Hv)%lang_seqs_cons.
    apply lang_chr_inv in Hu as (x & -> & Hx). apply IH in Hv.
    cbn [app]. rewrite !fmap_cons, Hv. f_equal.
    unfold eqc in Hx. by apply bool_decide_eq_true in Hx.
Qed.

Lemma lang_word_i (s : string) w :
  lang (word_i s) w → lower <$> w = lower <$> lit s.
Proof. apply lang_chars_i. Qed.

Lemma lang_word_i_length (s : string) w :
  lang (word_i s) w → length w = length (lit s).
Proof.
  intros H%lang_word_i. apply (f_equal length) in H.
  by rewrite !length_fmap in H.
Qed.

(** A character of a match of a literal word is, in lower case, a
    character of the word. *)
Lemma lang_word_i_elem (s : string) w c :
  lang (word_i s) w → c ∈ w → lower c ∈ lower <$> lit s.
Proof.
  intros H%lang_word_i Hc. rewrite <- H. by apply list_elem_of_fmap_2.
Qed.

Lemma eqc_true a b : eqc a b = true ↔ a = b.
Proof. unfold eqc. apply bool_decide_eq_true. Qed.

Lemma lang_chr_lit c w : lang (chr c) w → w = [c].
Proof. intros (x & -> & Hx%eqc_true)%lang_chr_inv. by subst. Qed.

Lemma existsb_eqc x (cs : pystr) : existsb (eqc x) cs = true ↔ x ∈ cs.
Proof.
  rewrite existsb_exists. split.
  - intros (y & Hy & ->%eqc_true). by apply list_elem_of_In.
  - intros H. exists x. split; [by apply list_elem_of_In|by apply eqc_true].
Qed.

Lemma lang_star_none_of cs w :
  lang (Star (none_of cs)) w → Forall (λ c, c ∉ cs) w.
Proof.
  intros H%lang_star_chr. eapply Forall_impl; [exact H|].
  intros c Hc%negb_true_iff Hin. apply existsb_eqc in Hin. congruence.
Qed.

(** *** Header lines *)

(** The groups of a header match cut the line into number, gap and title;
    what is left after the title is nothing, or a line feed where the
    end-of-line assertion allows one. *)
Lemma header_groups ml A B C line m :
  groupless A = true → groupless B = true → groupless C = true →
  rematch (seqs [Bol ml; Group 1 A; Group 2 B; Group 3 C; Eol ml]) line
  = Some m →
  ∃ tail,
    line = group 1 m ++ group 2 m ++ group 3 m ++ tail
    ∧ lang A (group 1 m) ∧ lang B (group 2 m) ∧ lang C (group 3 m)
    ∧ (tail = [] ∨ ∃ rest, tail = newline :: rest ∧ (ml = true ∨ rest = [])).
Proof.
  intros GA GB GC. unfold rematch, attempt. cbn [seqs run].
  destruct (at_bol ml _); [|done].
  destruct (run A _ _) as [st|] eqn:Hrun; [|done]. intros [= <-].
  apply run_shaped in Hrun as (w1 & st1 & H1 & Hr1 & Hp1 & Hg1 & Hrun).
  apply run_shaped in Hrun as (w2 & st2 & H2 & Hr2 & Hp2 & Hg2 & Hrun).
  apply run_shaped in Hrun as (w3 & st3 & H3 & Hr3 & Hp3 & Hg3 & Hrun).
  cbn [m_rest m_pos m_groups set_group] in *.
  specialize (Hg1 GA). specialize (Hg2 GB). specialize (Hg3 GC).
  destruct (at_eol ml _) eqn:Heol; [|done]. cbn [andb] in Hrun.
  injection Hrun as <-.
  unfold group. cbn [r_groups r_subject m_groups set_group m_pos].
  rewrite Hg3, Hg2, Hg1. cbn [assoc_span Nat.eqb].
  rewrite Hp2, Hp1. cbn [Nat.add].
  exists (m_rest st3).
  assert (Hline : line = w1 ++ w2 ++ w3 ++ m_rest st3).
  { by rewrite Hr1, Hr2, Hr3. }
  assert (E1 : slice 0 (length w1) line = w1).
  { rewrite Hline. apply (slice_middle [] w1). }
  assert (E2 : slice (length w1) (length w1 + length w2) line = w2).
  { rewrite Hline. apply slice_middle. }
  assert (E3 : slice (length w1 + length w2) (m_pos st3) line = w3).
  { rewrite Hline, Hp3, Hp2, Hp1. cbn [Nat.add].
    rewrite (app_assoc w1 w2), <- length_app. apply slice_middle. }
  rewrite E1, E2, E3. split_and!; [done..|].
  unfold at_eol in Heol. cbn [m_rest set_group] in Heol.
  destruct (m_rest st3) as [|c rest]; [by left|right].
  apply andb_true_iff in Heol as [->%eqc_true Hml]. exists rest.
  split; [done|]. destruct ml; [by left|right]. by destruct rest.
Qed.

Lemma split_no_sep sep (s : pystr) : sep ∉ s → split sep s = [s].
Proof.
  induction s as [|c s IH]; [done|]. intros Hn. simpl.
  apply not_elem_of_cons in Hn as [Hc Hs].
  destruct (eqc c sep) eqn:E; [by apply eqc_true in E|].
  by rewrite (IH Hs).
Qed.

Lemma digits_no_dot d : digits d → dot ∉ d.
Proof.
  intros Hd Hin. unfold digits in Hd. rewrite Forall_forall in Hd.
  by apply Hd in Hin.
Qed.

Lemma lang_number_tail v :
  lang (Star (Seq (chr ".") (plus digit))) v →
  ∀ d, digits d → d ≠ [] → number_shape (d ++ v).
Proof.
  intros H. remember (Star (Seq (chr ".") (plus digit))) as r eqn:Hr.
  induction H as [| | | | | |a u v Hu _ Hv IH| | | |]; try discriminate;
    intros d Hd Hne.
  - rewrite app_nil_r. unfold number_shape.
    rewrite (split_no_sep _ _ (digits_no_dot _ Hd)). by repeat constructor.
  - injection Hr as ->.
    inversion Hu as [| |? ? u1 u2 Hu1 Hu2| | | | | | | |]; subst.
    apply lang_chr_lit in Hu1 as ->.
    apply lang_plus_chr in Hu2 as [Hne2 Hd2].
    unfold number_shape. rewrite <- !app_assoc. cbn [app].
    rewrite (split_app dot d (u2 ++ v)
             : split dot (d ++ "."%char :: u2 ++ v) = _).
    rewrite (split_no_sep _ _ (digits_no_dot _ Hd)). cbn [app].
    constructor; [done|]. by apply IH.
Qed.

Lemma lang_number w : lang number_pattern w → number_shape w.
Proof.
  intros H. inversion H as [| |? ? u v Hu Hv| | | | | | | |]; subst.
  apply lang_plus_chr in Hu as [Hne Hd]. by apply lang_number_tail.
Qed.

Lemma lang_number_tail_chars v :
  lang (Star (Seq (chr ".") (plus digit))) v →
  Forall (λ c, is_digit c = true ∨ c = dot) v.
Proof.
  intros Hv. remember (Star (Seq (chr ".") (plus digit))) as r eqn:Hr.
  induction Hv as [| | | | | |a u' v' Hu' _ Hv' IH| | | |]; try discriminate.
  - constructor.
  - injection Hr as ->.
    inversion Hu' as [| |? ? u1 u2 Hu1 Hu2| | | | | | | |]; subst.
    apply lang_chr_lit in Hu1 as ->. apply lang_plus_chr in Hu2 as [_ Hd2].
    cbn [app]. constructor; [by right|].
    apply Forall_app. split; [|by apply IH].
    eapply Forall_impl; [exact Hd2|]. by left.
Qed.

Lemma lang_number_chars w :
  lang number_pattern w → Forall (λ c, is_digit c = true ∨ c = dot) w.
Proof.
  intros H. inversion H as [| |? ? u v Hu Hv| | | | | | | |]; subst.
  apply lang_plus_chr in Hu as [_ Hd]. apply Forall_app. split.
  { eapply Forall_impl; [exact Hd|]. by left. }
  by apply lang_number_tail_chars.
Qed.

(** *** Lines *)

Lemma splitlines_aux_one_line n :
  ∀ s cur, length s ≤ n → one_line cur →
           Forall one_line (splitlines_aux cur s).
Proof.
  induction n as [|n IH]; intros s cur Hlen Hcur.
  - destruct s; [|simpl in Hlen; lia]. simpl.
    destruct cur; [constructor|]. repeat constructor.
    unfold one_line. by apply Forall_reverse.
  - destruct s as [|c s]; simpl.
    { destruct cur; [constructor|]. repeat constructor.
      unfold one_line. by apply Forall_reverse. }
    simpl in Hlen.
    assert (Hrev : one_line (reverse cur)).
    { unfold one_line. by apply Forall_reverse. }
    destruct (is_linebreak c) eqn:Hc.
    + destruct s as [|c' s'']; [by repeat constructor|].
      destruct (_ && _).
      * constructor; [done|]. apply IH; [simpl in Hlen; lia|constructor].
      * constructor; [done|]. apply IH; [lia|constructor].
    + apply IH; [lia|]. by constructor.
Qed.

(** The lines that [splitlines] returns hold no line boundary. *)
Lemma splitlines_one_line s : Forall one_line (splitlines s).
Proof. by apply (splitlines_aux_one_line (length s)); [|constructor]. Qed.

Lemma stream_one_line pages :
  Forall (λ pl, one_line pl.2) (Spec.stream pages).
Proof.
  unfold Spec.stream. induction pages as [|p pages IH]; [constructor|].
  rewrite bind_cons. apply Forall_app. split; [|exact IH].
  apply Forall_fmap. apply (Forall_impl _ _ _ (splitlines_one_line _)).
  by intros l Hl.
Qed.

Lemma one_line_no_newline l : one_line l → newline ∉ l.
Proof.
  intros Hl Hin. unfold one_line in Hl. rewrite Forall_forall in Hl.
  by apply Hl in Hin.
Qed.

Lemma splitlines_aux_line cur l rest :
  one_line l →
  splitlines_aux cur (l ++ newline :: rest)
  = (reverse cur ++ l) :: splitlines_aux [] rest.
Proof.
  intros Hl. revert cur. induction Hl as [|c l Hc _ IH]; intros cur.
  - rewrite app_nil_r. cbn [app splitlines_aux].
    change (is_linebreak newline) with true. cbn match.
    by destruct rest.
  - cbn [app splitlines_aux]. rewrite Hc, IH, reverse_cons, <- app_assoc.
    done.
Qed.

(** Lines written out, each followed by a line feed, split into the same
    lines again. *)
Lemma splitlines_lines (lines : list pystr) :
  Forall one_line lines →
  splitlines (concat ((λ l, l ++ [newline]) <$> lines)) = lines.
Proof.
  unfold splitlines. induction 1 as [|l lines Hl _ IH]; [done|].
  rewrite fmap_cons. cbn [concat]. rewrite <- app_assoc. cbn [app].
  by rewrite splitlines_aux_line, IH.
Qed.

(** Lines joined by line feeds split into the same lines again. *)
Lemma split_join_lines (lines : list pystr) :
  lines ≠ [] → Forall one_line lines →
  split newline (join [newline] lines) = lines.
Proof.
  intros Hne Hl. induction Hl as [|l lines Hl Hls IH]; [done|].
  destruct lines as [|l' lines].
  - simpl. by apply split_no_sep, one_line_no_newline.
  - rewrite join_cons by done. rewrite split_app.
    rewrite (split_no_sep _ _ (one_line_no_newline _ Hl)).
    cbn [app]. by rewrite IH.
Qed.

(** *** Identifiers *)

Lemma lit_inj (s s' : string) : lit s = lit s' → s = s'.
Proof.
  unfold lit. intros H.
  rewrite <- (string_of_list_ascii_of_string s),
          <- (string_of_list_ascii_of_string s'). by rewrite H.
Qed.

Lemma str_of_nat_inj n n' : str_of_nat n = str_of_nat n' → n = n'.
Proof.
  unfold str_of_nat. intros H%lit_inj.
  assert (Hu : Nat.to_uint n = Nat.to_uint n').
  { pose proof (NilEmpty.usu (Nat.to_uint n)) as H1.
    pose proof (NilEmpty.usu (Nat.to_uint n')) as H2. congruence. }
  rewrite <- (Unsigned.of_to n), <- (Unsigned.of_to n'). by rewrite Hu.
Qed.

Lemma str_of_nat_digits n : digits (str_of_nat n).
Proof.
  unfold str_of_nat. generalize (Nat.to_uint n). intros d.
  induction d; simpl; try (constructor; [done|exact IHd]). constructor.
Qed.

(** The part after the last occurrence of [c] determines the split. *)
Lemma split_at_last (c : ascii) (a a' y y' : pystr) :
  c ∉ y → c ∉ y' → a ++ c :: y = a' ++ c :: y' → a = a' ∧ y = y'.
Proof.
  intros Hy Hy' H.
  assert (Hr : reverse y ++ c :: reverse a = reverse y' ++ c :: reverse a').
  { apply (f_equal reverse) in H.
    by rewrite !reverse_app, !reverse_cons, <- !app_assoc in H. }
  assert (Hgen : ∀ x x' z z' : pystr,
             c ∉ x → c ∉ x' → x ++ c :: z = x' ++ c :: z' → x = x' ∧ z = z').
  { clear. induction x as [|e x IH]; intros [|e' x'] z z' Hx Hx' E.
    - by injection E as <-.
    - injection E as <- _. by apply not_elem_of_cons in Hx' as [? _].
    - injection E as -> _. by apply not_elem_of_cons in Hx as [? _].
    - injection E as <- E. apply not_elem_of_cons in Hx as [_ Hx].
      apply not_elem_of_cons in Hx' as [_ Hx'].
      destruct (IH _ _ _ Hx Hx' E) as [-> ->]. done. }
  apply Hgen in Hr as [Hy2 Ha2].
  - split; [by apply (inj reverse)|by apply (inj reverse)].
  - by rewrite elem_of_reverse.
  - by rewrite elem_of_reverse.
Qed.

Lemma digits_no_underscore d : digits d → "_"%char ∉ d.
Proof.
  intros Hd Hin. unfold digits in Hd. rewrite Forall_forall in Hd.
  by apply Hd in Hin.
Qed.

(** Two requirement identifiers are equal only for equal section
    identifiers and equal counters. *)
Lemma requirement_id_inj (sid sid' : pystr) (k k' : nat) :
  sid ++ lit "_req_" ++ str_of_nat k = sid' ++ lit "_req_" ++ str_of_nat k' →
  sid = sid' ∧ k = k'.
Proof.
  intros H.
  change (lit "_req_") with (lit "_req" ++ ["_"%char]) in H.
  rewrite <- !(app_assoc (lit "_req")), !app_assoc in H. cbn [app] in H.
  rewrite <- !(app_assoc _ ["_"%char]) in H. cbn [app] in H.
  apply split_at_last in H as [Hs Hk];
    [|apply digits_no_underscore, str_of_nat_digits..].
  split; [by apply app_inv_tail in Hs|by apply str_of_nat_inj].
Qed.

(** Replacing dots by underscores loses nothing on digits and dots. *)
Lemma replace_dot_inj (a b : pystr) :
  Forall (λ c, is_digit c = true ∨ c = dot) a →
  Forall (λ c, is_digit c = true ∨ c = dot) b →
  replace "." "_" a = replace "." "_" b → a = b.
Proof.
  intros Ha. revert b. induction Ha as [|x a Hx _ IH]; intros b Hb E.
  - by destruct b.
  - destruct Hb as [|y b Hy Hb]; [done|]. unfold replace in E.
    rewrite !fmap_cons in E. injection E as Exy E.
    f_equal; [|by apply IH].
    destruct (eqc x ".") eqn:E1, (eqc y ".") eqn:E2.
    + apply eqc_true in E1, E2. congruence.
    + apply eqc_true in E1. subst y. destruct Hy as [Hy|Hy]; [done|].
      subst. done.
    + apply eqc_true in E2. subst x. destruct Hx as [Hx|Hx]; [done|].
      subst. done.
    + done.
Qed.

End shapes.


(** * [OCP_parser_v3.py], segment by segment *)

Section V3_by_segment.
Import Py Re Lang Spec Seg.

Lemma headers_app pattern (l1 l2 : list (Z * pystr)) :
  headers pattern (l1 ++ l2) = headers pattern l1 ++ headers pattern l2.
Proof. unfold headers. apply omap_app. Qed.

Lemma header_of_None pattern line :
  is_header pattern line = false → header_of pattern line = None.
Proof.
  unfold is_header, header_of. by destruct (rematch pattern line).
Qed.

Lemma headers_no_header pattern ls :
  no_header pattern ls → headers pattern ls = [].
Proof.
  induction 1 as [|[pg l] ls Hl _ IH]; [done|].
  by rewrite (headers_cons_other _ _ _ _ (header_of_None _ _ Hl)).
Qed.

Lemma headers_seg_lines pattern sg number title :
  header_of pattern (seg_header sg) = Some (number, title) →
  no_header pattern (seg_content sg) →
  headers pattern (seg_lines sg) = [(number, full_name number title)].
Proof.
  intros Hh Hc. unfold seg_lines.
  by rewrite (headers_cons_header _ _ _ _ _ _ Hh), (headers_no_header _ _ Hc).
Qed.

Lemma V3_run_segments_from segs :
  Forall (λ sg, is_header V3.SECTION_PATTERN (seg_header sg) = true
                ∧ no_header V3.SECTION_PATTERN (seg_content sg))
         segs →
  ∀ st secs0,
    V3.close_current st = Ok secs0 →
    ∃ st' new,
      for_each (λ st pl, V3.parse_line pl.1 st pl.2)
        (concat (seg_lines <$> segs)) st = Ok st'
      ∧ V3.close_current st' = Ok (secs0 ++ new)
      ∧ V3_sections_from (V3.section_title_map st) segs new.
Proof.
  induction 1 as [|sg segs [Hhead Hcontent] _ IH]; intros st secs0 Hclose.
  - exists st, []. rewrite app_nil_r. by split_and!; [..|constructor].
  - rewrite fmap_cons. cbn [concat]. unfold seg_lines at 1.
    rewrite <- app_comm_cons. cbn [for_each fst snd].
    destruct (header_of V3.SECTION_PATTERN (seg_header sg))
      as [[number title]|] eqn:Hh.
    2:{ unfold is_header in Hhead. unfold header_of in Hh.
        by destruct (rematch _ _). }
    rewrite (V3_parse_line_header _ _ _ _ _ _ Hh Hclose), bind_Ok.
    rewrite for_each_app, (V3_run_content _ Hcontent), bind_Ok.
    cbn [app].
    set (st2 := {| V3.sections := secs0; V3.cur := Some _;
                   V3.section_title_map := _ |}).
    destruct (V3_finalize_section_returns
                (<[number := full_name number title]>
                   (V3.section_title_map st))
                (V3_data number title sg)) as [s Hfin].
    assert (Hclose2 : V3.close_current st2 = Ok (secs0 ++ [s])).
    { unfold V3.close_current, st2. cbn [V3.cur V3.section_title_map
        V3.sections]. fold (V3_data number title sg). by rewrite Hfin. }
    destruct (IH st2 (secs0 ++ [s]) Hclose2) as (st' & new & Hrun & Hcl & Hsecs).
    exists st', (s :: new). split; [exact Hrun|].
    split; [by rewrite <- app_assoc in Hcl|].
    by econstructor.
Qed.

Lemma V3_parse_sections_from pages preamble segs :
  segmentation V3.SECTION_PATTERN (stream pages) preamble segs →
  ∃ secs m, V3.parse pages = Ok (secs, m) ∧ V3_sections_from ∅ segs secs.
Proof.
  intros (Hstream & Hpre & Hsegs).
  unfold V3.parse, V3.parse_from.
  rewrite V3_pages_as_stream, Hstream, for_each_app.
  rewrite (V3_run_preamble _ V3.init_state Hpre eq_refl), bind_Ok.
  destruct (V3_run_segments_from _ Hsegs V3.init_state [] eq_refl)
    as (st' & new & -> & Hcl & Hsecs).
  rewrite bind_Ok, Hcl, bind_Ok. by eauto.
Qed.

(** The section at place [i] was finalized with the title map of the
    headers up to its own. *)
Lemma V3_sections_from_lookup m segs secs :
  V3_sections_from m segs secs →
  Forall (λ sg, is_header V3.SECTION_PATTERN (seg_header sg) = true
                ∧ no_header V3.SECTION_PATTERN (seg_content sg)) segs →
  ∀ i sg s,
    segs !! i = Some sg → secs !! i = Some s →
    ∃ number title,
      header_of V3.SECTION_PATTERN (seg_header sg) = Some (number, title)
      ∧ V3._finalize_section
          (foldl (λ m h, <[h.1 := h.2]> m) m
             (headers V3.SECTION_PATTERN
                (concat (seg_lines <$> take (S i) segs))))
          (V3_data number title sg) = Ok s.
Proof.
  induction 1 as [|m sg0 segs number title s0 secs Hh Hfin _ IH];
    intros Hsegs i sg s Hi Hs; [done|].
  apply Forall_cons in Hsegs as [[_ Hc] Hsegs].
  cbn [take fmap list_fmap concat]. rewrite headers_app.
  rewrite (headers_seg_lines _ _ _ _ Hh Hc), foldl_app. cbn [foldl fst snd].
  destruct i as [|i].
  - injection Hi as <-. injection Hs as <-. exists number, title.
    by rewrite take_0.
  - by apply IH.
Qed.

Lemma V3_sections_from_length m segs secs :
  V3_sections_from m segs secs → length segs = length secs.
Proof. induction 1; simpl; congruence. Qed.

Lemma segments_one_line (segs : list segment) :
  Forall (λ pl : Z * pystr, one_line pl.2) (concat (seg_lines <$> segs)) →
  Forall seg_one_line segs.
Proof.
  induction segs as [|sg segs IH]; [constructor|].
  rewrite fmap_cons. cbn [concat]. intros [H1 H2]%Forall_app.
  constructor; [|by apply IH].
  unfold seg_lines in H1. apply Forall_cons in H1 as [Hh Hc].
  split; [done|]. by apply Forall_fmap.
Qed.

Lemma V3_sections_from_Forall2 (Q : segment → V3.Section → Prop) :
  (∀ m number title sg s,
     seg_one_line sg →
     header_of V3.SECTION_PATTERN (seg_header sg) = Some (number, title) →
     m !! number = Some (full_name number title) →
     V3._finalize_section m (V3_data number title sg) = Ok s →
     Q sg s) →
  ∀ m segs secs,
    V3_sections_from m segs secs → Forall seg_one_line segs →
    Forall2 Q segs secs.
Proof.
  intros HQ. induction 1 as [|m sg segs number title s secs Hh Hfin _ IH];
    intros Hone; [constructor|].
  apply Forall_cons in Hone as [Hsg Hone].
  constructor; [|by apply IH].
  eapply HQ; [exact Hsg|exact Hh| |exact Hfin]. apply lookup_insert_eq.
Qed.

(** Lifting a fact about one finalized segment to the result of
    [parse]. *)
Lemma V3_parse_each (Q : segment → V3.Section → Prop) pages :
  (∀ m number title sg s,
     seg_one_line sg →
     header_of V3.SECTION_PATTERN (seg_header sg) = Some (number, title) →
     m !! number = Some (full_name number title) →
     V3._finalize_section m (V3_data number title sg) = Ok s →
     Q sg s) →
  ∃ preamble segs secs m,
    segmentation V3.SECTION_PATTERN (stream pages) preamble segs
    ∧ V3.parse pages = Ok (secs, m)
    ∧ Forall2 Q segs secs.
Proof.
  intros HQ.
  destruct (segmentation_exists V3.SECTION_PATTERN (stream pages))
    as (preamble & segs & Hseg).
  destruct (V3_parse_sections_from _ _ _ Hseg) as (secs & m & Hp & Hfrom).
  exists preamble, segs, secs, m. split_and!; [done..|].
  eapply V3_sections_from_Forall2; [exact HQ|exact Hfrom|].
  apply segments_one_line. destruct Hseg as (Hs & _ & _).
  pose proof (stream_one_line pages) as Hl. rewrite Hs in Hl.
  by apply Forall_app in Hl as [_ Hl].
Qed.

(** What [_finalize_section] returned, read back from its result. *)
Lemma V3_finalize_inv m d s :
  V3._finalize_section m d = Ok s →
  V3.build_hierarchy_tree m (V3.d_number d) = Ok (V3.hierarchy_tree s)
  ∧ V3.extract_requirements_with_context (V3.d_lines d) (V3.id s)
      (V3.hierarchy s) (V3.parent (V3.hierarchy_tree s))
      (V3.sec_page_number s) = Ok (V3.requirements s)
  ∧ V3.id s = lit "section_" ++ replace "." "_" (V3.d_number d)
  ∧ V3.hierarchy s = V3.d_full_name d
  ∧ V3.title s = V3.d_title d
  ∧ V3.sec_page_number s = V3.d_page_number d
  ∧ V3.raw_content s = join [newline] (V3.d_lines d)
  ∧ V3.requirement_count (V3.metadata s) = length (V3.requirements s).
Proof.
  destruct (V3_finalize_section_spec m d) as (tree & reqs & Ht & Hr & ->).
  intros [= <-]. by cbn.
Qed.

Lemma V3_requirements_inv lines sid hierarchy parent page reqs :
  V3.extract_requirements_with_context lines sid hierarchy parent page
  = Ok reqs →
  Forall2 (V3_requirement_at lines page hierarchy parent)
    (matching_indices V3.SHALL_PATTERN lines) reqs
  ∧ V3.requirement_id <$> reqs = requirement_ids sid 1 (length reqs).
Proof.
  destruct (V3_extract_requirements_spec lines sid hierarchy parent page)
    as (reqs' & -> & H1 & H2).
  by intros [= <-].
Qed.

(** The lines at the matching indices are the matching lines, in order. *)
Lemma matching_lines {R} pattern (f : R → pystr) (lines : list pystr) :
  ∀ rest pre (rs : list R),
    lines = pre ++ rest →
    Forall2 (λ i r, lines !! i = Some (f r))
      (filter (λ i, from_option (λ l, is_some (search pattern l)) false
                      (lines !! i) = true)
              (seq (length pre) (length rest))) rs →
    f <$> rs = filter (λ l, is_some (search pattern l) = true) rest.
Proof.
  induction rest as [|line rest IH]; intros pre rs Hl H.
  - simpl in H. by inversion H.
  - rewrite (matching_indices_step pattern lines pre line rest Hl) in H.
    assert (Hl' : lines = (pre ++ [line]) ++ rest) by by rewrite <- app_assoc.
    specialize (IH (pre ++ [line])).
    rewrite length_app in IH. cbn [length] in IH.
    replace (length pre + 1) with (S (length pre)) in IH by lia.
    rewrite filter_cons.
    destruct (is_some (search pattern line)) eqn:Hm; cbn [app] in H.
    + inversion H as [|i r is' rs' Hi Hrest]; subst is' rs.
      rewrite decide_True by done. rewrite fmap_cons. f_equal.
      * rewrite Hl, lookup_app_r, Nat.sub_diag in Hi by lia.
        by injection Hi.
      * by apply IH.
    + rewrite decide_False by (by rewrite not_true_iff_false).
      by apply IH.
Qed.

Lemma V3_shall_texts lines page hierarchy parent reqs :
  Forall2 (V3_requirement_at lines page hierarchy parent)
    (matching_indices V3.SHALL_PATTERN lines) reqs →
  V3.shall_text <$> reqs = filter has_shall lines.
Proof.
  intros H. apply (matching_lines V3.SHALL_PATTERN V3.shall_text lines lines []);
    [done|].
  eapply Forall2_impl; [exact H|].
  intros i r (l & b & a & Hi & Ht & _). by rewrite Ht.
Qed.

Lemma title_map_through preamble segs i :
  no_header V3.SECTION_PATTERN preamble →
  title_map_of (headers V3.SECTION_PATTERN (lines_through preamble segs i))
  = foldl (λ m h, <[h.1 := h.2]> m) ∅
      (headers V3.SECTION_PATTERN (concat (seg_lines <$> take (S i) segs))).
Proof.
  intros Hpre. unfold title_map_of, lines_through.
  by rewrite headers_app, (headers_no_header _ _ Hpre).
Qed.

Lemma V3_finalize_tree m number title sg s :
  m !! number = Some (full_name number title) →
  V3._finalize_section m (V3_data number title sg) = Ok s →
  V3.current (V3.hierarchy_tree s) = V3.hierarchy s
  ∧ V3.hierarchy s = full_name number title
  ∧ resolved_from_map m number (V3.ancestors (V3.hierarchy_tree s))
  ∧ V3.parent (V3.hierarchy_tree s)
    = from_end 0 (V3.ancestors (V3.hierarchy_tree s))
  ∧ V3.grandparent (V3.hierarchy_tree s)
    = from_end 1 (V3.ancestors (V3.hierarchy_tree s)).
Proof.
  intros Hm (Ht & _ & _ & Hh & _)%V3_finalize_inv.
  cbn [V3_data V3.d_number V3.d_full_name] in *.
  rewrite V3_build_hierarchy_tree_eq in Ht. injection Ht as Ht.
  rewrite <- Ht, Hh. cbn. rewrite Hm. split_and!; [done..| |done|done].
  apply resolved_from_map_loop.
Qed.

(** X1.  In [OCP_parser_v3.py], [parse] never looks ahead: the section of the
    segment at place [i] is [_finalize_section] applied to the number and
    title of its header line, the page of that line and the segment's
    content lines, with the title map holding exactly the headers of the
    stream up to the end of that segment.  So its ancestors are resolved
    against the headers seen so far, a parent whose header comes later is
    not named, and [current] is the section's own full name. *)
Theorem V3_parse_no_lookahead (pages : list Page) :
  ∃ preamble segs secs m,
    segmentation V3.SECTION_PATTERN (stream pages) preamble segs
    ∧ V3.parse pages = Ok (secs, m)
    ∧ length secs = length segs
    ∧ ∀ i sg s,
        segs !! i = Some sg → secs !! i = Some s →
        ∃ number title,
          let seen :=
            title_map_of (headers V3.SECTION_PATTERN
                            (lines_through preamble segs i)) in
          header_of V3.SECTION_PATTERN (seg_header sg) = Some (number, title)
          ∧ V3._finalize_section seen (V3_data number title sg) = Ok s
          ∧ seen !! number = Some (full_name number title)
          ∧ V3.current (V3.hierarchy_tree s) = V3.hierarchy s
          ∧ resolved_from_map seen number
              (V3.ancestors (V3.hierarchy_tree s)).
Proof.
  destruct (segmentation_exists V3.SECTION_PATTERN (stream pages))
    as (preamble & segs & Hseg).
  destruct (V3_parse_sections_from _ _ _ Hseg) as (secs & m & Hp & Hfrom).
  exists preamble, segs, secs, m. split_and!; [done..| |].
  { symmetry. by eapply V3_sections_from_length. }
  intros i sg s Hi Hs. destruct Hseg as (Hstream & Hpre & Hsegs).
  destruct (V3_sections_from_lookup _ _ _ Hfrom Hsegs i sg s Hi Hs)
    as (number & title & Hh & Hfin).
  exists number, title. cbn zeta. rewrite (title_map_through _ _ _ Hpre).
  assert (Hown : foldl (λ (m : gmap pystr pystr) h, <[h.1 := h.2]> m) ∅
                   (headers V3.SECTION_PATTERN
                      (concat (seg_lines <$> take (S i) segs))) !! number
                 = Some (full_name number title)).
  { rewrite (take_S_r _ _ _ Hi), fmap_app, concat_app, headers_app.
    cbn [fmap list_fmap concat]. rewrite app_nil_r.
    apply Forall_lookup_1 with (i := i) (x := sg) in Hsegs as [_ Hc]; [|done].
    rewrite (headers_seg_lines _ _ _ _ Hh Hc), foldl_app. cbn [foldl fst snd].
    apply lookup_insert_eq. }
  destruct (V3_finalize_tree _ _ _ _ _ Hown Hfin) as (Hc & _ & Hr & _).
  by split_and!.
Qed.

Lemma Forall2_exists_r {A B} (R : A → B → Prop) (l : list A) (k : list B) :
  Forall2 R l k → Forall (λ y, ∃ x, x ∈ l ∧ R x y) k.
Proof.
  induction 1 as [|x y l k Hxy _ IH]; constructor.
  - exists x. split; [left|done].
  - eapply Forall_impl; [exact IH|]. intros y' (x' & Hin & HR).
    exists x'. split; [by right|done].
Qed.

(** X2.  In [OCP_parser_v3.py] every requirement of a section carries the
    page number of the section's header line, whichever page its own line
    stands on, together with the section's full name and the parent of the
    section's hierarchy tree; its text is one of the segment's content
    lines. *)
Theorem V3_requirements_carry_section (pages : list Page) :
  ∃ preamble segs secs m,
    segmentation V3.SECTION_PATTERN (stream pages) preamble segs
    ∧ V3.parse pages = Ok (secs, m)
    ∧ Forall2
        (λ sg s,
           V3.sec_page_number s = seg_page sg
           ∧ Forall
               (λ r, V3.req_page_number r = seg_page sg
                     ∧ V3.req_hierarchy r = V3.hierarchy s
                     ∧ V3.parent_hierarchy r = V3.parent (V3.hierarchy_tree s)
                     ∧ ∃ pg, (pg, V3.shall_text r) ∈ seg_content sg)
               (V3.requirements s))
        segs secs.
Proof.
  apply V3_parse_each. intros m number title sg s _ Hh Hm Hfin.
  apply V3_finalize_inv in Hfin as (_ & Hreqs & _ & _ & _ & Hpg & _).
  cbn [V3_data V3.d_page_number V3.d_lines] in *.
  split; [done|].
  apply V3_requirements_inv in Hreqs as [Hat _].
  apply Forall2_exists_r in Hat. eapply Forall_impl; [exact Hat|].
  intros r (i & _ & l & b & a & Hi & Ht & _ & _ & _ & _ & _ & Hp & Hhi & Hpa).
  rewrite <- Hpg. split_and!; [done..|].
  rewrite list_lookup_fmap in Hi.
  destruct (seg_content sg !! i) as [[pg l']|] eqn:Hc; [|done].
  injection Hi as <-. exists pg. rewrite Ht.
  by eapply list_elem_of_lookup_2.
Qed.

Lemma requirement_ids_lookup sid n k :
  k < n →
  requirement_ids sid 1 n !! k
  = Some (sid ++ lit "_req_" ++ str_of_nat (S k)).
Proof.
  intros Hk. unfold requirement_ids.
  by rewrite list_lookup_fmap, lookup_seq_lt.
Qed.

Lemma requirement_ids_NoDup sid first n :
  NoDup (requirement_ids sid first n).
Proof.
  unfold requirement_ids. apply NoDup_fmap_2; [|apply NoDup_seq].
  intros k k' H. by apply requirement_id_inj in H as [_ ?].
Qed.

(** X3.  In [OCP_parser_v3.py] the requirement identifiers of a section
    are its id followed by "_req_1", "_req_2", ... in order, so they are
    pairwise distinct within the section; and two requirements anywhere in
    the output of [parse] have the same identifier only when they stand at
    the same place in sections whose headers carry the same number.  The
    identifiers of the whole output are unique exactly as far as the
    section numbers are. *)
Theorem V3_requirement_ids_unique (pages : list Page) :
  ∃ secs m,
    V3.parse pages = Ok (secs, m)
    ∧ Forall
        (λ s, V3.requirement_id <$> V3.requirements s
              = requirement_ids (V3.id s) 1 (length (V3.requirements s))
              ∧ NoDup (V3.requirement_id <$> V3.requirements s))
        secs
    ∧ ∀ i j k l s s' r r',
        secs !! i = Some s → secs !! j = Some s' →
        V3.requirements s !! k = Some r →
        V3.requirements s' !! l = Some r' →
        V3.requirement_id r = V3.requirement_id r' →
        k = l ∧ V3.id s = V3.id s'
        ∧ ∃ number title title',
            V3.hierarchy s = full_name number title
            ∧ V3.hierarchy s' = full_name number title'.
Proof.
  destruct (V3_parse_each
    (λ _ s, ∃ number title,
       lang number_pattern number
       ∧ V3.id s = lit "section_" ++ replace "." "_" number
       ∧ V3.hierarchy s = full_name number title
       ∧ V3.requirement_id <$> V3.requirements s
         = requirement_ids (V3.id s) 1 (length (V3.requirements s)))
    pages) as (preamble & segs & secs & m & _ & Hp & HQ).
  { intros m number title sg s _ Hh Hm Hfin.
    apply V3_finalize_inv in Hfin as (_ & Hreqs & Hid & Hhi & _).
    apply V3_requirements_inv in Hreqs as [_ Hids].
    exists number, title. split_and!; [|done..].
    unfold header_of in Hh.
    destruct (rematch V3.SECTION_PATTERN (seg_header sg)) as [mm|] eqn:Hm';
      [|done].
    injection Hh as <- _.
    by apply header_groups in Hm' as (tail & _ & Hn & _). }
  assert (HF : Forall (λ s, ∃ number title,
       lang number_pattern number
       ∧ V3.id s = lit "section_" ++ replace "." "_" number
       ∧ V3.hierarchy s = full_name number title
       ∧ V3.requirement_id <$> V3.requirements s
         = requirement_ids (V3.id s) 1 (length (V3.requirements s))) secs).
  { apply Forall2_exists_r in HQ. eapply Forall_impl; [exact HQ|].
    by intros s (_ & _ & H). }
  exists secs, m. split; [done|]. split.
  - eapply Forall_impl; [exact HF|].
    intros s (number & title & _ & _ & _ & Hids). split; [done|].
    rewrite Hids. apply requirement_ids_NoDup.
  - intros i j k l s s' r r' Hi Hj Hk Hl Heq.
    rewrite Forall_lookup in HF.
    destruct (HF _ _ Hi) as (n1 & t1 & Hn1 & Hid1 & Hh1 & Hids1).
    destruct (HF _ _ Hj) as (n2 & t2 & Hn2 & Hid2 & Hh2 & Hids2).
    assert (Hr : V3.requirement_id r
                 = V3.id s ++ lit "_req_" ++ str_of_nat (S k)).
    { pose proof (f_equal (λ x, x !! k) Hids1) as E. cbn beta in E.
      rewrite list_lookup_fmap, Hk in E. cbn in E.
      rewrite requirement_ids_lookup in E by (by eapply lookup_lt_Some).
      by injection E. }
    assert (Hr' : V3.requirement_id r'
                  = V3.id s' ++ lit "_req_" ++ str_of_nat (S l)).
    { pose proof (f_equal (λ x, x !! l) Hids2) as E. cbn beta in E.
      rewrite list_lookup_fmap, Hl in E. cbn in E.
      rewrite requirement_ids_lookup in E by (by eapply lookup_lt_Some).
      by injection E. }
    rewrite Hr, Hr' in Heq. apply requirement_id_inj in Heq as [Hids Hkl].
    split; [lia|]. split; [done|].
    rewrite Hid1, Hid2 in Hids. apply app_inv_head in Hids.
    apply replace_dot_inj in Hids; [|by apply lang_number_chars..].
    subst n2. by exists n1, t1, t2.
Qed.

(** X4.  In [OCP_parser_v3.py] the requirements of a section are the
    content lines of its segment in which [SHALL_PATTERN] finds a match,
    one requirement per such line, in the order of the lines and with the
    line unchanged as [shall_text]; [requirement_count] is the number of
    those lines; and a section has no requirement exactly when the pattern
    finds a match in none of its content lines. *)
Theorem V3_requirements_are_shall_lines (pages : list Page) :
  ∃ preamble segs secs m,
    segmentation V3.SECTION_PATTERN (stream pages) preamble segs
    ∧ V3.parse pages = Ok (secs, m)
    ∧ Forall2
        (λ sg s,
           V3.shall_text <$> V3.requirements s
           = filter has_shall (snd <$> seg_content sg)
           ∧ V3.requirement_count (V3.metadata s)
             = length (filter has_shall (snd <$> seg_content sg))
           ∧ (V3.requirements s = []
              ↔ Forall (λ l, ¬ has_shall l) (snd <$> seg_content sg)))
        segs secs.
Proof.
  apply V3_parse_each. intros m number title sg s _ Hh Hm Hfin.
  apply V3_finalize_inv in Hfin as (_ & Hreqs & _ & _ & _ & _ & _ & Hcount).
  cbn [V3_data V3.d_page_number V3.d_lines] in *.
  apply V3_requirements_inv in Hreqs as [Hat _].
  apply V3_shall_texts in Hat. split; [done|]. split.
  - by rewrite Hcount, <- Hat, length_fmap.
  - split.
    + intros Hnil. rewrite Hnil in Hat. symmetry in Hat.
      apply Forall_forall. intros l Hl Hs.
      by apply (filter_nil_not_elem_of _ _ l Hat).
    + intros Hno. apply (fmap_nil_inv V3.shall_text). rewrite Hat.
      apply filter_none. by apply Forall_forall.
Qed.

(** *** Anchors *)

(** The form of a match of the parenthetical anchor pattern. *)
Lemma V3_anchor_lang a :
  lang V3.ANCHOR_PATTERN a →
  ∃ inner, a = lit "(" ++ inner ++ lit ")"
           ∧ 3 ≤ length inner ∧ ")"%char ∉ inner.
Proof.
  unfold V3.ANCHOR_PATTERN. intros Hl.
  apply lang_seqs_cons in Hl as (u1 & v1 & -> & ->%lang_chr_lit & Hl).
  apply lang_seqs_cons in Hl as (see & v2 & -> & Hsee & Hl).
  apply lang_seqs_cons in Hl as (u3 & v3 & -> & ->%lang_wordb_inv & Hl).
  apply lang_seqs_cons in Hl as (body & v4 & -> & Hb%lang_star_none_of & Hl).
  apply lang_seqs_cons in Hl as (u5 & v5 & -> & ->%lang_chr_lit & Hl).
  apply lang_eps_inv in Hl as ->.
  exists (see ++ body). cbn [app]. rewrite <- app_assoc.
  split_and!; [done| |].
  - rewrite length_app, (lang_word_i_length _ _ Hsee). cbn. lia.
  - intros [Hin|Hin]%elem_of_app.
    + apply (lang_word_i_elem _ _ _ Hsee) in Hin. cbn in Hin.
      repeat (apply elem_of_cons in Hin as [Hin|Hin]; [done|]).
      by apply elem_of_nil in Hin.
    + rewrite Forall_forall in Hb. apply (Hb _ Hin). by left.
Qed.

Lemma anchor_of_shape line after a :
  anchor_of V3.ANCHOR_PATTERN line after = Some a →
  lang V3.ANCHOR_PATTERN a
  ∧ (occurs_in a line ∨ ∃ l, after = Some l ∧ occurs_in a l).
Proof.
  unfold anchor_of.
  destruct (search V3.ANCHOR_PATTERN line) as [m|] eqn:Hs.
  - intros [= <-]. apply search_shape in Hs as [? ?]. by split; [|left].
  - destruct after as [l|]; [|done].
    destruct (search V3.ANCHOR_PATTERN l) as [m|] eqn:Hs'; [|done].
    intros [= <-]. apply search_shape in Hs' as [? ?].
    split; [done|right]. by exists l.
Qed.

(** X5.  The anchor attached to a requirement by [OCP_parser_v3.py], or to
    a record by [ocp_parser.py], is always a parenthesis: it starts with
    an opening bracket and ends with a closing bracket, which is the only
    closing bracket in it, with at least three characters between the
    two.  It is copied from the requirement's own line or from the line
    kept as the context after it. *)
Theorem anchors_are_parentheses (kp : pystr → list pystr)
    (lines : list pystr) (section_id hierarchy : pystr)
    (parent_hierarchy : option pystr) (page : Z)
    (m : gmap pystr pystr) (d : Flat.SectionData) (h : Flat.heap) :
  (∃ reqs,
     V3.extract_requirements_with_context lines section_id hierarchy
       parent_hierarchy page = Ok reqs
     ∧ Forall
         (λ r, ∀ a, V3.anchor r = Some a →
            (∃ inner, a = lit "(" ++ inner ++ lit ")"
                      ∧ 3 ≤ length inner ∧ ")"%char ∉ inner)
            ∧ (occurs_in a (V3.shall_text r)
               ∨ ∃ l, V3.context_after r = [l] ∧ occurs_in a l))
         reqs)
  ∧ (∃ out h',
       Flat._finalize_section kp m d h = Ok (out, h')
       ∧ Forall
           (λ r, ∀ a, Flat.anchor r = Some a →
              (∃ inner, a = lit "(" ++ inner ++ lit ")"
                        ∧ 3 ≤ length inner ∧ ")"%char ∉ inner)
              ∧ ∃ line, Flat.shall_sentence r = Some (strip line)
                  ∧ (occurs_in a line
                     ∨ ∃ l, Flat.after_shall r = Some l ∧ occurs_in a l))
           out).
Proof.
  split.
  - destruct (V3_extract_requirements_spec lines section_id hierarchy
                parent_hierarchy page) as (reqs & Hr & Hat & _).
    exists reqs. split; [done|].
    apply Forall2_exists_r in Hat. eapply Forall_impl; [exact Hat|].
    intros r (i & _ & l & b & a' & _ & Ht & _ & Hafter & _ & _ & Ha & _) a Hsome.
    rewrite Ha in Hsome. apply anchor_of_shape in Hsome as [Hl Hocc].
    split; [by apply V3_anchor_lang|].
    destruct Hocc as [Hocc|(l' & -> & Hocc)]; [left; by rewrite Ht|right].
    exists l'. by rewrite Hafter.
  - destruct (Flat_finalize_records kp m d h) as (tree & out & _ & Hfin & Hout).
    eexists out, _. split; [exact Hfin|].
    destruct (matching_indices Flat.SHALL_PATTERN (Flat.d_lines d)) as [|i0 idxs].
    + subst out. by repeat constructor.
    + apply Forall2_exists_r in Hout. eapply Forall_impl; [exact Hout|].
      intros r (i & _ & l & _ & Ht & _ & _ & Ha & _) a Hsome.
      rewrite Ha in Hsome. apply anchor_of_shape in Hsome as [Hl Hocc].
      split; [by apply V3_anchor_lang|]. by exists l.
Qed.

(** *** Header lines *)

Lemma one_line_app_newline (a tail : pystr) :
  one_line (a ++ tail) →
  tail = [] ∨ (∃ rest, tail = newline :: rest ∧ (false = true ∨ rest = [])) →
  tail = [].
Proof.
  intros Hl [->|(rest & -> & _)]; [done|].
  apply Forall_app in Hl as [_ Hl]. by apply Forall_cons in Hl as [? _].
Qed.

(** X6.  A line is taken for a section header by [OCP_parser_v3.py] (and by
    [ocp_parser.py], which has the same pattern) only if it is a number, a
    gap and a title: the number is made of non-empty runs of digits
    separated by single dots, the gap is a non-empty run of whitespace, the
    title is non-empty and holds no line feed, and nothing follows but
    possibly one final line feed.  For a line returned by [splitlines]
    nothing follows, and the full name [number title] that becomes the
    section's hierarchy equals the line exactly when the gap is a single
    space. *)
Theorem header_line_shape (line number title : pystr) :
  header_of V3.SECTION_PATTERN line = Some (number, title) →
  ∃ gap tail,
    line = number ++ gap ++ title ++ tail
    ∧ number_shape number
    ∧ gap ≠ [] ∧ blank gap
    ∧ title ≠ [] ∧ (newline ∉ title)
    ∧ (tail = [] ∨ tail = [newline])
    ∧ (one_line line →
       tail = [] ∧ (full_name number title = line ↔ gap = lit " ")).
Proof.
  unfold header_of.
  destruct (rematch V3.SECTION_PATTERN line) as [m|] eqn:Hm; [|done].
  intros [= <- <-].
  apply header_groups in Hm as (tail & Hline & Hn & Hg & Ht & Htail); [|done..].
  apply lang_plus_chr in Hg as [Hg1 Hg2].
  apply lang_plus_chr in Ht as [Ht1 Ht2].
  exists (group 2 m), tail. split_and!; [done| |done|done|done| | |].
  - by apply lang_number.
  - intros Hin. rewrite Forall_forall in Ht2. apply Ht2 in Hin.
    by rewrite negb_true_iff in Hin.
  - destruct Htail as [->|(rest & -> & [?| ->])]; [by left|done|by right].
  - intros Hone.
    assert (tail = []) as ->.
    { rewrite Hline, !app_assoc in Hone.
      by apply (one_line_app_newline _ _ Hone). }
    split; [done|]. rewrite app_nil_r in Hline. unfold full_name.
    rewrite Hline at 1. split.
    + intros E%app_inv_head. by apply app_inv_tail in E.
    + by intros ->.
Qed.

Lemma header_line_shape_witness :
  header_of V3.SECTION_PATTERN (lit "3.2.1   Power Distribution")
  = Some (lit "3.2.1", lit "Power Distribution")
  ∧ ∃ gap tail,
      lit "3.2.1   Power Distribution"
      = lit "3.2.1" ++ gap ++ lit "Power Distribution" ++ tail
      ∧ number_shape (lit "3.2.1")
      ∧ gap ≠ [] ∧ blank gap
      ∧ lit "Power Distribution" ≠ []
      ∧ (newline ∉ lit "Power Distribution")
      ∧ (tail = [] ∨ tail = [newline])
      ∧ (one_line (lit "3.2.1   Power Distribution") →
         tail = []
         ∧ (full_name (lit "3.2.1") (lit "Power Distribution")
            = lit "3.2.1   Power Distribution" ↔ gap = lit " ")).
Proof.
  split; [vm_compute; reflexivity|].
  apply (header_line_shape (lit "3.2.1   Power Distribution")).
  vm_compute; reflexivity.
Defined.

(** X7.  In [OCP_parser_v3.py] the raw content of a section keeps the line
    structure of its segment: cut at the line feeds it gives back exactly
    the segment's content lines.  The one exception is a segment without
    content lines, whose raw content is empty like that of a segment with
    a single empty line. *)
Theorem V3_raw_content_lines (pages : list Page) :
  ∃ preamble segs secs m,
    segmentation V3.SECTION_PATTERN (stream pages) preamble segs
    ∧ V3.parse pages = Ok (secs, m)
    ∧ Forall2
        (λ sg s,
           (seg_content sg ≠ [] →
            split newline (V3.raw_content s) = snd <$> seg_content sg)
           ∧ (seg_content sg = [] → V3.raw_content s = [])
           ∧ (V3.raw_content s = [] →
              seg_content sg = [] ∨ snd <$> seg_content sg = [[]]))
        segs secs.
Proof.
  apply V3_parse_each. intros m number title sg s [_ Hone] Hh Hm Hfin.
  apply V3_finalize_inv in Hfin as (_ & _ & _ & _ & _ & _ & Hraw & _).
  cbn [V3_data V3.d_lines] in *. rewrite Hraw. split_and!.
  - intros Hne. apply split_join_lines; [|done].
    by destruct (seg_content sg).
  - by intros ->.
  - intros Hnil. destruct (seg_content sg) as [|pl c] eqn:Hc; [by left|right].
    rewrite <- (split_join_lines (snd <$> pl :: c)) by done.
    by rewrite Hnil.
Qed.

End V3_by_segment.


(** * [ocp_parser.py], segment by segment *)

Section Flat_by_segment.
Import Py Re Lang Spec Seg.
Variable kp : pystr → list pystr.

Lemma Flat_run_segments_from segs :
  Forall (λ sg, is_header Flat.SECTION_PATTERN (seg_header sg) = true
                ∧ no_header Flat.SECTION_PATTERN (seg_content sg))
         segs →
  ∀ st out0 h0,
    Flat.close_current kp st = Ok (out0, h0) →
    ∃ st' groups h',
      for_each (λ st pl, Flat.parse_line kp pl.1 st pl.2)
        (concat (seg_lines <$> segs)) st = Ok st'
      ∧ Flat.close_current kp st' = Ok (out0 ++ concat groups, h')
      ∧ Flat_groups_from kp (Flat.section_title_map st) h0 segs groups h'.
Proof.
  induction 1 as [|sg segs [Hhead Hcontent] _ IH]; intros st out0 h0 Hclose.
  - exists st, [], h0. simpl. rewrite app_nil_r. by split_and!; [..|constructor].
  - rewrite fmap_cons. cbn [concat]. unfold seg_lines at 1.
    rewrite <- app_comm_cons. cbn [for_each fst snd].
    destruct (header_of Flat.SECTION_PATTERN (seg_header sg))
      as [[number title]|] eqn:Hh.
    2:{ unfold is_header in Hhead. unfold header_of in Hh.
        by destruct (rematch _ _). }
    rewrite (Flat_parse_line_header _ _ _ _ _ _ _ _ Hh Hclose), bind_Ok.
    rewrite for_each_app, (Flat_run_content _ _ Hcontent), bind_Ok.
    cbn [app].
    set (st2 := {| Flat.output := out0; Flat.cur := Some _;
                   Flat.section_title_map := _; Flat.store := h0 |}).
    destruct (Flat_finalize_section_returns kp
                (<[number := full_name number title]>
                   (Flat.section_title_map st))
                (Flat_data number title sg) h0) as [[recs h1] Hfin].
    assert (Hclose2 : Flat.close_current kp st2 = Ok (out0 ++ recs, h1)).
    { unfold Flat.close_current, st2. cbn [Flat.cur Flat.section_title_map
        Flat.output Flat.store]. fold (Flat_data number title sg).
      by rewrite Hfin. }
    destruct (IH st2 (out0 ++ recs) h1 Hclose2)
      as (st' & groups & h' & Hrun & Hcl & Hgroups).
    exists st', (recs :: groups), h'. split; [exact Hrun|].
    split; [by rewrite <- app_assoc in Hcl|].
    by econstructor.
Qed.

Lemma Flat_parse_groups_from pages preamble segs :
  segmentation Flat.SECTION_PATTERN (stream pages) preamble segs →
  ∃ groups h m,
    Flat.parse kp pages = Ok (concat groups, h, m)
    ∧ Flat_groups_from kp ∅ [] segs groups h.
Proof.
  intros (Hstream & Hpre & Hsegs).
  unfold Flat.parse.
  rewrite Flat_pages_as_stream, Hstream, for_each_app.
  rewrite (Flat_run_preamble _ _ Flat.init_state Hpre eq_refl), bind_Ok.
  destruct (Flat_run_segments_from _ Hsegs Flat.init_state [] [] eq_refl)
    as (st' & groups & h' & -> & Hcl & Hgroups).
  rewrite bind_Ok, Hcl, bind_Ok. by eauto.
Qed.

Lemma matching_indices_length_from pattern (lines : list pystr) :
  ∀ rest pre,
    lines = pre ++ rest →
    length (filter (λ i, from_option (λ l, is_some (search pattern l)) false
                           (lines !! i) = true)
                   (seq (length pre) (length rest)))
    = length (filter (λ l, is_some (search pattern l) = true) rest).
Proof.
  induction rest as [|line rest IH]; intros pre Hl; [done|].
  rewrite (matching_indices_step pattern lines pre line rest Hl).
  assert (Hl' : lines = (pre ++ [line]) ++ rest) by by rewrite <- app_assoc.
  specialize (IH (pre ++ [line]) Hl').
  rewrite length_app in IH. cbn [length] in IH.
  replace (length pre + 1) with (S (length pre)) in IH by lia.
  rewrite filter_cons, length_app, IH.
  destruct (is_some (search pattern line)) eqn:Hm.
  - by rewrite decide_True.
  - by rewrite decide_False by (by rewrite not_true_iff_false).
Qed.

Lemma matching_indices_length lines :
  length (matching_indices Flat.SHALL_PATTERN lines)
  = length (filter has_shall lines).
Proof. by apply (matching_indices_length_from _ lines lines []). Qed.

(** The records of one section: at least one, as many as the shall-lines
    if there are any, all pointing at the section's new metadata object,
    which counts them. *)
Lemma Flat_finalize_group m d h :
  ∃ out,
    Flat._finalize_section kp m d h
    = Ok (out, h ++ [Flat_metadata d (length out)])
    ∧ out ≠ []
    ∧ Forall (λ r, Flat.metadata r = length h) out
    ∧ length out = Nat.max 1 (length (filter has_shall (Flat.d_lines d))).
Proof.
  destruct (Flat_finalize_records kp m d h) as (tree & out & _ & Hfin & Hout).
  exists out. split; [done|].
  pose proof (matching_indices_length (Flat.d_lines d)) as Hlen.
  destruct (matching_indices Flat.SHALL_PATTERN (Flat.d_lines d))
    as [|i0 idxs].
  - subst out. rewrite <- Hlen. by split_and!; [|repeat constructor|].
  - pose proof (Forall2_length _ _ _ Hout) as Hl. rewrite <- Hlen.
    split_and!.
    + intros ->. done.
    + apply Forall2_exists_r in Hout. eapply Forall_impl; [exact Hout|].
      by intros r (i & _ & l & _ & _ & _ & _ & _ & _ & _ & _ & Hmd).
    + rewrite <- Hl. cbn [length]. lia.
Qed.

Lemma Flat_groups_store m h segs groups h' :
  Flat_groups_from kp m h segs groups h' →
  length groups = length segs
  ∧ length h' = length h + length groups
  ∧ (∃ later, h' = h ++ later)
  ∧ ∀ i sg recs,
      segs !! i = Some sg → groups !! i = Some recs →
      recs ≠ []
      ∧ Forall (λ r, Flat.metadata r = length h + i) recs
      ∧ length recs
        = Nat.max 1 (length (filter has_shall (snd <$> seg_content sg)))
      ∧ ∃ md, h' !! (length h + i) = Some md
              ∧ Flat.requirement_count md = length recs.
Proof.
  induction 1 as [|m h sg0 segs number title recs0 h1 groups h' Hh Hfin _ IH].
  - split_and!; [done|simpl; lia|by exists []; rewrite app_nil_r|done].
  - destruct (Flat_finalize_group (<[number := full_name number title]> m)
                (Flat_data number title sg0) h)
      as (out & Hfin' & Hne & Hrefs & Hlen).
    rewrite Hfin in Hfin'. injection Hfin' as <- ->.
    destruct IH as (Hl1 & Hl2 & (later & ->) & Hall).
    rewrite !length_app in Hl2. cbn [length] in Hl2.
    split_and!; [simpl; lia|rewrite !length_app; simpl; lia| |].
    { eexists. by rewrite <- app_assoc. }
    intros i sg recs Hi Hrecs. destruct i as [|i].
    + injection Hi as <-. injection Hrecs as <-.
      split_and!; [done| |done|].
      * by rewrite Nat.add_0_r.
      * exists (Flat_metadata (Flat_data number title sg0) (length recs0)).
        split; [|done].
        rewrite Nat.add_0_r, <- app_assoc.
        by rewrite lookup_app_r, Nat.sub_diag by lia.
    + destruct (Hall i sg recs Hi Hrecs) as (H1 & H2 & H3 & md & H4 & H5).
      rewrite !length_app in H2, H4. cbn [length] in H2, H4.
      replace (length h + 1 + i) with (length h + S i) in H2, H4 by lia.
      split_and!; [done..|]. by exists md.
Qed.

(** *** The flat records and the nested requirements *)

Lemma nearest_before_unique (lines : list pystr) i b b' :
  nearest_before lines i b → nearest_before lines i b' → b = b'.
Proof.
  destruct b as [l|], b' as [l'|]; simpl; [| | |done].
  - intros (j & Hj & Hl & Hnb & Hbl) (j' & Hj' & Hl' & Hnb' & Hbl').
    destruct (decide (j = j')) as [->|Hne]; [congruence|].
    destruct (decide (j < j')).
    + by destruct Hnb'; apply (Hbl j').
    + by destruct Hnb; apply (Hbl' j); [lia|..].
  - intros (j & Hj & Hl & Hnb & _) Hall. by destruct Hnb; apply (Hall j).
  - intros Hall (j & Hj & Hl & Hnb & _). by destruct Hnb; apply (Hall j).
Qed.

Lemma nearest_after_unique (lines : list pystr) i a a' :
  nearest_after lines i a → nearest_after lines i a' → a = a'.
Proof.
  destruct a as [l|], a' as [l'|]; simpl; [| | |done].
  - intros (j & Hj & Hl & Hnb & Hbl) (j' & Hj' & Hl' & Hnb' & Hbl').
    destruct (decide (j = j')) as [->|Hne]; [congruence|].
    destruct (decide (j < j')).
    + by destruct Hnb; apply (Hbl' j).
    + by destruct Hnb'; apply (Hbl j'); [|lia|].
  - intros (j & Hj & Hl & Hnb & _) Hall. by destruct Hnb; apply (Hall j).
  - intros Hall (j & Hj & Hl & Hnb & _). by destruct Hnb; apply (Hall j).
Qed.

Lemma Forall2_common_left {A B C} (R : A → B → Prop) (Q : A → C → Prop)
    (l : list A) (k : list B) (k' : list C) :
  Forall2 R l k → Forall2 Q l k' →
  Forall2 (λ y z, ∃ x, R x y ∧ Q x z) k k'.
Proof.
  intros H. revert k'. induction H as [|x y l k Hxy _ IH]; intros k' H'.
  - inversion H'. constructor.
  - inversion H' as [|? z ? k'' Hxz Hrest]; subst.
    constructor; [by exists x|by apply IH].
Qed.

Lemma head_option_list {A} (o : option A) : head (option_list o) = o.
Proof. by destruct o. Qed.

Lemma finalize_same_section m number title sg h s out h' :
  V3._finalize_section m (V3_data number title sg) = Ok s →
  Flat._finalize_section kp m (Flat_data number title sg) h = Ok (out, h') →
  same_section s out.
Proof.
  intros (Ht3 & Hreqs & _ & Hhier & _ & Hpg & _)%V3_finalize_inv Hflat.
  cbn [V3_data V3.d_number V3.d_lines V3.d_full_name V3.d_page_number] in *.
  apply V3_requirements_inv in Hreqs as [Hat _].
  destruct (Flat_finalize_records kp m (Flat_data number title sg) h)
    as (tree & out' & Htf & Hfin & Hout).
  rewrite Hflat in Hfin. injection Hfin as <- _.
  cbn [Flat_data Flat.d_number Flat.d_lines] in *.
  rewrite V3_build_hierarchy_tree_eq in Ht3. injection Ht3 as Ht3.
  rewrite Flat_build_hierarchy_tree_eq in Htf. injection Htf as Htf.
  assert (Htree : Flat.parent tree = V3.parent (V3.hierarchy_tree s)
                  ∧ Flat.grandparent tree
                    = V3.grandparent (V3.hierarchy_tree s)
                  ∧ Flat.ancestors tree = V3.ancestors (V3.hierarchy_tree s)).
  { by rewrite <- Ht3, <- Htf. }
  destruct Htree as (Hp & Hg & Ha).
  change Flat.SHALL_PATTERN with V3.SHALL_PATTERN in Hout.
  destruct (matching_indices V3.SHALL_PATTERN (snd <$> seg_content sg))
    as [|i0 idxs].
  - apply Forall2_nil_inv_l in Hat. subst out. split.
    + repeat constructor; cbn; congruence.
    + rewrite Hat. eexists. split; [done|]. unfold placeholder. by split_and!.
  - assert (Hboth := Forall2_common_left _ _ _ _ _ Hat Hout).
    split.
    + apply Forall2_exists_r in Hout. eapply Forall_impl; [exact Hout|].
      intros f (i & _ & l & _ & _ & _ & _ & _ & Hh & Htr & Hpn & _).
      rewrite Htr, Hh, Hpn. cbn. by rewrite Hhier, Hpg.
    + destruct (V3.requirements s) as [|r0 reqs0] eqn:Ereqs;
        [by inversion Hat|].
      eapply Forall2_impl; [exact Hboth|].
      intros r' f (i & (l & b & a & Hi & Ht & Hb & Ha' & Hnb & Hna & Han
                          & Hpage & Hhi & Hpar)
                     & (l' & Hi' & Hs & Hnb' & Hna' & Han' & Hh' & Htr' & Hpn'
                          & _)).
      assert (l' = l) as -> by congruence.
      pose proof (nearest_before_unique _ _ _ _ Hnb Hnb') as ->.
      pose proof (nearest_after_unique _ _ _ _ Hna Hna') as ->.
      unfold same_requirement.
      rewrite Hs, Ht, Hb, Ha', !head_option_list, Han, Han', Hh', Hhi,
        Hpn', Hpage, Htr', Hpar, Hp.
      by split_and!.
Qed.

Lemma sections_groups_same m h segs secs groups h' :
  V3_sections_from m segs secs →
  Flat_groups_from kp m h segs groups h' →
  Forall2 same_section secs groups.
Proof.
  intros H. revert h groups.
  induction H as [|m sg segs number title s secs Hh Hfin _ IH];
    intros h groups Hg; inversion Hg as [|? ? ? ? number' title' recs h1 groups' ? Hh' Hfin' Hrest];
    subst; [constructor|].
  change Flat.SECTION_PATTERN with V3.SECTION_PATTERN in Hh'.
  rewrite Hh in Hh'. injection Hh' as <- <-.
  constructor; [by eapply finalize_same_section|by eapply IH].
Qed.

End Flat_by_segment.

(** X8.  In [ocp_parser.py] every section has a metadata object of its
    own, created when the section is closed, and all records of the
    section refer to that one object.  After [parse] the object's
    [requirement_count] is the number of records of the section: the number
    of its shall-lines, or 1 for a section without any, whose single record
    is no requirement. *)
Theorem Flat_sections_share_metadata (kp : pystr → list pystr)
    (pages : list Page) :
  ∃ preamble segs groups h m,
    Spec.segmentation Flat.SECTION_PATTERN (Spec.stream pages) preamble segs
    ∧ Flat.parse kp pages = Ok (concat groups, h, m)
    ∧ length groups = length segs
    ∧ length h = length segs
    ∧ ∀ i sg recs,
        segs !! i = Some sg → groups !! i = Some recs →
        recs ≠ []
        ∧ Forall (λ r, Flat.metadata r = i) recs
        ∧ length recs
          = Nat.max 1
              (length (filter Seg.has_shall (snd <$> Spec.seg_content sg)))
        ∧ ∃ md, h !! i = Some md
                ∧ Forall (λ r, Flat.metadata_of h r = Some md) recs
                ∧ Flat.requirement_count md = length recs.
Proof.
  destruct (segmentation_exists Flat.SECTION_PATTERN (Spec.stream pages))
    as (preamble & segs & Hseg).
  destruct (Flat_parse_groups_from kp _ _ _ Hseg) as (groups & h & m & Hp & Hfrom).
  apply Flat_groups_store in Hfrom as (Hl1 & Hl2 & _ & Hall).
  exists preamble, segs, groups, h, m.
  split_and!; [done|done|done|simpl in Hl2; lia|].
  intros i sg recs Hi Hrecs.
  destruct (Hall i sg recs Hi Hrecs) as (H1 & H2 & H3 & md & H4 & H5).
  cbn [length Nat.add] in *. split_and!; [done..|].
  exists md. split_and!; [done| |done].
  eapply Forall_impl; [exact H2|]. intros r Hr.
  unfold Flat.metadata_of. by rewrite Hr.
Qed.

(** X9.  [ocp_parser.py] and [OCP_parser_v3.py] agree on every input: the
    same sections in the same order and the same final title map; the
    records of a section name the section, its page and its named parent,
    grandparent and ancestors as the nested section does; and either the
    section has no requirement and a single placeholder record, or its
    records are its requirements one for one, with the same context lines
    and anchor and the shall-line stripped of surrounding whitespace. *)
Theorem Flat_records_are_V3_requirements (kp : pystr → list pystr)
    (pages : list Page) :
  ∃ secs m groups h,
    V3.parse pages = Ok (secs, m)
    ∧ Flat.parse kp pages = Ok (concat groups, h, m)
    ∧ Forall2 Seg.same_section secs groups.
Proof.
  destruct (segmentation_exists V3.SECTION_PATTERN (Spec.stream pages))
    as (preamble & segs & Hseg).
  destruct (V3_parse_sections_from _ _ _ Hseg) as (secs & m & Hp & Hfrom).
  destruct (Flat_parse_groups_from kp _ _ _ Hseg)
    as (groups & h & m' & Hp' & Hfrom').
  exists secs, m, groups, h. split; [done|].
  assert (m' = m) as ->.
  { destruct (V3_parse_title_map pages) as (? & m1 & E1 & Hm1).
    destruct (Flat_parse_title_map kp pages) as (? & ? & m2 & E2 & Hm2).
    rewrite Hp in E1. injection E1 as _ <-.
    rewrite Hp' in E2. injection E2 as _ _ <-.
    apply map_eq. intros k. by rewrite Hm1, Hm2. }
  split; [done|]. by eapply sections_groups_same.
Qed.

(** * Key phrases of [ocp_parser.py] *)

Section key_phrases.
Import Py Re Lang Spec Seg FlatKP.

Lemma str_ltb_irrefl a : str_ltb a a = false.
Proof.
  induction a as [|x a IH]; [done|]. simpl.
  by rewrite Nat.ltb_irrefl, Nat.eqb_refl, IH.
Qed.

Lemma code_inj x y : code x = code y → x = y.
Proof.
  unfold code. intros H.
  by rewrite <- (ascii_nat_embedding x), <- (ascii_nat_embedding y), H.
Qed.

Lemma str_ltb_trans a b c :
  str_ltb a b = true → str_ltb b c = true → str_ltb a c = true.
Proof.
  revert b c. induction a as [|x a IH]; intros [|y b] [|z c]; simpl; try done.
  rewrite !orb_true_iff, !andb_true_iff, !Nat.ltb_lt, !Nat.eqb_eq.
  intros [H1|[H1 H1']] [H2|[H2 H2']].
  - left. lia.
  - left. lia.
  - left. lia.
  - right. split; [lia|]. by eapply IH.
Qed.

Lemma str_ltb_total a b :
  str_ltb a b = false → str_ltb b a = false → a = b.
Proof.
  revert b. induction a as [|x a IH]; intros [|y b]; simpl; try done.
  rewrite !orb_false_iff, !andb_false_iff, !Nat.ltb_ge, !Nat.eqb_neq.
  intros [H1 H1'] [H2 H2'].
  assert (code x = code y) as Hxy by lia.
  apply code_inj in Hxy as ->. f_equal. apply IH.
  - by destruct H1'.
  - by destruct H2'.
Qed.

Lemma insert_sorted_elem_of x y l :
  y ∈ insert_sorted x l ↔ y = x ∨ y ∈ l.
Proof.
  induction l as [|z l IH]; simpl.
  - rewrite list_elem_of_singleton, elem_of_nil. tauto.
  - destruct (str_ltb x z) eqn:H1; [by rewrite elem_of_cons|].
    destruct (str_ltb z x) eqn:H2.
    + rewrite !elem_of_cons, IH. tauto.
    + pose proof (str_ltb_total _ _ H1 H2) as ->.
      rewrite !elem_of_cons. tauto.
Qed.

Lemma insert_sorted_sorted x l :
  StronglySorted FlatKP.str_lt l → StronglySorted FlatKP.str_lt (insert_sorted x l).
Proof.
  induction 1 as [|z l Hl IH Hz]; simpl; [by repeat constructor|].
  destruct (str_ltb x z) eqn:H1.
  - constructor; [by constructor|]. constructor; [done|].
    eapply Forall_impl; [exact Hz|]. intros w Hw.
    by eapply str_ltb_trans.
  - destruct (str_ltb z x) eqn:H2; [|by constructor].
    constructor; [done|]. apply Forall_forall. intros w Hw.
    apply insert_sorted_elem_of in Hw as [->|Hw]; [done|].
    rewrite Forall_forall in Hz. by apply Hz.
Qed.

Lemma sorted_set_sorted l : StronglySorted FlatKP.str_lt (sorted_set l).
Proof.
  induction l as [|x l IH]; [constructor|]. by apply insert_sorted_sorted.
Qed.

Lemma sorted_set_elem_of l x : x ∈ sorted_set l ↔ x ∈ l.
Proof.
  induction l as [|y l IH]; [done|]. simpl.
  rewrite insert_sorted_elem_of, elem_of_cons, IH. done.
Qed.

Lemma sorted_set_NoDup l : NoDup (sorted_set l).
Proof.
  pose proof (sorted_set_sorted l) as H.
  induction H as [|x k _ IH Hx]; constructor; [|done].
  intros Hin. rewrite Forall_forall in Hx. apply Hx in Hin.
  unfold str_lt in Hin. by rewrite str_ltb_irrefl in Hin.
Qed.

Lemma search_in_finditer r s m : search r s = Some m → m ∈ finditer r s.
Proof.
  unfold search, finditer. intros H.
  replace (2 * length s + 2) with (S (2 * length s + 1)) by lia.
  cbn [finditer_aux]. rewrite take_0, drop_0. cbn [last]. rewrite H. by left.
Qed.

(** What [SHALL_PATTERN] matches in a line is among the line's key
    phrases. *)
Lemma shall_matches_key_phrases line w :
  w ∈ findall Flat.SHALL_PATTERN line → w ∈ extract_key_phrases line.
Proof.
  intros Hw. apply sorted_set_elem_of.
  unfold key_phrase_matches, KEY_PHRASE_PATTERNS.
  rewrite !fmap_cons. cbn [concat]. rewrite !elem_of_app. right. by left.
Qed.

Lemma has_shall_key_phrase line :
  has_shall line → extract_key_phrases line ≠ [].
Proof.
  unfold has_shall.
  destruct (search V3.SHALL_PATTERN line) as [m|] eqn:Hs; [|done]. intros _.
  assert (Hin : group0 m ∈ extract_key_phrases line).
  { apply shall_matches_key_phrases. unfold findall.
    apply list_elem_of_fmap_2. by apply search_in_finditer. }
  intros Hnil. rewrite Hnil in Hin. by apply elem_of_nil in Hin.
Qed.

Lemma Flat_make_record_key_phrases kp lines data tree ref idx line r :
  Flat.make_record kp lines data tree ref idx line = Ok r →
  Flat.key_phrases r = kp line ∧ Flat.shall_sentence r = Some (strip line).
Proof.
  unfold Flat.make_record.
  destruct (Flat.next_nonblank lines (range_down _ _)) as [b|]; [|by cbn].
  rewrite bind_Ok.
  destruct (Flat.next_nonblank lines (range _ _)) as [a|]; [|by cbn].
  rewrite bind_Ok.
  match goal with |- context [if ?c then _ else _] => destruct c end.
  - destruct (match_group0 _); [|by cbn]. cbn. by intros [= <-].
  - cbn. by intros [= <-].
Qed.

Lemma Flat_records_loop_key_phrases kp lines data tree ref
    (Q : Flat.FlatRecord → Prop) :
  (∀ line r, has_shall line →
             Flat.key_phrases r = kp line →
             Flat.shall_sentence r = Some (strip line) → Q r) →
  ∀ rest idx acc recs,
    Forall Q acc →
    Flat.records_loop kp lines data tree ref idx rest acc = Ok recs →
    Forall Q recs.
Proof.
  intros HQ. induction rest as [|line rest IH]; intros idx acc recs Hacc; simpl.
  - by intros [= <-].
  - destruct (is_some (search Flat.SHALL_PATTERN line)) eqn:Hs; cbn [negb].
    + destruct (Flat.make_record kp lines data tree ref idx line)
        as [r|] eqn:Hr; [|done].
      rewrite bind_Ok. apply IH. apply Forall_app. split; [done|].
      apply Flat_make_record_key_phrases in Hr as [H1 H2].
      repeat constructor. by eapply HQ.
    + by apply IH.
Qed.

End key_phrases.

(** X10.  [extract_key_phrases] of [ocp_parser.py] returns the texts that
    [re.findall] yields for its seven patterns, without duplicates and in
    ascending order of their code points.  Every text that [SHALL_PATTERN]
    matches in a line is among the key phrases of the line, so for a line
    in which that pattern finds a match the list is never empty.  So in
    the output of [_finalize_section] every record with a shall sentence
    has key phrases, in ascending order, and the placeholder record of a
    section without requirements has none. *)
Theorem Flat_key_phrases_sorted (m : gmap pystr pystr)
    (d : Flat.SectionData) (h : Flat.heap) :
  (∀ text,
     StronglySorted FlatKP.str_lt (FlatKP.extract_key_phrases text)
     ∧ NoDup (FlatKP.extract_key_phrases text)
     ∧ ∀ x, x ∈ FlatKP.extract_key_phrases text
            ↔ x ∈ FlatKP.key_phrase_matches text)
  ∧ (∀ line w,
       w ∈ Re.findall Flat.SHALL_PATTERN line →
       w ∈ FlatKP.extract_key_phrases line)
  ∧ (∀ line, Seg.has_shall line → FlatKP.extract_key_phrases line ≠ [])
  ∧ ∃ out h',
      Flat._finalize_section FlatKP.extract_key_phrases m d h = Ok (out, h')
      ∧ Forall
          (λ r, StronglySorted FlatKP.str_lt (Flat.key_phrases r)
                ∧ match Flat.shall_sentence r with
                  | Some _ => Flat.key_phrases r ≠ []
                  | None => Flat.key_phrases r = []
                  end)
          out.
Proof.
  split_and!.
  - intros text. split_and!; [apply sorted_set_sorted|apply sorted_set_NoDup|].
    intros x. apply sorted_set_elem_of.
  - apply shall_matches_key_phrases.
  - apply has_shall_key_phrase.
  - destruct (Flat_finalize_section_returns FlatKP.extract_key_phrases m d h)
      as [[out h'] Hfin].
    exists out, h'. split; [done|].
    unfold Flat._finalize_section in Hfin.
    destruct (Flat.build_hierarchy_tree m (Flat.d_number d)) as [tree|];
      [|done].
    rewrite bind_Ok in Hfin.
    destruct (Flat.records_loop _ _ _ _ _ _ _ _) as [recs|] eqn:Hloop; [|done].
    rewrite bind_Ok in Hfin. injection Hfin as <- _.
    eapply (Flat_records_loop_key_phrases _ _ _ _ _
              (λ r, StronglySorted FlatKP.str_lt (Flat.key_phrases r)
                    ∧ match Flat.shall_sentence r with
                      | Some _ => Flat.key_phrases r ≠ []
                      | None => Flat.key_phrases r = []
                      end)) in Hloop; [| |constructor].
    + destruct recs as [|r recs]; cbn [nonempty negb]; [|done].
      repeat constructor.
    + intros line r Hs Hk Hsh. rewrite Hk, Hsh.
      split; [apply sorted_set_sorted|by apply has_shall_key_phrase].
Qed.


(** * The segmenter *)

Section Flat_segmenter.
Import Py Re Spec Seg.
Variable kp : pystr → list pystr.

(** The lines at the given indices, with what the records say of them. *)
Lemma lines_at_indices {R} (g : R → option pystr) (f : pystr → pystr)
    (lines : list pystr) (idxs : list nat) (rs : list R) :
  Forall2 (λ i r, ∃ l, lines !! i = Some l ∧ g r = Some (f l)) idxs rs →
  ∃ ls, Forall2 (λ i l, lines !! i = Some (id l)) idxs ls
        ∧ g <$> rs = (λ l, Some (f l)) <$> ls.
Proof.
  induction 1 as [|i r idxs rs (l & Hl & Hg) _ (ls & Hls & Heq)].
  - by exists [].
  - exists (l :: ls). split; [by constructor|].
    by rewrite !fmap_cons, Hg, Heq.
Qed.

(** What [_finalize_section] makes of the lines collected for a
    section. *)
Lemma Flat_finalize_content m d h out h2 :
  Flat._finalize_section kp m d h = Ok (out, h2) →
  h2 = h ++ [Flat_metadata d (length out)]
  ∧ Forall (λ r, Flat.metadata r = length h) out
  ∧ Flat.shall_sentence <$> out
    = match filter has_shall (Flat.d_lines d) with
      | [] => [None]
      | ls => (λ l, Some (strip l)) <$> ls
      end
  ∧ Forall (λ r, (∀ l, Flat.before_shall r = Some l → l ∈ Flat.d_lines d)
                 ∧ (∀ l, Flat.after_shall r = Some l → l ∈ Flat.d_lines d))
      out.
Proof.
  intros Hfin.
  destruct (Flat_finalize_records kp m d h) as (tree & out' & _ & Hfin' & Hout).
  rewrite Hfin in Hfin'. injection Hfin' as <- ->.
  split; [done|].
  pose proof (matching_indices_length (Flat.d_lines d)) as Hlen.
  destruct (matching_indices Flat.SHALL_PATTERN (Flat.d_lines d))
    as [|i0 idxs] eqn:Hidx.
  - subst out. cbn [length] in Hlen. symmetry in Hlen.
    apply nil_length_inv in Hlen. rewrite Hlen.
    split_and!; [by repeat constructor|done|by repeat constructor].
  - split_and!.
    + apply Forall2_exists_r in Hout. eapply Forall_impl; [exact Hout|].
      by intros r (i & _ & l & _ & _ & _ & _ & _ & _ & _ & _ & Hmd).
    + destruct (lines_at_indices Flat.shall_sentence strip (Flat.d_lines d)
                  (i0 :: idxs) out) as (ls & Hls & Heq).
      { eapply Forall2_impl; [exact Hout|].
        intros i r (l & Hl & Hs & _). by exists l. }
      rewrite <- Hidx in Hls.
      apply (matching_lines Flat.SHALL_PATTERN id (Flat.d_lines d)
               (Flat.d_lines d) [] ls eq_refl) in Hls.
      rewrite list_fmap_id in Hls. rewrite Heq, Hls.
      change (filter (λ l, is_some (search Flat.SHALL_PATTERN l) = true)
                (Flat.d_lines d))
        with (filter has_shall (Flat.d_lines d)).
      destruct (filter has_shall (Flat.d_lines d)); [done|done].
    + apply Forall2_exists_r in Hout. eapply Forall_impl; [exact Hout|].
      intros r (i & _ & l & _ & _ & Hb & Ha & _). split.
      * intros b Hbe. rewrite Hbe in Hb. destruct Hb as (j & _ & Hj & _).
        by eapply list_elem_of_lookup_2.
      * intros a Hae. rewrite Hae in Ha. destruct Ha as (j & _ & Hj & _).
        by eapply list_elem_of_lookup_2.
Qed.

(** The groups of a run of segments, read against the segments. *)
Lemma Flat_groups_content m h segs groups h' :
  Flat_groups_from kp m h segs groups h' →
  Forall2 Flat_records_of segs groups
  ∧ Forall2 (Flat_content_of h') segs groups.
Proof.
  induction 1 as [|m h sg segs number title recs h1 groups h' Hh Hfin Hrest IH].
  - by split.
  - destruct IH as [IH1 IH2]. split.
    + constructor; [|done].
      destruct (Flat_records_of_finalized kp sg number title
                  (<[number := full_name number title]> m) h Hh)
        as (recs' & h1' & Hfin' & Hrecs).
      unfold Flat_data in Hfin. rewrite Hfin in Hfin'.
      by injection Hfin' as <- _.
    + constructor; [|done].
      apply Flat_finalize_content in Hfin as (Hh1 & Hrefs & Hsh & Hctx).
      cbn [Flat_data Flat.d_lines] in Hsh, Hctx.
      apply Flat_groups_store in Hrest as (_ & _ & (later & ->) & _).
      split; [done|].
      rewrite Forall_forall in Hrefs, Hctx. apply Forall_forall.
      intros r Hr. destruct (Hctx r Hr) as [Hb Ha].
      split_and!; [done|done|].
      exists (Flat_metadata (Flat_data number title sg) (length recs)).
      split; [|done].
      unfold Flat.metadata_of. rewrite (Hrefs r Hr), Hh1, <- app_assoc.
      by rewrite lookup_app_r, Nat.sub_diag by lia.
Qed.

End Flat_segmenter.

(** C3.  A header line closes the open section, if there is one, and opens
    exactly one new section with no content; a line that is not a header is
    appended to the open section, or dropped when no section is open; and at
    the end of the stream the open section is closed.  This holds line by
    line of [parse] in [OCP_parser_v3.py] and of [parse] in
    [ocp_parser.py].  So the stream splits into a preamble without headers
    followed by one segment per header line, and the parser returns one
    finalized section per segment, in order, with the segment's header and
    content ([OCP_parser_v3.py]), or one non-empty group of records per
    segment ([ocp_parser.py]); their number is the number of header lines.
    A group of [ocp_parser.py] is what [_finalize_section] returns for the
    header and all content lines of its segment: it has one record for
    each content line with a match of [SHALL_PATTERN], in order, or a
    single record without sentence; its context lines are content lines
    of the segment; and its metadata object measures the content lines
    joined by line feeds.  The split of a stream into preamble and
    segments is unique. *)
Theorem C3_segmenter (kp : pystr → list pystr) :
  (∀ pn st line,
     Spec.is_header V3.SECTION_PATTERN line = true →
     ∃ st' c',
       V3.parse_line pn st line = Ok st'
       ∧ match V3.cur st with
         | Some c =>
             ∃ s, V3._finalize_section (V3.section_title_map st) c = Ok s
                  ∧ V3.sections st' = V3.sections st ++ [s]
         | None => V3.sections st' = V3.sections st
         end
       ∧ V3.cur st' = Some c'
       ∧ V3.d_lines c' = []
       ∧ Spec.header_of V3.SECTION_PATTERN line
         = Some (V3.d_number c', V3.d_title c'))
  ∧ (∀ pn st line c,
       Spec.is_header V3.SECTION_PATTERN line = false →
       V3.cur st = Some c →
       ∃ st' c',
         V3.parse_line pn st line = Ok st'
         ∧ V3.sections st' = V3.sections st
         ∧ V3.cur st' = Some c'
         ∧ V3.d_lines c' = V3.d_lines c ++ [line])
  ∧ (∀ pn st line,
       Spec.is_header V3.SECTION_PATTERN line = false →
       V3.cur st = None →
       V3.parse_line pn st line = Ok st)
  ∧ (∀ pages,
       ∃ preamble segs secs m,
         Spec.segmentation V3.SECTION_PATTERN (Spec.stream pages) preamble segs
         ∧ V3.parse pages = Ok (secs, m)
         ∧ Forall2 Spec.V3_section_of segs secs
         ∧ length secs
           = length (filter (λ pl, Spec.is_header V3.SECTION_PATTERN pl.2 = true)
                       (Spec.stream pages)))
  ∧ (∀ pn st line,
       Spec.is_header Flat.SECTION_PATTERN line = true →
       ∃ st' c' title,
         Flat.parse_line kp pn st line = Ok st'
         ∧ match Flat.cur st with
           | Some c =>
               ∃ recs h',
                 Flat._finalize_section kp (Flat.section_title_map st) c
                   (Flat.store st) = Ok (recs, h')
                 ∧ Flat.output st' = Flat.output st ++ recs
                 ∧ Flat.store st' = h'
           | None => Flat.output st' = Flat.output st
                     ∧ Flat.store st' = Flat.store st
           end
         ∧ Flat.cur st' = Some c'
         ∧ Flat.d_lines c' = []
         ∧ Flat.d_page_number c' = pn
         ∧ Spec.header_of Flat.SECTION_PATTERN line
           = Some (Flat.d_number c', title)
         ∧ Flat.d_hierarchy c' = Spec.full_name (Flat.d_number c') title)
  ∧ (∀ pn st line c,
       Spec.is_header Flat.SECTION_PATTERN line = false →
       Flat.cur st = Some c →
       ∃ st' c',
         Flat.parse_line kp pn st line = Ok st'
         ∧ Flat.output st' = Flat.output st
         ∧ Flat.store st' = Flat.store st
         ∧ Flat.cur st' = Some c'
         ∧ Flat.d_number c' = Flat.d_number c
         ∧ Flat.d_hierarchy c' = Flat.d_hierarchy c
         ∧ Flat.d_page_number c' = Flat.d_page_number c
         ∧ Flat.d_lines c' = Flat.d_lines c ++ [line])
  ∧ (∀ pn st line,
       Spec.is_header Flat.SECTION_PATTERN line = false →
       Flat.cur st = None →
       Flat.parse_line kp pn st line = Ok st)
  ∧ (∀ pages,
       ∃ preamble segs groups h m,
         Spec.segmentation Flat.SECTION_PATTERN (Spec.stream pages)
           preamble segs
         ∧ Flat.parse kp pages = Ok (concat groups, h, m)
         ∧ Forall2 Spec.Flat_records_of segs groups
         ∧ Seg.Flat_groups_from kp ∅ [] segs groups h
         ∧ Forall2 (Seg.Flat_content_of h) segs groups
         ∧ length groups
           = length (filter
                       (λ pl, Spec.is_header Flat.SECTION_PATTERN pl.2 = true)
                       (Spec.stream pages)))
  ∧ (∀ lines preamble segs preamble' segs',
       Spec.segmentation V3.SECTION_PATTERN lines preamble segs →
       Spec.segmentation V3.SECTION_PATTERN lines preamble' segs' →
       preamble = preamble' ∧ segs = segs').
Proof.
  split_and!.
  - intros pn st line Hh.
    destruct (Spec.header_of V3.SECTION_PATTERN line) as [[number title]|] eqn:Hof.
    2:{ unfold Spec.is_header in Hh. unfold Spec.header_of in Hof.
        by destruct (Re.rematch _ _). }
    destruct (V3_close_current_returns st) as [secs Hsecs].
    rewrite (V3_parse_line_header _ _ _ _ _ _ Hof Hsecs).
    eexists _, _. split; [reflexivity|]. cbn.
    split; [|done].
    unfold V3.close_current in Hsecs. destruct (V3.cur st) as [c|].
    + destruct (V3._finalize_section _ c) as [s|e]; [|done].
      injection Hsecs as <-. by exists s.
    + by injection Hsecs as <-.
  - intros pn st line c Hh Hcur.
    rewrite (V3_parse_line_content _ _ _ _ Hh Hcur).
    by eexists _, _.
  - intros pn st line Hh Hcur. by apply V3_parse_line_preamble.
  - intros pages.
    destruct (segmentation_exists V3.SECTION_PATTERN (Spec.stream pages))
      as (preamble & segs & Hseg).
    destruct (V3_parse_segmentation _ _ _ Hseg) as (secs & m & Hparse & Hsecs).
    exists preamble, segs, secs, m. split_and!; try done.
    rewrite <- (segmentation_count _ _ _ _ Hseg).
    symmetry. by eapply Forall2_length.
  - intros pn st line Hh.
    destruct (Spec.header_of Flat.SECTION_PATTERN line)
      as [[number title]|] eqn:Hof.
    2:{ unfold Spec.is_header in Hh. unfold Spec.header_of in Hof.
        by destruct (Re.rematch _ _). }
    destruct (Flat_close_current_returns kp st) as [[out h] Hclose].
    rewrite (Flat_parse_line_header kp _ _ _ _ _ _ _ Hof Hclose).
    eexists _, _, title. split; [reflexivity|]. cbn.
    split; [|done].
    unfold Flat.close_current in Hclose. destruct (Flat.cur st) as [c|].
    + destruct (Flat._finalize_section kp _ c _) as [[recs h']|e]; [|done].
      cbn in Hclose. injection Hclose as <- <-. by exists recs, h'.
    + by injection Hclose as <- <-.
  - intros pn st line c Hh Hcur.
    rewrite (Flat_parse_line_content kp _ _ _ _ Hh Hcur).
    by eexists _, _.
  - intros pn st line Hh Hcur. by apply Flat_parse_line_preamble.
  - intros pages.
    destruct (segmentation_exists Flat.SECTION_PATTERN (Spec.stream pages))
      as (preamble & segs & Hseg).
    destruct (Flat_parse_groups_from kp _ _ _ Hseg)
      as (groups & h & m & Hparse & Hfrom).
    destruct (Flat_groups_content kp _ _ _ _ _ Hfrom) as [Hrecs Hcontent].
    exists preamble, segs, groups, h, m. split_and!; try done.
    rewrite <- (segmentation_count _ _ _ _ Hseg).
    symmetry. by eapply Forall2_length.
  - apply segmentation_unique.
Qed.


(** * The variants side by side *)

Section side_by_side.
Import Py Re Lang Spec Seg Agree.

(** ** One header pattern with and without MULTILINE *)

Lemma reach_suffix st st' :
  reach st st' → ∃ pre, m_rest st = pre ++ m_rest st'.
Proof. intros (c & H & _). by exists c. Qed.

Lemma at_eol_one_line ml st :
  newline ∉ m_rest st → at_eol ml st = at_eol false st.
Proof.
  unfold at_eol. destruct (m_rest st) as [|c rest]; [done|].
  intros Hn. apply not_elem_of_cons in Hn as [Hc _].
  destruct (eqc c newline) eqn:E; [|done]. by apply eqc_true in E.
Qed.

Lemma run_seq_local a b b' st k :
  (∀ st', reach st st' → run b st' k = run b' st' k) →
  run (Seq a b) st k = run (Seq a b') st k.
Proof. intros H. cbn [run]. by apply run_local. Qed.

(** On a line without line feed the MULTILINE flag of the header pattern
    makes no difference. *)
Lemma header_multiline_irrelevant line :
  one_line line →
  rematch P3.SECTION_PATTERN line = rematch V3.SECTION_PATTERN line.
Proof.
  intros Hone%one_line_no_newline.
  unfold rematch, attempt, P3.SECTION_PATTERN, V3.SECTION_PATTERN.
  cbn [seqs].
  set (k := λ st : mstate, if false && (m_pos st =? 0) then None else Some st).
  assert (Hrun : ∀ G1 G2 G3 st0,
            m_rest st0 = line → m_prev st0 = None →
            run (Seq (Bol true) (Seq G1 (Seq G2 (Seq G3 (Eol true))))) st0 k
            = run (Seq (Bol false) (Seq G1 (Seq G2 (Seq G3 (Eol false))))) st0 k).
  { intros G1 G2 G3 st0 Hrest Hprev.
    change (run (Seq (Bol true) ?x) st0 k)
      with (if at_bol true st0 then run x st0 k else None).
    change (run (Seq (Bol false) ?x) st0 k)
      with (if at_bol false st0 then run x st0 k else None).
    unfold at_bol. rewrite Hprev.
    apply run_seq_local. intros st1 H1.
    apply run_seq_local. intros st2 H2.
    apply run_seq_local. intros st3 H3.
    cbn [run]. rewrite (at_eol_one_line true); [done|].
    pose proof (reach_trans _ _ _ (reach_trans _ _ _ H1 H2) H3) as Hr.
    apply reach_suffix in Hr as (pre & Hpre). rewrite Hrest in Hpre.
    intros Hin. apply Hone. rewrite Hpre. apply elem_of_app. by right. }
  by rewrite Hrun.
Qed.

Lemma header_of_multiline line :
  one_line line →
  header_of P3.SECTION_PATTERN line = header_of V3.SECTION_PATTERN line.
Proof.
  intros H. unfold header_of. by rewrite header_multiline_irrelevant.
Qed.

Lemma is_header_multiline line :
  one_line line →
  is_header P3.SECTION_PATTERN line = is_header V3.SECTION_PATTERN line.
Proof.
  intros H. unfold is_header. by rewrite header_multiline_irrelevant.
Qed.

(** ** [ocpparser3.py] and [OCP_parser_v3.py] *)

Lemma words_aux_trailing_space c s :
  is_space c = true →
  ∀ cur, words_aux cur (s ++ [c]) = words_aux cur s.
Proof.
  intros Hc. induction s as [|x s IH]; intros cur; simpl.
  - rewrite Hc. by destruct cur.
  - destruct (is_space x); [destruct cur|]; by rewrite ?IH.
Qed.

Lemma lines_text_join lines :
  lines ≠ [] → lines_text lines = join [newline] lines ++ [newline].
Proof.
  unfold lines_text. induction lines as [|l lines IH]; [done|]. intros _.
  destruct lines as [|l' lines]; [by simpl; rewrite app_nil_r|].
  rewrite fmap_cons. cbn [concat]. rewrite IH by done.
  rewrite (join_cons newline l (l' :: lines)) by done.
  by rewrite <- !app_assoc.
Qed.

Lemma words_lines_text lines :
  words (lines_text lines) = words (join [newline] lines).
Proof.
  destruct lines as [|l lines]; [done|].
  rewrite lines_text_join by done. by apply words_aux_trailing_space.
Qed.

Lemma P3_shall_sentences_lines lines :
  Forall one_line lines →
  P3.extract_shall_sentences (lines_text lines) = filter has_shall lines.
Proof.
  intros H. unfold P3.extract_shall_sentences, lines_text.
  by rewrite splitlines_lines.
Qed.

Lemma P3_finalize_same m c cp s p :
  P3_same_open c cp →
  V3._finalize_section m c = Ok s →
  P3._finalize_section m cp = Ok p →
  P3_same_section s p.
Proof.
  intros (Hn & Ht & Hf & Hpg & Hc & Hone) H3 Hp.
  destruct (V3_finalize_section_spec m c) as (tree & reqs & Htree & Hreqs & E3).
  rewrite H3 in E3. injection E3 as ->.
  destruct (P3_finalize_section_spec m cp) as (treep & Htreep & Ep).
  rewrite Hp in Ep. injection Ep as ->.
  rewrite V3_build_hierarchy_tree_eq in Htree. injection Htree as <-.
  rewrite P3_build_hierarchy_tree_eq in Htreep. injection Htreep as <-.
  apply V3_requirements_inv in Hreqs as [Hat _]. apply V3_shall_texts in Hat.
  unfold P3_same_section. cbn.
  rewrite Hn, Ht, Hf, Hpg, Hc, (P3_shall_sentences_lines _ Hone), <- Hat,
    words_lines_text, length_fmap.
  split_and!; try done. by exists (V3.d_lines c).
Qed.

Lemma P3_sim_close st stp secs secsp :
  P3_sim st stp →
  V3.close_current st = Ok secs →
  P3.close_current stp = Ok secsp →
  Forall2 P3_same_section secs secsp.
Proof.
  intros (Hsecs & Hm & Hcur). unfold V3.close_current, P3.close_current.
  destruct (V3.cur st) as [c|] eqn:Ec, (P3.cur stp) as [cp|] eqn:Ecp;
    inversion Hcur as [? ? Hopen|]; subst; [|by intros [= <-] [= <-]].
  rewrite Hm.
  destruct (V3._finalize_section _ c) as [s|] eqn:H3; [|done].
  destruct (P3._finalize_section _ cp) as [p|] eqn:Hp; [|done].
  rewrite !bind_Ok. intros [= <-] [= <-].
  apply Forall2_app; [done|]. constructor; [|constructor].
  by eapply P3_finalize_same.
Qed.

Lemma P3_sim_step pn st stp line :
  one_line line →
  P3_sim st stp →
  ∃ st' stp',
    V3.parse_line pn st line = Ok st'
    ∧ P3.parse_line pn stp line = Ok stp'
    ∧ P3_sim st' stp'.
Proof.
  intros Hone Hsim.
  destruct (header_of V3.SECTION_PATTERN line) as [[number title]|] eqn:Hh.
  - destruct (V3_close_current_returns st) as [secs Hc].
    destruct (P3_close_current_returns stp) as [secsp Hcp].
    pose proof Hh as Hhp. rewrite <- header_of_multiline in Hhp by done.
    rewrite (V3_parse_line_header _ _ _ _ _ _ Hh Hc).
    rewrite (P3_parse_line_header _ _ _ _ _ _ Hhp Hcp).
    eexists _, _. split_and!; [done..|].
    split_and!; cbn.
    + by eapply P3_sim_close.
    + destruct Hsim as (_ & -> & _). done.
    + constructor. by repeat split.
  - assert (Hnh : is_header V3.SECTION_PATTERN line = false).
    { unfold is_header. unfold header_of in Hh. by destruct (rematch _ _). }
    pose proof Hnh as Hnhp. rewrite <- is_header_multiline in Hnhp by done.
    destruct Hsim as (Hsecs & Hm & Hcur).
    destruct (V3.cur st) as [c|] eqn:Ec, (P3.cur stp) as [cp|] eqn:Ecp;
      inversion Hcur as [? ? (Hn & Ht & Hf & Hpg & Hc & Hl)|]; subst.
    + rewrite (V3_parse_line_content _ _ _ c Hnh) by done.
      rewrite (P3_parse_line_content _ _ _ cp Hnhp) by done.
      eexists _, _. split_and!; [done..|].
      split_and!; cbn; [done..|]. constructor.
      split_and!; cbn; [done..| |].
      * rewrite Hc. unfold lines_text.
        rewrite fmap_app, concat_app. cbn. by rewrite app_nil_r.
      * apply Forall_app. split; [done|]. by repeat constructor.
    + rewrite (V3_parse_line_preamble _ _ _ Hnh) by done.
      rewrite (P3_parse_line_preamble _ _ _ Hnhp) by done.
      eexists _, _. split_and!; [done..|]. split_and!; [done..|].
      rewrite Ec, Ecp. constructor.
Qed.

Lemma P3_sim_run ls :
  Forall (λ pl : Z * pystr, one_line pl.2) ls →
  ∀ st stp,
    P3_sim st stp →
    ∃ st' stp',
      for_each (λ st pl, V3.parse_line pl.1 st pl.2) ls st = Ok st'
      ∧ for_each (λ st pl, P3.parse_line pl.1 st pl.2) ls stp = Ok stp'
      ∧ P3_sim st' stp'.
Proof.
  induction 1 as [|pl ls Hpl _ IH]; intros st stp Hsim.
  - by exists st, stp.
  - destruct (P3_sim_step pl.1 st stp pl.2 Hpl Hsim)
      as (st1 & stp1 & H1 & H2 & Hsim1).
    cbn [for_each]. rewrite H1, H2, !bind_Ok. by apply IH.
Qed.

(** Both parsers run to the end, with sections that say the same and the
    same final title map. *)
Lemma V3_P3_parse_same (pages : list Page) :
  ∃ secs secsp m,
    V3.parse pages = Ok (secs, m)
    ∧ P3.parse_sections pages = Ok (secsp, m)
    ∧ Forall2 P3_same_section secs secsp.
Proof.
  unfold V3.parse, V3.parse_from, P3.parse_sections.
  rewrite V3_pages_as_stream, P3_pages_as_stream.
  destruct (P3_sim_run (stream pages) (stream_one_line pages)
              V3.init_state P3.init_state)
    as (st & stp & -> & -> & Hsim).
  { split_and!; [constructor|done|constructor]. }
  rewrite !bind_Ok.
  destruct (V3_close_current_returns st) as [secs Hc].
  destruct (P3_close_current_returns stp) as [secsp Hcp].
  rewrite Hc, Hcp, !bind_Ok. exists secs, secsp, (V3.section_title_map st).
  split; [done|]. destruct Hsim as (? & Hm & ?). rewrite Hm.
  split; [done|]. by eapply P3_sim_close.
Qed.

(** X11.  [ocpparser3.py] and [OCP_parser_v3.py] cut every input into the
    same sections: same ids, full names, titles, pages, hierarchy trees and
    final title map, and the same depth, [has_subsections], word count and
    requirement count.  The shall sentences of [ocpparser3.py] are the
    texts of the requirements of [OCP_parser_v3.py], in order.  The raw
    contents hold the same lines, joined by line feeds in one parser and
    each followed by a line feed in the other. *)
Theorem P3_sections_are_V3_sections (pages : list Page) :
  ∃ secs secsp m,
    V3.parse pages = Ok (secs, m)
    ∧ P3.parse_sections pages = Ok (secsp, m)
    ∧ Forall2 P3_same_section secs secsp.
Proof. apply V3_P3_parse_same. Qed.

(** ** [OCP_parser_2.py] and [ocpparser3.py] *)

Lemma foldl_append_if {A} (b : A → bool) (l acc : list A) :
  foldl (λ results x, if b x then results ++ [x] else results) acc l
  = acc ++ filter (λ x, b x = true) l.
Proof.
  revert acc. induction l as [|x l IH]; intros acc; simpl.
  - by rewrite app_nil_r.
  - rewrite IH, filter_cons. destruct (b x).
    + rewrite decide_True by done. by rewrite <- app_assoc.
    + by rewrite decide_False by done.
Qed.

Lemma V2_extract_shall_sentences text :
  V2.extract_shall_sentences text = P3.extract_shall_sentences text.
Proof.
  unfold V2.extract_shall_sentences, P3.extract_shall_sentences.
  by rewrite foldl_append_if.
Qed.

Lemma V2_finalize_same m cp c p :
  V2_same_open cp c →
  P3._finalize_section m cp = Ok p →
  V2_same_section p (V2._finalize_section c).
Proof.
  intros (Hn & Ht & Hf & Hpg & Hc) Hp.
  destruct (P3_finalize_section_spec m cp) as (treep & _ & Ep).
  rewrite Hp in Ep. injection Ep as ->.
  unfold V2_same_section, V2._finalize_section. cbn.
  rewrite Hn, Ht, Hf, Hpg, Hc, !V2_extract_shall_sentences.
  by split_and!.
Qed.

Lemma V2_sim_close stp st secsp :
  V2_sim stp st →
  P3.close_current stp = Ok secsp →
  Forall2 V2_same_section secsp (V2.close_current st).
Proof.
  intros (Hsecs & Hcur). unfold V2.close_current, P3.close_current.
  destruct (P3.cur stp) as [cp|] eqn:Ecp, (V2.cur st) as [c|] eqn:Ec;
    inversion Hcur as [? ? Hopen|]; subst; [|by intros [= <-]].
  destruct (P3._finalize_section _ cp) as [p|] eqn:Hp; [|done].
  rewrite bind_Ok. intros [= <-].
  apply Forall2_app; [done|]. constructor; [|constructor].
  by eapply V2_finalize_same.
Qed.

Lemma V2_sim_step pn stp st line :
  V2_sim stp st →
  ∃ stp', P3.parse_line pn stp line = Ok stp'
          ∧ V2_sim stp' (V2.parse_line pn st line).
Proof.
  intros Hsim. unfold V2.parse_line. change V2.SECTION_PATTERN with P3.SECTION_PATTERN.
  destruct (header_of P3.SECTION_PATTERN line) as [[number title]|] eqn:Hh.
  - destruct (P3_close_current_returns stp) as [secsp Hcp].
    rewrite (P3_parse_line_header _ _ _ _ _ _ Hh Hcp).
    unfold header_of in Hh.
    destruct (rematch P3.SECTION_PATTERN line) as [m|]; [|done].
    injection Hh as <- <-.
    eexists. split; [done|]. split; cbn.
    + by eapply V2_sim_close.
    + constructor. by repeat split.
  - assert (Hnh : is_header P3.SECTION_PATTERN line = false).
    { unfold is_header. unfold header_of in Hh. by destruct (rematch _ _). }
    unfold header_of in Hh.
    destruct (rematch P3.SECTION_PATTERN line) as [m|] eqn:Hm; [done|].
    destruct Hsim as (Hsecs & Hcur).
    destruct (P3.cur stp) as [cp|] eqn:Ecp, (V2.cur st) as [c|] eqn:Ec;
      inversion Hcur as [? ? (Hn & Ht & Hf & Hpg & Hc)|]; subst.
    + rewrite (P3_parse_line_content _ _ _ cp Hnh) by done.
      eexists. split; [done|]. split; cbn; [done|]. constructor.
      split_and!; cbn; [done..|]. by rewrite Hc.
    + rewrite (P3_parse_line_preamble _ _ _ Hnh) by done.
      eexists. split; [done|]. split; [done|]. rewrite Ecp, Ec. constructor.
Qed.

Lemma V2_sim_run ls :
  ∀ stp st,
    V2_sim stp st →
    ∃ stp',
      for_each (λ st pl, P3.parse_line pl.1 st pl.2) ls stp = Ok stp'
      ∧ V2_sim stp' (foldl (λ st pl, V2.parse_line pl.1 st pl.2) st ls).
Proof.
  induction ls as [|pl ls IH]; intros stp st Hsim.
  - by exists stp.
  - destruct (V2_sim_step pl.1 stp st pl.2 Hsim) as (stp1 & H1 & Hsim1).
    cbn [for_each foldl]. rewrite H1, bind_Ok. by apply IH.
Qed.

Lemma V2_pages_as_stream pages st :
  foldl V2.parse_page st pages
  = foldl (λ st pl, V2.parse_line pl.1 st pl.2) st (stream pages).
Proof.
  revert st. induction pages as [|p pages IH]; intros st; [done|].
  unfold stream. rewrite bind_cons. fold (stream pages).
  rewrite foldl_app. cbn [foldl]. rewrite IH. f_equal.
  unfold V2.parse_page. generalize (splitlines (text p)). intros ls.
  revert st. induction ls as [|l ls IHl]; intros st; [done|].
  rewrite fmap_cons. cbn [foldl]. by rewrite IHl.
Qed.

Lemma V2_P3_sections pages :
  ∃ secsp m,
    P3.parse_sections pages = Ok (secsp, m)
    ∧ Forall2 V2_same_section secsp (V2.parse_sections pages).
Proof.
  unfold P3.parse_sections, V2.parse_sections.
  rewrite P3_pages_as_stream, V2_pages_as_stream.
  destruct (V2_sim_run (stream pages) P3.init_state
              {| V2.sections := []; V2.cur := None |})
    as (stp & -> & Hsim).
  { split; [constructor|constructor]. }
  rewrite bind_Ok. destruct (P3_close_current_returns stp) as [secsp Hcp].
  rewrite Hcp, bind_Ok. exists secsp, (P3.section_title_map stp).
  split; [done|]. by eapply V2_sim_close.
Qed.

(** ** The statistics of [OCP_parser_2.py] *)

Lemma V2_finalize_depth c :
  1 ≤ V2.depth (V2.metadata (V2._finalize_section c))
  ∧ V2.requirement_count (V2.metadata (V2._finalize_section c))
    = length (V2.shall_sentences (V2._finalize_section c))
  ∧ V2.reference_count (V2.metadata (V2._finalize_section c))
    = length (V2.anchors (V2._finalize_section c)).
Proof.
  cbn. split; [|done]. pose proof (split_length_pos dot (V2.d_hierarchy c)).
  lia.
Qed.

(** Every section that [parse_sections] returns came out of
    [_finalize_section]. *)
Lemma V2_parse_finalized pages :
  Forall (λ s, ∃ c, s = V2._finalize_section c) (V2.parse_sections pages).
Proof.
  unfold V2.parse_sections. rewrite V2_pages_as_stream.
  set (Inv := λ st : V2.PState,
         Forall (λ s, ∃ c, s = V2._finalize_section c) (V2.sections st)).
  assert (Hclose : ∀ st, Inv st →
            Forall (λ s, ∃ c, s = V2._finalize_section c)
              (V2.close_current st)).
  { intros st Hst. unfold V2.close_current. destruct (V2.cur st) as [c|];
      [|done]. apply Forall_app. split; [done|]. repeat constructor. by exists c. }
  apply Hclose.
  assert (Hrun : ∀ ls st, Inv st →
            Inv (foldl (λ st pl, V2.parse_line pl.1 st pl.2) st ls)).
  { induction ls as [|pl ls IH]; intros st Hst; [done|].
    cbn [foldl]. apply IH. unfold V2.parse_line.
    destruct (rematch _ _); [by apply Hclose|].
    by destruct (V2.cur st). }
  apply Hrun. constructor.
Qed.

Lemma segmentation_multiline lines preamble segs :
  Forall (λ pl : Z * pystr, one_line pl.2) lines →
  segmentation V3.SECTION_PATTERN lines preamble segs →
  segmentation V2.SECTION_PATTERN lines preamble segs.
Proof.
  intros Hone (-> & Hpre & Hsegs).
  apply Forall_app in Hone as [Hone1 Hone2].
  apply segments_one_line in Hone2.
  split; [done|]. split.
  - unfold no_header in *. rewrite Forall_forall in Hone1, Hpre.
    apply Forall_forall.
    intros pl Hin. change V2.SECTION_PATTERN with P3.SECTION_PATTERN.
    rewrite is_header_multiline by auto. auto.
  - rewrite Forall_forall in Hone2, Hsegs. apply Forall_forall.
    intros sg Hin. destruct (Hsegs _ Hin) as [Hh Hc].
    destruct (Hone2 _ Hin) as [Hoh Hoc].
    change V2.SECTION_PATTERN with P3.SECTION_PATTERN. split.
    + by rewrite is_header_multiline.
    + unfold no_header in *. rewrite Forall_fmap in Hoc.
      rewrite Forall_forall in Hoc, Hc. apply Forall_forall.
      intros pl Hpl. rewrite is_header_multiline; [auto|].
      by apply (Hoc pl).
Qed.

(** The shall sentences of a section are the shall-lines of its
    segment. *)
Lemma V2_shall_sentences_by_segment pages :
  ∃ preamble segs,
    segmentation V2.SECTION_PATTERN (stream pages) preamble segs
    ∧ Forall2 (λ sg s, V2.shall_sentences s
                       = filter has_shall (snd <$> seg_content sg))
        segs (V2.parse_sections pages).
Proof.
  destruct (V3_parse_each
    (λ sg s, V3.shall_text <$> V3.requirements s
             = filter has_shall (snd <$> seg_content sg)) pages)
    as (preamble & segs & secs & m & Hseg & Hp & H1).
  { intros m number title sg s _ Hh Hm Hfin.
    apply V3_finalize_inv in Hfin as (_ & Hreqs & _).
    apply V3_requirements_inv in Hreqs as [Hat _].
    by apply V3_shall_texts in Hat. }
  exists preamble, segs. split.
  { apply segmentation_multiline; [apply stream_one_line|done]. }
  destruct (P3_sim_run (stream pages) (stream_one_line pages)
              V3.init_state P3.init_state)
    as (st & stp & Hr3 & Hrp & Hsim).
  { split_and!; [constructor|done|constructor]. }
  destruct (V2_P3_sections pages) as (secsp & mp & Hpp & H3).
  assert (H2 : Forall2 P3_same_section secs secsp).
  { unfold V3.parse, V3.parse_from in Hp. unfold P3.parse_sections in Hpp.
    rewrite V3_pages_as_stream, Hr3, bind_Ok in Hp.
    rewrite P3_pages_as_stream, Hrp, bind_Ok in Hpp.
    destruct (V3.close_current st) as [secs'|] eqn:Hc; [|done].
    destruct (P3.close_current stp) as [secsp'|] eqn:Hcp; [|done].
    rewrite bind_Ok in Hp. rewrite bind_Ok in Hpp. injection Hp as <- _. injection Hpp as <- _.
    by eapply P3_sim_close. }
  assert (H23 : Forall2 (λ s s2, ∃ p, P3_same_section s p
                                      ∧ V2_same_section p s2)
                  secs (V2.parse_sections pages)).
  { eapply Forall2_trans; [|exact H2|exact H3].
    intros s p s2 ? ?. by exists p. }
  eapply Forall2_trans; [|exact H1|exact H23].
  intros sg s s2 Hsg (p & Hsp & Hps2). cbn beta in *.
  destruct Hsp as (_ & _ & _ & _ & _ & _ & _ & _ & Hsh & _).
  destruct Hps2 as (_ & _ & _ & _ & _ & Hsh2 & _).
  by rewrite Hsh2, Hsh, Hsg.
Qed.

(** ** The hierarchy trees of [OCP_parser_2.py] and [ocpparser3.py] *)

Lemma headers_multiline (lines : list (Z * pystr)) :
  Forall (λ pl : Z * pystr, one_line pl.2) lines →
  headers P3.SECTION_PATTERN lines = headers V3.SECTION_PATTERN lines.
Proof.
  induction 1 as [|pl ls Hpl _ IH]; [done|].
  unfold headers in *. cbn [omap list_omap].
  by rewrite (header_of_multiline _ Hpl), IH.
Qed.

Lemma lines_through_one_line pages preamble segs i :
  stream pages = preamble ++ concat (seg_lines <$> segs) →
  Forall (λ pl : Z * pystr, one_line pl.2) (lines_through preamble segs i).
Proof.
  intros Hs. pose proof (stream_one_line pages) as Hall. rewrite Hs in Hall.
  rewrite <- (take_drop (S i) segs), fmap_app, concat_app in Hall.
  apply Forall_app in Hall as [Hpre Hall].
  apply Forall_app in Hall as [Hall _].
  unfold lines_through. by apply Forall_app.
Qed.

(** The tree of [OCP_parser_2.py]: all strict prefixes of the number. *)
Lemma V2_build_hierarchy_tree_eq (number : pystr) :
  let keys := (λ i, join [dot] (take i (split dot number)))
                <$> seq 1 (length (split dot number) - 1) in
  V2.ancestors (V2.build_hierarchy_tree number) = keys
  ∧ V2.parent (V2.build_hierarchy_tree number) = from_end 0 keys
  ∧ V2.grandparent (V2.build_hierarchy_tree number) = from_end 1 keys.
Proof.
  destruct (V1_build_hierarchy_tree_eq number) as (Ha & Hp & Hg).
  split_and!; [exact Ha|exact Hp|exact Hg].
Qed.

(** The two trees of the section closed with the title map [m]. *)
Lemma V2_tree_names_finalized m number (t3 : V3.HierarchyTree)
    (tp : P3.HierarchyTree) :
  V3.build_hierarchy_tree m number = Ok t3 →
  P3.parent tp = V3.parent t3 →
  P3.grandparent tp = V3.grandparent t3 →
  P3.ancestors tp = V3.ancestors t3 →
  V2_tree_names m number tp (V2.build_hierarchy_tree number).
Proof.
  rewrite V3_build_hierarchy_tree_eq. intros [= <-]. cbn.
  intros Hp Hg Ha.
  destruct (V2_build_hierarchy_tree_eq number) as (Ha2 & Hp2 & Hg2).
  cbn zeta in *. unfold V2_tree_names.
  rewrite Hp2, Hg2, Ha2, Hp, Hg, Ha.
  split_and!; [done| |done..]. apply loop_keys_all_prefixes.
Qed.

(** X12.  [OCP_parser_2.py] and [ocpparser3.py] cut every input into the
    same sections, with the same ids, titles, pages, anchors, shall
    sentences, raw contents and metadata; the hierarchy of
    [OCP_parser_2.py] is the bare number where [ocpparser3.py] has the
    number, a space and the title.  Their hierarchy trees differ in
    content and in shape.  The tree of [OCP_parser_2.py] is made from the
    number alone: its ancestors are all strict prefixes of the number,
    whether a section of that number exists or not, and [current] is the
    number.  The tree of [ocpparser3.py] names, of these prefixes, only
    those whose header has been seen up to the end of the section's
    segment, by the full name recorded last, and [current] is the
    section's full name.  So for a stream with the one header
    "3.1 Sub" the first parser reports the parent "3" and the second
    none. *)
Theorem V2_sections_are_P3_sections (pages : list Page) :
  (∃ preamble segs secsp m,
     segmentation P3.SECTION_PATTERN (stream pages) preamble segs
     ∧ P3.parse_sections pages = Ok (secsp, m)
     ∧ Forall2 V2_same_section secsp (V2.parse_sections pages)
     ∧ ∀ i p s,
         secsp !! i = Some p → V2.parse_sections pages !! i = Some s →
         P3.current (P3.hierarchy_tree p) = P3.hierarchy p
         ∧ V2_tree_names
             (title_map_of (headers P3.SECTION_PATTERN
                              (lines_through preamble segs i)))
             (V2.hierarchy s) (P3.hierarchy_tree p) (V2.hierarchy_tree s))
  ∧ (let one := [ {| page_number := 1; text := lit "3.1 Sub" |} ] in
     ∃ p m s,
       P3.parse_sections one = Ok ([p], m)
       ∧ V2.parse_sections one = [s]
       ∧ P3.parent (P3.hierarchy_tree p) = None
       ∧ P3.ancestors (P3.hierarchy_tree p) = []
       ∧ V2.parent (V2.hierarchy_tree s) = Some (lit "3")
       ∧ V2.ancestors (V2.hierarchy_tree s) = [lit "3"]).
Proof.
  split; [|eexists _, _, _; by vm_compute].
  destruct (segmentation_exists V3.SECTION_PATTERN (stream pages))
    as (preamble & segs & Hseg).
  destruct (V3_parse_sections_from _ _ _ Hseg) as (secs & m & Hp & Hfrom).
  destruct (V3_P3_parse_same pages) as (secs' & secsp & m' & Hp' & Hpp & H3p).
  rewrite Hp in Hp'. injection Hp' as <- <-.
  destruct (V2_P3_sections pages) as (secsp' & mp & Hpp' & Hp2).
  rewrite Hpp in Hpp'. injection Hpp' as <- <-.
  exists preamble, segs, secsp, m. split_and!; [|done|done|].
  { apply (segmentation_multiline _ _ _ (stream_one_line pages) Hseg). }
  intros i p s Hip His.
  destruct (Forall2_lookup_r _ _ _ _ _ H3p Hip) as (s3 & Hi3 & Hsame3).
  pose proof (V3_sections_from_length _ _ _ Hfrom) as Hlen.
  destruct (lookup_lt_is_Some_2 segs i) as [sg Hisg].
  { rewrite Hlen. by eapply lookup_lt_Some. }
  pose proof Hseg as (Hstream & Hpre & Hsegs).
  destruct (V3_sections_from_lookup _ _ _ Hfrom Hsegs i sg s3 Hisg Hi3)
    as (number & title & Hh & Hfin).
  rewrite (headers_multiline _ (lines_through_one_line _ _ _ i Hstream)).
  rewrite (title_map_through _ _ _ Hpre).
  assert (Hown : foldl (λ (m : gmap pystr pystr) h, <[h.1 := h.2]> m) ∅
                   (headers V3.SECTION_PATTERN
                      (concat (seg_lines <$> take (S i) segs))) !! number
                 = Some (full_name number title)).
  { rewrite (take_S_r _ _ _ Hisg), fmap_app, concat_app, headers_app.
    cbn [fmap list_fmap concat]. rewrite app_nil_r.
    apply Forall_lookup_1 with (i := i) (x := sg) in Hsegs as [_ Hc]; [|done].
    rewrite (headers_seg_lines _ _ _ _ Hh Hc), foldl_app. cbn [foldl fst snd].
    apply lookup_insert_eq. }
  destruct (V3_finalize_tree _ _ _ _ _ Hown Hfin) as (Hcur & Hhier & _).
  apply V3_finalize_inv in Hfin as (Htree & _ & _ & _ & Htitle & _).
  cbn [V3_data V3.d_number V3.d_title] in Htree, Htitle.
  destruct Hsame3 as (_ & Hh3 & Ht3 & _ & Hc3 & Hp3 & Hg3 & Ha3 & _).
  pose proof (Forall2_lookup_lr _ _ _ _ _ _ Hp2 Hip His) as Hsame2.
  destruct Hsame2 as (_ & Hh2 & Ht2 & _).
  assert (Hnum : V2.hierarchy s = number).
  { rewrite Hh3, Hhier, Ht2, Ht3, Htitle in Hh2. unfold full_name in Hh2.
    rewrite !app_assoc in Hh2. apply app_inv_tail in Hh2.
    by apply app_inv_tail in Hh2. }
  split; [by rewrite Hc3, Hh3|].
  pose proof (V2_parse_finalized pages) as Hfinal.
  rewrite Forall_forall in Hfinal.
  destruct (Hfinal s) as (c & ->); [by eapply list_elem_of_lookup_2|].
  cbn [V2._finalize_section V2.hierarchy V2.hierarchy_tree] in *.
  rewrite Hnum. by eapply V2_tree_names_finalized.
Qed.

(** X13.  [generate_statistics] of [OCP_parser_2.py], applied to what
    [parse_sections] returns: [total_sections] is the number of header
    lines of the input; [total_requirements] is the number of lines with
    "shall" among the content lines of the segments, so a header line or a
    line before the first header is never counted, and it equals the sum
    of the sections' requirement counts; [max_hierarchy_depth] is 0
    exactly when no section was found, and otherwise it is the depth of
    some section, at least 1 and not exceeded by any section. *)
Theorem V2_statistics_of_parse (pages : list Page) :
  let secs := V2.parse_sections pages in
  let stats := V2.generate_statistics secs in
  V2.total_sections stats
  = length (filter (λ pl, is_header V2.SECTION_PATTERN pl.2 = true)
              (stream pages))
  ∧ (∃ preamble segs,
       segmentation V2.SECTION_PATTERN (stream pages) preamble segs
       ∧ V2.total_requirements stats
         = sum_list ((λ sg, length (filter has_shall (snd <$> seg_content sg)))
                       <$> segs))
  ∧ V2.total_requirements stats
    = sum_list ((λ s, V2.requirement_count (V2.metadata s)) <$> secs)
  ∧ V2.total_references stats
    = sum_list ((λ s, V2.reference_count (V2.metadata s)) <$> secs)
  ∧ (V2.max_hierarchy_depth stats = 0 ↔ secs = [])
  ∧ Forall (λ s, 1 ≤ V2.depth (V2.metadata s)
                 ∧ V2.depth (V2.metadata s) ≤ V2.max_hierarchy_depth stats)
      secs
  ∧ (secs ≠ [] →
     ∃ s, s ∈ secs
          ∧ V2.depth (V2.metadata s) = V2.max_hierarchy_depth stats).
Proof.
  intros secs stats.
  pose proof (V2_parse_finalized pages) as Hfin. fold secs in Hfin.
  destruct (V2_shall_sentences_by_segment pages)
    as (preamble & segs & Hseg & Hsh). fold secs in Hsh.
  assert (Hdepth : Forall (λ s, 1 ≤ V2.depth (V2.metadata s)) secs).
  { eapply Forall_impl; [exact Hfin|]. intros s [c ->].
    by destruct (V2_finalize_depth c) as (? & _). }
  assert (Hle : Forall (λ s, V2.depth (V2.metadata s)
                             ≤ V2.max_hierarchy_depth stats) secs).
  { apply Forall_forall. intros s Hs. cbn.
    apply max_list_elem_of_le.
    by apply (list_elem_of_fmap_2 (λ s, V2.depth (V2.metadata s))). }
  split_and!.
  - change (V2.total_sections stats) with (length secs).
    rewrite <- (segmentation_count _ _ _ _ Hseg).
    symmetry. by eapply Forall2_length.
  - exists preamble, segs. split; [done|]. cbn.
    clear -Hsh. induction Hsh as [|sg s segs secs Hs _ IH]; [done|].
    rewrite !fmap_cons. cbn [sum_list sum_list_with]. by rewrite Hs, IH.
  - cbn. clear -Hfin. induction Hfin as [|s secs [c ->] _ IH]; [done|].
    rewrite !fmap_cons. cbn [sum_list sum_list_with]. rewrite IH.
    by destruct (V2_finalize_depth c) as (_ & -> & _).
  - cbn. clear -Hfin. induction Hfin as [|s secs [c ->] _ IH]; [done|].
    rewrite !fmap_cons. cbn [sum_list sum_list_with]. rewrite IH.
    by destruct (V2_finalize_depth c) as (_ & _ & ->).
  - split; [|by intros ->].
    intros H0. destruct secs as [|s secs'] eqn:E; [done|].
    apply Forall_cons in Hdepth as [H1 _]. apply Forall_cons in Hle as [H2 _].
    lia.
  - rewrite Forall_forall in Hdepth, Hle. apply Forall_forall.
    intros s Hs. split; auto.
  - intros Hne. cbn.
    assert (Hne' : (λ s, V2.depth (V2.metadata s)) <$> secs ≠ []).
    { by destruct secs. }
    apply max_list_elem_of in Hne'.
    apply list_elem_of_fmap in Hne' as (s & Hs & Hin). by exists s.
Qed.

End side_by_side.


(** * [OCP_parser.py] *)

Section V1_facts.
Import Py Re Lang Spec Agree.

(** ** The numeric hierarchy tree *)

Lemma split_elems_no_sep sep s : Forall (λ p, sep ∉ p) (split sep s).
Proof.
  induction s as [|c s IH]; simpl.
  - repeat constructor. by intros ?%elem_of_nil.
  - destruct (eqc c sep) eqn:E.
    + constructor; [by intros ?%elem_of_nil|done].
    + destruct (split sep s) as [|p ps]; [repeat constructor|].
      * intros [Heq|?%elem_of_nil]%elem_of_cons; [|done].
        symmetry in Heq. apply eqc_true in Heq. congruence.
      * apply Forall_cons in IH as [Hp Hps]. constructor; [|done].
        intros [Heq|?]%elem_of_cons; [|done].
        symmetry in Heq. apply eqc_true in Heq. congruence.
Qed.

Lemma split_join sep (ps : list pystr) :
  ps ≠ [] → Forall (λ p, sep ∉ p) ps → split sep (join [sep] ps) = ps.
Proof.
  intros Hne Hl. induction Hl as [|l lines Hl Hls IH]; [done|].
  destruct lines as [|l' lines].
  - simpl. by apply split_no_sep.
  - rewrite join_cons by done. rewrite split_app.
    rewrite (split_no_sep _ _ Hl). cbn [app]. by rewrite IH.
Qed.

Lemma split_snoc sep s :
  ∃ ps lastc, split sep s = ps ++ [lastc].
Proof.
  pose proof (split_nonnil sep s) as Hne.
  destruct (split sep s) as [|p ps _] using rev_ind; [done|].
  by exists ps, p.
Qed.

(** X14.  The hierarchy tree of [OCP_parser.py] (and of [OCP_parser_2.py],
    which has the same function) is built from the number alone.  A number
    without dot has no parent and no ancestors.  Otherwise the number is
    its parent, a dot and a last component without dot; the ancestors are
    the ancestors of the parent followed by the parent, so there are as
    many as dots; and the grandparent is the parent of the parent. *)
Theorem V1_tree_round_trip (hierarchy : pystr) :
  let t := V1.build_hierarchy_tree hierarchy in
  V1.current t = hierarchy
  ∧ length (V1.ancestors t) = length (filter (λ c, c = dot) hierarchy)
  ∧ (V1.parent t = None ↔ dot ∉ hierarchy)
  ∧ (V1.parent t = None → V1.ancestors t = [] ∧ V1.grandparent t = None)
  ∧ (∀ p, V1.parent t = Some p →
       (∃ lastc, (dot ∉ lastc) ∧ hierarchy = p ++ dot :: lastc)
       ∧ V1.ancestors t = V1.ancestors (V1.build_hierarchy_tree p) ++ [p]
       ∧ V1.grandparent t = V1.parent (V1.build_hierarchy_tree p))
  ∧ V2.current (V2.build_hierarchy_tree hierarchy) = V1.current t
  ∧ V2.parent (V2.build_hierarchy_tree hierarchy) = V1.parent t
  ∧ V2.grandparent (V2.build_hierarchy_tree hierarchy) = V1.grandparent t
  ∧ V2.ancestors (V2.build_hierarchy_tree hierarchy) = V1.ancestors t.
Proof.
  cbn zeta. unfold V1.build_hierarchy_tree, V2.build_hierarchy_tree.
  cbn [V1.current V1.parent V1.grandparent V1.ancestors
       V2.current V2.parent V2.grandparent V2.ancestors].
  unfold V1.drop_last. change (lit ".") with [dot].
  pose proof (split_count dot hierarchy) as Hcount.
  pose proof (split_elems_no_sep dot hierarchy) as Hnodot.
  pose proof (join_split dot hierarchy) as Hjoin.
  destruct (split_snoc dot hierarchy) as (ps & lastc & Hparts).
  rewrite Hparts in *. rewrite length_app in *. cbn [length] in *.
  apply Forall_app in Hnodot as [Hps Hlast].
  apply Forall_cons in Hlast as [Hlast _].
  split; [done|]. split; [rewrite length_fmap, length_seq; lia|].
  split.
  { destruct ps as [|p0 ps].
    - split; [intros _|done]. simpl in Hjoin. by rewrite <- Hjoin.
    - cbn [length]. replace (1 <? S (length ps) + 1) with true
        by (symmetry; apply Nat.ltb_lt; lia).
      split; [done|]. intros Hn. exfalso. apply Hn.
      rewrite <- Hjoin. rewrite join_app by done.
      apply elem_of_app. right. by left. }
  split.
  { destruct ps as [|p0 ps]; [done|].
    cbn [length]. replace (1 <? S (length ps) + 1) with true
      by (symmetry; apply Nat.ltb_lt; lia).
    done. }
  split; [|done].
  intros p. destruct ps as [|p0 ps]; [done|].
  remember (p0 :: ps) as qs eqn:Hqs.
  assert (Hq : length qs = S (length ps)) by by rewrite Hqs.
  replace (1 <? length qs + 1) with true
    by (symmetry; apply Nat.ltb_lt; lia).
  replace (length qs + 1 - 1) with (length qs) by lia.
  rewrite take_app_length. intros [= <-].
  assert (Hqne : qs ≠ []) by by rewrite Hqs.
  split_and!.
  - exists lastc. split; [done|].
    rewrite <- Hjoin at 1. by rewrite join_app.
  - rewrite (split_join dot qs Hqne Hps).
    replace (length qs - 1) with (length ps) by lia.
    replace (seq 0 (length qs)) with (seq 0 (S (length ps))) by by rewrite Hq.
    rewrite seq_S, fmap_app. cbn [fmap list_fmap Nat.add]. f_equal.
    + apply list_fmap_ext. intros k i Hi.
      apply lookup_seq in Hi as [-> Hi]. cbn [Nat.add].
      by rewrite take_app_le by lia.
    + replace (length ps + 1) with (length qs) by lia.
      by rewrite take_app_length.
  - rewrite (split_join dot qs Hqne Hps).
    replace (length qs + 1 - 2) with (length qs - 1) by lia.
    rewrite take_app_le by lia.
    destruct (2 <? length qs + 1) eqn:E1, (1 <? length qs) eqn:E2; try done.
    + apply Nat.ltb_lt in E1. apply Nat.ltb_ge in E2. lia.
    + apply Nat.ltb_ge in E1. apply Nat.ltb_lt in E2. lia.
Qed.

(** ** The section loop *)

Lemma V1_while_loop lines pn :
  ∀ fuel i st,
    length lines - i ≤ fuel →
    V1P.while_loop fuel lines pn (Z.of_nat i) st
    = Ok (foldl (V1P.parse_line pn) st (drop i lines)).
Proof.
  induction fuel as [|fuel IH]; intros i st Hfuel.
  - rewrite drop_ge by lia. done.
  - cbn [V1P.while_loop].
    destruct (Z.of_nat i <? Z.of_nat (length lines))%Z eqn:Hlt.
    + apply Z.ltb_lt in Hlt.
      destruct (lines !! i) as [raw|] eqn:Hraw.
      2:{ apply lookup_ge_None in Hraw. lia. }
      rewrite (getitem_nat _ _ _ Hraw), bind_Ok.
      replace (Z.of_nat i + 1)%Z with (Z.of_nat (S i)) by lia.
      rewrite IH by lia. by rewrite (drop_S _ _ _ Hraw).
    + apply Z.ltb_ge in Hlt. rewrite drop_ge by lia. done.
Qed.

Lemma V1_parse_page st page :
  V1P.parse_page st page
  = Ok (foldl (V1P.parse_line (page_number page)) st
          (split newline (text page))).
Proof.
  unfold V1P.parse_page.
  by rewrite (V1_while_loop _ _ _ 0 st), drop_0 by lia.
Qed.

Lemma V1_pages_as_stream pages st :
  for_each V1P.parse_page pages st
  = Ok (foldl (λ st pl, V1P.parse_line pl.1 st pl.2) st (V1_stream pages)).
Proof.
  revert st. induction pages as [|p pages IH]; intros st; [done|].
  unfold V1_stream. rewrite bind_cons. fold (V1_stream pages).
  cbn [for_each]. rewrite V1_parse_page, bind_Ok, IH, foldl_app.
  do 2 f_equal. generalize (split newline (text p)). intros ls.
  revert st. induction ls as [|l ls IHl]; intros st; [done|].
  rewrite fmap_cons. cbn [foldl]. by rewrite IHl.
Qed.

(** *** Stripping *)

Lemma lstrip_nonspace c s : is_space c = false → lstrip (c :: s) = c :: s.
Proof. intros H. simpl. by rewrite H. Qed.

Lemma lstrip_app_nonspace a c s :
  is_space c = false → lstrip (a ++ c :: s) = lstrip a ++ c :: s.
Proof.
  intros Hc. induction a as [|x a IH]; simpl; [by rewrite Hc|].
  by destruct (is_space x).
Qed.

Lemma lstrip_head s :
  lstrip s = [] ∨ ∃ c s', lstrip s = c :: s' ∧ is_space c = false.
Proof.
  induction s as [|x s IH]; [by left|]. simpl.
  destruct (is_space x) eqn:E; [done|]. right. by exists x, s.
Qed.

Lemma lstrip_idemp s : lstrip (lstrip s) = lstrip s.
Proof.
  destruct (lstrip_head s) as [->|(c & s' & -> & Hc)]; [done|].
  by apply lstrip_nonspace.
Qed.

Lemma rstrip_cons_nonspace c s :
  is_space c = false → rstrip (c :: s) = c :: rstrip s.
Proof.
  intros Hc. unfold rstrip.
  rewrite reverse_cons, (lstrip_app_nonspace _ c [] Hc).
  by rewrite reverse_app.
Qed.

Lemma rstrip_snoc_nonspace s c :
  is_space c = false → rstrip (s ++ [c]) = s ++ [c].
Proof.
  intros Hc. unfold rstrip.
  rewrite reverse_app. cbn [reverse app]. rewrite reverse_singleton.
  cbn [app lstrip]. rewrite Hc.
  by rewrite reverse_cons, reverse_involutive.
Qed.

Lemma rstrip_idemp s : rstrip (rstrip s) = rstrip s.
Proof. unfold rstrip. by rewrite reverse_involutive, lstrip_idemp. Qed.

Lemma strip_idemp s : strip (strip s) = strip s.
Proof.
  unfold strip.
  destruct (lstrip_head s) as [->|(c & s' & -> & Hc)]; [done|].
  rewrite (rstrip_cons_nonspace _ _ Hc), (lstrip_nonspace _ _ Hc).
  by rewrite (rstrip_cons_nonspace _ _ Hc), rstrip_idemp.
Qed.

Lemma strip_cons_nonspace c s :
  is_space c = false → strip (c :: s) = c :: rstrip s.
Proof.
  intros Hc. unfold strip.
  by rewrite (lstrip_nonspace _ _ Hc), (rstrip_cons_nonspace _ _ Hc).
Qed.

(** *** The header pattern *)

Lemma lang_number_tail_last v :
  lang (Star (Seq (chr ".") (plus digit))) v →
  v = [] ∨ ∃ v' d, v = v' ++ [d] ∧ is_digit d = true.
Proof.
  intros Hv. remember (Star (Seq (chr ".") (plus digit))) as r eqn:Hr.
  induction Hv as [| | | | | |a u' v' Hu' _ Hv' IH| | | |]; try discriminate.
  - by left.
  - injection Hr as ->. right.
    destruct (IH eq_refl) as [->|(w & d & -> & Hd)].
    + rewrite app_nil_r.
      inversion Hu' as [| |? ? u1 u2 Hu1 Hu2| | | | | | | |]; subst.
      apply lang_plus_chr in Hu2 as [Hne Hd2].
      destruct u2 as [|x u2 _] using rev_ind; [done|].
      apply Forall_app in Hd2 as [_ Hx]. apply Forall_cons in Hx as [Hx _].
      exists (u1 ++ u2), x. by rewrite app_assoc.
    + exists (u' ++ w), d. by rewrite app_assoc.
Qed.

Lemma lang_number_last w :
  lang number_pattern w → ∃ w' d, w = w' ++ [d] ∧ is_digit d = true.
Proof.
  intros H. inversion H as [| |? ? u v Hu Hv| | | | | | | |]; subst.
  apply lang_number_tail_last in Hv as [->|(v' & d & -> & Hd)].
  - rewrite app_nil_r. apply lang_plus_chr in Hu as [Hne Hd].
    destruct u as [|x u _] using rev_ind; [done|].
    apply Forall_app in Hd as [_ Hx]. apply Forall_cons in Hx as [Hx _].
    by exists u, x.
  - exists (u ++ v'), d. by rewrite app_assoc.
Qed.

Lemma rstrip_char_number w o :
  lang number_pattern w → o = [] ∨ o = ["."%char] →
  V1P.rstrip_char "." (w ++ o) = w.
Proof.
  intros (w' & d & -> & Hd)%lang_number_last Ho.
  assert (Hnd : eqc d "." = false).
  { destruct (eqc d ".") eqn:E; [|done]. apply eqc_true in E. by subst. }
  unfold V1P.rstrip_char.
  destruct Ho as [->| ->].
  - rewrite app_nil_r, reverse_app, reverse_singleton.
    cbn [app V1P.lstrip_char]. rewrite Hnd.
    by rewrite reverse_cons, reverse_involutive.
  - rewrite !reverse_app, !reverse_singleton.
    cbn [app V1P.lstrip_char].
    replace (eqc "."%char "."%char) with true
      by (symmetry; by apply eqc_true).
    rewrite Hnd. by rewrite reverse_cons, reverse_involutive.
Qed.

Lemma two_groups ml A S B line m :
  groupless A = true → groupless S = true → groupless B = true →
  rematch (seqs [Bol ml; Group 1 A; S; Group 2 B]) line = Some m →
  ∃ gap tail,
    line = group 1 m ++ gap ++ group 2 m ++ tail
    ∧ lang A (group 1 m) ∧ lang S gap ∧ lang B (group 2 m).
Proof.
  intros GA GS GB. unfold rematch, attempt. cbn [seqs run].
  destruct (at_bol ml _); [|done].
  destruct (run A _ _) as [st|] eqn:Hrun; [|done]. intros [= <-].
  apply run_shaped in Hrun as (w1 & st1 & H1 & Hr1 & Hp1 & Hg1 & Hrun).
  apply run_shaped in Hrun as (w2 & st2 & H2 & Hr2 & Hp2 & Hg2 & Hrun).
  apply run_shaped in Hrun as (w3 & st3 & H3 & Hr3 & Hp3 & Hg3 & Hrun).
  cbn [m_rest m_pos m_groups set_group andb] in *.
  specialize (Hg1 GA). specialize (Hg2 GS). specialize (Hg3 GB).
  injection Hrun as <-.
  unfold group. cbn [r_groups r_subject m_groups set_group m_pos].
  rewrite Hg3, Hg2, Hg1. cbn [assoc_span Nat.eqb].
  assert (Hline : line = w1 ++ w2 ++ w3 ++ m_rest st3).
  { by rewrite Hr1, Hr2, Hr3. }
  assert (E1 : slice 0 (m_pos st1) line = w1).
  { rewrite Hline, Hp1. apply (slice_middle [] w1). }
  assert (E3 : slice (m_pos st2) (m_pos st3) line = w3).
  { rewrite Hline, Hp3, Hp2, Hp1. cbn [Nat.add].
    rewrite (app_assoc w1 w2), <- length_app. apply slice_middle. }
  rewrite E1, E3. by exists w2, (m_rest st3).
Qed.

(** What a header match of [OCP_parser.py] gives for number and title. *)
Lemma V1_header_groups line m :
  rematch V1P.SECTION_PATTERN line = Some m →
  number_shape (V1P.rstrip_char "." (group 1 m))
  ∧ ∃ c rest, group 2 m = c :: rest ∧ is_upper c = true.
Proof.
  unfold V1P.SECTION_PATTERN. intros H.
  apply two_groups in H as (gap & tail & _ & H1 & _ & H3); [|done..].
  apply lang_seqs_cons in H1 as (u1 & v1 & E1 & Hu1 & H1).
  apply lang_seqs_cons in H1 as (u2 & v2 & -> & Hu2 & H1).
  apply lang_seqs_cons in H1 as (u3 & v3 & -> & Hu3 & ->%lang_eps_inv).
  rewrite app_nil_r in E1. rewrite E1.
  assert (Hnum : lang number_pattern (u1 ++ u2)) by by constructor.
  assert (Hdots : u3 = [] ∨ u3 = ["."%char]).
  { inversion Hu3 as [| | |? ? ? Hl|? ? ? Hr| | | | | |]; subst.
    - right. by apply lang_chr_lit in Hl.
    - left. by apply lang_eps_inv in Hr. }
  rewrite app_assoc, (rstrip_char_number _ _ Hnum Hdots).
  split; [by apply lang_number|].
  assert (Hseq : ∃ a b, group 2 m = a ++ b ∧ lang (Chr is_upper) a).
  { inversion H3 as [| |? ? a b Ha Hb| | | | | | | |]. by exists a, b. }
  destruct Hseq as (a & b & -> & Ha).
  apply lang_chr_inv in Ha as (c & -> & Hc). by exists c, b.
Qed.

Lemma upper_not_space x : is_upper x = true → is_space x = false.
Proof.
  intros Hx. apply andb_true_iff in Hx as [Hx1 Hx2].
  apply Nat.leb_le in Hx1, Hx2. unfold is_space, in_range.
  repeat (apply orb_false_iff; split);
    try (apply andb_false_iff; (left; apply Nat.leb_gt; lia)
                               || (right; apply Nat.leb_gt; lia));
    apply Nat.eqb_neq; lia.
Qed.

Lemma is_lower_not_space x : is_lower x = true → is_space x = false.
Proof.
  intros Hx. apply andb_true_iff in Hx as [Hx1 Hx2].
  apply Nat.leb_le in Hx1, Hx2. unfold is_space, in_range.
  repeat (apply orb_false_iff; split);
    try (apply andb_false_iff; (left; apply Nat.leb_gt; lia)
                               || (right; apply Nat.leb_gt; lia));
    apply Nat.eqb_neq; lia.
Qed.

(** A character that is a lower-case letter once lowered is a letter. *)
Lemma lower_letter_not_space c :
  is_lower (lower c) = true → is_space c = false.
Proof.
  unfold lower. destruct (is_upper c) eqn:E.
  - intros _. by apply upper_not_space.
  - apply is_lower_not_space.
Qed.

Lemma V1_finalize_well_formed c :
  number_shape (V1.d_hierarchy c) →
  (∃ x rest, V1.d_title c = x :: rest ∧ is_upper x = true) →
  strip (V1.d_title c) = V1.d_title c →
  let s := V1._finalize_section c in
  number_shape (V1.hierarchy s)
  ∧ (∃ x rest, V1.title s = x :: rest ∧ is_upper x = true)
  ∧ strip (V1.title s) = V1.title s
  ∧ V1.current (V1.hierarchy_tree s) = V1.hierarchy s
  ∧ V1.id s = lit "section_" ++ replace "." "_" (V1.hierarchy s)
  ∧ length (V1.raw_content s) ≤ 1003
  ∧ (V1.content_length (V1.metadata s) ≤ 1000 →
     length (V1.raw_content s) = V1.content_length (V1.metadata s)).
Proof.
  intros H1 H2 H3. cbn zeta. unfold V1._finalize_section.
  cbn [V1.hierarchy V1.title V1.hierarchy_tree V1.id V1.raw_content
       V1.metadata V1.content_length V1.current V1.build_hierarchy_tree].
  split_and!; [done..| |].
  - rewrite length_app, length_take.
    destruct (1000 <? length (strip (V1.d_content c)));
      [change (length (lit "...")) with 3|cbn [length]]; lia.
  - intros Hle. rewrite length_app, length_take.
    replace (1000 <? length (strip (V1.d_content c))) with false
      by (symmetry; apply Nat.ltb_ge; lia).
    cbn [length]. lia.
Qed.

(** X15.  [parse_sections] of [OCP_parser.py] never raises: the index of
    its [while] loop stays within the lines of the page.  It returns one
    section per line that, stripped of surrounding whitespace, matches the
    header pattern.  In every section the hierarchy is a well-formed
    number, non-empty runs of digits separated by single dots, a final
    dot of the header being dropped; the title starts with an upper-case
    ASCII letter and has no surrounding whitespace; [current] is the
    hierarchy; and the raw content has at most 1003 characters, the whole
    stripped content when that has at most 1000. *)
Theorem V1_sections_well_formed (pages : list Page) :
  ∃ secs,
    V1P.parse_sections pages = Ok secs
    ∧ length secs
      = length (filter (λ pl, is_some (rematch V1P.SECTION_PATTERN
                                         (strip pl.2)) = true)
                  (V1_stream pages))
    ∧ Forall
        (λ s, number_shape (V1.hierarchy s)
              ∧ (∃ x rest, V1.title s = x :: rest ∧ is_upper x = true)
              ∧ strip (V1.title s) = V1.title s
              ∧ V1.current (V1.hierarchy_tree s) = V1.hierarchy s
              ∧ V1.id s = lit "section_" ++ replace "." "_" (V1.hierarchy s)
              ∧ length (V1.raw_content s) ≤ 1003
              ∧ (V1.content_length (V1.metadata s) ≤ 1000 →
                 length (V1.raw_content s)
                 = V1.content_length (V1.metadata s)))
        secs.
Proof.
  unfold V1P.parse_sections. rewrite V1_pages_as_stream, bind_Ok.
  eexists. split; [done|].
  set (WF := λ s : V1.Section, _ ∧ _).
  set (WFd := λ c : V1.SectionData,
         number_shape (V1.d_hierarchy c)
         ∧ (∃ x rest, V1.d_title c = x :: rest ∧ is_upper x = true)
         ∧ strip (V1.d_title c) = V1.d_title c).
  set (hdr := λ pl : Z * pystr,
         is_some (rematch V1P.SECTION_PATTERN (strip pl.2)) = true).
  set (Inv := λ (n : nat) (st : V1P.PState),
         Forall WF (V1P.sections st)
         ∧ match V1P.cur st with
           | Some c => WFd c ∧ n = S (length (V1P.sections st))
           | None => n = length (V1P.sections st)
           end).
  assert (Hclose : ∀ n st, Inv n st →
            length (V1P.close_current st) = n
            ∧ Forall WF (V1P.close_current st)).
  { intros n st [Hsecs Hcur]. unfold V1P.close_current.
    destruct (V1P.cur st) as [c|]; [|done].
    destruct Hcur as [(H1 & H2 & H3) ->].
    rewrite length_app. split; [simpl; lia|].
    apply Forall_app. split; [done|]. constructor; [|constructor].
    by apply V1_finalize_well_formed. }
  assert (Hrun : ∀ ls n st, Inv n st →
            Inv (n + length (filter hdr ls))
              (foldl (λ st pl, V1P.parse_line pl.1 st pl.2) st ls)).
  { induction ls as [|pl ls IH]; intros n st Hst.
    { simpl. by rewrite Nat.add_0_r. }
    cbn [foldl]. rewrite filter_cons.
    destruct (decide (hdr pl)) as [Hd|Hd]; unfold hdr in Hd;
      unfold V1P.parse_line at 2;
      destruct (rematch V1P.SECTION_PATTERN (strip pl.2)) as [m|] eqn:Hm;
      try done.
    - cbn [length].
      replace (n + S (length (filter hdr ls)))
        with (S n + length (filter hdr ls)) by lia.
      apply IH. destruct (Hclose n st Hst) as [Hlen Hall].
      split; [done|]. cbn [V1P.cur V1P.sections V1.d_hierarchy V1.d_title].
      rewrite Hlen. split; [|done].
      apply V1_header_groups in Hm as [Hn (x & rest & -> & Hx)].
      pose proof (upper_not_space _ Hx) as Hsp.
      unfold WFd. cbn [V1.d_hierarchy V1.d_title].
      split_and!; [done| |apply strip_idemp].
      rewrite (strip_cons_nonspace _ _ Hsp). by eexists _, _.
    - apply IH.
      destruct Hst as [Hsecs Hcur]. destruct (V1P.cur st) as [c|] eqn:Ec.
      + split; [done|]. exact Hcur.
      + split; [done|]. by rewrite Ec. }
  specialize (Hrun (V1_stream pages) 0
                {| V1P.sections := []; V1P.cur := None |}).
  apply Hclose in Hrun; [done|]. split; [constructor|done].
Qed.

(** ** Requirement sentences *)

Lemma lstrip_suffix s : ∃ sp, s = sp ++ lstrip s.
Proof.
  induction s as [|c s (sp & IH)]; [by exists []|]. simpl.
  destruct (is_space c); [|by exists []].
  exists (c :: sp). by rewrite IH at 1.
Qed.

Lemma shall_chars w :
  lang (word_i "shall") w →
  (∃ c w', w = c :: w' ∧ is_space c = false)
  ∧ Forall (λ c, c ∉ lit ".!?") w.
Proof.
  intros H.
  assert (Hall : Forall (λ c, is_lower (lower c) = true) w).
  { apply Forall_forall. intros c Hc.
    apply (lang_word_i_elem _ _ _ H) in Hc. cbn in Hc.
    repeat (apply elem_of_cons in Hc as [->|Hc]; [done|]).
    by apply elem_of_nil in Hc. }
  split.
  - destruct w as [|c w']; [by apply lang_word_i_length in H|].
    exists c, w'. split; [done|].
    apply Forall_cons in Hall as [Hc _]. by apply lower_letter_not_space.
  - eapply Forall_impl; [exact Hall|]. intros c Hc Hin.
    assert (c = "."%char ∨ c = "!"%char ∨ c = "?"%char) as [->|[->| ->]];
      [|done..].
    repeat (apply elem_of_cons in Hin as [->|Hin]; [tauto|]).
    by apply elem_of_nil in Hin.
Qed.

Lemma terminator_not_space t : t ∈ lit ".!?" → is_space t = false.
Proof.
  intros Hin.
  repeat (apply elem_of_cons in Hin as [->|Hin]; [done|]).
  by apply elem_of_nil in Hin.
Qed.

(** The form of a match of the sentence pattern. *)
Lemma V1_shall_lang s :
  lang V1.SHALL_PATTERN s →
  ∃ pre w post t,
    s = pre ++ w ++ post ++ [t]
    ∧ (∃ c w', w = c :: w' ∧ is_space c = false)
    ∧ t ∈ lit ".!?"
    ∧ Forall (λ c, c ∉ lit ".!?") (pre ++ w ++ post).
Proof.
  unfold V1.SHALL_PATTERN. intros Hl.
  apply lang_seqs_cons in Hl as (pre & v1 & -> & Hpre%lang_star_none_of & Hl).
  apply lang_seqs_cons in Hl as (u2 & v2 & -> & ->%lang_wordb_inv & Hl).
  apply lang_seqs_cons in Hl as (w & v3 & -> & [Hw1 Hw2]%shall_chars & Hl).
  apply lang_seqs_cons in Hl as (u4 & v4 & -> & ->%lang_wordb_inv & Hl).
  apply lang_seqs_cons in Hl as (post & v5 & -> & Hpost%lang_star_none_of & Hl).
  apply lang_seqs_cons in Hl as (u6 & v6 & -> & Ht & ->%lang_eps_inv).
  apply lang_chr_inv in Ht as (t & -> & Ht).
  exists pre, w, post, t. cbn [app].
  split_and!; [done|done|by apply existsb_eqc|].
  apply Forall_app. split; [done|]. by apply Forall_app.
Qed.

Lemma strip_sentence pre w post t :
  (∃ c w', w = c :: w' ∧ is_space c = false) →
  is_space t = false →
  strip (pre ++ w ++ post ++ [t]) = lstrip pre ++ w ++ post ++ [t].
Proof.
  intros (c & w' & -> & Hc) Ht. unfold strip.
  cbn [app]. rewrite (lstrip_app_nonspace pre c _ Hc).
  rewrite !app_comm_cons, !app_assoc.
  by apply rstrip_snoc_nonspace.
Qed.

(** X16.  Every requirement sentence that [extract_shall_sentences] of
    [OCP_parser.py] returns is a piece of the text; it ends with ".", "!"
    or "?", and this is the only such character in it, so a sentence
    never runs over a full stop, a question mark or an exclamation mark;
    it has no surrounding whitespace and more than 15 characters. *)
Theorem V1_shall_sentence_shape (text : pystr) :
  Forall (λ x, ∃ body t,
            x = body ++ [t]
            ∧ t ∈ lit ".!?"
            ∧ Forall (λ c, c ∉ lit ".!?") body
            ∧ strip x = x
            ∧ 15 < length x
            ∧ occurs_in x text)
    (V1.extract_shall_sentences text).
Proof.
  apply Forall_forall. intros x Hx.
  unfold V1.extract_shall_sentences in Hx.
  rewrite fromkeys_first_occurrences, elem_of_first_occurrences in Hx.
  apply list_elem_of_fmap in Hx as (s & -> & Hs).
  apply list_elem_of_filter in Hs as [Hlen Hs].
  pose proof (findall_shape V1.SHALL_PATTERN text) as Hall.
  rewrite Forall_forall in Hall. destruct (Hall _ Hs) as [Hl Hocc].
  apply V1_shall_lang in Hl as (pre & w & post & t & -> & Hfirst & Ht & Hno).
  pose proof (terminator_not_space _ Ht) as Hts.
  rewrite (strip_sentence _ _ _ _ Hfirst Hts) in *.
  exists (lstrip pre ++ w ++ post), t.
  split_and!; [by rewrite <- !app_assoc|done| | | |].
  - destruct (lstrip_suffix pre) as (sp & Hsp).
    rewrite Hsp in Hno. by rewrite <- app_assoc in Hno;
      apply Forall_app in Hno as [_ Hno].
  - rewrite <- (strip_sentence _ _ _ _ Hfirst Hts). apply strip_idemp.
  - done.
  - destruct Hocc as (a & b & ->).
    destruct (lstrip_suffix pre) as (sp & Hsp).
    exists (a ++ sp), b. rewrite Hsp at 1. by rewrite <- !app_assoc.
Qed.

(** ** Anchors taken from a whole section *)

Lemma lang_seqs_suffix (front : list regex) (a : pystr) :
  lang (seqs (front ++ [plus space; plus V1.digit_or_dot])) a →
  ∃ words gap number,
    a = words ++ gap ++ number
    ∧ gap ≠ [] ∧ blank gap
    ∧ number ≠ [] ∧ Forall (λ c, is_digit c = true ∨ c = dot) number.
Proof.
  revert a. induction front as [|r front IH]; intros a Hl.
  - cbn [app] in Hl.
    apply lang_seqs_cons in Hl as (gap & v & -> & Hg & Hl).
    apply lang_seqs_cons in Hl as (num & v' & -> & Hn & ->%lang_eps_inv).
    apply lang_plus_chr in Hg as [Hg1 Hg2].
    apply lang_plus_chr in Hn as [Hn1 Hn2].
    exists [], gap, num. rewrite app_nil_r. split_and!; [done..|].
    eapply Forall_impl; [exact Hn2|]. intros c Hc.
    apply orb_true_iff in Hc as [?|Hc]; [by left|right].
    by apply eqc_true in Hc.
  - rewrite <- app_comm_cons in Hl.
    apply lang_seqs_cons in Hl as (u & v & -> & _ & Hl).
    apply IH in Hl as (words & gap & num & -> & H).
    exists (u ++ words), gap, num. by rewrite <- app_assoc.
Qed.

Lemma space_not_punct c : is_space c = true → c ∉ lit ".,;".
Proof.
  intros Hc Hin.
  repeat (apply elem_of_cons in Hin as [->|Hin]; [done|]).
  by apply elem_of_nil in Hin.
Qed.

Lemma letter_not_punct c : is_lower (lower c) = true → c ∉ lit ".,;".
Proof.
  intros Hc Hin.
  repeat (apply elem_of_cons in Hin as [->|Hin]; [done|]).
  by apply elem_of_nil in Hin.
Qed.

(** X17.  The anchors that [ocpparser3.py] and [OCP_parser_2.py] collect
    from a section are pieces of its content made of three characters, a
    run of whitespace and a non-empty text without line feed; no anchor
    holds a full stop, a comma or a semicolon, so a reference to a dotted
    section number is recorded up to the first dot only.  The anchors
    that [OCP_parser.py] collects are pairwise distinct pieces of the
    content that end with whitespace followed by a non-empty run of digits
    and dots, a final full stop of the sentence included. *)
Theorem section_anchor_shape (text : pystr) :
  Forall (λ a, (∃ see gap body,
                  a = see ++ gap ++ body
                  ∧ length see = 3
                  ∧ gap ≠ [] ∧ blank gap
                  ∧ body ≠ [] ∧ newline ∉ body)
               ∧ Forall (λ c, c ∉ lit ".,;") a
               ∧ occurs_in a text)
    (P3.extract_anchors text)
  ∧ V2.extract_anchors text = P3.extract_anchors text
  ∧ Forall (λ a, (∃ words gap number,
                    a = words ++ gap ++ number
                    ∧ gap ≠ [] ∧ blank gap
                    ∧ number ≠ []
                    ∧ Forall (λ c, is_digit c = true ∨ c = dot) number)
                 ∧ occurs_in a text)
      (V1.extract_anchors text)
  ∧ NoDup (V1.extract_anchors text).
Proof.
  split_and!.
  - pose proof (findall_shape P3.ANCHOR_PATTERN text) as Hall.
    eapply Forall_impl; [exact Hall|]. intros a [Hl Hocc].
    unfold P3.ANCHOR_PATTERN in Hl.
    apply lang_seqs_cons in Hl as (u1 & v1 & -> & ->%lang_wordb_inv & Hl).
    apply lang_seqs_cons in Hl as (see & v2 & -> & Hsee & Hl).
    apply lang_seqs_cons in Hl as (gap & v3 & -> & Hg & Hl).
    apply lang_seqs_cons in Hl as (body & v4 & -> & Hb & ->%lang_eps_inv).
    apply lang_plus_chr in Hg as [Hg1 Hg2].
    apply lang_plus_chr in Hb as [Hb1 Hb2].
    rewrite app_nil_r in *. cbn [app] in *.
    assert (Hb3 : Forall (λ c, c ∉ newline :: lit ".,;") body).
    { eapply Forall_impl; [exact Hb2|]. intros c Hc%negb_true_iff Hin.
      apply existsb_eqc in Hin. congruence. }
    split_and!; [|  |done].
    + exists see, gap, body.
      split_and!; [done|by apply lang_word_i_length in Hsee|done..|].
      intros Hin. rewrite Forall_forall in Hb3. apply (Hb3 _ Hin). by left.
    + apply Forall_app. split; [|apply Forall_app; split].
      * apply Forall_forall. intros c Hc. apply letter_not_punct.
        apply (lang_word_i_elem _ _ _ Hsee) in Hc. cbn in Hc.
        repeat (apply elem_of_cons in Hc as [->|Hc]; [done|]).
        by apply elem_of_nil in Hc.
      * eapply Forall_impl; [exact Hg2|]. intros c. apply space_not_punct.
      * eapply Forall_impl; [exact Hb3|]. intros c Hc Hin. apply Hc.
        by right.
  - done.
  - apply Forall_forall. intros a Ha. unfold V1.extract_anchors in Ha.
    rewrite fromkeys_first_occurrences, elem_of_first_occurrences in Ha.
    assert (Hp : ∃ front,
               a ∈ findall (seqs (front ++ [plus space; plus V1.digit_or_dot]))
                     text).
    { unfold V1.ANCHOR_PATTERNS in Ha. rewrite !fmap_cons in Ha.
      cbn [concat fmap list_fmap] in Ha. rewrite !elem_of_app in Ha.
      destruct Ha as [Ha|[Ha|[Ha|[Ha|[Ha|Ha]]]]].
      - by exists [word_i "see"; plus space; word_i "section"].
      - by exists [word_i "refer"; plus space; word_i "to"; plus space;
                   word_i "section"].
      - by exists [word_i "defined"; plus space; word_i "in"; plus space;
                   word_i "section"].
      - by exists [one_of (lit "Ss"); seqs (chr <$> lit "ection")].
      - by exists [word_i "see"].
      - by apply elem_of_nil in Ha. }
    destruct Hp as (front & Hin).
    pose proof (findall_shape
                  (seqs (front ++ [plus space; plus V1.digit_or_dot])) text)
      as Hall.
    rewrite Forall_forall in Hall. destruct (Hall _ Hin) as [Hl Hocc].
    split; [|done]. by apply lang_seqs_suffix in Hl.
  - unfold V1.extract_anchors. rewrite fromkeys_first_occurrences.
    apply NoDup_first_occurrences.
Qed.

End V1_facts.


(** * [test.py] *)

Section toc_facts.
Import Py Re Lang Toc TocSpec.

(** ** The table of contents *)

(** On a dict whose keys ascend in insertion order, assigning to a key and
    then deleting the larger keys leaves the smaller keys followed by the
    assigned one. *)
Lemma dict_set_filter (k : Z) (v : pystr) (d : list (Z * pystr)) :
  StronglySorted key_lt d →
  filter (λ kv, ¬ (k < kv.1)%Z) (dict_set k v d)
  = filter (λ kv, (kv.1 < k)%Z) d ++ [(k, v)].
Proof.
  induction 1 as [|[k' v'] d Hd IH Hall]; cbn [dict_set].
  - rewrite filter_cons, decide_True by (cbn; lia). done.
  - assert (Hgt : (k ≤ k')%Z → filter (λ kv, (kv.1 < k)%Z) d = []).
    { intros Hle. apply filter_none. intros kv Hin.
      rewrite Forall_forall in Hall. apply Hall in Hin.
      unfold key_lt in Hin. cbn in *. lia. }
    assert (Hgt' : (k ≤ k')%Z → filter (λ kv, ¬ (k < kv.1)%Z) d = []).
    { intros Hle. apply filter_none. intros kv Hin.
      rewrite Forall_forall in Hall. apply Hall in Hin.
      unfold key_lt in Hin. cbn in *. lia. }
    destruct (k' =? k)%Z eqn:E.
    + apply Z.eqb_eq in E as ->.
      rewrite !filter_cons, decide_True by (cbn; lia).
      rewrite decide_False by (cbn; lia).
      by rewrite Hgt, Hgt' by lia.
    + apply Z.eqb_neq in E. rewrite !filter_cons, IH.
      destruct (decide (k' < k)%Z).
      * rewrite decide_True by (cbn; lia). rewrite decide_True by (cbn; lia).
        done.
      * rewrite decide_False by (cbn; lia). rewrite decide_False by (cbn; lia).
        done.
Qed.

Lemma filter_ext_in {A} (P Q : A → Prop) `{!∀ x, Decision (P x)}
    `{!∀ x, Decision (Q x)} (l : list A) :
  (∀ x, x ∈ l → (P x ↔ Q x)) → filter P l = filter Q l.
Proof.
  induction l as [|a l IH]; intros Hext; [done|].
  rewrite !filter_cons.
  rewrite IH by (intros x Hx; apply Hext; by right).
  destruct (decide (P a)) as [Hp|Hp].
  - rewrite decide_True; [done|]. apply Hext; [by left|done].
  - rewrite decide_False; [done|]. intros Hq. apply Hp.
    apply Hext; [by left|done].
Qed.

Lemma filter_fmap {A B} (f : A → B) (P : B → Prop)
    `{!∀ x, Decision (P x)} (l : list A) :
  filter P (f <$> l) = f <$> filter (λ x, P (f x)) l.
Proof.
  induction l as [|a l IH]; [done|].
  rewrite fmap_cons, !filter_cons, IH. by destruct (decide (P (f a))).
Qed.

(** Membership in the list of open places. *)
Lemma elem_of_open_idx toc n j :
  j ∈ open_idx toc n
  ↔ j < n ∧ ∀ k, j < k → k < n → (level_at toc j < level_at toc k)%Z.
Proof.
  unfold open_idx. rewrite list_elem_of_filter, elem_of_seq.
  rewrite forallb_forall. split.
  - intros [Hall Hj]. split; [lia|]. intros k Hjk Hkn.
    apply Z.ltb_lt. apply Hall. apply list_elem_of_In, elem_of_seq. lia.
  - intros [Hj Hall]. split; [|lia]. intros k Hk.
    apply list_elem_of_In, elem_of_seq in Hk. apply Z.ltb_lt, Hall; lia.
Qed.

Lemma open_idx_S toc n :
  open_idx toc (S n)
  = filter (λ j, (level_at toc j < level_at toc n)%Z) (open_idx toc n) ++ [n].
Proof.
  unfold open_idx at 1. rewrite seq_S, filter_app. cbn [Nat.add]. f_equal.
  - unfold open_idx. rewrite list_filter_filter. apply filter_ext_in.
    intros j Hj%elem_of_seq.
    replace (S n - S j) with (S (n - S j)) by lia.
    rewrite seq_S, forallb_app. cbn [forallb].
    replace (S j + (n - S j)) with n by lia.
    rewrite andb_true_iff, andb_true_r, Z.ltb_lt. tauto.
  - rewrite filter_cons, decide_True; [done|].
    by rewrite Nat.sub_diag.
Qed.

Lemma open_idx_sorted toc n :
  StronglySorted lt (open_idx toc n)
  ∧ StronglySorted (λ j j', (level_at toc j < level_at toc j')%Z)
      (open_idx toc n).
Proof.
  induction n as [|n [IH1 IH2]]; [by split; constructor|].
  rewrite open_idx_S. split.
  - apply StronglySorted_app_2; [|by apply StronglySorted_filter
                                  |repeat constructor].
    intros j j' [_ Hj%elem_of_open_idx]%list_elem_of_filter
      ->%list_elem_of_singleton. lia.
  - apply StronglySorted_app_2; [|by apply StronglySorted_filter
                                  |repeat constructor].
    by intros j j' [Hlt _]%list_elem_of_filter ->%list_elem_of_singleton.
Qed.

Lemma active_sorted toc n :
  StronglySorted key_lt
    ((λ j, (level_at toc j, title_at toc j)) <$> open_idx toc n).
Proof.
  destruct (open_idx_sorted toc n) as [_ H].
  induction H as [|j l _ IH Hj]; [constructor|].
  rewrite fmap_cons. constructor; [done|].
  apply Forall_fmap. eapply Forall_impl; [exact Hj|]. by intros j'.
Qed.

(** The state of the loop of [build_toc_index] after [n] items. *)
Lemma toc_loop_state toc n :
  n ≤ length toc →
  foldl toc_step ([], []) (take n toc)
  = ((λ j, (level_at toc j, title_at toc j)) <$> open_idx toc n,
     entry_at toc <$> seq 0 n).
Proof.
  induction n as [|n IH]; intros Hn; [done|].
  destruct (toc !! n) as [item|] eqn:Hitem.
  2:{ apply lookup_ge_None in Hitem. lia. }
  rewrite (take_S_r _ _ _ Hitem), foldl_app, IH by lia.
  cbn [foldl]. unfold toc_step. cbn [fst snd].
  rewrite (dict_set_filter _ _ _ (active_sorted toc n)).
  rewrite filter_fmap. cbn [fst].
  assert (Hl : level item = level_at toc n)
    by (unfold level_at; by rewrite Hitem).
  assert (Ht : toc_title item = title_at toc n)
    by (unfold title_at; by rewrite Hitem).
  assert (Hp : toc_page item = page_at toc n)
    by (unfold page_at; by rewrite Hitem).
  assert (Hact : ((λ j, (level_at toc j, title_at toc j))
                    <$> filter (λ j, (level_at toc j < level item)%Z)
                          (open_idx toc n))
                 ++ [(level item, toc_title item)]
                 = (λ j, (level_at toc j, title_at toc j))
                     <$> open_idx toc (S n)).
  { rewrite open_idx_S, fmap_app, Hl, Ht. done. }
  rewrite Hact. f_equal.
  rewrite seq_S, fmap_app. cbn [Nat.add fmap list_fmap]. f_equal.
  unfold entry_at. rewrite <- list_fmap_compose. by rewrite Hp, Ht.
Qed.

(** X18.  [build_toc_index] of [test.py] returns one entry per item of the
    table of contents, with the item's page and title.  The hierarchy tree
    of the entry at place [i] lists the titles of the items that are still
    open there: the places [j] up to [i] such that every item after [j]
    and up to [i] has a deeper level, in the order of the document.  So
    its levels ascend strictly, its last element is the entry's own title,
    and an item closes every earlier item of the same or a deeper
    level. *)
Theorem toc_tree_is_open_chain (toc : list TocItem) :
  build_toc_index toc = entry_at toc <$> seq 0 (length toc)
  ∧ (∀ i item,
       toc !! i = Some item →
       ∃ entry,
         build_toc_index toc !! i = Some entry
         ∧ page entry = toc_page item
         ∧ hierarchy entry = toc_title item
         ∧ hierarchy_tree entry = title_at toc <$> open_idx toc (S i)
         ∧ last (hierarchy_tree entry) = Some (toc_title item))
  ∧ (∀ n j,
       j ∈ open_idx toc n
       ↔ j < n ∧ ∀ k, j < k → k < n →
                      (level_at toc j < level_at toc k)%Z)
  ∧ (∀ n, StronglySorted lt (open_idx toc n)
          ∧ StronglySorted (λ j j', (level_at toc j < level_at toc j')%Z)
              (open_idx toc n)).
Proof.
  assert (Hb : build_toc_index toc = entry_at toc <$> seq 0 (length toc)).
  { unfold build_toc_index.
    rewrite <- (firstn_all toc) at 1. by rewrite toc_loop_state. }
  split_and!; [done| |apply elem_of_open_idx|apply open_idx_sorted].
  intros i item Hi. exists (entry_at toc i).
  pose proof (lookup_lt_Some _ _ _ Hi) as Hlt.
  split_and!.
  - by rewrite Hb, list_lookup_fmap, lookup_seq_lt.
  - cbn. unfold page_at. by rewrite Hi.
  - cbn. unfold title_at. by rewrite Hi.
  - done.
  - unfold entry_at. cbn [hierarchy_tree].
    rewrite open_idx_S, fmap_app.
    change (title_at toc <$> [i]) with [title_at toc i].
    rewrite last_snoc. unfold title_at. by rewrite Hi.
Qed.

(** ** The section of a page *)

Lemma resolve_loop_prefix (toc_index : list TocEntry) (page_number : Z) :
  ∀ current,
    ∃ before rest,
      toc_index = before ++ rest
      ∧ Forall (λ e, (page e ≤ page_number)%Z) before
      ∧ match rest with
        | [] => True
        | e :: _ => (page_number < page e)%Z
        end
      ∧ resolve_loop toc_index page_number current
        = match last before with
          | Some e => (hierarchy e, hierarchy_tree e)
          | None => current
          end.
Proof.
  induction toc_index as [|e l IH]; intros current.
  - by exists [], [].
  - cbn [resolve_loop]. destruct (page e <=? page_number)%Z eqn:E.
    + apply Z.leb_le in E.
      destruct (IH (hierarchy e, hierarchy_tree e))
        as (before & rest & -> & Hall & Hrest & ->).
      exists (e :: before), rest. split_and!; [done|by constructor|done|].
      destruct before as [|e' before] using rev_ind; [done|].
      by rewrite app_comm_cons, !last_snoc.
    + apply Z.leb_gt in E. by exists [], (e :: l).
Qed.

(** X19.  [resolve_section] of [test.py] walks the index from the start
    and stops at the first entry whose page lies after the given page: the
    result is the last entry before that one, or "General" when the index
    is empty or already starts on a later page.  Entries behind the first
    later page are never looked at.  When the pages of the index do not
    descend, the result is the last of all entries that start on or
    before the given page. *)
Theorem resolve_section_stops_at_later_page (toc_index : list TocEntry)
    (page_number : Z) :
  (∃ before rest,
     toc_index = before ++ rest
     ∧ Forall (λ e, (page e ≤ page_number)%Z) before
     ∧ match rest with
       | [] => True
       | e :: _ => (page_number < page e)%Z
       end
     ∧ resolve_section toc_index page_number
       = match last before with
         | Some e => (hierarchy e, hierarchy_tree e)
         | None => (lit "General", [lit "General"])
         end)
  ∧ (StronglySorted (λ a b, (page a ≤ page b)%Z) toc_index →
     resolve_section toc_index page_number
     = match last (filter (λ e, (page e ≤ page_number)%Z) toc_index) with
       | Some e => (hierarchy e, hierarchy_tree e)
       | None => (lit "General", [lit "General"])
       end).
Proof.
  unfold resolve_section.
  destruct (resolve_loop_prefix toc_index page_number
              (lit "General", [lit "General"]))
    as (before & rest & -> & Hall & Hrest & Hres).
  split; [by exists before, rest|].
  intros Hsorted. rewrite Hres, filter_app.
  assert (Hb : filter (λ e, (page e ≤ page_number)%Z) before = before).
  { clear -Hall. induction Hall as [|e l He _ IH]; [done|].
    by rewrite filter_cons, decide_True, IH. }
  assert (Hr : filter (λ e, (page e ≤ page_number)%Z) rest = []).
  { apply StronglySorted_app in Hsorted as (_ & _ & Hsr).
    destruct rest as [|e rest]; [done|].
    inversion Hsr as [|? ? _ Hle]; subst.
    apply filter_none. intros e' [->|Hin]%elem_of_cons; [lia|].
    rewrite Forall_forall in Hle. apply Hle in Hin. lia. }
  by rewrite Hb, Hr, app_nil_r.
Qed.

(** ** Sentences with their neighbours *)





End toc_facts.
